(* ===== verification/_CoqProject ===== *)
-Q . S2P
Prelude.v
HashFunctions.v
HashTable.v
GhtIface.v
HashTableRep.v
HashTableRemove.v
HashTableInsert.v
HashTableOps.v
HashTableLookup.v
HashTableCorrect.v
HashTableRehash.v
HashTableDict.v
HashTableExamples.v
RpcRecord.v
RpcRecordCorrect.v
RpcClient.v
RpcSend.v
RpcClientCorrect.v
RpcClientExamples.v
Xdr.v
XdrRfc.v
XdrList.v
NfsTypes.v
NfsStatus.v
NfsSpec.v
NfsXdr.v
NfsXdrCorrect.v
NfsWire.v
NfsMsg.v
NfsMsgCorrect.v
NfsCalls.v
NfsCallsCorrect.v
NfsCallsExamples.v
Flist.v
FlistCorrect.v
Daemon.v
Requests.v
RequestsCorrect.v
RequestsExamples.v
Debug.v
Floating.v
NfsStat.v
NfsStatCorrect.v
Tickrate.v
Actors.v
ActorsCorrect.v
ActorsExamples.v
NfsActor.v
NfsActorCorrect.v
NfsActorExamples.v
Service.v
ServiceCorrect.v
ServiceLife.v
ServiceQueues.v
ServiceExamples.v
DaemonMain.v
NullTest.v
NullTestCorrect.v
MountTest.v
TestExamples.v
