(* ===== verification/Prelude.v ===== *)
(** * unfsclient: a verified model of the user-space NFS client

    unfsclient mounts a directory of an NFS version 3 server through FUSE,
    without the kernel's client.  This development models the C program under
    [src/src] and [src/include] in Gallina and proves what it does, and where
    it does not do what it means to.  This file holds machine words, heap
    accounting and tactics that all parts share; the rest of the header is a
    guide to the development.

    ** The program, from the bottom up

    - _Data structures_.  [include/flist.h]: circular lists whose nodes are
      embedded in objects.  [src/hash_table.c], [src/hash_functions.c]: a chained
      hash table (libghthash).
    - _The wire_.  [src/nfsv3/nfs3_xdr.c]: an XDR routine per type of the
      protocol; [src/nfsv3/nfs3.c], [src/nfsv3/mount3.c]: functions that decode a
      message into fresh memory and free it.
    - _RPC_.  [src/clnt_tcp_nb.c]: asynchronous calls over a TCP connection.  A
      call registers a callback under its transaction id, and replies, cut into
      records and fragments by the transport, are matched to callbacks.
    - _NFS_.  [src/nfsclient.c], [nfs3.c], [mount3.c]: contexts with one connection
      to each server program, and a function per procedure.
    - _The daemon_.  [src/nfsclientd.c], [src/nfscd_ops.c], [src/nfs3actor.c]:
      FUSE's threads queue requests, a pool of actor threads takes them out and
      turns them into calls, a monitor waits for actors that exit.
    - _Statistics_.  [src/nfsv3/nfs3stat.c]; [src/tickrate.c].
    - _Programs on top_.  [tests/clnt_call_mnt.c], [tests/nfs3_nulltest.c]: one call on
      the RPC layer, and any number of calls of a procedure, timed.

    ** Files and what they model

    Data structures:
    - [HashFunctions]: [hash_functions.c].  The CRC is the bit-serial CRC-32.
    - [HashTable]: [hash_table.c], at the level of pointers, in a state monad
      whose [None] is undefined behaviour or a failed assertion; allocation is an
      oracle.  [HashTableRep] has the invariant and a calculus of total
      correctness, [HashTableRemove], [HashTableInsert], [HashTableLookup],
      [HashTableOps], [HashTableCorrect] and [HashTableRehash] the operations:
      each is an operation on the list of entries by age.
    - [GhtIface]: what the RPC client needs of a table, as the classes [Ght] and
      [GhtLaws], and of a pointer to one, NULL when [ght_create] failed;
      [HashTableDict] makes the pointer-level table an instance.
    - [Flist], [FlistCorrect]: [flist.h] and its refinement to lists.
    The wire:
    - [Xdr]: the XDR primitives of the C library as classes ([XdrPrims],
      [XdrLaws]) and the judgements [EncOK], [DecOK], [DecSafe], [DecTyped] and
      [Codec] with a rule per construct; [XdrRfc]: an executable instance after RFC 4506;
      [XdrList]: linked lists on the wire.
    - [NfsTypes]: [nfs3.h]; [NfsSpec]: the grammar [nfs3.x]; [NfsXdr]:
      [nfs3_xdr.c]; [NfsXdrCorrect]: each routine implements its type of the
      grammar; [NfsWire]: what follows for all of them.
    - [NfsMsg], [NfsMsgCorrect]: the [xdr_to_] and [free_] functions.
    - [NfsStatus]: the tables of status codes of [nfs3.c].
    RPC:
    - [RpcRecord], [RpcRecordCorrect]: reception ([update_frag_state] and the
      functions below it) against the record marking standard: [Feed] says what
      a stream of bytes means, [Rep] relates the reader to a position in it;
      [scan_bytes] foresees what any bytes do to it, overruns included.
    - [RpcClient]: calls, transmission, creation, destruction, with a script of
      the results of the system calls; [RpcSend]: no byte is lost or sent twice;
      [RpcClientCorrect]: calls, polling, transaction ids, failures.
    NFS:
    - [NfsCalls], [NfsCallsCorrect]: contexts and the 28 procedures.
    The daemon:
    - [Daemon]: [nfsclientd.h], and the set-up of the context in [nfsclientd.c].
    - [Requests], [RequestsCorrect]: the queues; threads are lists of statements
      that interleave in any order.
    - [Actors], [ActorsCorrect]: starter, actors and monitor as a step relation.
    - [NfsActor], [NfsActorCorrect]: what an actor does with a request.
    - [Service]: the daemon at work: the thread of an actor, and queues and actors
      together.  [ServiceCorrect]: one actor, from the requests it takes to the
      answers FUSE is given; [ServiceLife]: the thread from its start, with the
      mount; [ServiceQueues]: all of them share out the requests.
    - [DaemonMain]: [main], as a function of what the FUSE library answers, and the
      handlers FUSE calls when a session begins and ends.
    - [Debug]: [debug_print], for each build.
    Statistics:
    - [Floating]: IEEE 754 arithmetic as the code uses it; [NfsStat],
      [NfsStatCorrect]: the counters and what is printed; [Tickrate]: the
      calibration of the cycle counter.
    Programs on top:
    - [MountTest]: [clnt_call_mnt.c]; [NullTest], [NullTestCorrect]:
      [nfs3_nulltest.c]; [TestExamples] runs both.
    A file [..Examples] has the theorems at concrete inputs.

    ** How the parts fit together

    [HashTableDict] discharges the interface against which [RpcRecord] and
    [RpcClient] are proved, and [XdrRfc] that of [NfsXdr]; [NfsWire] gives
    [NfsCallsCorrect] the bytes of the arguments and [RpcClientCorrect] the record
    they are sent in; [NfsMsgCorrect] and [RpcClientCorrect] together give
    [ServiceCorrect], which [ServiceLife] and [NullTestCorrect] extend to a whole
    thread and a whole program.  The two state machines of the daemon, [Requests] and
    [Actors], share no variable but the memory of list nodes: the queues have
    their own mutexes, and an actor touches the list of actors only when it
    exits.  They are proved separately; [DaemonMain] has both begin where their
    proofs do, and [ServiceQueues] puts the actors' work on top of the queues.

    ** Conventions

    - Integers are [Z] with the width written out ([wrap], [u32], [u64]); bytes
      are [Z] below 256.  The machine is little-endian and [int] has 32 bits.
    - [None], [XUB], [RUB], [Undefined] and [Faults] stand for undefined behaviour
      or a failed [assert]; a theorem that the result is something else says that
      there is none.  Errors the code reports are values.
    - Memory is as abstract as the property allows: blocks with pointers for the
      hash table and the lists; elsewhere [heap], a count of live blocks with an
      oracle for the success of requests, and [ptr], which tells NULL, a block
      with its content, and an indeterminate pointer apart.
    - Loops that are not structural have fuel, and the theorems say how much is
      enough: [mem_fuel] is one more than the number of blocks, which no chain
      exceeds; [update_frag_loop] has as many rounds as there are bytes, of which
      each round takes one; [create_loop] has 32, the width of [int]; the loops
      over lists have the number of entries.  Loops around system calls recurse
      on the script of results and end in [Waits] when it is used up.
    - Parameters stand for what is not in the repository: the XDR primitives and
      the record stream of the C library ([XdrPrims], [Xdrrec]), [xdr_replymsg],
      [xdr_callhdr], [AUTH_MARSHALL], [malloc], the socket, the clock.  Their laws
      are hypotheses or classes, each with an instance that the examples run.

    ** What the theorems show

    - _Encoding_: every routine writes the bytes the grammar prescribes, inverts
      them, and on arbitrary input has no undefined behaviour and yields an
      object within the bounds of its type ([NfsWire]).
    - _Memory_: an accepted message is freed without residue, and the functions
      for which it is not are named; a rejected one loses blocks
      ([NfsMsgCorrect]).
    - _Transport_: the reader implements record marking for records of one
      fragment whatever the reads, and fails on two fragments or a split header;
      what is to be sent goes out in order; each call is answered once
      ([RpcRecordCorrect], [RpcSend], [RpcClientCorrect]).
    - _Procedures_: each sends its message ([NfsCallsCorrect]).
    - _Containers_: the hash table is a dictionary ordered by age, under every
      setting, which evicts the last entry of a bucket at its limit and doubles
      when it is more than twice full; the lists are lists.
    - _Threads_: requests are taken out in order, each once, and none is left
      lying; the list of actors is sound; the monitor can hang with two actors
      or more, and only then ([RequestsCorrect], [ActorsCorrect]).
    - _End to end_: the lookups an actor takes go out as LOOKUP calls, in order,
      and FUSE is told the errors of the server, each for its own request
      ([ServiceCorrect]); so does a thread from its start, once the server has
      granted the mount, and otherwise it exits ([ServiceLife]); any number of actors hand out the requests in the order
      of the queue, each to one of them ([ServiceQueues]).
    - _The process_: [main] keeps to the protocol of the FUSE library
      ([DaemonMain]).
    - _Programs_: the two test programs, from the command line to the exit code
      ([MountTest], [NullTestCorrect]); which builds of the daemon compile
      ([Debug]).
    - _Numbers_: the counters are those of the history, and when a rate cannot be
      computed ([NfsStatCorrect]); calibration is a linear regression
      ([Tickrate]).

    ** Not modelled

    The programs under [src/tests] that [src/tests/SConscript] does not mention: they
    are not built, and most call procedures without the flags that [nfs3.h] asks
    for.  [setsockopt] changes nothing that is modelled; text for the terminal is
    left out but for [usage], the statistics and what the test program measures.
    [ght_set_alloc] is the allocator being a parameter.  A failing
    [pthread_create] or [sem_init] is not modelled: the code does not look at
    their results.  Floating point is IEEE 754 arithmetic without excess precision
    or contraction; how [printf] and [ctime] write a number is left out, and the
    assembly that reads the tick counter of an i386 or ia64 is a reading.  Within
    [ServiceQueues] acting on a request is one step: it touches nothing that
    another thread does.  Prototypes, include guards and licence texts have no
    counterpart. *)

From Stdlib Require Import ZArith Lia.
From stdpp Require Export base list list_numbers numbers gmap.

#[global] Open Scope Z_scope.

(** ** Machine words *)

Declare Scope c_scope.
Delimit Scope c_scope with c.

(** [wrap w z] is the value a [w]-bit unsigned C object holds after [z] is
    stored in it. *)
Definition wrap (w z : Z) : Z := z mod 2 ^ w.

Abbreviation u32 := (wrap 32).
Abbreviation u64 := (wrap 64).

(** Unsigned 32-bit operators, as C evaluates them on [unsigned int]. *)
Notation "x +32 y" := (wrap 32 (x + y)) (at level 50, left associativity) : c_scope.
Notation "x <<32 n" := (wrap 32 (Z.shiftl x n)) (at level 45, left associativity) : c_scope.
Notation "x >>32 n" := (Z.shiftr x n) (at level 45, left associativity) : c_scope.
Notation "x ^32 y" := (Z.lxor x y) (at level 50, left associativity) : c_scope.

(** [is_u w z]: [z] is a value of a [w]-bit unsigned object. *)
Definition is_u (w z : Z) : Prop := 0 <= z < 2 ^ w.

(** A byte of memory is a [Z] in [0, 256). *)
Abbreviation byte_ok := (is_u 8).
Definition bytes_ok (bs : list Z) : Prop := Forall byte_ok bs.

Lemma wrap_is_u w z : 0 <= w -> is_u w (wrap w z).
Proof. intros Hw. apply Z.mod_pos_bound. apply Z.pow_pos_nonneg; lia. Qed.

Lemma wrap_small w z : is_u w z -> wrap w z = z.
Proof. apply Z.mod_small. Qed.

Lemma wrap_land w z : 0 <= w -> wrap w z = Z.land z (Z.ones w).
Proof. intros Hw. unfold wrap. by rewrite Z.land_ones. Qed.

Lemma testbit_wrap w z i :
  0 <= w -> Z.testbit (wrap w z) i = (i <? w) && Z.testbit z i.
Proof.
  intros Hw. unfold wrap. destruct (Z.ltb_spec i w), (Z.ltb_spec i 0); try lia.
  - by rewrite !Z.testbit_neg_r.
  - by rewrite Z.mod_pow2_bits_low.
  - rewrite Z.mod_pow2_bits_high; [done | lia].
Qed.

Lemma testbit_shiftl x n i : 0 <= n -> Z.testbit (Z.shiftl x n) i = Z.testbit x (i - n).
Proof.
  intros Hn. destruct (Z.ltb_spec i 0).
  - by rewrite !Z.testbit_neg_r by lia.
  - by apply Z.shiftl_spec.
Qed.

Lemma testbit_is_u_high w z i : 0 <= w -> is_u w z -> w <= i -> Z.testbit z i = false.
Proof.
  intros Hw Hz Hi. rewrite <- (wrap_small w z Hz).
  rewrite testbit_wrap by lia. by rewrite (proj2 (Z.ltb_ge i w) Hi).
Qed.

(** A number all of whose bits from [w] up are clear is a [w]-bit value. *)
Lemma is_u_testbit w z :
  0 <= w -> (forall i, w <= i -> Z.testbit z i = false) -> is_u w z.
Proof.
  intros Hw H. replace z with (wrap w z); [by apply wrap_is_u|].
  apply Z.bits_inj'. intros i Hi. rewrite testbit_wrap by lia.
  destruct (Z.ltb_spec i w); [done|]. cbn. symmetry. by apply H.
Qed.

Lemma is_u_lxor w x y : 0 <= w -> is_u w x -> is_u w y -> is_u w (Z.lxor x y).
Proof.
  intros Hw Hx Hy. apply is_u_testbit; [done|]. intros i Hi.
  rewrite Z.lxor_spec, (testbit_is_u_high w x), (testbit_is_u_high w y); done || lia.
Qed.

Lemma is_u_lor w x y : 0 <= w -> is_u w x -> is_u w y -> is_u w (Z.lor x y).
Proof.
  intros Hw Hx Hy. apply is_u_testbit; [done|]. intros i Hi.
  rewrite Z.lor_spec, (testbit_is_u_high w x), (testbit_is_u_high w y); done || lia.
Qed.

Lemma is_u_shiftr w x n : 0 <= n <= w -> is_u w x -> is_u (w - n) (Z.shiftr x n).
Proof.
  intros Hn Hx. apply is_u_testbit; [lia|]. intros i Hi.
  rewrite Z.shiftr_spec by lia. apply (testbit_is_u_high w); try done; lia.
Qed.

Lemma is_u_weaken w w' x : 0 <= w <= w' -> is_u w x -> is_u w' x.
Proof.
  intros Hw [H1 H2]. split; [done|].
  apply Z.lt_le_trans with (2 ^ w); [done|]. apply Z.pow_le_mono_r; lia.
Qed.

(** ** Big-endian byte strings *)

(** [be n v]: the [n] bytes of [v] in network order ([htonl] and its kin);
    [unbe] reads them back ([ntohl]). *)
Fixpoint be (n : nat) (v : Z) : list Z :=
  match n with
  | O => []
  | S n => wrap 8 (Z.shiftr v (8 * Z.of_nat n)) :: be n v
  end.

Definition unbe (bs : list Z) : Z := foldl (fun acc b => acc * 256 + b) 0 bs.

Lemma length_be n v : length (be n v) = n.
Proof. induction n; [done|]. cbn [be length]. by f_equal. Qed.

Lemma be_bytes_ok n v : bytes_ok (be n v).
Proof. induction n; constructor; [by apply wrap_is_u|done]. Qed.

Lemma unbe_acc bs acc :
  foldl (fun acc b => acc * 256 + b) acc bs = acc * 256 ^ Z.of_nat (length bs) + unbe bs.
Proof.
  unfold unbe. revert acc. induction bs as [|b bs IH]; intros acc; cbn [foldl length].
  - rewrite Z.pow_0_r. lia.
  - rewrite IH, (IH (0 * 256 + b)), Nat2Z.inj_succ, Z.pow_succ_r by lia. lia.
Qed.

Lemma unbe_cons b bs : unbe (b :: bs) = b * 256 ^ Z.of_nat (length bs) + unbe bs.
Proof. unfold unbe at 1. cbn [foldl]. rewrite unbe_acc. lia. Qed.

Lemma unbe_be n v : unbe (be n v) = v mod 256 ^ Z.of_nat n.
Proof.
  induction n as [|n IH]; [by rewrite Z.mod_1_r|].
  cbn [be]. rewrite unbe_cons, length_be, IH, Nat2Z.inj_succ, Z.pow_succ_r by lia.
  unfold wrap. rewrite Z.shiftr_div_pow2, Z.pow_mul_r by lia.
  change (2 ^ 8) with 256. set (q := 256 ^ Z.of_nat n).
  assert (0 < q) by (apply Z.pow_pos_nonneg; lia).
  rewrite (Z.mul_comm 256 q), Z.rem_mul_r by lia. lia.
Qed.

Lemma unbe_range bs : bytes_ok bs -> 0 <= unbe bs < 256 ^ Z.of_nat (length bs).
Proof.
  induction 1 as [|b bs Hb _ IH]; [cbn; lia|].
  rewrite unbe_cons. cbn [length]. rewrite Nat2Z.inj_succ, Z.pow_succ_r by lia.
  unfold is_u in Hb. nia.
Qed.

Arguments be : simpl never.

(** ** Heap accounting

    The model of [malloc]/[free] that the decoders need: the number of live
    blocks, the number of allocation requests made so far, and an oracle that
    says which requests succeed. *)
Record heap := mk_heap {
  h_live : nat;
  h_requests : nat;
  h_ok : nat -> bool
}.

(** The heap after one request, and whether the request succeeded. *)
Definition mem_alloc (h : heap) : bool * heap :=
  if h_ok h (h_requests h)
  then (true, mk_heap (S (h_live h)) (S (h_requests h)) (h_ok h))
  else (false, mk_heap (h_live h) (S (h_requests h)) (h_ok h)).

(** Memory never runs out. *)
Definition mem_ample (h : heap) : Prop := forall n, h_ok h n = true.

(** A C pointer to an object the program owns: [NULL], the address of a block
    with its content, or an indeterminate value (uninitialised memory). *)
Inductive ptr (A : Type) : Type :=
| PNull
| PTo (a : A)
| PWild.
Arguments PNull {A}.
Arguments PTo {A} a.
Arguments PWild {A}.
Scheme All for ptr.

(** [free(p)]: freeing [NULL] does nothing; freeing an indeterminate pointer,
    or more blocks than are live, is undefined behaviour ([None]). *)
Definition mem_free {A} (p : ptr A) (h : heap) : option heap :=
  match p with
  | PNull => Some h
  | PTo _ => match h_live h with
             | O => None
             | S n => Some (mk_heap n (h_requests h) (h_ok h))
             end
  | PWild => None
  end.
Arguments mem_free : simpl never.

(** ** Automation *)

Create HintDb word discriminated.
#[export] Hint Resolve wrap_is_u is_u_lxor is_u_lor : word.
#[export] Hint Extern 1 (0 <= _) => lia : word.

(** Bit-by-bit equality of words. *)
Ltac bitwise i :=
  apply Z.bits_inj'; intros i ?;
  repeat first
    [ rewrite testbit_wrap by lia
    | rewrite Z.lxor_spec
    | rewrite Z.lor_spec
    | rewrite testbit_shiftl by lia
    | rewrite Z.shiftr_spec by lia ].
