(* ===== verification/HashFunctions.v ===== *)
(** * The hash functions (src/hash_functions.c)

    The three hash functions of libghthash, on 32-bit words.  The table-driven
    CRC-32 is proved equal to the bit-serial CRC over the generator
    polynomial; the range of every hash is proved. *)

From S2P Require Import Prelude.
Local Open Scope c_scope.

(** [ght_hash_key_t]: a size and the bytes the key pointer designates. *)
Record ght_hash_key_t := mk_hash_key {
  key_i_size : Z;      (* unsigned int i_size *)
  key_p_key : list Z   (* const void *p_key: the bytes it points to *)
}.

(** The bytes [p_key[0] .. p_key[i_size - 1]], which the loops read. *)
Definition key_bytes (k : ght_hash_key_t) : list Z :=
  take (Z.to_nat (key_i_size k)) (key_p_key k).

Definition key_ok (k : ght_hash_key_t) : Prop :=
  key_i_size k = Z.of_nat (length (key_p_key k)) /\ bytes_ok (key_p_key k).

Definition crc32_table : list Z :=
  [ 0x00000000;0x04c11db7;0x09823b6e;0x0d4326d9;0x130476dc;0x17c56b6b;0x1a864db2;0x1e475005;
    0x2608edb8;0x22c9f00f;0x2f8ad6d6;0x2b4bcb61;0x350c9b64;0x31cd86d3;0x3c8ea00a;0x384fbdbd;
    0x4c11db70;0x48d0c6c7;0x4593e01e;0x4152fda9;0x5f15adac;0x5bd4b01b;0x569796c2;0x52568b75;
    0x6a1936c8;0x6ed82b7f;0x639b0da6;0x675a1011;0x791d4014;0x7ddc5da3;0x709f7b7a;0x745e66cd;
    0x9823b6e0;0x9ce2ab57;0x91a18d8e;0x95609039;0x8b27c03c;0x8fe6dd8b;0x82a5fb52;0x8664e6e5;
    0xbe2b5b58;0xbaea46ef;0xb7a96036;0xb3687d81;0xad2f2d84;0xa9ee3033;0xa4ad16ea;0xa06c0b5d;
    0xd4326d90;0xd0f37027;0xddb056fe;0xd9714b49;0xc7361b4c;0xc3f706fb;0xceb42022;0xca753d95;
    0xf23a8028;0xf6fb9d9f;0xfbb8bb46;0xff79a6f1;0xe13ef6f4;0xe5ffeb43;0xe8bccd9a;0xec7dd02d;
    0x34867077;0x30476dc0;0x3d044b19;0x39c556ae;0x278206ab;0x23431b1c;0x2e003dc5;0x2ac12072;
    0x128e9dcf;0x164f8078;0x1b0ca6a1;0x1fcdbb16;0x018aeb13;0x054bf6a4;0x0808d07d;0x0cc9cdca;
    0x7897ab07;0x7c56b6b0;0x71159069;0x75d48dde;0x6b93dddb;0x6f52c06c;0x6211e6b5;0x66d0fb02;
    0x5e9f46bf;0x5a5e5b08;0x571d7dd1;0x53dc6066;0x4d9b3063;0x495a2dd4;0x44190b0d;0x40d816ba;
    0xaca5c697;0xa864db20;0xa527fdf9;0xa1e6e04e;0xbfa1b04b;0xbb60adfc;0xb6238b25;0xb2e29692;
    0x8aad2b2f;0x8e6c3698;0x832f1041;0x87ee0df6;0x99a95df3;0x9d684044;0x902b669d;0x94ea7b2a;
    0xe0b41de7;0xe4750050;0xe9362689;0xedf73b3e;0xf3b06b3b;0xf771768c;0xfa325055;0xfef34de2;
    0xc6bcf05f;0xc27dede8;0xcf3ecb31;0xcbffd686;0xd5b88683;0xd1799b34;0xdc3abded;0xd8fba05a;
    0x690ce0ee;0x6dcdfd59;0x608edb80;0x644fc637;0x7a089632;0x7ec98b85;0x738aad5c;0x774bb0eb;
    0x4f040d56;0x4bc510e1;0x46863638;0x42472b8f;0x5c007b8a;0x58c1663d;0x558240e4;0x51435d53;
    0x251d3b9e;0x21dc2629;0x2c9f00f0;0x285e1d47;0x36194d42;0x32d850f5;0x3f9b762c;0x3b5a6b9b;
    0x0315d626;0x07d4cb91;0x0a97ed48;0x0e56f0ff;0x1011a0fa;0x14d0bd4d;0x19939b94;0x1d528623;
    0xf12f560e;0xf5ee4bb9;0xf8ad6d60;0xfc6c70d7;0xe22b20d2;0xe6ea3d65;0xeba91bbc;0xef68060b;
    0xd727bbb6;0xd3e6a601;0xdea580d8;0xda649d6f;0xc423cd6a;0xc0e2d0dd;0xcda1f604;0xc960ebb3;
    0xbd3e8d7e;0xb9ff90c9;0xb4bcb610;0xb07daba7;0xae3afba2;0xaafbe615;0xa7b8c0cc;0xa379dd7b;
    0x9b3660c6;0x9ff77d71;0x92b45ba8;0x9675461f;0x8832161a;0x8cf30bad;0x81b02d74;0x857130c3;
    0x5d8a9099;0x594b8d2e;0x5408abf7;0x50c9b640;0x4e8ee645;0x4a4ffbf2;0x470cdd2b;0x43cdc09c;
    0x7b827d21;0x7f436096;0x7200464f;0x76c15bf8;0x68860bfd;0x6c47164a;0x61043093;0x65c52d24;
    0x119b4be9;0x155a565e;0x18197087;0x1cd86d30;0x029f3d35;0x065e2082;0x0b1d065b;0x0fdc1bec;
    0x3793a651;0x3352bbe6;0x3e119d3f;0x3ad08088;0x2497d08d;0x2056cd3a;0x2d15ebe3;0x29d4f654;
    0xc5a92679;0xc1683bce;0xcc2b1d17;0xc8ea00a0;0xd6ad50a5;0xd26c4d12;0xdf2f6bcb;0xdbee767c;
    0xe3a1cbc1;0xe760d676;0xea23f0af;0xeee2ed18;0xf0a5bd1d;0xf464a0aa;0xf9278673;0xfde69bc4;
    0x89b8fd09;0x8d79e0be;0x803ac667;0x84fbdbd0;0x9abc8bd5;0x9e7d9662;0x933eb0bb;0x97ffad0c;
    0xafb010b1;0xab710d06;0xa6322bdf;0xa2f33668;0xbcb4666d;0xb8757bda;0xb5365d03;0xb1f740b4 ].

(** The body of the loop of [ght_one_at_a_time_hash]. *)
Definition one_at_a_time_step (i_hash b : Z) : Z :=
  let i_hash := i_hash +32 b in
  let i_hash := i_hash +32 (i_hash <<32 10) in
  i_hash ^32 (i_hash >>32 6).

Definition ght_one_at_a_time_hash (k : ght_hash_key_t) : Z :=
  let i_hash := foldl one_at_a_time_step 0 (key_bytes k) in
  let i_hash := i_hash +32 (i_hash <<32 3) in
  let i_hash := i_hash ^32 (i_hash >>32 11) in
  i_hash +32 (i_hash <<32 15).

(** [crc32_table[(crc >> 24) ^ *(p++)]]: the index is in range for every byte
    ([crc_index_in_range]), so the default of [nth] is never taken. *)
Definition crc_index (crc b : Z) : Z := (crc >>32 24) ^32 b.

Definition crc_step (crc b : Z) : Z :=
  (crc <<32 8) ^32 nth (Z.to_nat (crc_index crc b)) crc32_table 0.

Definition ght_crc_hash (k : ght_hash_key_t) : Z :=
  u32 (Z.lnot (foldl crc_step 0xffffffff (key_bytes k))).

Definition rotating_step (i_hash b : Z) : Z :=
  (i_hash <<32 4) ^32 (i_hash >>32 28) ^32 b.

Definition ght_rotating_hash (k : ght_hash_key_t) : Z :=
  foldl rotating_step 0 (key_bytes k).

(** ** Reference: bit-serial CRC *)

(** The CRC-32 generator polynomial, most significant bit first. *)
Definition crc_poly : Z := 0x04c11db7.

(** One bit of the shift register. *)
Definition crc_bit (c : Z) : Z :=
  if Z.testbit c 31 then (c <<32 1) ^32 crc_poly else c <<32 1.

Fixpoint crc_bits (n : nat) (c : Z) : Z :=
  match n with O => c | S n => crc_bit (crc_bits n c) end.

Definition crc_byte_serial (c b : Z) : Z :=
  crc_bits 8 (c ^32 Z.shiftl b 24).

Definition crc_serial (bs : list Z) : Z :=
  u32 (Z.lnot (foldl crc_byte_serial 0xffffffff bs)).

(** ** The register is linear *)

Lemma crc_bit_lxor x y : crc_bit (Z.lxor x y) = Z.lxor (crc_bit x) (crc_bit y).
Proof.
  unfold crc_bit. rewrite Z.lxor_spec.
  assert (Hs : Z.lxor x y <<32 1 = Z.lxor (x <<32 1) (y <<32 1)).
  { bitwise i. destruct (i <? 32); [done|]. by destruct (Z.testbit _ _). }
  rewrite Hs. destruct (Z.testbit x 31), (Z.testbit y 31); cbn [xorb]; bitwise i;
    destruct (Z.testbit crc_poly i), (i <? 32), (Z.testbit x (i - 1)), (Z.testbit y (i - 1)); done.
Qed.

Lemma crc_bits_lxor n x y :
  crc_bits n (Z.lxor x y) = Z.lxor (crc_bits n x) (crc_bits n y).
Proof. induction n as [|n IH]; [done|]. cbn. by rewrite IH, crc_bit_lxor. Qed.

(** While the top bits are clear the register only shifts. *)
Lemma crc_bits_small n x :
  (n <= 8)%nat -> is_u 24 x -> crc_bits n x = Z.shiftl x (Z.of_nat n).
Proof.
  intros Hn Hx. induction n as [|n IH]; [by rewrite Z.shiftl_0_r|].
  cbn [crc_bits]. rewrite IH by lia. unfold crc_bit.
  rewrite testbit_shiftl, (testbit_is_u_high 24 x) by (done || lia).
  bitwise i. destruct (Z.ltb_spec i 32); cbn [andb].
  - f_equal. lia.
  - symmetry. apply (testbit_is_u_high 24); try done; lia.
Qed.

(** Every entry of the table is the register after eight bits of its index. *)
Definition crc_table_entry_ok (i : nat) : bool :=
  nth i crc32_table 0 =? crc_bits 8 (Z.shiftl (Z.of_nat i) 24).

Lemma crc32_table_serial i :
  (i < 256)%nat -> nth i crc32_table 0 = crc_bits 8 (Z.shiftl (Z.of_nat i) 24).
Proof.
  intros Hi.
  assert (H : forallb crc_table_entry_ok (seq 0 256) = true) by (vm_compute; reflexivity).
  rewrite forallb_forall in H. apply Z.eqb_eq, H, in_seq. lia.
Qed.

(** ** Ranges *)

Lemma crc_index_range c b : is_u 32 c -> byte_ok b -> byte_ok (crc_index c b).
Proof.
  intros Hc Hb. apply is_u_lxor; [lia| |done].
  apply (is_u_shiftr 32 c 24); done || lia.
Qed.

Lemma crc_step_serial c b :
  is_u 32 c -> byte_ok b -> crc_step c b = crc_byte_serial c b.
Proof.
  intros Hc Hb. unfold crc_step, crc_byte_serial.
  pose proof (crc_index_range c b Hc Hb) as Hi. unfold is_u in Hi.
  rewrite crc32_table_serial by lia. rewrite Z2Nat.id by lia.
  assert (Hsplit : Z.lxor c (Z.shiftl b 24) =
    Z.lxor (wrap 24 c) (Z.shiftl (crc_index c b) 24)).
  { unfold crc_index. bitwise i. destruct (Z.ltb_spec i 24); cbn [andb].
    - rewrite !(Z.testbit_neg_r _ (i - 24)) by lia. done.
    - rewrite Z.shiftr_spec by lia. replace (i - 24 + 24) with i by lia. by rewrite xorb_false_l. }
  rewrite Hsplit, crc_bits_lxor. f_equal.
  rewrite crc_bits_small; [|lia|auto with word]. change (Z.of_nat 8) with 8.
  bitwise i. destruct (Z.ltb_spec i 32), (Z.ltb_spec (i - 8) 24); cbn [andb]; done || lia.
Qed.

Lemma crc_byte_serial_u32 c b : is_u 32 (crc_byte_serial c b).
Proof.
  unfold crc_byte_serial. cbn [crc_bits]. set (x := crc_bit _) at 2.
  clearbody x. unfold crc_bit. destruct (Z.testbit _ _); auto with word.
  apply is_u_lxor; auto with word. unfold is_u, crc_poly. lia.
Qed.

Lemma crc_foldl_serial c bs :
  is_u 32 c -> bytes_ok bs -> foldl crc_step c bs = foldl crc_byte_serial c bs.
Proof.
  intros Hc Hbs. revert c Hc. induction Hbs as [|b bs Hb _ IH]; intros c Hc; [done|].
  cbn. rewrite crc_step_serial by done. apply IH, crc_byte_serial_u32.
Qed.

Lemma key_bytes_ok k : key_ok k -> bytes_ok (key_bytes k).
Proof. intros [_ H]. by apply Forall_take. Qed.

(** Every hash is an unsigned 32-bit value. *)
Lemma ght_one_at_a_time_hash_range k : is_u 32 (ght_one_at_a_time_hash k).
Proof. apply wrap_is_u. lia. Qed.

Lemma ght_crc_hash_range k : is_u 32 (ght_crc_hash k).
Proof. apply wrap_is_u. lia. Qed.

Lemma ght_rotating_hash_range k : key_ok k -> is_u 32 (ght_rotating_hash k).
Proof.
  intros Hk%key_bytes_ok. unfold ght_rotating_hash.
  assert (H0 : is_u 32 0) by (unfold is_u; lia). revert H0. generalize 0.
  induction Hk as [|b bs Hb _ IH]; intros h Hh; [done|]. cbn. apply IH. unfold rotating_step.
  apply is_u_lxor; [lia| |by apply (is_u_weaken 8); [lia|]].
  apply is_u_lxor; [lia|apply wrap_is_u; lia|]. apply (is_u_weaken 4); [lia|].
  by apply (is_u_shiftr 32 h 28).
Qed.

(** [C38] The table-driven CRC of [ght_crc_hash] is the bit-serial CRC-32
    (polynomial 0x04c11db7, preset to all ones, complemented) of the key's
    bytes, for every key. *)
Theorem ght_crc_hash_serial k :
  key_ok k -> ght_crc_hash k = crc_serial (key_bytes k).
Proof.
  intros Hk. unfold ght_crc_hash, crc_serial.
  rewrite crc_foldl_serial; [done| unfold is_u; lia | by apply key_bytes_ok].
Qed.

Lemma ght_crc_hash_serial_witness :
  ght_crc_hash (mk_hash_key 9 [0x31;0x32;0x33;0x34;0x35;0x36;0x37;0x38;0x39]) = 0xfc891918 /\
  crc_serial [0x31;0x32;0x33;0x34;0x35;0x36;0x37;0x38;0x39] = 0xfc891918.
Proof.
  rewrite (ght_crc_hash_serial (mk_hash_key 9 [0x31;0x32;0x33;0x34;0x35;0x36;0x37;0x38;0x39])).
  - split; vm_compute; reflexivity.
  - split; [reflexivity|]. repeat constructor; vm_compute; discriminate || reflexivity.
Defined.
