(* ===== verification/HashTable.v ===== *)
(** * The hash table: [src/src/hash_table.c], [src/include/ght_hash_table.h]

    The chained hash table of libghthash, at the level of pointers: entries are
    blocks of memory linked into the chain of their bucket ([p_next],
    [p_prev]) and, across buckets, by age ([p_older], [p_newer]).

    Operations are functions of a state (the table and the memory) that return
    [None] when the code dereferences a dead pointer, indexes an array out of
    range, overflows a signed counter, fails an [assert], or when the fuel of a
    loop runs out; [HashTableCorrect] shows that none of this happens.  The
    arrays of a table are part of the table.  [fn_bucket_free] is recorded as a
    call, not run. *)

From S2P Require Import Prelude HashFunctions.

Definition addr := positive.

Definition GHT_HEURISTICS_NONE : Z := 0.
Definition GHT_HEURISTICS_TRANSPOSE : Z := 1.
Definition GHT_HEURISTICS_MOVE_TO_FRONT : Z := 2.

(** [p_data] is a [void *]; [None] is NULL. *)
Record ght_hash_entry_t (V : Type) := mk_entry {
  p_data : option V;
  p_bucketidx : Z;
  p_next : option addr;
  p_prev : option addr;
  p_older : option addr;
  p_newer : option addr;
  key : ght_hash_key_t
}.
Arguments mk_entry {V}.
Arguments p_data {V}.
Arguments p_bucketidx {V}.
Arguments p_next {V}.
Arguments p_prev {V}.
Arguments p_older {V}.
Arguments p_newer {V}.
Arguments key {V}.

Record ght_iterator_t := mk_iterator {
  it_entry : option addr;
  it_next : option addr
}.

Record ght_hash_table_t := mk_table {
  i_items : Z;
  i_size : Z;
  fn_hash : ght_hash_key_t -> Z;
  fn_bucket_free : option Z;
  i_heuristics : Z;
  i_automatic_rehash : bool;
  pp_entries : list (option addr);
  p_nr : list Z;
  i_size_mask : Z;
  bucket_limit : Z;
  p_oldest : option addr;
  p_newest : option addr
}.

(** ** States and operations on them *)

(** [evictions] are the calls of [fn_bucket_free]; [requests] counts the calls
    of the allocator. *)
Record ght_state (V : Type) := mk_state {
  ht : ght_hash_table_t;
  mem : gmap addr (ght_hash_entry_t V);
  requests : nat;
  evictions : list (Z * option V * list Z)
}.
Arguments mk_state {V}.
Arguments ht {V}.
Arguments mem {V}.
Arguments requests {V}.
Arguments evictions {V}.

Definition ghtM (V A : Type) : Type := ght_state V -> option (A * ght_state V).

#[export] Instance ghtM_ret V : MRet (ghtM V) := fun A a s => Some (a, s).
#[export] Instance ghtM_bind V : MBind (ghtM V) := fun A B f m s =>
  match m s with
  | Some (a, s) => f a s
  | None => None
  end.

Section primitives.
Context {V : Type}.

Definition stuck {A} : ghtM V A := fun _ => None.
Definition massert (b : bool) : ghtM V unit := if b then mret tt else stuck.

Definition get_ht : ghtM V ght_hash_table_t := fun s => Some (ht s, s).
Definition set_ht (t : ght_hash_table_t) : ghtM V unit := fun s =>
  Some (tt, mk_state t (mem s) (requests s) (evictions s)).

(** Reading a field of an entry, and writing one. *)
Definition rd {A} (p : addr) (f : ght_hash_entry_t V -> A) : ghtM V A := fun s =>
  match mem s !! p with
  | Some e => Some (f e, s)
  | None => None
  end.
Definition wr (p : addr) (g : ght_hash_entry_t V -> ght_hash_entry_t V) : ghtM V unit := fun s =>
  match mem s !! p with
  | Some e => Some (tt, mk_state (ht s) (<[p := g e]> (mem s)) (requests s) (evictions s))
  | None => None
  end.

Definition set_p_data (v : option V) (e : ght_hash_entry_t V) : ght_hash_entry_t V :=
  mk_entry v (p_bucketidx e) (p_next e) (p_prev e) (p_older e) (p_newer e) (key e).
Definition set_p_bucketidx (v : Z) (e : ght_hash_entry_t V) : ght_hash_entry_t V :=
  mk_entry (p_data e) v (p_next e) (p_prev e) (p_older e) (p_newer e) (key e).
Definition set_p_next (v : option addr) (e : ght_hash_entry_t V) : ght_hash_entry_t V :=
  mk_entry (p_data e) (p_bucketidx e) v (p_prev e) (p_older e) (p_newer e) (key e).
Definition set_p_prev (v : option addr) (e : ght_hash_entry_t V) : ght_hash_entry_t V :=
  mk_entry (p_data e) (p_bucketidx e) (p_next e) v (p_older e) (p_newer e) (key e).
Definition set_p_older (v : option addr) (e : ght_hash_entry_t V) : ght_hash_entry_t V :=
  mk_entry (p_data e) (p_bucketidx e) (p_next e) (p_prev e) v (p_newer e) (key e).
Definition set_p_newer (v : option addr) (e : ght_hash_entry_t V) : ght_hash_entry_t V :=
  mk_entry (p_data e) (p_bucketidx e) (p_next e) (p_prev e) (p_older e) v (key e).

Definition with_lists (t : ght_hash_table_t) (pp : list (option addr)) (nr : list Z)
    (oldest newest : option addr) (items : Z) : ght_hash_table_t :=
  mk_table items (i_size t) (fn_hash t) (fn_bucket_free t) (i_heuristics t) (i_automatic_rehash t)
    pp nr (i_size_mask t) (bucket_limit t) oldest newest.

(** [pp_entries[l]] and [p_nr[l]]. *)
Definition get_bucket (l : Z) : ghtM V (option addr) :=
  t ← get_ht;
  match pp_entries t !! Z.to_nat l with
  | Some p => if 0 <=? l then mret p else stuck
  | None => stuck
  end.
Definition set_bucket (l : Z) (p : option addr) : ghtM V unit :=
  _ ← get_bucket l;
  t ← get_ht;
  set_ht (with_lists t (<[Z.to_nat l := p]> (pp_entries t)) (p_nr t) (p_oldest t) (p_newest t) (i_items t)).
Definition get_nr (l : Z) : ghtM V Z :=
  t ← get_ht;
  match p_nr t !! Z.to_nat l with
  | Some n => if 0 <=? l then mret n else stuck
  | None => stuck
  end.
Definition add_nr (l d : Z) : ghtM V unit :=
  n ← get_nr l;
  _ ← massert ((- 2 ^ 31 <=? n + d) && (n + d <? 2 ^ 31));
  t ← get_ht;
  set_ht (with_lists t (pp_entries t) (<[Z.to_nat l := n + d]> (p_nr t)) (p_oldest t) (p_newest t) (i_items t)).
Definition set_oldest (p : option addr) : ghtM V unit :=
  t ← get_ht;
  set_ht (with_lists t (pp_entries t) (p_nr t) p (p_newest t) (i_items t)).
Definition set_newest (p : option addr) : ghtM V unit :=
  t ← get_ht;
  set_ht (with_lists t (pp_entries t) (p_nr t) (p_oldest t) p (i_items t)).
Definition set_items (n : Z) : ghtM V unit :=
  t ← get_ht;
  set_ht (with_lists t (pp_entries t) (p_nr t) (p_oldest t) (p_newest t) n).

(** [if (p) { ... }] on a pointer. *)
Definition if_some (p : option addr) (f : addr -> ghtM V unit) : ghtM V unit :=
  match p with
  | Some q => f q
  | None => mret tt
  end.

(** A loop over as many nodes as there are blocks cannot go round in circles. *)
Definition mem_fuel : ghtM V nat := fun s => Some (S (size (mem s)), s).

(** [m] with [p_ht = t]; the table that results. *)
Definition on_table {A} (t : ght_hash_table_t) (m : ghtM V A) : ghtM V (A * ght_hash_table_t) :=
  t0 ← get_ht;
  _ ← set_ht t;
  a ← m;
  t1 ← get_ht;
  _ ← set_ht t0;
  mret (a, t1).
End primitives.

(** ** Chains *)

Section chains.
Context {V : Type}.

(** Move [p_entry] one up in its list. *)
Definition transpose (l_bucket : Z) (p_entry : addr) : ghtM V unit :=
  prev ← rd p_entry p_prev;
  match prev with
  | None => mret tt
  | Some p_x =>
      p_a ← rd p_x p_prev;
      p_b ← rd p_entry p_next;
      _ ← match p_a with
          | Some a => wr a (set_p_next (Some p_entry))
          | None => set_bucket l_bucket (Some p_entry)
          end;
      _ ← if_some p_b (fun b => wr b (set_p_prev (Some p_x)));
      next ← rd p_entry p_next;
      _ ← wr p_x (set_p_next next);
      _ ← wr p_x (set_p_prev (Some p_entry));
      _ ← wr p_entry (set_p_next (Some p_x));
      wr p_entry (set_p_prev p_a)
  end.

(** Move [p_entry] first. *)
Definition move_to_front (l_bucket : Z) (p_entry : addr) : ghtM V unit :=
  first ← get_bucket l_bucket;
  if decide (Some p_entry = first) then mret tt
  else
    prev ← rd p_entry p_prev;
    next ← rd p_entry p_next;
    _ ← match prev with
        | Some q => wr q (set_p_next next)
        | None => stuck
        end;
    next ← rd p_entry p_next;
    prev ← rd p_entry p_prev;
    _ ← if_some next (fun q => wr q (set_p_prev prev));
    first ← get_bucket l_bucket;
    _ ← wr p_entry (set_p_next first);
    _ ← wr p_entry (set_p_prev None);
    _ ← match first with
        | Some q => wr q (set_p_prev (Some p_entry))
        | None => stuck
        end;
    set_bucket l_bucket (Some p_entry).

(** [remove_from_chain] takes an entry out of its bucket and out of the list by
    age. *)
Definition unlink_bucket (l_bucket : Z) (p : addr) : ghtM V unit :=
  prev ← rd p p_prev;
  next ← rd p p_next;
  _ ← match prev with
      | Some q => wr q (set_p_next next)
      | None => set_bucket l_bucket next
      end;
  next ← rd p p_next;
  prev ← rd p p_prev;
  if_some next (fun q => wr q (set_p_prev prev)).

Definition unlink_age (p : addr) : ghtM V unit :=
  older ← rd p p_older;
  newer ← rd p p_newer;
  _ ← match older with
      | Some q => wr q (set_p_newer newer)
      | None => set_oldest newer
      end;
  newer ← rd p p_newer;
  older ← rd p p_older;
  match newer with
  | Some q => wr q (set_p_older older)
  | None => set_newest older
  end.

Definition remove_from_chain (l_bucket : Z) (p : addr) : ghtM V unit :=
  _ ← unlink_bucket l_bucket p;
  unlink_age p.

(** [memcmp] on the stored key and the one that is looked for. *)
Definition key_matches (k k' : ght_hash_key_t) : bool :=
  (key_i_size k =? key_i_size k') &&
  bool_decide (take (Z.to_nat (key_i_size k)) (key_p_key k) =
               take (Z.to_nat (key_i_size k)) (key_p_key k')).

Fixpoint search_loop (fuel : nat) (l_bucket : Z) (p_key : ght_hash_key_t) (heuristics : Z)
    (p_e : option addr) : ghtM V (option addr) :=
  match p_e, fuel with
  | None, _ => mret None
  | Some _, O => stuck
  | Some p, S fuel =>
      k ← rd p key;
      if key_matches k p_key then
        _ ← (if heuristics =? GHT_HEURISTICS_MOVE_TO_FRONT then move_to_front l_bucket p
             else if heuristics =? GHT_HEURISTICS_TRANSPOSE then transpose l_bucket p
             else mret tt);
        mret (Some p)
      else
        next ← rd p p_next;
        search_loop fuel l_bucket p_key heuristics next
  end.

(** [i_heuristics] is passed as an [unsigned char]. *)
Definition search_in_bucket (l_bucket : Z) (p_key : ght_hash_key_t) (heuristics : Z)
    : ghtM V (option addr) :=
  p_e ← get_bucket l_bucket;
  fuel ← mem_fuel;
  search_loop fuel l_bucket p_key (wrap 8 heuristics) p_e.

Definition hk_fill (i_size : Z) (p_key : list Z) : ght_hash_key_t := mk_hash_key i_size p_key.

(** [get_hash_value(p_ht, &key) & p_ht->i_size_mask]. *)
Definition bucket_of (k : ght_hash_key_t) : ghtM V Z :=
  t ← get_ht;
  mret (Z.land (fn_hash t k) (i_size_mask t)).

(** [p_ht->pp_entries[l_key] ? p_ht->pp_entries[l_key]->p_prev == NULL : 1]. *)
Definition assert_first (l_key : Z) : ghtM V unit :=
  first ← get_bucket l_key;
  match first with
  | Some p => prev ← rd p p_prev; massert (bool_decide (prev = None))
  | None => mret tt
  end.
End chains.

(** ** The operations *)

Section operations.
Context {V : Type}.

(** [malloc]: the address the [n]-th request gets, or NULL. *)
Context (fn_alloc : nat -> gmap addr (ght_hash_entry_t V) -> option addr).

Definition he_create (data : option V) (i_key_size : Z) (p_key_data : list Z)
    : ghtM V (option addr) := fun s =>
  let s' := mk_state (ht s) (mem s) (S (requests s)) (evictions s) in
  match fn_alloc (requests s) (mem s) with
  | None => Some (None, s')
  | Some p =>
      let e := mk_entry data 0 None None None None
                 (mk_hash_key i_key_size (take (Z.to_nat i_key_size) p_key_data)) in
      Some (Some p, mk_state (ht s) (<[p := e]> (mem s)) (S (requests s)) (evictions s))
  end.

Definition free_entry (p : addr) : ghtM V unit := fun s =>
  match mem s !! p with
  | Some _ => Some (tt, mk_state (ht s) (delete p (mem s)) (requests s) (evictions s))
  | None => None
  end.

Definition he_finalize (p_he : addr) : ghtM V unit :=
  _ ← wr p_he (set_p_next None);
  _ ← wr p_he (set_p_prev None);
  _ ← wr p_he (set_p_older None);
  _ ← wr p_he (set_p_newer None);
  free_entry p_he.

Fixpoint free_chain_loop (fuel : nat) (p_e : option addr) : ghtM V unit :=
  match p_e, fuel with
  | None, _ => mret tt
  | Some _, O => stuck
  | Some p, S fuel =>
      p_e_next ← rd p p_next;
      _ ← he_finalize p;
      free_chain_loop fuel p_e_next
  end.
Definition free_entry_chain (p_entry : option addr) : ghtM V unit :=
  fuel ← mem_fuel;
  free_chain_loop fuel p_entry.

(** [while(p_ht->i_size < i_size) p_ht->i_size = 1<<i++]: the size and [i].
    Shifting into the sign bit of an [int] is undefined. *)
Fixpoint create_loop (fuel : nat) (size i n : Z) : option (Z * Z) :=
  if size <? n then
    match fuel with
    | O => None
    | S fuel => if i <? 31 then create_loop fuel (Z.shiftl 1 i) (i + 1) n else None
    end
  else Some (size, i).

(** The three requests are the table, the buckets and their counters; on
    failure the earlier blocks are freed and NULL returned. *)
Definition ght_create (n : Z) : ghtM V (option ght_hash_table_t) := fun s =>
  let reqs k := mk_state (ht s) (mem s) (requests s + k) (evictions s) in
  let ok k := match fn_alloc (requests s + k) (mem s) with Some _ => true | None => false end in
  if negb (ok 0%nat) then Some (None, reqs 1%nat)
  else
    match create_loop 32 1 1 n with
    | None => None
    | Some (size, i) =>
        if negb (ok 1%nat) then Some (None, reqs 2%nat)
        else if negb (ok 2%nat) then Some (None, reqs 3%nat)
        else
          Some (Some (mk_table 0 size ght_one_at_a_time_hash None GHT_HEURISTICS_NONE false
                        (replicate (Z.to_nat size) None) (replicate (Z.to_nat size) 0)
                        (Z.shiftl 1 (i - 1) - 1) 0 None None), reqs 3%nat)
    end.

Definition ght_set_hash (f : ght_hash_key_t -> Z) (t : ght_hash_table_t) : ght_hash_table_t :=
  mk_table (i_items t) (i_size t) f (fn_bucket_free t) (i_heuristics t) (i_automatic_rehash t)
    (pp_entries t) (p_nr t) (i_size_mask t) (bucket_limit t) (p_oldest t) (p_newest t).
Definition ght_set_heuristics (h : Z) (t : ght_hash_table_t) : ght_hash_table_t :=
  mk_table (i_items t) (i_size t) (fn_hash t) (fn_bucket_free t) h (i_automatic_rehash t)
    (pp_entries t) (p_nr t) (i_size_mask t) (bucket_limit t) (p_oldest t) (p_newest t).
Definition ght_set_rehash (b : bool) (t : ght_hash_table_t) : ght_hash_table_t :=
  mk_table (i_items t) (i_size t) (fn_hash t) (fn_bucket_free t) (i_heuristics t) b
    (pp_entries t) (p_nr t) (i_size_mask t) (bucket_limit t) (p_oldest t) (p_newest t).
Definition ght_set_bounded_buckets (limit : Z) (fn : option Z) (t : ght_hash_table_t)
    : ght_hash_table_t :=
  mk_table (i_items t) (i_size t) (fn_hash t) fn (i_heuristics t) (i_automatic_rehash t)
    (pp_entries t) (p_nr t) (i_size_mask t) limit (p_oldest t) (p_newest t).

Definition ght_size (t : ght_hash_table_t) : Z := i_items t.
Definition ght_table_size (t : ght_hash_table_t) : Z := i_size t.

(** [for (p = first; p->p_next != NULL; p = p->p_next);] *)
Fixpoint last_loop (fuel : nat) (p : addr) : ghtM V addr :=
  next ← rd p p_next;
  match next, fuel with
  | None, _ => mret p
  | Some _, O => stuck
  | Some q, S fuel => last_loop fuel q
  end.

(** A full bucket gives up its last entry. *)
Definition evict_last (l_key : Z) : ghtM V unit :=
  first ← get_bucket l_key;
  fuel ← mem_fuel;
  match first with
  | None => stuck
  | Some p =>
      p ← last_loop fuel p;
      _ ← remove_from_chain l_key p;
      t ← get_ht;
      data ← rd p p_data;
      k ← rd p key;
      _ ← match fn_bucket_free t with
          | None => stuck
          | Some f => fun s => Some (tt, mk_state (ht s) (mem s) (requests s)
                                            (evictions s ++ [(f, data, key_p_key k)]))
          end;
      he_finalize p
  end.

(** [ght_insert] places a new entry first in its bucket and last by age. *)
Definition link_bucket (l_key : Z) (p_entry : addr) : ghtM V unit :=
  first ← get_bucket l_key;
  _ ← wr p_entry (set_p_next first);
  _ ← wr p_entry (set_p_bucketidx l_key);
  _ ← wr p_entry (set_p_prev None);
  _ ← if_some first (fun q => wr q (set_p_prev (Some p_entry)));
  set_bucket l_key (Some p_entry).

Definition link_age (p_entry : addr) : ghtM V unit :=
  t ← get_ht;
  _ ← (match p_oldest t with
       | None => set_oldest (Some p_entry)
       | Some _ => mret tt
       end);
  t ← get_ht;
  _ ← wr p_entry (set_p_older (p_newest t));
  _ ← if_some (p_newest t) (fun q => wr q (set_p_newer (Some p_entry)));
  set_newest (Some p_entry).

Definition link_entry (l_key : Z) (p_entry : addr) : ghtM V unit :=
  _ ← link_bucket l_key p_entry;
  t ← get_ht;
  nr ← get_nr l_key;
  _ ← (if negb (bucket_limit t =? 0) && (bucket_limit t <=? u32 nr)
       then evict_last l_key
       else
         _ ← add_nr l_key 1;
         _ ← assert_first l_key;
         t ← get_ht;
         set_items (u32 (i_items t + 1)));
  link_age p_entry.

(** [ght_insert], given what [ght_rehash] does. *)
Definition insert_with (rehash : Z -> ghtM V unit) (p_entry_data : option V) (i_key_size : Z)
    (p_key_data : list Z) : ghtM V Z :=
  let key := hk_fill i_key_size p_key_data in
  l_key ← bucket_of key;
  found ← search_in_bucket l_key key 0;
  match found with
  | Some _ => mret (-1)
  | None =>
      created ← he_create p_entry_data i_key_size p_key_data;
      match created with
      | None => mret (-2)
      | Some p_entry =>
          t ← get_ht;
          l_key ← (if i_automatic_rehash t && (u32 (2 * i_size t) <? i_items t)
                   then _ ← rehash (u32 (2 * i_size t)); bucket_of key
                   else mret l_key);
          _ ← link_entry l_key p_entry;
          mret 0
      end
  end.

Definition data_of (p : option addr) : ghtM V (option V) :=
  match p with
  | Some p => rd p p_data
  | None => mret None
  end.

Definition ght_get (i_key_size : Z) (p_key_data : list Z) : ghtM V (option V) :=
  let key := hk_fill i_key_size p_key_data in
  l_key ← bucket_of key;
  _ ← assert_first l_key;
  t ← get_ht;
  p_e ← search_in_bucket l_key key (i_heuristics t);
  data_of p_e.

Definition ght_replace (p_entry_data : option V) (i_key_size : Z) (p_key_data : list Z)
    : ghtM V (option V) :=
  let key := hk_fill i_key_size p_key_data in
  l_key ← bucket_of key;
  _ ← assert_first l_key;
  t ← get_ht;
  p_e ← search_in_bucket l_key key (i_heuristics t);
  match p_e with
  | None => mret None
  | Some p =>
      p_old ← rd p p_data;
      _ ← wr p (set_p_data p_entry_data);
      mret p_old
  end.

Definition ght_remove (i_key_size : Z) (p_key_data : list Z) : ghtM V (option V) :=
  let key := hk_fill i_key_size p_key_data in
  l_key ← bucket_of key;
  _ ← assert_first l_key;
  p_out ← search_in_bucket l_key key 0;
  match p_out with
  | None => mret None
  | Some p =>
      _ ← remove_from_chain l_key p;
      t ← get_ht;
      _ ← set_items (u32 (i_items t - 1));
      _ ← add_nr l_key (-1);
      _ ← wr p (set_p_next None);
      _ ← wr p (set_p_prev None);
      p_ret ← rd p p_data;
      _ ← he_finalize p;
      mret p_ret
  end.

(** The iterator, the key it stands at, the size of the key, and the datum. *)
Definition visit (p : option addr) : ghtM V (ght_iterator_t * option ght_hash_key_t * option V) :=
  match p with
  | Some p =>
      next ← rd p p_newer;
      k ← rd p key;
      data ← rd p p_data;
      mret (mk_iterator (Some p) next, Some k, data)
  | None => mret (mk_iterator None None, None, None)
  end.
Definition first_keysize : ghtM V (ght_iterator_t * option ght_hash_key_t * option V) :=
  t ← get_ht;
  visit (p_oldest t).
Definition next_keysize (it : ght_iterator_t)
    : ghtM V (ght_iterator_t * option ght_hash_key_t * option V) :=
  visit (it_next it).

(** Two ask for the size of the key, two do not. *)
Definition ght_first := first_keysize.
Definition ght_first_keysize := first_keysize.
Definition ght_next := next_keysize.
Definition ght_next_keysize := next_keysize.

Definition ght_remove_first : ghtM V (option V) :=
  t ← get_ht;
  match p_oldest t with
  | None => mret None
  | Some first =>
      l ← rd first p_bucketidx;
      _ ← remove_from_chain l first;
      t ← get_ht;
      _ ← set_items (u32 (i_items t - 1));
      l ← rd first p_bucketidx;
      _ ← add_nr l (-1);
      value ← rd first p_data;
      _ ← he_finalize first;
      mret value
  end.

(** [for (i=0; i<p_ht->i_size; i++)], from [i] with [n] left. *)
Fixpoint free_buckets (n : nat) (i : Z) : ghtM V unit :=
  match n with
  | O => mret tt
  | S n =>
      first ← get_bucket i;
      _ ← free_entry_chain first;
      _ ← set_bucket i None;
      free_buckets n (i + 1)
  end.
Definition remove_all_entries : ghtM V unit :=
  t ← get_ht;
  free_buckets (Z.to_nat (i_size t)) 0.

(** The table itself is freed by the caller of the model. *)
Definition ght_finalize : ghtM V unit := remove_all_entries.

Definition ght_remove_all : ghtM V unit :=
  _ ← remove_all_entries;
  t ← get_ht;
  set_ht (with_lists t (pp_entries t) (replicate (Z.to_nat (i_size t)) 0) None None 0).

(** [for (p = ght_first(...); p; p = ght_next(...))]: the walk stops at the
    first entry whose datum is NULL.  Failed insertions are only reported. *)
Fixpoint rehash_loop (fuel : nat) (p_tmp : ght_hash_table_t)
    (pos : ght_iterator_t * option ght_hash_key_t * option V) : ghtM V ght_hash_table_t :=
  match pos, fuel with
  | (_, _, None), _ => mret p_tmp
  | (_, _, Some _), O => stuck
  | (it, _, Some _), S fuel =>
      match it_entry it with
      | None => stuck
      | Some p =>
          data ← rd p p_data;
          k ← rd p key;
          r ← on_table p_tmp (insert_with (fun _ => stuck) data (key_i_size k) (key_p_key k));
          pos ← ght_next it;
          rehash_loop fuel r.2 pos
      end
  end.

Definition ght_rehash (n : Z) : ghtM V unit :=
  created ← ght_create n;
  match created with
  | None => stuck
  | Some p_tmp =>
      t ← get_ht;
      let p_tmp := ght_set_rehash false (ght_set_heuristics GHT_HEURISTICS_NONE
                     (ght_set_hash (fn_hash t) p_tmp)) in
      fuel ← mem_fuel;
      pos ← ght_first;
      p_tmp ← rehash_loop fuel p_tmp pos;
      _ ← remove_all_entries;
      t ← get_ht;
      set_ht (mk_table (i_items p_tmp) (i_size p_tmp) (fn_hash t) (fn_bucket_free t)
                (i_heuristics t) (i_automatic_rehash t) (pp_entries p_tmp) (p_nr p_tmp)
                (i_size_mask p_tmp) (bucket_limit t) (p_oldest p_tmp) (p_newest p_tmp))
  end.

Definition ght_insert : option V -> Z -> list Z -> ghtM V Z := insert_with ght_rehash.
End operations.
