(* ===== verification/GhtIface.v ===== *)
(** * The hash table as its clients see it

    The RPC client keeps the callbacks of outstanding calls in a libghthash
    table ([src/include/ght_hash_table.h]) keyed by transaction id.  This file
    states what the client relies on: a table is an insertion-ordered
    dictionary.  A client is proved against the class [GhtLaws].  A pointer to a
    table, which is NULL when [ght_create] failed, is an optional table. *)

From S2P Require Import Prelude.

(** The entries of a table, oldest first. *)
Definition dict (K V : Type) : Type := list (K * V).

Section dictionary.
Context {K : Type} `{EqDecision K} {V : Type}.

Fixpoint dict_find (k : K) (d : dict K V) : option V :=
  match d with
  | [] => None
  | (k', v) :: d => if decide (k = k') then Some v else dict_find k d
  end.
Fixpoint dict_without (k : K) (d : dict K V) : dict K V :=
  match d with
  | [] => []
  | (k', v) :: d => if decide (k = k') then dict_without k d else (k', v) :: dict_without k d
  end.
Definition dict_add (k : K) (v : V) (d : dict K V) : dict K V :=
  if decide (k ∈ d.*1) then d else d ++ [(k, v)].

Lemma dict_find_elem k (d : dict K V) : k ∈ d.*1 <-> is_Some (dict_find k d).
Proof.
  induction d as [|[k' v] d IH]; cbn.
  - rewrite elem_of_nil. split; [done|by intros [??]].
  - rewrite elem_of_cons. case_decide as E; [subst; split; [by eexists|by left]|].
    rewrite <- IH. split; [by intros [?|?]|by right].
Qed.

Lemma dict_without_notin k (d : dict K V) : k ∉ d.*1 -> dict_without k d = d.
Proof.
  induction d as [|[k' v] d IH]; cbn; [done|]. rewrite elem_of_cons. intros Hk.
  rewrite decide_False by tauto. f_equal. apply IH. tauto.
Qed.

Lemma dict_without_elem k j (d : dict K V) : j ∈ (dict_without k d).*1 <-> j <> k /\ j ∈ d.*1.
Proof.
  induction d as [|[k' v] d IH]; cbn; [rewrite !elem_of_nil; tauto|].
  case_decide as E; subst; cbn; rewrite ?elem_of_cons, IH.
  - split; [tauto|]. intros [? [?|?]]; [done|tauto].
  - split; [intros [->|?]; [split; [congruence|by left]|tauto]|tauto].
Qed.

Lemma dict_without_nodup k (d : dict K V) : NoDup d.*1 -> NoDup (dict_without k d).*1.
Proof.
  induction d as [|[k' v] d IH]; cbn; [done|]. intros [Hk Hd]%NoDup_cons.
  case_decide; [by apply IH|]. cbn. apply NoDup_cons. split; [|by apply IH].
  rewrite dict_without_elem. tauto.
Qed.

Lemma dict_find_without k j (d : dict K V) :
  dict_find j (dict_without k d) = if decide (j = k) then None else dict_find j d.
Proof.
  induction d as [|[k' v] d IH]; cbn; [by case_decide|].
  repeat (case_decide; subst; cbn; try done).
Qed.

Lemma dict_find_add k v j (d : dict K V) : k ∉ d.*1 ->
  dict_find j (dict_add k v d) = if decide (j = k) then Some v else dict_find j d.
Proof.
  intros Hk. unfold dict_add. rewrite decide_False by done.
  induction d as [|[k' w] d IH]; cbn in *; [done|].
  rewrite elem_of_cons in Hk. repeat (case_decide; subst; try tauto).
Qed.

Lemma dict_add_nodup k (v : V) d : NoDup d.*1 -> NoDup (dict_add k v d).*1.
Proof.
  intros Hd. unfold dict_add. case_decide as Hk; [done|].
  rewrite fmap_app. apply NoDup_app. split_and!; [done| |apply NoDup_singleton].
  intros x Hx. cbn. rewrite list_elem_of_singleton. by intros ->.
Qed.
End dictionary.

(** The operations the client calls.  [ght_first] returns the key and the
    value of the oldest entry; [ght_insert] returns 0, or -1 when the key is
    there already, or -2 when memory is out.  Keys are 32-bit words, as
    transaction ids are; the buckets count their entries in an [int]. *)
Class Ght (T V : Type) := {
  ght_ok : T -> Prop;
  ght_entries : T -> dict Z V;
  ght_insert : T -> Z -> V -> T * Z;
  ght_first : T -> option (Z * V);
  ght_remove : T -> Z -> T * option V;
  ght_remove_first : T -> T * option V
}.

Class GhtLaws (T V : Type) `{Ght T V} : Prop := {
  ght_nodup t : ght_ok t -> NoDup (ght_entries t).*1;
  ght_insert_ok t k v : ght_ok t -> is_u 32 k -> Z.of_nat (length (ght_entries t)) < 2 ^ 31 - 1 ->
    ght_ok (fst (ght_insert t k v)) /\
    ((snd (ght_insert t k v) = 0 /\ k ∉ (ght_entries t).*1 /\
      ght_entries (fst (ght_insert t k v)) = ght_entries t ++ [(k, v)]) \/
     (snd (ght_insert t k v) = -1 /\ k ∈ (ght_entries t).*1 /\
      ght_entries (fst (ght_insert t k v)) = ght_entries t) \/
     (snd (ght_insert t k v) = -2 /\ ght_entries (fst (ght_insert t k v)) = ght_entries t));
  ght_first_ok t : ght_ok t -> ght_first t = head (ght_entries t);
  ght_remove_ok t k : ght_ok t -> is_u 32 k ->
    ght_ok (fst (ght_remove t k)) /\
    ght_entries (fst (ght_remove t k)) = dict_without k (ght_entries t) /\
    snd (ght_remove t k) = dict_find k (ght_entries t);
  ght_remove_first_ok t : ght_ok t ->
    ght_ok (fst (ght_remove_first t)) /\
    ght_entries (fst (ght_remove_first t)) = tail (ght_entries t) /\
    snd (ght_remove_first t) = snd <$> head (ght_entries t)
}.

(** ** Pointers to tables *)

(** What holds a pointer to a table may hold NULL, which [ght_create] returns
    when memory is out: it is no table, and code that uses it is undefined (the
    operations assert that it is not NULL), so what is written here for NULL only
    makes the operations total. *)
#[export] Instance ptr_ght {T V} `{Ght T V} : Ght (option T) V := {|
  ght_ok o := match o with Some t => ght_ok t | None => False end;
  ght_entries o := match o with Some t => ght_entries t | None => [] end;
  ght_insert o k v :=
    match o with Some t => let (t, r) := ght_insert t k v in (Some t, r) | None => (None, -2) end;
  ght_first o := o ≫= ght_first;
  ght_remove o k :=
    match o with Some t => let (t, v) := ght_remove t k in (Some t, v) | None => (None, None) end;
  ght_remove_first o :=
    match o with Some t => let (t, v) := ght_remove_first t in (Some t, v) | None => (None, None) end
|}.

#[export] Instance ptr_ght_laws {T V} `{GhtLaws T V} : GhtLaws (option T) V.
Proof.
  split; intros [t|]; cbn; try done.
  - apply ght_nodup.
  - intros k v Ht Hk Hn. pose proof (ght_insert_ok t k v Ht Hk Hn) as Hi. by destruct (ght_insert t k v).
  - apply ght_first_ok.
  - intros k Ht Hk. pose proof (ght_remove_ok t k Ht Hk) as Hr. by destruct (ght_remove t k).
  - intros Ht. pose proof (ght_remove_first_ok t Ht) as Hr. by destruct (ght_remove_first t).
Qed.

(** Memory for one more entry. *)
Lemma ptr_memory {T V} `{Ght T V} :
  (forall (t : T) k (v : V), ght_ok t -> is_u 32 k -> Z.of_nat (length (ght_entries t)) < 2 ^ 31 - 1 ->
    snd (ght_insert t k v) <> -2) ->
  forall (o : option T) k v, ght_ok o -> is_u 32 k -> Z.of_nat (length (ght_entries o)) < 2 ^ 31 - 1 ->
    snd (ght_insert o k v) <> -2.
Proof.
  intros Hmem [t|] k v Ht Hk Hl; [|done]. specialize (Hmem t k v Ht Hk Hl). change (snd (let (t', r) := ght_insert t k v in (Some t', r)) <> -2).
  by destruct (ght_insert t k v).
Qed.

(** ** The dictionary itself as a table *)

#[export] Instance dict_ght V : Ght (dict Z V) V := {|
  ght_ok d := NoDup d.*1;
  ght_entries d := d;
  ght_insert d k v := (dict_add k v d, if decide (k ∈ d.*1) then -1 else 0);
  ght_first d := head d;
  ght_remove d k := (dict_without k d, dict_find k d);
  ght_remove_first d := (tail d, snd <$> head d)
|}.

#[export] Instance dict_ght_laws V : GhtLaws (dict Z V) V.
Proof.
  split; cbn; intros; try done.
  - split; [by apply dict_add_nodup|]. unfold dict_add. case_decide; [right; left|left]; by split_and!.
  - split_and!; [by apply dict_without_nodup|done|done].
  - split_and!; [|done|done]. destruct t; [done|]. cbn in *. by apply NoDup_cons in H as [_ ?].
Qed.
