(* ===== verification/HashTableRep.v ===== *)
(** * The invariant of the hash table

    Doubly linked lists as facts about pointer fields, a total-correctness
    calculus for the operations of [HashTable], and the invariant [Rep] that
    relates a table to the list of its entries by age and to its chains. *)

From S2P Require Import Prelude HashFunctions GhtIface HashTable.

(** ** Doubly linked lists

    [N] and [P] are the forward and backward pointers of the nodes. *)
Definition links (N P : addr -> option addr) (l : list addr) : Prop :=
  forall a p b, l = a ++ p :: b -> N p = head b /\ P p = last a.

(** Two ways to split the same list. *)
Lemma split_two {A} (a b l1 l2 : list A) q :
  a ++ b = l1 ++ q :: l2 ->
  (exists c, a = l1 ++ q :: c /\ l2 = c ++ b) \/ (exists c, l1 = a ++ c /\ b = c ++ q :: l2).
Proof.
  intros E. apply app_eq_app in E as (c & [[-> E]|[-> E]]).
  - destruct c as [|x c]; [right; exists []; split; [by rewrite !app_nil_r|by cbn in *]|].
    injection E as -> ->. left. by exists c.
  - right. by exists c.
Qed.

Lemma links_nil N P : links N P [].
Proof. intros a p b E. by destruct a. Qed.

Lemma links_ext N P N' P' l :
  (forall p, p ∈ l -> N' p = N p /\ P' p = P p) -> links N P l -> links N' P' l.
Proof.
  intros HE HL a p b ->. destruct (HE p) as [-> ->]; [set_solver|]. by apply HL.
Qed.

Lemma links_remove N P N' P' a p b :
  NoDup (a ++ p :: b) -> links N P (a ++ p :: b) ->
  (forall q, q ∈ a ++ b -> N' q = (if decide (last a = Some q) then head b else N q) /\
                     P' q = (if decide (head b = Some q) then last a else P q)) ->
  links N' P' (a ++ b).
Proof.
  intros Hnd HL HE l1 q l2 E.
  destruct (HE q) as [-> ->]; [rewrite E; set_solver|].
  apply NoDup_app in Hnd as (Ha & Hab & Hpb). apply NoDup_cons in Hpb as [Hp Hb].
  apply split_two in E as [(c & -> & ->)|(c & -> & ->)].
  - destruct (HL l1 q (c ++ p :: b)) as [HN HP]; [by rewrite <- app_assoc|].
    rewrite (decide_False (P := head b = Some q)).
    2: { intros Hq. apply (Hab q); [set_solver|]. destruct b; [done|]. cbn in Hq. set_solver. }
    split; [|done]. destruct c as [|x c].
    + rewrite last_snoc, decide_True by done. done.
    + rewrite decide_False; [done|]. intros Hq.
      replace (l1 ++ q :: x :: c) with ((l1 ++ [q]) ++ x :: c) in Ha, Hq by (by rewrite <- app_assoc).
      rewrite last_app_cons in Hq. apply NoDup_app in Ha as (_ & Ha & _). apply (Ha q); [set_solver|].
      by apply last_Some_elem_of.
  - destruct (HL (a ++ p :: c) q l2) as [HN HP]; [by rewrite <- app_assoc|].
    rewrite (decide_False (P := last a = Some q)).
    2: { intros Hq. apply last_Some_elem_of in Hq. apply (Hab q Hq). set_solver. }
    split; [done|]. destruct c as [|x c].
    + cbn. rewrite decide_True by done. by rewrite app_nil_r.
    + cbn. rewrite decide_False.
      * rewrite HP. by rewrite !last_app_cons.
      * intros [= ->]. cbn in Hb. apply NoDup_cons in Hb as [Hb _]. set_solver.
Qed.

Lemma links_cons N P N' P' p l :
  NoDup l -> links N P l -> p ∉ l -> N' p = head l -> P' p = None ->
  (forall q, q ∈ l -> N' q = N q /\ P' q = if decide (head l = Some q) then Some p else P q) ->
  links N' P' (p :: l).
Proof.
  intros Hnd HL Hp HN HP HE a q b E. destruct a as [|x a].
  - injection E as -> ->. by rewrite HN, HP.
  - injection E as -> ->. destruct (HE q) as [-> ->]; [set_solver|].
    destruct (HL a q b eq_refl) as [HN' HP']. split; [done|]. destruct a as [|y a].
    + by rewrite decide_True.
    + rewrite decide_False; [by rewrite HP'|]. cbn. intros [= ->].
      apply NoDup_cons in Hnd as [Hnd _]. set_solver.
Qed.

Lemma links_snoc N P N' P' p l :
  NoDup l -> links N P l -> p ∉ l -> N' p = None -> P' p = last l ->
  (forall q, q ∈ l -> N' q = (if decide (last l = Some q) then Some p else N q) /\ P' q = P q) ->
  links N' P' (l ++ [p]).
Proof.
  intros Hnd HL Hp HN HP HE a q b E. apply split_two in E as [(c & -> & ->)|(c & -> & E)].
  - destruct (HE q) as [-> ->]; [set_solver|]. destruct (HL a q c eq_refl) as [HN' HP'].
    split; [|done]. destruct c as [|y c].
    + by rewrite last_snoc, decide_True.
    + rewrite decide_False; [done|]. intros Hq.
      replace (a ++ q :: y :: c) with ((a ++ [q]) ++ y :: c) in Hnd, Hq by (by rewrite <- app_assoc).
      rewrite last_app_cons in Hq. apply NoDup_app in Hnd as (_ & Hnd & _). apply (Hnd q); [set_solver|].
      by apply last_Some_elem_of.
  - destruct c as [|x [|]]; [|done..]. injection E as -> <-. by rewrite app_nil_r, HN, HP.
Qed.

Lemma links_swap N P N' P' a x p b :
  NoDup (a ++ x :: p :: b) -> links N P (a ++ x :: p :: b) ->
  N' p = Some x -> P' p = last a -> N' x = head b -> P' x = Some p ->
  (forall q, q ∈ a ++ b -> N' q = (if decide (last a = Some q) then Some p else N q) /\
                     P' q = (if decide (head b = Some q) then Some x else P q)) ->
  links N' P' (a ++ p :: x :: b).
Proof.
  intros Hnd HL HNp HPp HNx HPx HE l1 q l2 E.
  apply NoDup_app in Hnd as (Ha & Hab & Hpb). apply NoDup_cons in Hpb as [Hx Hpb].
  apply NoDup_cons in Hpb as [Hp Hb].
  apply split_two in E as [(c & -> & ->)|(c & -> & E)].
  - destruct (HE q) as [-> ->]; [set_solver|].
    destruct (HL l1 q (c ++ x :: p :: b)) as [HN HP]; [by rewrite <- app_assoc|].
    rewrite (decide_False (P := head b = Some q)).
    2: { intros Hq. apply (Hab q); [set_solver|]. destruct b; [done|]. cbn in Hq. set_solver. }
    split; [|done]. destruct c as [|y c].
    + by rewrite last_snoc, decide_True.
    + rewrite decide_False; [done|]. intros Hq.
      replace (l1 ++ q :: y :: c) with ((l1 ++ [q]) ++ y :: c) in Ha, Hq by (by rewrite <- app_assoc).
      rewrite last_app_cons in Hq. apply NoDup_app in Ha as (_ & Ha & _). apply (Ha q); [set_solver|].
      by apply last_Some_elem_of.
  - destruct c as [|y [|z c]]; cbn in E.
    + injection E as <- <-. rewrite app_nil_r. by rewrite HNp, HPp.
    + injection E as <- <- <-. rewrite HNx, HPx. split; [done|]. by rewrite last_snoc.
    + injection E as <- <- ->. destruct (HE q) as [-> ->]; [set_solver|].
      destruct (HL (a ++ x :: p :: c) q l2) as [HN HP]; [by rewrite <- app_assoc|].
      rewrite (decide_False (P := last a = Some q)).
      2: { intros Hq. apply last_Some_elem_of in Hq. apply (Hab q Hq). set_solver. }
      split; [done|]. destruct c as [|y c].
      * cbn. rewrite decide_True by done. by rewrite last_app_cons.
      * cbn. rewrite decide_False.
        -- rewrite HP. by rewrite !last_app_cons.
        -- intros [= ->]. cbn in Hb. apply NoDup_cons in Hb as [Hb _]. set_solver.
Qed.

(** ** Total correctness

    [wp m Q s]: from [s], [m] succeeds and its result satisfies [Q]. *)
Definition wp {V A} (m : ghtM V A) (Q : A -> ght_state V -> Prop) (s : ght_state V) : Prop :=
  match m s with
  | Some (a, s') => Q a s'
  | None => False
  end.

Definition put_mem {V} (m : gmap addr (ght_hash_entry_t V)) (s : ght_state V) : ght_state V :=
  mk_state (ht s) m (requests s) (evictions s).
Definition put_ht {V} (t : ght_hash_table_t) (s : ght_state V) : ght_state V :=
  mk_state t (mem s) (requests s) (evictions s).

Section wp_rules.
Context {V : Type}.
Implicit Types (s : ght_state V) (p q : addr) (o : option addr).

Lemma wp_ret {A} (a : A) (Q : A -> ght_state V -> Prop) s : Q a s -> wp (mret a) Q s.
Proof. done. Qed.

Lemma wp_bind {A B} (m : ghtM V A) (f : A -> ghtM V B) Q s :
  wp m (fun a => wp (f a) Q) s -> wp (m ≫= f) Q s.
Proof. unfold wp, mbind, ghtM_bind. by destruct (m s) as [[a s']|]. Qed.

Lemma wp_mono {A} (m : ghtM V A) (Q Q' : A -> ght_state V -> Prop) s :
  wp m Q s -> (forall a s', Q a s' -> Q' a s') -> wp m Q' s.
Proof. unfold wp. destruct (m s) as [[a s']|]; [|done]. intros HQ H. by apply H. Qed.

Lemma wp_run {A} (m : ghtM V A) Q s : wp m Q s -> exists a s', m s = Some (a, s') /\ Q a s'.
Proof. unfold wp. destruct (m s) as [[a s']|]; [|done]. by exists a, s'. Qed.

Lemma wp_run_eq {A} (m : ghtM V A) r (P : ght_state V -> Prop) s :
  wp m (fun a s' => a = r /\ P s') s -> exists s', m s = Some (r, s') /\ P s'.
Proof. intros (a & s' & E & -> & H)%wp_run. by exists s'. Qed.

Lemma wp_get_ht Q s : Q (ht s) s -> wp get_ht Q s.
Proof. done. Qed.
Lemma wp_set_ht t (Q : unit -> ght_state V -> Prop) s : Q tt (put_ht t s) -> wp (set_ht t) Q s.
Proof. done. Qed.

Lemma wp_rd {A} p (f : ght_hash_entry_t V -> A) Q s e :
  mem s !! p = Some e -> Q (f e) s -> wp (rd p f) Q s.
Proof. intros E HQ. unfold wp, rd. by rewrite E. Qed.

(** Writing through a pointer that may be NULL. *)
Definition upd (o : option addr) (g : ght_hash_entry_t V -> ght_hash_entry_t V)
    (m : gmap addr (ght_hash_entry_t V)) : gmap addr (ght_hash_entry_t V) :=
  match o with
  | Some q => alter g q m
  | None => m
  end.

Lemma lookup_upd o g m q :
  upd o g m !! q = (if decide (o = Some q) then g else id) <$> m !! q.
Proof.
  destruct o as [p|]; cbn.
  - destruct (decide (p = q)) as [->|].
    + by rewrite lookup_alter_eq, decide_True.
    + rewrite lookup_alter_ne, decide_False by congruence. by rewrite option_fmap_id.
  - by rewrite option_fmap_id.
Qed.

Lemma wp_wr p g Q s : is_Some (mem s !! p) -> Q tt (put_mem (upd (Some p) g (mem s)) s) -> wp (wr p g) Q s.
Proof.
  intros [e E] HQ. unfold wp, wr. rewrite E. cbn in HQ.
  replace (<[p:=g e]> (mem s)) with (alter g p (mem s)); [done|].
  apply map_eq. intros q. destruct (decide (p = q)) as [->|].
  - by rewrite lookup_alter_eq, lookup_insert_eq, E.
  - by rewrite lookup_alter_ne, lookup_insert_ne.
Qed.

Lemma wp_if_some o g Q s :
  (forall q, o = Some q -> is_Some (mem s !! q)) -> Q tt (put_mem (upd o g (mem s)) s) ->
  wp (if_some o (fun q => wr q g)) Q s.
Proof. destruct o as [q|]; cbn; intros Hq HQ; [apply wp_wr; eauto|by destruct s]. Qed.

Lemma wp_get_bucket l o Q s :
  0 <= l -> pp_entries (ht s) !! Z.to_nat l = Some o -> Q o s -> wp (get_bucket l) Q s.
Proof.
  intros Hl E HQ. unfold get_bucket. apply wp_bind, wp_get_ht. rewrite E.
  by rewrite (proj2 (Z.leb_le 0 l)) by done.
Qed.

Definition put_bucket (l : Z) (o : option addr) (t : ght_hash_table_t) : ght_hash_table_t :=
  with_lists t (<[Z.to_nat l := o]> (pp_entries t)) (p_nr t) (p_oldest t) (p_newest t) (i_items t).

Lemma wp_set_bucket l o o' Q s :
  0 <= l -> pp_entries (ht s) !! Z.to_nat l = Some o -> Q tt (put_ht (put_bucket l o' (ht s)) s) ->
  wp (set_bucket l o') Q s.
Proof. intros Hl E HQ. apply wp_bind. eapply wp_get_bucket; [done..|]. by apply wp_bind, wp_get_ht. Qed.

Lemma wp_get_nr l n Q s :
  0 <= l -> p_nr (ht s) !! Z.to_nat l = Some n -> Q n s -> wp (get_nr l) Q s.
Proof.
  intros Hl E HQ. unfold get_nr. apply wp_bind, wp_get_ht. rewrite E.
  by rewrite (proj2 (Z.leb_le 0 l)) by done.
Qed.

Lemma wp_massert b Q s : b = true -> Q tt s -> wp (massert b) Q s.
Proof. by intros ->. Qed.

Definition put_nr (l n : Z) (t : ght_hash_table_t) : ght_hash_table_t :=
  with_lists t (pp_entries t) (<[Z.to_nat l := n]> (p_nr t)) (p_oldest t) (p_newest t) (i_items t).

Lemma wp_add_nr l n d Q s :
  0 <= l -> p_nr (ht s) !! Z.to_nat l = Some n -> - 2 ^ 31 <= n + d < 2 ^ 31 ->
  Q tt (put_ht (put_nr l (n + d) (ht s)) s) -> wp (add_nr l d) Q s.
Proof.
  intros Hl E Hn HQ. apply wp_bind. eapply wp_get_nr; [done..|]. apply wp_bind, wp_massert.
  - apply andb_true_iff. split; [apply Z.leb_le|apply Z.ltb_lt]; lia.
  - by apply wp_bind, wp_get_ht.
Qed.

Lemma upd_live o g m q : is_Some (m !! q) -> is_Some (upd o g m !! q).
Proof. rewrite lookup_upd. apply fmap_is_Some. Qed.
End wp_rules.
Arguments upd : simpl never.

(** A block that was live still is. *)
Ltac live := cbn; repeat apply upd_live; try first [done | by eexists].

(** ** The invariant *)

(** The clauses of the invariant as hypotheses. *)
Ltac rep_facts HR :=
  pose proof HR as [rep_size0 rep_mask0 rep_pp_length0 rep_nr_length0 rep_B_length0 rep_hash0
    rep_nodup0 rep_live0 rep_age0 rep_oldest0 rep_newest0 rep_chain0 rep_bucket0 rep_entry0
    rep_keys0 rep_items0].

Section invariant.
Context {V : Type}.
Implicit Types (t : ght_hash_table_t) (m : gmap addr (ght_hash_entry_t V)) (p q : addr)
  (L a b c : list addr) (B : list (list addr)).

Definition fld (f : ght_hash_entry_t V -> option addr) m p : option addr := m !! p ≫= f.

(** [L] are the entries by age, [B] the chains of the buckets. *)
Record Rep t m L B : Prop := {
  rep_size : exists k, 0 <= k <= 30 /\ i_size t = 2 ^ k;
  rep_mask : i_size_mask t = i_size t - 1;
  rep_pp_length : length (pp_entries t) = Z.to_nat (i_size t);
  rep_nr_length : length (p_nr t) = Z.to_nat (i_size t);
  rep_B_length : length B = Z.to_nat (i_size t);
  rep_hash : forall k, key_ok k -> is_u 32 (fn_hash t k);
  rep_nodup : NoDup L;
  rep_live : forall p, p ∈ L -> is_Some (m !! p);
  rep_age : links (fld p_newer m) (fld p_older m) L;
  rep_oldest : p_oldest t = head L;
  rep_newest : p_newest t = last L;
  rep_chain : forall i l, B !! i = Some l ->
    NoDup l /\ links (fld p_next m) (fld p_prev m) l /\
    pp_entries t !! i = Some (head l) /\ p_nr t !! i = Some (Z.of_nat (length l));
  rep_bucket : forall i l p, B !! i = Some l ->
    p ∈ l <-> p ∈ L /\ p_bucketidx <$> m !! p = Some (Z.of_nat i);
  rep_entry : forall p e, p ∈ L -> m !! p = Some e ->
    key_ok (key e) /\ p_bucketidx e = Z.land (fn_hash t (key e)) (i_size_mask t);
  rep_keys : forall p q e e', p ∈ L -> q ∈ L -> m !! p = Some e -> m !! q = Some e' ->
    key e = key e' -> p = q;
  rep_items : i_items t = Z.of_nat (length L) /\ Z.of_nat (length L) < 2 ^ 31
}.

(** The dictionary a table holds. *)
Definition entries m L : dict ght_hash_key_t (option V) :=
  omap (fun p => (fun e => (key e, p_data e)) <$> m !! p) L.

#[export] Instance key_eq_dec : EqDecision ght_hash_key_t.
Proof. solve_decision. Defined.

Lemma Rep_frame t m m' L B : (forall p, p ∈ L -> m' !! p = m !! p) -> Rep t m L B -> Rep t m' L B.
Proof.
  intros HE HR. rep_facts HR. constructor; try done.
  - intros p Hp. rewrite HE by done. by apply rep_live0.
  - eapply links_ext; [|done]. intros p Hp. unfold fld. by rewrite HE.
  - intros i l Hl. destruct (rep_chain0 i l Hl) as (H1 & H2 & H3). split_and!; try done; [|apply H3..].
    eapply links_ext; [|done]. intros p Hp. unfold fld. rewrite HE; [done|]. by apply (rep_bucket0 i l p Hl).
  - intros i l p Hl. rewrite rep_bucket0 by done. split; intros [Hp Hb]; (split; [done|]); by rewrite HE in *.
  - intros p e Hp. rewrite HE by done. by apply rep_entry0.
  - intros p q e e' Hp Hq. rewrite !HE by done. by apply rep_keys0.
Qed.

Lemma entries_frame m m' L :
  (forall p, p ∈ L -> (fun e => (key e, p_data e)) <$> m' !! p = (fun e => (key e, p_data e)) <$> m !! p) ->
  entries m' L = entries m L.
Proof.
  unfold entries. induction L as [|p L IH]; intros HE; [done|]. cbn.
  rewrite HE by set_solver. rewrite IH; [done|]. intros q Hq. apply HE. set_solver.
Qed.

(** A hash value picks a bucket. *)
Lemma bucket_range t m L B k :
  Rep t m L B -> key_ok k -> 0 <= Z.land (fn_hash t k) (i_size_mask t) < i_size t.
Proof.
  intros HR Hk. destruct (rep_size _ _ _ _ HR) as (n & Hn & Hs). rewrite (rep_mask _ _ _ _ HR), Hs.
  replace (2 ^ n - 1) with (Z.ones n) by (rewrite Z.ones_equiv; lia).
  rewrite Z.land_ones by lia. apply Z.mod_pos_bound. lia.
Qed.

Lemma bucket_chain t m L B k :
  Rep t m L B -> key_ok k ->
  exists l, B !! Z.to_nat (Z.land (fn_hash t k) (i_size_mask t)) = Some l.
Proof.
  intros HR Hk. pose proof (bucket_range _ _ _ _ _ HR Hk). apply lookup_lt_is_Some_2.
  rewrite (rep_B_length _ _ _ _ HR). lia.
Qed.

(** Each entry is in the chain of its bucket. *)
Lemma rep_in_chain t m L B p e :
  Rep t m L B -> p ∈ L -> m !! p = Some e ->
  0 <= p_bucketidx e /\ exists l, B !! Z.to_nat (p_bucketidx e) = Some l /\ p ∈ l.
Proof.
  intros HR Hp He. destruct (rep_entry _ _ _ _ HR p e Hp He) as [Hk Hb].
  pose proof (bucket_range _ _ _ _ _ HR Hk) as Hr. rewrite <- Hb in Hr. split; [lia|].
  destruct (bucket_chain _ _ _ _ _ HR Hk) as [l Hl]. rewrite <- Hb in Hl. exists l. split; [done|].
  apply (rep_bucket _ _ _ _ HR _ l p Hl). split; [done|]. rewrite He. cbn. f_equal. lia.
Qed.

Lemma rep_chain_in t m L B i l p : Rep t m L B -> B !! i = Some l -> p ∈ l -> p ∈ L.
Proof. intros HR Hl Hp. by apply (rep_bucket _ _ _ _ HR i l p Hl) in Hp as [? _]. Qed.

(** Chains have no entry in common. *)
Lemma rep_chains_disjoint t m L B j k l l' q :
  Rep t m L B -> B !! j = Some l -> B !! k = Some l' -> j <> k -> q ∈ l -> q ∉ l'.
Proof.
  intros HR Hj Hk Hjk Hq Hq'. apply (rep_bucket _ _ _ _ HR j l q Hj) in Hq as [_ Hq].
  apply (rep_bucket _ _ _ _ HR k l' q Hk) in Hq' as [_ Hq']. rewrite Hq in Hq'. injection Hq' as ?. lia.
Qed.

(** An entry with the pointers of its neighbours changed. *)
Definition relink (o1 v1 o2 v2 o3 v3 o4 v4 : option addr) q (e : ght_hash_entry_t V)
    : ght_hash_entry_t V :=
  mk_entry (p_data e) (p_bucketidx e)
    (if decide (o1 = Some q) then v1 else p_next e) (if decide (o2 = Some q) then v2 else p_prev e)
    (if decide (o3 = Some q) then v3 else p_older e) (if decide (o4 = Some q) then v4 else p_newer e)
    (key e).

Lemma head_app_cons {A} (x : A) l1 l2 : head (l1 ++ x :: l2) = head (l1 ++ [x]).
Proof. by destruct l1. Qed.

Lemma head_in {A} (l : list A) x : head l = Some x -> x ∈ l.
Proof. destruct l; [done|]. intros [= ->]. by left. Qed.

Lemma last_in {A} (l : list A) x : last l = Some x -> x ∈ l.
Proof. by apply last_Some_elem_of. Qed.

(** The chains after a change of chain [i] only. *)
Lemma Rep_chains t m m' L B i l l' :
  Rep t m L B -> B !! i = Some l -> NoDup l' -> links (fld p_next m') (fld p_prev m') l' ->
  (forall q, q ∈ L -> q ∉ l -> fld p_next m' q = fld p_next m q /\ fld p_prev m' q = fld p_prev m q) ->
  forall j l0, <[i := l']> B !! j = Some l0 ->
    NoDup l0 /\ links (fld p_next m') (fld p_prev m') l0 /\
    <[i := head l']> (pp_entries t) !! j = Some (head l0) /\
    <[i := Z.of_nat (length l')]> (p_nr t) !! j = Some (Z.of_nat (length l0)).
Proof.
  intros HR Hi Hnd Hl Hout j l0 Hj. destruct (rep_chain _ _ _ _ HR i l Hi) as (_ & _ & Hpp & Hnr).
  rewrite list_lookup_insert in Hj. case_decide as Hij.
  - destruct Hij as [<- _]. injection Hj as <-.
    rewrite !list_lookup_insert_eq; [done|by apply lookup_lt_Some in Hnr|by apply lookup_lt_Some in Hpp].
  - destruct (rep_chain _ _ _ _ HR j l0 Hj) as (H1 & H2 & H3 & H4).
    assert (i <> j). { intros <-. apply Hij. split; [done|]. by apply lookup_lt_Some in Hj. }
    rewrite !list_lookup_insert_ne by done. split_and!; try done.
    eapply links_ext; [|done]. intros q Hq. apply Hout; [by eapply rep_chain_in|].
    by eapply (rep_chains_disjoint _ _ _ _ j i).
Qed.

(** Which bucket an entry is in, after the same change. *)
Lemma Rep_buckets t m m' L L' B i l l' :
  Rep t m L B -> B !! i = Some l ->
  (forall q, q ∈ l' <-> q ∈ L' /\ p_bucketidx <$> m' !! q = Some (Z.of_nat i)) ->
  (forall j q, i <> j -> q ∈ L /\ p_bucketidx <$> m !! q = Some (Z.of_nat j) <->
     q ∈ L' /\ p_bucketidx <$> m' !! q = Some (Z.of_nat j)) ->
  forall j l0 q, <[i := l']> B !! j = Some l0 ->
    q ∈ l0 <-> q ∈ L' /\ p_bucketidx <$> m' !! q = Some (Z.of_nat j).
Proof.
  intros HR Hi Hin Hout j l0 q Hj. rewrite list_lookup_insert in Hj. case_decide as Hij.
  - destruct Hij as [<- _]. injection Hj as <-. apply Hin.
  - rewrite (rep_bucket _ _ _ _ HR j l0 q Hj). apply Hout. intros <-. apply Hij. split; [done|].
    by apply lookup_lt_Some in Hj.
Qed.

(** Taking the entry [p] out of both lists. *)
Lemma Rep_remove t m t' m' a b p c d i B :
  Rep t m (a ++ p :: b) B -> B !! i = Some (c ++ p :: d) ->
  (forall q, q ∈ a ++ b -> m' !! q =
     relink (last c) (head d) (head d) (last c) (head b) (last a) (last a) (head b) q <$> m !! q) ->
  t' = with_lists t (<[i := head (c ++ d)]> (pp_entries t))
         (<[i := Z.of_nat (length (c ++ p :: d)) - 1]> (p_nr t))
         (head (a ++ b)) (last (a ++ b)) (i_items t - 1) ->
  Rep t' m' (a ++ b) (<[i := c ++ d]> B).
Proof.
  intros HR Hi HM ->. rep_facts HR.
  assert (Hpab : p ∉ a ++ b).
  { apply NoDup_app in rep_nodup0 as (_ & Ha & [Hp _]%NoDup_cons). specialize (Ha p). set_solver. }
  assert (Hsub : forall q, q ∈ a ++ b -> q ∈ a ++ p :: b) by set_solver.
  destruct (rep_chain0 i _ Hi) as (Hcd & Hlinks & Hpp & Hnr).
  assert (Hpcd : p ∉ c ++ d).
  { apply NoDup_app in Hcd as (_ & Ha & [Hp _]%NoDup_cons). specialize (Ha p). set_solver. }
  assert (Hidx : forall q, q ∈ a ++ b -> p_bucketidx <$> m' !! q = p_bucketidx <$> m !! q).
  { intros q Hq. rewrite HM by done. by destruct (m !! q). }
  assert (Hfld : forall q, q ∈ a ++ b -> exists e, m !! q = Some e /\ m' !! q =
     Some (relink (last c) (head d) (head d) (last c) (head b) (last a) (last a) (head b) q e)).
  { intros q Hq. rewrite HM by done. destruct (rep_live0 q (Hsub q Hq)) as [e ->]. by exists e. }
  assert (Hin : forall q, q ∈ c ++ d -> q ∈ a ++ b).
  { intros q Hq. assert (q ∈ a ++ p :: b) as Hq' by (apply (rep_bucket0 i _ q Hi); set_solver).
    rewrite elem_of_app, elem_of_cons in Hq'. rewrite elem_of_app. destruct Hq' as [?|[->|?]]; tauto. }
  constructor; cbn; try done.
  - by rewrite length_insert.
  - by rewrite length_insert.
  - by rewrite length_insert.
  - apply NoDup_app in rep_nodup0 as (H1 & H2 & [_ H3]%NoDup_cons). apply NoDup_app. set_solver.
  - intros q Hq. rewrite HM by done. destruct (rep_live0 q (Hsub q Hq)) as [e ->]. by eexists.
  - eapply (links_remove (fld p_newer m) (fld p_older m) _ _ a p b); [done|done|].
    intros q Hq. destruct (Hfld q Hq) as (e & E & E'). unfold fld. by rewrite E, E'.
  - replace (Z.of_nat (length (c ++ p :: d)) - 1) with (Z.of_nat (length (c ++ d))) by (rewrite !length_app; cbn; lia).
    eapply Rep_chains; [exact HR|exact Hi| | |].
    + apply NoDup_app in Hcd as (H1 & H2 & [_ H3]%NoDup_cons). apply NoDup_app. set_solver.
    + eapply (links_remove (fld p_next m) (fld p_prev m) _ _ c p d); [done|done|].
      intros q Hq. destruct (Hfld q (Hin q Hq)) as (e & E & E'). unfold fld. by rewrite E, E'.
    + intros q Hq Hqc. destruct (Hfld q) as (e & E & E'); [set_solver|]. unfold fld. rewrite E, E'. cbn.
      rewrite !decide_False; [done|intros ?%head_in|intros ?%last_in]; set_solver.
  - pose proof (rep_bucket0 i _ p Hi) as [[_ Hpi] _]; [set_solver|].
    eapply Rep_buckets; [exact HR|exact Hi| |].
    + intros q. split.
      * intros Hq. split; [by apply Hin|]. rewrite Hidx by (by apply Hin). apply (rep_bucket0 i _ q Hi). set_solver.
      * intros [Hq Hb]. rewrite Hidx in Hb by done.
        assert (q ∈ c ++ p :: d) by (by apply (rep_bucket0 i _ q Hi); auto). set_solver.
    + intros j q Hij. split; intros [Hq Hb]; [|rewrite Hidx in Hb by done; by auto].
      assert (q <> p) by (intros ->; rewrite Hb in Hpi; injection Hpi as ?; lia).
      assert (q ∈ a ++ b) by set_solver. by rewrite Hidx.
  - intros q e' Hq. destruct (Hfld q Hq) as (e & E & ->). intros [= <-]. cbn.
    by apply (rep_entry0 q e (Hsub q Hq)).
  - intros q q' e e' Hq Hq'. destruct (Hfld q Hq) as (e1 & E1 & ->), (Hfld q' Hq') as (e2 & E2 & ->).
    intros [= <-] [= <-]. cbn. apply rep_keys0; auto.
  - rewrite length_app in *. cbn in rep_items0. lia.
Qed.
End invariant.
