(* ===== verification/HashTableRemove.v ===== *)
(** * The hash table: searching and removing

    Proofs about [search_in_bucket], [remove_from_chain], [ght_remove] and
    [ght_remove_first] of [HashTable]. *)

From S2P Require Import Prelude HashFunctions GhtIface HashTable HashTableRep.

(** ** Taking an entry out *)

Section removal.
Context {V : Type}.
Implicit Types (s : ght_state V) (m : gmap addr (ght_hash_entry_t V)) (p q : addr)
  (L a b c d : list addr) (B : list (list addr)).

Lemma wp_unlink_bucket l p e o Q s :
  mem s !! p = Some e -> p_prev e <> Some p -> p_next e <> Some p ->
  (forall q, p_prev e = Some q -> is_Some (mem s !! q)) ->
  (forall q, p_next e = Some q -> is_Some (mem s !! q)) ->
  0 <= l -> pp_entries (ht s) !! Z.to_nat l = Some o ->
  Q tt (put_ht (match p_prev e with Some _ => ht s | None => put_bucket l (p_next e) (ht s) end)
    (put_mem (upd (p_next e) (set_p_prev (p_prev e)) (upd (p_prev e) (set_p_next (p_next e)) (mem s))) s)) ->
  wp (unlink_bucket l p) Q s.
Proof.
  intros He Hp1 Hp2 H1 H2 Hl Hb HQ. unfold unlink_bucket.
  apply wp_bind, (wp_rd _ _ _ _ e He). apply wp_bind, (wp_rd _ _ _ _ e He).
  apply wp_bind. apply (wp_mono _ (fun _ s' => s' =
    put_ht (match p_prev e with Some _ => ht s | None => put_bucket l (p_next e) (ht s) end)
      (put_mem (upd (p_prev e) (set_p_next (p_next e)) (mem s)) s))).
  { destruct (p_prev e) as [q|]; [apply wp_wr; [by apply H1|by destruct s]|].
    eapply wp_set_bucket; [done..|by destruct s]. }
  intros _ s' ->. set (s' := put_ht _ _).
  assert (He' : mem s' !! p = Some e) by (cbn; rewrite lookup_upd, decide_False, He by done; done).
  apply wp_bind, (wp_rd _ _ _ _ e He'). apply wp_bind, (wp_rd _ _ _ _ e He').
  apply wp_if_some; [|done].
  intros q Hq. cbn. rewrite lookup_upd. destruct (H2 q Hq) as [e' ->]. by eexists.
Qed.

Lemma wp_unlink_age p e Q s :
  mem s !! p = Some e -> p_older e <> Some p -> p_newer e <> Some p ->
  (forall q, p_older e = Some q -> is_Some (mem s !! q)) ->
  (forall q, p_newer e = Some q -> is_Some (mem s !! q)) ->
  Q tt (put_ht (with_lists (ht s) (pp_entries (ht s)) (p_nr (ht s))
                  (match p_older e with Some _ => p_oldest (ht s) | None => p_newer e end)
                  (match p_newer e with Some _ => p_newest (ht s) | None => p_older e end)
                  (i_items (ht s)))
    (put_mem (upd (p_newer e) (set_p_older (p_older e)) (upd (p_older e) (set_p_newer (p_newer e)) (mem s))) s)) ->
  wp (unlink_age p) Q s.
Proof.
  intros He Hp1 Hp2 H1 H2 HQ. unfold unlink_age.
  apply wp_bind, (wp_rd _ _ _ _ e He). apply wp_bind, (wp_rd _ _ _ _ e He).
  apply wp_bind. apply (wp_mono _ (fun _ s' => s' =
    put_ht (with_lists (ht s) (pp_entries (ht s)) (p_nr (ht s))
              (match p_older e with Some _ => p_oldest (ht s) | None => p_newer e end)
              (p_newest (ht s)) (i_items (ht s)))
      (put_mem (upd (p_older e) (set_p_newer (p_newer e)) (mem s)) s))).
  { destruct (p_older e) as [q|]; [apply wp_wr; [by apply H1|by destruct s as [[] ? ? ?]]|].
    unfold set_oldest. by apply wp_bind, wp_get_ht. }
  intros _ s' ->. set (s' := put_ht _ _).
  assert (He' : mem s' !! p = Some e) by (cbn; rewrite lookup_upd, decide_False, He by done; done).
  apply wp_bind, (wp_rd _ _ _ _ e He'). apply wp_bind, (wp_rd _ _ _ _ e He').
  destruct (p_newer e) as [q|].
  - apply wp_wr; [|done]. cbn. rewrite lookup_upd. destruct (H2 q eq_refl) as [e' ->]. by eexists.
  - unfold set_newest. by apply wp_bind, wp_get_ht.
Qed.

Lemma last_app_none {A} (l1 l2 : list A) : last l1 = None -> l1 ++ l2 = l2.
Proof. by intros ->%last_None. Qed.

Lemma head_app_some {A} (l1 l2 : list A) x : last l1 = Some x -> head (l1 ++ l2) = head l1.
Proof. by destruct l1. Qed.

Lemma last_app_some {A} (l1 l2 : list A) x : head l2 = Some x -> last (l1 ++ l2) = last l2.
Proof. destruct l2; [done|]. intros _. rewrite last_app_cons. done. Qed.

(** The pointers of an entry in the two lists. *)
Lemma rep_links t m a b p c d i B e :
  Rep t m (a ++ p :: b) B -> B !! i = Some (c ++ p :: d) -> m !! p = Some e ->
  p_next e = head d /\ p_prev e = last c /\ p_newer e = head b /\ p_older e = last a.
Proof.
  intros HR Hi He. destruct (rep_age _ _ _ _ HR a p b eq_refl) as [H1 H2].
  destruct (rep_chain _ _ _ _ HR i _ Hi) as (_ & H3 & _). destruct (H3 c p d eq_refl) as [H4 H5].
  unfold fld in *. by rewrite He in *.
Qed.

Lemma wp_remove_from_chain a b p c d i B Q s :
  Rep (ht s) (mem s) (a ++ p :: b) B -> B !! i = Some (c ++ p :: d) ->
  (forall m', (forall q, m' !! q =
      relink (last c) (head d) (head d) (last c) (head b) (last a) (last a) (head b) q <$> mem s !! q) ->
    Q tt (put_ht (with_lists (ht s) (<[i := head (c ++ d)]> (pp_entries (ht s))) (p_nr (ht s))
                    (head (a ++ b)) (last (a ++ b)) (i_items (ht s))) (put_mem m' s))) ->
  wp (remove_from_chain (Z.of_nat i) p) Q s.
Proof.
  intros HR Hi HQ. rep_facts HR.
  destruct (rep_live0 p) as [e He]; [set_solver|].
  destruct (rep_links _ _ _ _ _ _ _ _ _ _ HR Hi He) as (E1 & E2 & E3 & E4).
  destruct (rep_chain0 i _ Hi) as (Hcd & _ & Hpp & _).
  assert (Hlive : forall q, q ∈ c ++ p :: d -> is_Some (mem s !! q)).
  { intros q Hq. apply rep_live0. by apply (rep_chain_in _ _ _ _ i _ _ HR Hi). }
  apply NoDup_app in Hcd as (_ & Hc & [Hd _]%NoDup_cons).
  apply NoDup_app in rep_nodup0 as (_ & Ha & [Hb _]%NoDup_cons).
  assert (Hlast : forall l q, last l = Some q -> q ∈ l) by (intros; by apply last_Some_elem_of).
  assert (Hhead : forall l q, head l = Some q -> q ∈ l) by (intros [|? ?] ?; [done|intros [= ->]; by left]).
  apply wp_bind. apply (wp_unlink_bucket _ _ e (head (c ++ p :: d))); try done; try lia.
  - rewrite E2. intros ?%Hlast. apply (Hc p); set_solver.
  - rewrite E1. by intros ?%Hhead.
  - rewrite E2. intros q ?%Hlast. apply Hlive. set_solver.
  - rewrite E1. intros q ?%Hhead. apply Hlive. set_solver.
  - by rewrite Nat2Z.id.
  - rewrite E1, E2. set (s' := put_ht _ _).
    assert (Hm1 : forall q, mem s' !! q = relink (last c) (head d) (head d) (last c) None None None None q <$> mem s !! q).
    { intros q. cbn. rewrite !lookup_upd. destruct (mem s !! q) as [[]|]; [|done]. cbn. unfold relink.
      by repeat case_decide. }
    assert (He' : mem s' !! p = Some e).
    { rewrite Hm1, He. cbn. f_equal. unfold relink. rewrite !decide_False; try done; first by destruct e.
      all: first [by intros ?%Hhead | intros ?%Hlast; apply (Hc p); set_solver]. }
    apply (wp_unlink_age _ e); try done.
    + rewrite E4. intros ?%Hlast. apply (Ha p); set_solver.
    + rewrite E3. by intros ?%Hhead.
    + rewrite E4. intros q ?%Hlast. rewrite Hm1. apply fmap_is_Some, rep_live0. set_solver.
    + rewrite E3. intros q ?%Hhead. rewrite Hm1. apply fmap_is_Some, rep_live0. set_solver.
    + rewrite E3, E4.
      match goal with |- Q tt (put_ht ?t' (put_mem ?m' _)) => specialize (HQ m') end.
      replace (put_ht _ _) with (put_ht (with_lists (ht s) (<[i:=head (c ++ d)]> (pp_entries (ht s)))
        (p_nr (ht s)) (head (a ++ b)) (last (a ++ b)) (i_items (ht s))) (put_mem
        (upd (head b) (set_p_older (last a)) (upd (last a) (set_p_newer (head b)) (mem s'))) s)); [apply HQ|].
      * intros q. rewrite !lookup_upd, Hm1. destruct (mem s !! q) as [[]|]; [|done]. cbn. unfold relink.
        cbn. by repeat case_decide.
      * unfold put_ht, put_mem. cbn. f_equal. unfold with_lists. f_equal.
        all: cbn; destruct (last c) eqn:Elc; cbn; try done.
        -- rewrite (head_app_some _ _ _ Elc). rewrite list_insert_id; [done|].
           rewrite Hpp. by rewrite (head_app_some _ _ _ Elc).
        -- by rewrite (last_app_none _ _ Elc), Nat2Z.id.
        -- destruct (last a) eqn:Ela; [|by rewrite (last_app_none _ _ Ela)].
           rewrite rep_oldest0. by rewrite !(head_app_some _ _ _ Ela).
        -- destruct (last a) eqn:Ela; [|by rewrite (last_app_none _ _ Ela)].
           rewrite rep_oldest0. by rewrite !(head_app_some _ _ _ Ela).
        -- destruct b as [|x b]; [by rewrite app_nil_r|]. cbn. rewrite rep_newest0.
           by rewrite !last_app_cons, last_cons_cons.
        -- destruct b as [|x b]; [by rewrite app_nil_r|]. cbn. rewrite rep_newest0.
           by rewrite !last_app_cons, last_cons_cons.
Qed.
End removal.

(** ** Entries *)

Section entries_facts.
Context {V : Type}.
Implicit Types (m : gmap addr (ght_hash_entry_t V)) (p q : addr) (L a b : list addr)
  (B : list (list addr)).

Lemma entries_app m a b : entries m (a ++ b) = entries m a ++ entries m b.
Proof. unfold entries. apply omap_app. Qed.

Lemma entries_cons m p b e : m !! p = Some e -> entries m (p :: b) = (key e, p_data e) :: entries m b.
Proof. intros E. unfold entries. cbn. by rewrite E. Qed.

Lemma entries_elem m L k d :
  (k, d) ∈ entries m L <-> exists p e, p ∈ L /\ m !! p = Some e /\ key e = k /\ p_data e = d.
Proof.
  unfold entries. rewrite list_elem_of_omap. split.
  - intros (p & Hp & E). destruct (m !! p) as [e|] eqn:He; [|done]. injection E as <- <-. by exists p, e.
  - intros (p & e & Hp & He & <- & <-). exists p. by rewrite He.
Qed.

Lemma entries_key m L k :
  k ∈ (entries m L).*1 <-> exists p e, p ∈ L /\ m !! p = Some e /\ key e = k.
Proof.
  rewrite list_elem_of_fmap. split.
  - intros ([k' d] & -> & (p & e & ? & ? & ? & ?)%entries_elem). by exists p, e.
  - intros (p & e & Hp & He & Hk). exists (k, p_data e). split; [done|]. apply entries_elem. by exists p, e.
Qed.

Lemma entries_length m L : (forall p, p ∈ L -> is_Some (m !! p)) -> length (entries m L) = length L.
Proof.
  induction L as [|p L IH]; intros HL; [done|]. destruct (HL p) as [e He]; [by left|].
  rewrite (entries_cons _ _ _ _ He). cbn. rewrite IH; [done|]. intros q Hq. apply HL. by right.
Qed.

(** Distinct keys make the list of entries a dictionary. *)
Lemma entries_nodup m L :
  NoDup L -> (forall p, p ∈ L -> is_Some (m !! p)) ->
  (forall p q e e', p ∈ L -> q ∈ L -> m !! p = Some e -> m !! q = Some e' -> key e = key e' -> p = q) ->
  NoDup (entries m L).*1.
Proof.
  induction L as [|p L IH]; intros Hnd HL HK; [constructor|]. destruct (HL p) as [e He]; [by left|].
  apply NoDup_cons in Hnd as [Hp Hnd]. rewrite (entries_cons _ _ _ _ He). cbn. constructor.
  - intros (q & e' & Hq & He' & Hk)%entries_key. apply Hp.
    rewrite (HK p q e e'); [done|by left|by right|done..].
  - apply IH; [done| |].
    + intros q Hq. apply HL. by right.
    + intros q q' e1 e2 Hq Hq'. apply HK; by right.
Qed.

Lemma rep_entries_nodup t m L B : Rep t m L B -> NoDup (entries m L).*1.
Proof.
  intros HR. apply entries_nodup; [by eapply rep_nodup|by eapply rep_live|by eapply rep_keys].
Qed.

Lemma dict_find_in {K W} `{EqDecision K} k (v : W) (d : dict K W) :
  NoDup d.*1 -> (k, v) ∈ d -> dict_find k d = Some v.
Proof.
  induction d as [|[k' w] d IH]; cbn; [by intros _ ?%elem_of_nil|]. intros [Hk Hd]%NoDup_cons.
  rewrite elem_of_cons. intros [[= -> ->]|Hin]; [by rewrite decide_True|].
  rewrite decide_False; [by apply IH|]. intros ->. apply Hk. apply list_elem_of_fmap. by exists (k', v).
Qed.

Lemma rep_find t m L B p e :
  Rep t m L B -> p ∈ L -> m !! p = Some e -> dict_find (key e) (entries m L) = Some (p_data e).
Proof.
  intros HR Hp He. apply dict_find_in; [by eapply rep_entries_nodup|].
  apply entries_elem. by exists p, e.
Qed.

Lemma rep_find_none m L k :
  (forall p e, p ∈ L -> m !! p = Some e -> key e <> k) -> k ∉ (entries m L).*1.
Proof. intros HN (p & e & Hp & He & Hk)%entries_key. by eapply HN. Qed.

Lemma dict_find_none {K W} `{EqDecision K} k (d : dict K W) : k ∉ d.*1 -> dict_find k d = None.
Proof. rewrite dict_find_elem. destruct (dict_find k d); [|done]. intros []. by eexists. Qed.

Lemma dict_without_app {K W} `{EqDecision K} k (d1 d2 : dict K W) :
  dict_without k (d1 ++ d2) = dict_without k d1 ++ dict_without k d2.
Proof. induction d1 as [|[k' v] d1 IH]; cbn; [done|]. rewrite IH. by case_decide. Qed.

Lemma rep_entries_without t m a p b B e :
  Rep t m (a ++ p :: b) B -> m !! p = Some e ->
  entries m (a ++ b) = dict_without (key e) (entries m (a ++ p :: b)).
Proof.
  intros HR He. pose proof (rep_entries_nodup _ _ _ _ HR) as Hnd.
  rewrite !entries_app, (entries_cons _ _ _ _ He) in *. rewrite dict_without_app. cbn.
  rewrite decide_True by done. rewrite fmap_app in Hnd. cbn in Hnd.
  apply NoDup_app in Hnd as (_ & Ha & [Hb _]%NoDup_cons).
  rewrite !dict_without_notin; [done|done|]. intros Hk. apply (Ha _ Hk). by left.
Qed.
End entries_facts.

(** ** Searching *)

Section search.
Context {V : Type}.
Implicit Types (s : ght_state V) (m : gmap addr (ght_hash_entry_t V)) (p q : addr)
  (L a b c d : list addr) (B : list (list addr)).

Lemma key_matches_ok k k' : key_ok k -> key_ok k' -> key_matches k k' = bool_decide (k = k').
Proof.
  destruct k as [n bs], k' as [n' bs']. unfold key_ok, key_matches. cbn. intros [-> _] [-> _].
  rewrite Nat2Z.id, firstn_all. destruct (Z.eqb_spec (Z.of_nat (length bs)) (Z.of_nat (length bs'))) as [E|E]; cbn.
  - apply Nat2Z.inj in E. rewrite E, firstn_all. apply bool_decide_ext. split; [by intros ->|by intros [= ->]].
  - symmetry. apply bool_decide_eq_false. intros [= _ ->]. done.
Qed.

(** What the search does with a match. *)
Definition heuristic (h l_bucket : Z) p : ghtM V unit :=
  if h =? GHT_HEURISTICS_MOVE_TO_FRONT then move_to_front l_bucket p
  else if h =? GHT_HEURISTICS_TRANSPOSE then transpose l_bucket p
  else mret tt.

Lemma wp_search_loop L B i k h Q s b : forall a fuel,
  Rep (ht s) (mem s) L B -> key_ok k -> B !! i = Some (a ++ b) -> (length b <= fuel)%nat ->
  (forall p e, p ∈ a -> mem s !! p = Some e -> key e <> k) ->
  ((forall p e, p ∈ a ++ b -> mem s !! p = Some e -> key e <> k) -> Q None s) ->
  (forall p e c d, a ++ b = c ++ p :: d -> mem s !! p = Some e -> key e = k ->
     wp (heuristic h (Z.of_nat i) p) (fun _ => Q (Some p)) s) ->
  wp (search_loop fuel (Z.of_nat i) k h (head b)) Q s.
Proof.
  induction b as [|p b IH]; intros a fuel HR Hk Hi Hfuel Ha HN HS.
  - destruct fuel; apply HN; by rewrite app_nil_r.
  - destruct fuel as [|fuel]; [cbn in Hfuel; lia|]. cbn [head search_loop].
    assert (Hp : p ∈ L) by (eapply rep_chain_in; [done|done|set_solver]).
    destruct (rep_live _ _ _ _ HR p Hp) as [e He].
    destruct (rep_entry _ _ _ _ HR p e Hp He) as [Hke _].
    apply wp_bind, (wp_rd _ _ _ _ e He). rewrite key_matches_ok by done. case_bool_decide as Hkk.
    + apply wp_bind. eapply wp_mono; [by apply (HS p e a b)|]. by intros [] s' ?.
    + apply wp_bind, (wp_rd _ _ _ _ e He).
      destruct (rep_chain _ _ _ _ HR i _ Hi) as (_ & Hl & _). destruct (Hl a p b eq_refl) as [Hn _].
      unfold fld in Hn. rewrite He in Hn. cbn in Hn. rewrite Hn.
      rewrite cons_middle, app_assoc in Hi, HN, HS. apply (IH (a ++ [p])); try done; [cbn in Hfuel; lia|].
      intros q e' [Hq|Hq]%elem_of_app; [by apply Ha|]. apply list_elem_of_singleton in Hq as ->.
      rewrite He. by intros [= <-].
Qed.

(** The chains fit the fuel. *)
Lemma live_length m L : NoDup L -> (forall p, p ∈ L -> is_Some (m !! p)) -> (length L <= size m)%nat.
Proof.
  intros Hnd HL. rewrite <- size_dom. rewrite <- (size_list_to_set (C := gset addr) L) by done.
  apply subseteq_size. intros p Hp%elem_of_list_to_set. by apply elem_of_dom, HL.
Qed.

Lemma wp_bucket_of k Q s :
  Q (Z.land (fn_hash (ht s) k) (i_size_mask (ht s))) s -> wp (bucket_of k) Q s.
Proof. intros HQ. apply wp_bind. by apply wp_get_ht. Qed.

Lemma wp_search L B k h Q s :
  Rep (ht s) (mem s) L B -> key_ok k ->
  ((forall p e, p ∈ L -> mem s !! p = Some e -> key e <> k) -> Q None s) ->
  (forall i p e a b c d, L = a ++ p :: b -> mem s !! p = Some e -> key e = k ->
     Z.land (fn_hash (ht s) k) (i_size_mask (ht s)) = Z.of_nat i -> B !! i = Some (c ++ p :: d) ->
     wp (heuristic (wrap 8 h) (Z.of_nat i) p) (fun _ => Q (Some p)) s) ->
  wp (search_in_bucket (Z.land (fn_hash (ht s) k) (i_size_mask (ht s))) k h) Q s.
Proof.
  intros HR Hk HN HS. pose proof (bucket_range _ _ _ _ k HR Hk) as Hr.
  destruct (bucket_chain _ _ _ _ k HR Hk) as [l Hl].
  set (x := Z.land _ _) in *. destruct (Z_of_nat_complete x) as [i Hx]; [lia|].
  rewrite Hx, Nat2Z.id in *. destruct (rep_chain _ _ _ _ HR i l Hl) as (Hnd & _ & Hpp & _).
  unfold search_in_bucket. apply wp_bind. eapply wp_get_bucket; [lia|by rewrite Nat2Z.id|].
  apply wp_bind. unfold wp at 1, mem_fuel.
  assert (HlL : forall p, p ∈ l -> p ∈ L) by (intros p; by eapply rep_chain_in).
  apply (wp_search_loop L B i k _ Q s l []); try done.
  - apply le_S, live_length; [done|]. intros p Hp. by apply (rep_live _ _ _ _ HR), HlL.
  - by intros p e ?%elem_of_nil.
  - intros Hnone. apply HN. intros p e Hp He Hke. eapply Hnone; [|done|done].
    apply (rep_bucket _ _ _ _ HR i l p Hl). split; [done|]. rewrite He. cbn. f_equal.
    destruct (rep_entry _ _ _ _ HR p e Hp He) as [_ ->]. by rewrite Hke.
  - intros p e c d E He Hke. cbn in E. subst l. assert (Hp : p ∈ L) by (apply HlL; set_solver).
    apply list_elem_of_split in Hp as (a & b & ->). by eapply HS.
Qed.

Lemma wp_assert_first L B k Q s :
  Rep (ht s) (mem s) L B -> key_ok k -> Q tt s ->
  wp (assert_first (Z.land (fn_hash (ht s) k) (i_size_mask (ht s)))) Q s.
Proof.
  intros HR Hk HQ. pose proof (bucket_range _ _ _ _ k HR Hk) as Hr.
  destruct (bucket_chain _ _ _ _ k HR Hk) as [l Hl]. set (x := Z.land _ _) in *.
  destruct (rep_chain _ _ _ _ HR _ l Hl) as (_ & Hlk & Hpp & _).
  apply wp_bind. eapply wp_get_bucket; [lia|done|]. destruct l as [|p l]; [done|].
  destruct (rep_live _ _ _ _ HR p) as [e He]; [eapply rep_chain_in; [done|done|by left]|].
  destruct (Hlk [] p l eq_refl) as [_ Hp]. unfold fld in Hp. rewrite He in Hp. cbn in Hp |- *.
  apply wp_bind, (wp_rd _ _ _ _ e He). apply wp_massert; [|done]. by rewrite Hp.
Qed.
End search.

(** ** Removal *)

(** A table in state [s] holds the dictionary [D]. *)
Definition holds {V} (s : ght_state V) (D : dict ght_hash_key_t (option V)) : Prop :=
  exists L B, Rep (ht s) (mem s) L B /\ entries (mem s) L = D.

(** The parts of a table that say how it behaves. *)
Definition config (t : ght_hash_table_t) :=
  (fn_hash t, fn_bucket_free t, i_heuristics t, i_automatic_rehash t, bucket_limit t).

Section removing.
Context {V : Type}.
Implicit Types (s : ght_state V) (m : gmap addr (ght_hash_entry_t V)) (p q : addr)
  (L a b c d : list addr) (B : list (list addr)).

Lemma wp_he_finalize p Q s :
  is_Some (mem s !! p) -> Q tt (put_mem (delete p (mem s)) s) -> wp (he_finalize p) Q s.
Proof.
  intros Hp HQ. unfold he_finalize.
  do 4 (apply wp_bind, wp_wr; [live|]).
  unfold wp, free_entry. cbn. destruct Hp as [e He].
  rewrite !lookup_upd, He, decide_True by done. cbn.
  match goal with |- Q tt (mk_state _ ?m _ _) => replace m with (delete p (mem s)) end; [done|].
  apply map_eq. intros q. destruct (decide (p = q)) as [->|].
  - by rewrite !lookup_delete_eq.
  - rewrite !lookup_delete_ne by done. rewrite !lookup_upd, !decide_False by congruence.
    by rewrite !option_fmap_id.
Qed.

Lemma wp_set_items n Q s :
  Q tt (put_ht (with_lists (ht s) (pp_entries (ht s)) (p_nr (ht s)) (p_oldest (ht s)) (p_newest (ht s)) n) s) ->
  wp (set_items n) Q s.
Proof. intros HQ. unfold set_items. by apply wp_bind, wp_get_ht. Qed.

(** The bytes of the neighbours' blocks that matter are the pointers. *)
Lemma entries_relink m m' o1 v1 o2 v2 o3 v3 o4 v4 L :
  (forall q, q ∈ L -> m' !! q = relink o1 v1 o2 v2 o3 v3 o4 v4 q <$> m !! q) -> entries m' L = entries m L.
Proof. intros HE. apply entries_frame. intros q Hq. rewrite HE by done. by destruct (m !! q). Qed.

(** What removing the entry [p] leaves. *)
Definition removed s a p b (c d : list addr) (i : nat) B (s' : ght_state V) : Prop :=
  Rep (ht s') (mem s') (a ++ b) (<[i := c ++ d]> B) /\
  entries (mem s') (a ++ b) = entries (mem s) (a ++ b) /\
  config (ht s') = config (ht s) /\ requests s' = requests s /\ evictions s' = evictions s.

(** The part [ght_remove] and [ght_remove_first] share. *)
Lemma removed_intro s m' a p b c d i B :
  Rep (ht s) (mem s) (a ++ p :: b) B -> B !! i = Some (c ++ p :: d) ->
  (forall q, q ∈ a ++ b -> m' !! q =
     relink (last c) (head d) (head d) (last c) (head b) (last a) (last a) (head b) q <$> mem s !! q) ->
  removed s a p b c d i B
    (put_ht (with_lists (ht s) (<[i := head (c ++ d)]> (pp_entries (ht s)))
         (<[i := Z.of_nat (length (c ++ p :: d)) - 1]> (p_nr (ht s)))
         (head (a ++ b)) (last (a ++ b)) (i_items (ht s) - 1)) (put_mem m' s)).
Proof.
  intros HR Hi HM. split_and!; try done; cbn.
  - by eapply Rep_remove.
  - by eapply entries_relink.
Qed.

Lemma rep_not_in t m a p b B : Rep t m (a ++ p :: b) B -> p ∉ a ++ b.
Proof.
  intros HR. pose proof (rep_nodup _ _ _ _ HR) as (_ & Ha & [Hp _]%NoDup_cons)%NoDup_app.
  intros [?|?]%elem_of_app; [|done]. apply (Ha p); [done|by left].
Qed.

Lemma u32_items_pred t m L B : Rep t m L B -> L <> [] -> u32 (i_items t - 1) = i_items t - 1.
Proof.
  intros HR HL. destruct (rep_items _ _ _ _ HR) as [-> H]. apply wrap_small.
  destruct L; [done|]. unfold is_u. cbn [length] in *. lia.
Qed.

(** The counter of the bucket of a member. *)
Lemma rep_nr t m L B i l : Rep t m L B -> B !! i = Some l ->
  p_nr t !! i = Some (Z.of_nat (length l)) /\ (i < length (p_nr t))%nat /\ Z.of_nat (length l) < 2 ^ 31.
Proof.
  intros HR Hl. destruct (rep_chain _ _ _ _ HR i l Hl) as (Hnd & _ & _ & Hnr).
  split; [done|]. split; [by apply lookup_lt_Some in Hnr|].
  destruct (rep_items _ _ _ _ HR) as [_ Hi]. apply Z.le_lt_trans with (Z.of_nat (length L)); [|done].
  apply inj_le. apply submseteq_length, NoDup_submseteq; [done|].
  intros p Hp. by eapply rep_chain_in.
Qed.

Lemma wp_ght_remove_first L B Q s :
  Rep (ht s) (mem s) L B ->
  (L = [] -> Q None s) ->
  (forall p e b c d i s', L = p :: b -> mem s !! p = Some e -> B !! i = Some (c ++ p :: d) ->
     removed s [] p b c d i B s' -> Q (p_data e) s') ->
  wp ght_remove_first Q s.
Proof.
  intros HR HN HS. apply wp_bind, wp_get_ht. rewrite (rep_oldest _ _ _ _ HR).
  destruct L as [|p b]; [by apply HN|]. cbn.
  destruct (rep_live _ _ _ _ HR p) as [e He]; [by left|].
  destruct (rep_in_chain _ _ _ _ p e HR) as (Hidx & l & Hl & Hpl); [by left|done|].
  apply list_elem_of_split in Hpl as (c & d & ->).
  destruct (Z_of_nat_complete (p_bucketidx e)) as [i Hx]; [done|]. rewrite Hx, Nat2Z.id in Hl.
  destruct (rep_nr _ _ _ _ i _ HR Hl) as (Hnr & Hnrl & Hlt).
  apply wp_bind, (wp_rd _ _ _ _ e He). rewrite Hx.
  apply wp_bind. apply (wp_remove_from_chain [] b p c d i B); [done|done|]. intros m' HM.
  apply wp_bind, wp_get_ht. apply wp_bind, wp_set_items. cbn [ht put_ht with_lists i_items].
  rewrite (u32_items_pred _ _ _ _ HR) by done.
  assert (Hp : exists e', m' !! p = Some e' /\ p_bucketidx e' = p_bucketidx e /\ p_data e' = p_data e).
  { rewrite HM, He. by eexists. }
  destruct Hp as (e' & He' & Hi' & Hd').
  apply wp_bind, (wp_rd _ _ _ _ e'); [done|]. rewrite Hi', Hx.
  apply wp_bind. eapply wp_add_nr; [lia|rewrite Nat2Z.id; cbn; exact Hnr|lia|].
  apply wp_bind, (wp_rd _ _ _ _ e'); [done|]. rewrite Hd'.
  apply wp_bind, wp_he_finalize; [by eexists|]. apply wp_ret. eapply HS; [done|done|done|].
  unfold put_nr. cbn. rewrite Nat2Z.id.
  apply (removed_intro s (delete p m') [] p b c d i B HR Hl).
  intros q Hq. rewrite lookup_delete_ne, HM; [done|]. intros ->. by apply (rep_not_in _ _ [] _ _ _ HR).
Qed.

Lemma wp_ght_remove k L B Q s :
  Rep (ht s) (mem s) L B -> key_ok k ->
  ((forall p e, p ∈ L -> mem s !! p = Some e -> key e <> k) -> Q None s) ->
  (forall a p e b c d i s', L = a ++ p :: b -> mem s !! p = Some e -> key e = k ->
     B !! i = Some (c ++ p :: d) -> removed s a p b c d i B s' -> Q (p_data e) s') ->
  wp (ght_remove (key_i_size k) (key_p_key k)) Q s.
Proof.
  intros HR Hk HN HS. unfold ght_remove, hk_fill.
  replace (mk_hash_key (key_i_size k) (key_p_key k)) with k by (by destruct k).
  apply wp_bind, wp_bucket_of. apply wp_bind. eapply wp_assert_first; [done..|].
  apply wp_bind. eapply wp_search; [done|done|by intros ?; apply HN|].
  intros i p e a b c d -> He Hke Hx Hi. rewrite Hx. change (wrap 8 0) with 0. cbn [heuristic Z.eqb].
  unfold heuristic. cbn [GHT_HEURISTICS_MOVE_TO_FRONT GHT_HEURISTICS_TRANSPOSE Z.eqb]. apply wp_ret.
  destruct (rep_nr _ _ _ _ i _ HR Hi) as (Hnr & Hnrl & Hlt).
  apply wp_bind. apply (wp_remove_from_chain a b p c d i B); [done|done|]. intros m' HM.
  apply wp_bind, wp_get_ht. apply wp_bind, wp_set_items. cbn [ht put_ht with_lists i_items].
  rewrite (u32_items_pred _ _ _ _ HR) by (by destruct a).
  apply wp_bind. eapply wp_add_nr; [lia|rewrite Nat2Z.id; cbn; exact Hnr|lia|].
  assert (Hp : is_Some (m' !! p)) by (rewrite HM, He; by eexists).
  apply wp_bind, wp_wr; [done|]. apply wp_bind, wp_wr; [live|].
  assert (Hp' : exists e', upd (Some p) (set_p_prev None) (upd (Some p) (set_p_next None) m') !! p = Some e' /\
    p_data e' = p_data e).
  { rewrite !lookup_upd, !decide_True, HM, He by done. by eexists. }
  destruct Hp' as (e' & He' & Hd').
  apply wp_bind, (wp_rd _ _ _ _ e'); [done|]. rewrite Hd'.
  apply wp_bind, wp_he_finalize; [by eexists|]. apply wp_ret. eapply HS; [done|done|done|done|].
  unfold put_nr. cbn. rewrite Nat2Z.id.
  apply (removed_intro s (delete p (upd (Some p) (set_p_prev None) (upd (Some p) (set_p_next None) m')))
    a p b c d i B HR Hi).
  intros q Hq. assert (Hqp : p <> q) by (intros ->; by apply (rep_not_in _ _ _ _ _ _ HR)).
  rewrite lookup_delete_ne by done. rewrite !lookup_upd, HM, !decide_False by congruence.
  by rewrite !option_fmap_id.
Qed.

(** [ght_remove] returns the datum of the key, or NULL, and leaves the
    dictionary without it; it has no undefined behaviour and fails no
    assertion, and the pointer structure is intact. *)
Lemma ght_remove_spec k s D :
  holds s D -> key_ok k ->
  exists s', ght_remove (key_i_size k) (key_p_key k) s = Some (mjoin (dict_find k D), s') /\
    holds s' (dict_without k D) /\ config (ht s') = config (ht s).
Proof.
  intros (L & B & HR & <-) Hk. apply wp_run_eq. eapply wp_ght_remove; [done|done|..].
  - intros HN. apply rep_find_none in HN. rewrite dict_find_none, dict_without_notin by done.
    split; [done|]. split; [by exists L, B|done].
  - intros a p e b c d i s' -> He <- Hi (HR' & HE & Hc & _). split.
    + rewrite (rep_find _ _ _ _ p e HR); [done|set_solver|done].
    + split; [|done]. exists (a ++ b), (<[i := c ++ d]> B). split; [done|].
      rewrite HE. by eapply rep_entries_without.
Qed.

(** [ght_remove_first] removes the oldest entry and returns its datum. *)
Lemma ght_remove_first_spec s D :
  holds s D ->
  exists s', ght_remove_first s = Some (mjoin (snd <$> head D), s') /\
    holds s' (tail D) /\ config (ht s') = config (ht s).
Proof.
  intros (L & B & HR & <-). apply wp_run_eq. eapply wp_ght_remove_first; [done|..].
  - intros ->. split; [done|]. split; [by exists [], B|done].
  - intros p e b c d i s' -> He Hi (HR' & HE & Hc & _). rewrite (entries_cons _ _ _ _ He). split; [done|].
    split; [|done]. exists b, (<[i := c ++ d]> B). by split.
Qed.
End removing.
