(* ===== verification/HashTableInsert.v ===== *)
(** * The hash table: inserting

    Proofs about [ght_insert] of [HashTable], buckets with a limit included. *)

From S2P Require Import Prelude HashFunctions GhtIface HashTable HashTableRep HashTableRemove.

(** ** Insertion *)

Section inserting.
Context {V : Type}.
Implicit Types (s : ght_state V) (m : gmap addr (ght_hash_entry_t V)) (p q r : addr)
  (L a b c d l : list addr) (B : list (list addr)).

(** The entry [p] joins at the ends of the two lists. *)
Lemma Rep_insert t m t' m' L B p e i l :
  Rep t m L B -> B !! i = Some l -> p ∉ L -> m' !! p = Some e -> key_ok (key e) ->
  (forall q e', q ∈ L -> m !! q = Some e' -> key e' <> key e) ->
  p_bucketidx e = Z.of_nat i -> Z.land (fn_hash t (key e)) (i_size_mask t) = Z.of_nat i ->
  p_next e = head l -> p_prev e = None -> p_older e = last L -> p_newer e = None ->
  (forall q, q ∈ L -> m' !! q =
     relink None None (head l) (Some p) None None (last L) (Some p) q <$> m !! q) ->
  Z.of_nat (length L) + 1 < 2 ^ 31 ->
  t' = with_lists t (<[i := Some p]> (pp_entries t)) (<[i := Z.of_nat (length l) + 1]> (p_nr t))
         (head (L ++ [p])) (Some p) (i_items t + 1) ->
  Rep t' m' (L ++ [p]) (<[i := p :: l]> B).
Proof.
  intros HR Hi Hp He Hk Hkeys Hidx Hhash Hn Hpr Ho Hnw HM Hlen ->. rep_facts HR.
  destruct (rep_chain0 i _ Hi) as (Hl & Hlinks & Hpp & Hnr).
  assert (Hfld : forall q, q ∈ L -> exists e', m !! q = Some e' /\ m' !! q =
     Some (relink None None (head l) (Some p) None None (last L) (Some p) q e')).
  { intros q Hq. rewrite HM by done. destruct (rep_live0 q Hq) as [e' ->]. by exists e'. }
  assert (HlL : forall q, q ∈ l -> q ∈ L) by (intros q; by eapply rep_chain_in).
  constructor; cbn; try done.
  - by rewrite length_insert.
  - by rewrite length_insert.
  - by rewrite length_insert.
  - apply NoDup_app. split_and!; [done| |apply NoDup_singleton]. intros q Hq ->%list_elem_of_singleton. done.
  - intros q [Hq| ->%list_elem_of_singleton]%elem_of_app; [|by eexists].
    destruct (Hfld q Hq) as (e' & _ & ->). by eexists.
  - eapply (links_snoc (fld p_newer m) (fld p_older m)); try done.
    + unfold fld. by rewrite He.
    + unfold fld. by rewrite He.
    + intros q Hq. destruct (Hfld q Hq) as (e' & E & E'). unfold fld. rewrite E, E'. by split.
  - by rewrite last_snoc.
  - replace (Z.of_nat (length l) + 1) with (Z.of_nat (length (p :: l))) by (cbn; lia).
    eapply Rep_chains; [exact HR|exact Hi|constructor; [by intros ?%HlL|done]| |].
    + apply (links_cons (fld p_next m) (fld p_prev m)); try done.
      * by intros ?%HlL.
      * unfold fld. by rewrite He.
      * unfold fld. by rewrite He.
      * intros q Hq. destruct (Hfld q (HlL q Hq)) as (e' & E & E'). unfold fld. rewrite E, E'. by split.
    + intros q Hq Hql. destruct (Hfld q Hq) as (e' & E & E'). unfold fld. rewrite E, E'. cbn. split; [done|].
      rewrite decide_False; [done|]. by intros ?%head_in.
  - assert (Hpi : p_bucketidx <$> m' !! p = Some (Z.of_nat i)) by (rewrite He; cbn; by rewrite Hidx).
    assert (Hold : forall q, q ∈ L -> p_bucketidx <$> m' !! q = p_bucketidx <$> m !! q).
    { intros q Hq. rewrite HM by done. by destruct (m !! q). }
    eapply Rep_buckets; [exact HR|exact Hi| |].
    + intros q. rewrite elem_of_cons, elem_of_app, list_elem_of_singleton, (rep_bucket0 i l q Hi). split.
      * intros [->|[Hq Hb]]; [by auto|]. split; [by left|]. by rewrite Hold.
      * intros [[Hq| ->] Hb]; [right|by left]. by rewrite Hold in Hb.
    + intros j q Hij. rewrite elem_of_app, list_elem_of_singleton.
      split; [intros [Hq Hb]; split; [by left|by rewrite Hold]|].
      intros [[Hq| ->] Hb]; [by rewrite Hold in Hb|]. rewrite Hpi in Hb. injection Hb as ?. lia.
  - intros q e' [Hq| ->%list_elem_of_singleton]%elem_of_app.
    + destruct (Hfld q Hq) as (e1 & E & ->). intros [= <-]. cbn. by apply (rep_entry0 q e1).
    + rewrite He. intros [= <-]. split; [done|]. by rewrite Hidx, Hhash.
  - intros q q' e1 e2 [Hq| ->%list_elem_of_singleton]%elem_of_app [Hq'| ->%list_elem_of_singleton]%elem_of_app.
    + destruct (Hfld q Hq) as (e3 & E3 & ->), (Hfld q' Hq') as (e4 & E4 & ->). intros [= <-] [= <-].
      cbn. intros Ek. by apply (rep_keys0 q q' e3 e4).
    + destruct (Hfld q Hq) as (e3 & E3 & ->). rewrite He. intros [= <-] [= <-]. cbn. intros E.
      by destruct (Hkeys q e3).
    + destruct (Hfld q' Hq') as (e4 & E4 & ->). rewrite He. intros [= <-] [= <-]. cbn. intros E.
      by destruct (Hkeys q' e4).
    + done.
  - rewrite length_app. cbn. lia.
Qed.

Lemma wp_link_bucket i l p e Q s :
  pp_entries (ht s) !! i = Some (head l) -> mem s !! p = Some e -> p ∉ l ->
  (forall q, q ∈ l -> is_Some (mem s !! q)) ->
  (forall m', m' !! p = Some (mk_entry (p_data e) (Z.of_nat i) (head l) None (p_older e) (p_newer e) (key e)) ->
     (forall q, q <> p -> m' !! q = relink None None (head l) (Some p) None None None None q <$> mem s !! q) ->
     Q tt (put_ht (put_bucket (Z.of_nat i) (Some p) (ht s)) (put_mem m' s))) ->
  wp (link_bucket (Z.of_nat i) p) Q s.
Proof.
  intros Hb He Hp Hlive HQ. unfold link_bucket.
  apply wp_bind. eapply wp_get_bucket; [lia|by rewrite Nat2Z.id|].
  do 3 (apply wp_bind, wp_wr; [live|]).
  assert (Hne : head l <> Some p) by (intros Hq; apply Hp; destruct l; [done|]; injection Hq as ->; by left).
  apply wp_bind, wp_if_some.
  { intros q Hq. live. apply Hlive. destruct l; [done|]. injection Hq as ->. by left. }
  eapply wp_set_bucket; [lia|by rewrite Nat2Z.id|]. apply HQ; cbn.
  - rewrite !lookup_upd, He, (decide_False (P := head l = Some p)) by done.
    by rewrite !(decide_True (P := Some p = Some p)) by done.
  - intros q Hq. rewrite !lookup_upd, !(decide_False (P := Some p = Some q)) by congruence.
    rewrite !option_fmap_id. destruct (mem s !! q) as [[]|]; [|done]. cbn. unfold relink. cbn.
    by repeat case_decide.
Qed.

Lemma wp_link_age p e Q s :
  mem s !! p = Some e -> p_newest (ht s) <> Some p ->
  (forall q, p_newest (ht s) = Some q -> is_Some (mem s !! q)) ->
  (forall m', m' !! p = Some (mk_entry (p_data e) (p_bucketidx e) (p_next e) (p_prev e) (p_newest (ht s)) (p_newer e) (key e)) ->
     (forall q, q <> p -> m' !! q = relink None None None None None None (p_newest (ht s)) (Some p) q <$> mem s !! q) ->
     Q tt (put_ht (with_lists (ht s) (pp_entries (ht s)) (p_nr (ht s))
                     (match p_oldest (ht s) with None => Some p | o => o end) (Some p) (i_items (ht s)))
            (put_mem m' s))) ->
  wp (link_age p) Q s.
Proof.
  intros He Hne Hlive HQ. unfold link_age. apply wp_bind, wp_get_ht.
  apply wp_bind. apply (wp_mono _ (fun _ s' => s' = put_ht (with_lists (ht s) (pp_entries (ht s)) (p_nr (ht s))
    (match p_oldest (ht s) with None => Some p | o => o end) (p_newest (ht s)) (i_items (ht s))) s)).
  { destruct (p_oldest (ht s)) eqn:Eo; [|unfold set_oldest; by apply wp_bind, wp_get_ht].
    apply wp_ret. rewrite <- Eo. by destruct s as [[] ? ? ?]. }
  intros _ s' ->. apply wp_bind, wp_get_ht. cbn [ht put_ht p_newest with_lists].
  apply wp_bind, wp_wr; [live|]. apply wp_bind, wp_if_some.
  { intros q Hq. live. by apply Hlive. }
  unfold set_newest. apply wp_bind, wp_get_ht. apply wp_set_ht.
  apply (HQ (upd (p_newest (ht s)) (set_p_newer (Some p)) (upd (Some p) (set_p_older (p_newest (ht s))) (mem s)))).
  - rewrite !lookup_upd, He, (decide_False (P := p_newest (ht s) = Some p)) by done.
    by rewrite !(decide_True (P := Some p = Some p)) by done.
  - intros q Hq. rewrite !lookup_upd, !(decide_False (P := Some p = Some q)) by congruence.
    rewrite !option_fmap_id. destruct (mem s !! q) as [[]|]; [|done]. cbn. unfold relink. cbn.
    by repeat case_decide.
Qed.
End inserting.

Section linking.
Context {V : Type}.
Implicit Types (s : ght_state V) (m : gmap addr (ght_hash_entry_t V)) (p q r : addr)
  (L a b c d l : list addr) (B : list (list addr)).

(** A block none of the four pointers names keeps its content. *)
Lemma relink_other o1 v1 o2 v2 o3 v3 o4 v4 q (e : ght_hash_entry_t V) :
  o1 <> Some q -> o2 <> Some q -> o3 <> Some q -> o4 <> Some q ->
  relink o1 v1 o2 v2 o3 v3 o4 v4 q e = e.
Proof. intros. unfold relink. rewrite !decide_False by done. by destruct e. Qed.

(** What the new entry [p] with content [e] must look like. *)
Record fresh_entry t m L B p e i l : Prop := {
  fe_lookup : m !! p = Some e;
  fe_notin : p ∉ L;
  fe_key : key_ok (key e);
  fe_distinct : forall q e', q ∈ L -> m !! q = Some e' -> key e' <> key e;
  fe_bucket : Z.land (fn_hash t (key e)) (i_size_mask t) = Z.of_nat i;
  fe_chain : B !! i = Some l;
  fe_newer : p_newer e = None
}.

(** The effect of linking on a table of entries [L'], when others may have gone. *)
Definition linked s p (e : ght_hash_entry_t V) L L' (i : nat) l' B (s' : ght_state V) : Prop :=
  Rep (ht s') (mem s') (L' ++ [p]) (<[i := p :: l']> B) /\
  entries (mem s') (L' ++ [p]) = entries (mem s) L' ++ [(key e, p_data e)] /\
  config (ht s') = config (ht s) /\ i_size_mask (ht s') = i_size_mask (ht s) /\
  requests s' = requests s /\
  (forall q, q ∉ L -> q <> p -> mem s' !! q = mem s !! q).

Lemma entries_link m m' L p e e' :
  (forall q, q ∈ L -> exists o2 v2 o4 v4, m' !! q = relink None None o2 v2 None None o4 v4 q <$> m !! q) ->
  m' !! p = Some e' -> key e' = key e -> p_data e' = p_data e ->
  entries m' (L ++ [p]) = entries m L ++ [(key e, p_data e)].
Proof.
  intros HM Hp Hk Hd. rewrite entries_app, (entries_cons _ _ _ _ Hp), Hk, Hd. f_equal.
  apply entries_frame. intros q Hq. destruct (HM q Hq) as (? & ? & ? & ? & ->). by destruct (m !! q).
Qed.

Lemma wp_link_entry L B p e i l Q s :
  Rep (ht s) (mem s) L B -> fresh_entry (ht s) (mem s) L B p e i l ->
  (bucket_limit (ht s) = 0 \/ Z.of_nat (length l) < bucket_limit (ht s)) ->
  Z.of_nat (length L) + 1 < 2 ^ 31 ->
  (forall s', linked s p e L L i l B s' -> evictions s' = evictions s -> Q tt s') ->
  wp (link_entry (Z.of_nat i) p) Q s.
Proof.
  intros HR [He Hp Hk Hkeys Hx Hi Hnew] Hlim Hlen HQ. rep_facts HR.
  destruct (rep_chain0 i l Hi) as (Hl & Hlinks & Hpp & _).
  destruct (rep_nr _ _ _ _ i l HR Hi) as (Hnr & Hnrl & Hlt).
  assert (HlL : forall q, q ∈ l -> q ∈ L) by (intros q; by eapply rep_chain_in).
  apply wp_bind. apply (wp_link_bucket i l p e); [done|done|by intros ?%HlL|by intros q ?%HlL; apply rep_live0|].
  intros m1 Hm1 HM1. apply wp_bind, wp_get_ht. cbn [ht put_ht].
  apply wp_bind. eapply wp_get_nr; [lia|by rewrite Nat2Z.id; cbn; exact Hnr|].
  replace (negb _ && _) with false.
  2: { symmetry. apply andb_false_iff. cbn. rewrite (wrap_small 32) by (unfold is_u; lia).
       destruct Hlim as [->|?]; [by left|right]. apply Z.leb_gt. lia. }
  assert (Hadd : wp (_ ← add_nr (Z.of_nat i) 1; _ ← assert_first (Z.of_nat i);
      t ← get_ht; set_items (u32 (i_items t + 1)))
    (fun _ s' => s' = put_ht (with_lists (ht s) (<[i := Some p]> (pp_entries (ht s)))
      (<[i := Z.of_nat (length l) + 1]> (p_nr (ht s))) (p_oldest (ht s)) (p_newest (ht s)) (i_items (ht s) + 1))
      (put_mem m1 s)) (put_ht (put_bucket (Z.of_nat i) (Some p) (ht s)) (put_mem m1 s))).
  { apply wp_bind. eapply wp_add_nr; [lia|by rewrite Nat2Z.id; cbn; exact Hnr| |].
    { destruct (rep_nr _ _ _ _ i l HR Hi) as (_ & _ & _). split; [lia|].
      assert (length l <= length L)%nat; [|lia]. by apply submseteq_length, NoDup_submseteq. }
    apply wp_bind. apply wp_bind. eapply wp_get_bucket; [lia| |].
    { cbn. rewrite !Nat2Z.id, list_lookup_insert_eq; [done|]. by apply lookup_lt_Some in Hpp. }
    apply wp_bind. eapply wp_rd; [exact Hm1|]. apply wp_massert; [done|]. apply wp_bind, wp_get_ht, wp_set_items.
    cbn. rewrite !Nat2Z.id. rewrite (wrap_small 32 (i_items (ht s) + 1)) by (unfold is_u; lia).
    unfold put_ht, put_nr, put_bucket, with_lists. done. }
  apply wp_bind. eapply wp_mono; [exact Hadd|]. intros [] s1 ->. clear Hadd.
  eapply wp_link_age; [exact Hm1| | |].
  { cbn. rewrite rep_newest0. by intros ?%last_in. }
  { cbn. intros q Hq. rewrite rep_newest0 in Hq. apply last_in in Hq. rewrite HM1 by (by intros ->).
    by apply fmap_is_Some, rep_live0. }
  cbn. rewrite rep_newest0, rep_oldest0. intros m2 Hm2 HM2.
  assert (HM : forall q, q <> p -> m2 !! q =
    relink None None (head l) (Some p) None None (last L) (Some p) q <$> mem s !! q).
  { intros q Hq. rewrite HM2, HM1 by done. by destruct (mem s !! q). }
  apply HQ; [|done]. split_and!; try done; cbn.
  - eapply (Rep_insert (ht s) (mem s)); try done.
    + intros q Hq. apply HM. by intros ->.
    + unfold with_lists. cbn. f_equal. by destruct L.
  - eapply entries_link; [|exact Hm2|done|done]. intros q Hq. eexists _, _, _, _. apply HM. by intros ->.
  - intros q Hq Hqp. rewrite HM by done. destruct (mem s !! q) as [e'|]; [|done]. cbn. f_equal.
    apply relink_other; try done; [by intros ?%head_in%HlL|by intros ?%last_in].
Qed.

(** The loop that looks for the end of a chain. *)
Lemma wp_last_loop s l : forall p fuel Q,
  (forall a q b, p :: l = a ++ q :: b -> exists e, mem s !! q = Some e /\ p_next e = head b) ->
  (length l <= fuel)%nat -> (forall r, last (p :: l) = Some r -> Q r s) -> wp (last_loop fuel p) Q s.
Proof.
  induction l as [|q l IH]; intros p fuel Q HN Hf HQ; destruct (HN [] p _ eq_refl) as (e & He & Hn).
  - destruct fuel; cbn; apply wp_bind, (wp_rd _ _ _ _ e He); rewrite Hn; by apply wp_ret, HQ.
  - destruct fuel as [|fuel]; [cbn in Hf; lia|]. cbn.
    apply wp_bind, (wp_rd _ _ _ _ e He). rewrite Hn. cbn. apply IH; [|cbn in Hf; lia|].
    + intros a q' b E. apply (HN (p :: a)). by rewrite E.
    + intros r Hr. apply HQ. by rewrite last_cons_cons.
Qed.
End linking.

(** ** A full bucket *)

Section eviction.
Context {V : Type}.
Implicit Types (s : ght_state V) (m : gmap addr (ght_hash_entry_t V)) (p q r : addr)
  (L a b c d l : list addr) (B : list (list addr)).

(** The memory after [evict_last]: the last entry [r] of the bucket is gone,
    [p] is in front. *)
Definition evicted_mem m a b r p (e : ght_hash_entry_t V) (i : nat) l m' : Prop :=
  m' !! p = Some (mk_entry (p_data e) (Z.of_nat i) (head l) None (p_older e) (p_newer e) (key e)) /\
  (forall q, q <> p -> q <> r -> m' !! q =
     relink (last l) None (head l) (Some p) (head b) (last a) (last a) (head b) q <$> m !! q).

Lemma last_cons_some {A} (x : A) (l : list A) : exists y, last (x :: l) = Some y.
Proof. destruct (last (x :: l)) eqn:E; [by eexists|]. by apply last_None in E. Qed.

Lemma last_cons_ne p q l : q <> p -> (last (p :: l) = Some q <-> last l = Some q).
Proof. intros Hq. destruct l; cbn; [split; [by intros [= ->]|done]|done]. Qed.

Lemma head_snoc_ne r q l : q <> r -> (head (l ++ [r]) = Some q <-> head l = Some q).
Proof. intros Hq. destruct l; cbn; [split; [by intros [= ->]|done]|done]. Qed.

(** The memory [m1] after [link_bucket] put [p] in front of the full chain. *)
Definition fronted m l r p (e : ght_hash_entry_t V) (i : nat) m1 : Prop :=
  m1 !! p = Some (mk_entry (p_data e) (Z.of_nat i) (head (l ++ [r])) None (p_older e) (p_newer e) (key e)) /\
  (forall q, q <> p -> m1 !! q =
     relink None None (head (l ++ [r])) (Some p) None None None None q <$> m !! q).

(** The entry to be evicted, as the chain now has it. *)
Lemma fronted_victim m a b l r p e er i m1 x :
  fronted m l r p e i m1 -> m !! r = Some er -> r <> p -> r ∉ l -> last (p :: l) = Some x ->
  p_next er = None -> p_prev er = last l -> p_newer er = head b -> p_older er = last a ->
  m1 !! r = Some (mk_entry (p_data er) (p_bucketidx er) None (Some x) (last a) (head b) (key er)).
Proof.
  intros [_ HM1] Her Hrp Hrl Hx En Ep Enw Eo. rewrite HM1, Her by done. cbn. f_equal. unfold relink.
  rewrite En, Ep, Enw, Eo. f_equal; try (by case_decide). destruct l as [|y l]; cbn [app head].
  - rewrite decide_True by done. by rewrite <- Hx.
  - rewrite decide_False; [by rewrite <- Hx, last_cons_cons|]. intros [= ->]. apply Hrl. by left.
Qed.

(** Unlinking the victim from its chain and from the age list, then freeing it. *)
Lemma fronted_evicted m a b l r p e i m1 m3 x :
  fronted m l r p e i m1 -> p ∉ a ++ r :: b -> p ∉ l ++ [r] -> last (p :: l) = Some x ->
  (forall q, m3 !! q = relink (Some x) None None None (head b) (last a) (last a) (head b) q <$> m1 !! q) ->
  evicted_mem m a b r p e i l (delete r m3).
Proof.
  intros [Hm1 HM1] Hp Hpl Hx HM3. assert (Hrp : r <> p) by (intros ->; apply Hp; set_solver). split.
  - rewrite lookup_delete_ne, HM3, Hm1 by done. cbn. f_equal. unfold relink. cbn.
    rewrite (decide_False (P := head b = Some p)) by (intros ?%head_in; apply Hp; set_solver).
    rewrite (decide_False (P := last a = Some p)) by (intros ?%last_in; apply Hp; set_solver).
    f_equal. destruct l as [|y l]; [injection Hx as ->; by rewrite decide_True|].
    rewrite decide_False; [done|]. intros [= ->]. rewrite last_cons_cons in Hx. apply last_in in Hx.
    apply Hpl. apply elem_of_app. by left.
  - intros q Hqp Hqr. rewrite lookup_delete_ne, HM3, HM1 by done. destruct (m !! q) as [e'|]; [|done].
    cbn. f_equal. unfold relink. cbn. rewrite <- Hx.
    f_equal; repeat case_decide; try done; exfalso;
      rewrite ?last_cons_ne, ?head_snoc_ne in * by done; done.
Qed.

(** The search for the end of the chain stops at the victim. *)
Lemma wp_last_fronted s1 m l r p e i Q :
  fronted m l r p e i (mem s1) -> links (fld p_next m) (fld p_prev m) (l ++ [r]) -> NoDup (l ++ [r]) ->
  p ∉ l ++ [r] -> (forall q, q ∈ l ++ [r] -> is_Some (m !! q)) -> Q r s1 ->
  wp (last_loop (S (size (mem s1))) p) Q s1.
Proof.
  intros [Hm1 HM1] Hlinks Hl Hpl Hlive HQ. apply (wp_last_loop _ (l ++ [r])).
  - intros c q d E. destruct c as [|x c].
    + injection E as <- <-. by eexists.
    + injection E as <- E. assert (Hq : q ∈ l ++ [r]) by (rewrite E; set_solver).
      assert (Hqp : q <> p) by (by intros ->). destruct (Hlinks c q d E) as [Hn _]. unfold fld in Hn.
      rewrite HM1 by done. destruct (Hlive q Hq) as [e' He']. rewrite He' in Hn |- *. by eexists.
  - apply le_S, (live_length (mem s1)); [done|].
    intros q Hq. rewrite HM1 by (by intros ->). by apply fmap_is_Some, Hlive.
  - intros r' Hr'. rewrite app_comm_cons, last_snoc in Hr'. by injection Hr' as <-.
Qed.

Lemma wp_evict_last a b r p e er i l m1 B f Q s s1 :
  Rep (ht s) (mem s) (a ++ r :: b) B -> B !! i = Some (l ++ [r]) -> p ∉ a ++ r :: b ->
  mem s !! r = Some er -> fn_bucket_free (ht s) = Some f ->
  fronted (mem s) l r p e i m1 ->
  s1 = put_ht (put_bucket (Z.of_nat i) (Some p) (ht s)) (put_mem m1 s) ->
  (forall m', evicted_mem (mem s) a b r p e i l m' ->
     Q tt (mk_state (with_lists (ht s) (<[i := Some p]> (pp_entries (ht s))) (p_nr (ht s))
               (match last a with Some _ => p_oldest (ht s) | None => head b end)
               (match head b with Some _ => p_newest (ht s) | None => last a end) (i_items (ht s)))
             m' (requests s) (evictions s ++ [(f, p_data er, key_p_key (key er))]))) ->
  wp (evict_last (Z.of_nat i)) Q s1.
Proof.
  intros HR Hi Hp Her Hf Hm1 -> HQ. rep_facts HR.
  destruct (rep_chain0 i _ Hi) as (Hl & Hlinks & Hpp & _).
  destruct (rep_links _ _ a b r l [] i B er HR Hi Her) as (En & Ep & Enw & Eo).
  assert (HlL : forall q, q ∈ l ++ [r] -> q ∈ a ++ r :: b) by (intros q; by eapply rep_chain_in).
  assert (Hpl : p ∉ l ++ [r]) by (by intros ?%HlL).
  assert (Hrp : r <> p) by (intros ->; apply Hp; set_solver).
  assert (Hrab : r ∉ a ++ b) by (by eapply rep_not_in).
  assert (Hrl : r ∉ l) by (apply NoDup_app in Hl as (_ & Hl & _); intros Hr; apply (Hl r Hr); by left).
  unfold evict_last. apply wp_bind. eapply wp_get_bucket; [lia| |].
  { cbn. rewrite !Nat2Z.id, list_lookup_insert_eq; [done|]. by apply lookup_lt_Some in Hpp. }
  apply wp_bind. unfold wp at 1, mem_fuel. apply wp_bind.
  eapply wp_last_fronted; [exact Hm1|done..|by intros q ?%HlL; apply rep_live0|].
  destruct (last_cons_some p l) as [x Hx].
  pose proof (fronted_victim _ a b _ _ _ _ _ _ _ x Hm1 Her Hrp Hrl Hx En Ep Enw Eo) as Hr1.
  set (er1 := mk_entry _ _ None _ _ _ _) in Hr1.
  assert (Hxr : Some x <> Some r).
  { intros [= ->]. apply last_in, elem_of_cons in Hx as [?|?]; [done|by apply Hrl]. }
  assert (Hlive1 : forall q, q ∈ a ++ b \/ q ∈ l -> is_Some (m1 !! q)).
  { destruct Hm1 as [_ HM1]. intros q Hq. rewrite HM1 by (intros ->; set_solver). apply fmap_is_Some, rep_live0. set_solver. }
  apply wp_bind. unfold remove_from_chain. apply wp_bind.
  eapply (wp_unlink_bucket _ r er1 (Some p)); cbn [ht mem put_ht put_mem er1 p_prev p_next]; try done; try lia.
  { intros q [= <-]. apply last_in, elem_of_cons in Hx as [->|?]; [destruct Hm1; by eexists|by apply Hlive1; right]. }
  { cbn. rewrite !Nat2Z.id, list_lookup_insert_eq; [done|]. by apply lookup_lt_Some in Hpp. }
  set (m2 := upd None _ _).
  assert (HM2 : forall q, m2 !! q = relink (Some x) None None None None None None None q <$> m1 !! q).
  { intros q. unfold m2. rewrite !lookup_upd. destruct (m1 !! q) as [[]|]; [|done]. cbn. unfold relink. cbn.
    by repeat case_decide. }
  assert (Hr2 : m2 !! r = Some er1) by (rewrite HM2, Hr1; cbn; f_equal; by apply relink_other).
  assert (Hlive2 : forall q, q ∈ a ++ b -> is_Some (m2 !! q)).
  { intros q Hq. rewrite HM2. apply fmap_is_Some, Hlive1. by left. }
  assert (Hra : last a <> Some r) by (intros ?%last_in; apply Hrab; set_solver).
  assert (Hrb : head b <> Some r) by (intros ?%head_in; apply Hrab; set_solver).
  eapply (wp_unlink_age r er1); cbn [ht mem put_ht put_mem er1 p_older p_newer]; [exact Hr2|done|done| | |].
  { intros q ?%last_in. apply Hlive2. set_solver. } { intros q ?%head_in. apply Hlive2. set_solver. }
  set (m3 := upd (head b) _ _).
  assert (HM3 : forall q, m3 !! q = relink (Some x) None None None (head b) (last a) (last a) (head b) q <$> m1 !! q).
  { intros q. unfold m3. rewrite !lookup_upd, HM2. destruct (m1 !! q) as [[]|]; [|done]. cbn. unfold relink. cbn.
    by repeat case_decide. }
  assert (Hr3 : m3 !! r = Some er1) by (rewrite HM3, Hr1; cbn; f_equal; by apply relink_other).
  clearbody m3. apply wp_bind, wp_get_ht. apply wp_bind. eapply wp_rd; [exact Hr3|].
  apply wp_bind. eapply wp_rd; [exact Hr3|]. cbn [ht put_ht put_bucket with_lists fn_bucket_free]. rewrite Hf.
  apply wp_bind. unfold wp at 1. apply wp_he_finalize; [by eexists|].
  unfold put_mem. cbn [ht mem requests evictions put_ht put_bucket with_lists pp_entries p_nr p_oldest p_newest i_items
    i_size fn_hash fn_bucket_free i_heuristics i_automatic_rehash i_size_mask bucket_limit er1 p_data key].
  specialize (HQ (delete r m3)). unfold with_lists in HQ. rewrite Nat2Z.id. apply HQ. by eapply fronted_evicted.
Qed.
End eviction.

Section inserting_full.
Context {V : Type}.
Implicit Types (s : ght_state V) (m : gmap addr (ght_hash_entry_t V)) (p q r : addr)
  (L a b c d l : list addr) (B : list (list addr)).

(** The memory in which [r] is unlinked, as [Rep_remove] wants it. *)
Definition without_mem m a b l : gmap addr (ght_hash_entry_t V) :=
  map_imap (fun q e => Some (relink (last l) None None (last l) (head b) (last a) (last a) (head b) q e)) m.

Lemma without_mem_lookup m a b l q :
  without_mem m a b l !! q =
    relink (last l) None None (last l) (head b) (last a) (last a) (head b) q <$> m !! q.
Proof. unfold without_mem. rewrite map_lookup_imap. by destruct (m !! q). Qed.

(** With the victim [r] gone and [p] linked at the ends of both lists, the
    table holds the other entries and [p]. *)
Lemma Rep_evict_insert t m m' a b r p e i l B :
  Rep t m (a ++ r :: b) B -> fresh_entry t m (a ++ r :: b) B p e i (l ++ [r]) ->
  m' !! p = Some (mk_entry (p_data e) (Z.of_nat i) (head l) None (last (a ++ b)) None (key e)) ->
  (forall q, q <> p -> q <> r -> m' !! q =
     relink None None (head l) (Some p) None None (last (a ++ b)) (Some p) q <$> without_mem m a b l !! q) ->
  Rep (with_lists t (<[i := Some p]> (pp_entries t)) (p_nr t) (head ((a ++ b) ++ [p])) (Some p) (i_items t))
    m' ((a ++ b) ++ [p]) (<[i := p :: l]> B) /\
  entries m' ((a ++ b) ++ [p]) = entries m (a ++ b) ++ [(key e, p_data e)].
Proof.
  intros HR [He Hp Hk Hkeys Hx Hi Hnew] Hm' HM.
  pose proof (rep_items _ _ _ _ HR) as [Hit Hlen]. destruct (rep_nr _ _ _ _ i _ HR Hi) as (Hnr & _ & _).
  pose proof (Rep_remove t m _ (without_mem m a b l) a b r l [] i B HR Hi
    ltac:(intros q _; apply without_mem_lookup) eq_refl) as HRv. rewrite app_nil_r in HRv.
  assert (Hsub : forall q, q ∈ a ++ b -> q ∈ a ++ r :: b) by set_solver.
  assert (Hrab : r ∉ a ++ b) by (by eapply rep_not_in).
  assert (Habr : forall q, q ∈ a ++ b -> q <> p /\ q <> r) by (intros q Hq; split; intros ->; [by apply Hp, Hsub|done]).
  split.
  - rewrite <- (list_insert_insert_eq B i (p :: l) l).
    eapply (Rep_insert _ (without_mem m a b l)); try done.
    + rewrite list_lookup_insert_eq; [done|]. by apply lookup_lt_Some in Hi.
    + by intros ?%Hsub.
    + intros q e' Hq. rewrite without_mem_lookup. destruct (rep_live _ _ _ _ HR q (Hsub q Hq)) as [e0 He0].
      rewrite He0. intros [= <-]. by apply (Hkeys q e0 (Hsub q Hq)).
    + intros q Hq. destruct (Habr q Hq). by apply HM.
    + rewrite !length_app in *. cbn in Hlen. lia.
    + unfold with_lists. cbn. rewrite !list_insert_insert_eq. f_equal; [lia|].
      symmetry. apply list_insert_id. rewrite Hnr, length_app. cbn. f_equal. lia.
  - erewrite (entries_link (without_mem m a b l) m' (a ++ b) p e);
      [|intros q Hq; destruct (Habr q Hq); eexists _, _, _, _; by apply HM|exact Hm'|done|done].
    f_equal. eapply entries_relink. intros q Hq. apply without_mem_lookup.
Qed.

Lemma wp_link_entry_full a b r p e er i l B f Q s :
  Rep (ht s) (mem s) (a ++ r :: b) B -> fresh_entry (ht s) (mem s) (a ++ r :: b) B p e i (l ++ [r]) ->
  mem s !! r = Some er -> fn_bucket_free (ht s) = Some f ->
  0 < bucket_limit (ht s) <= Z.of_nat (length (l ++ [r])) ->
  (forall s', linked s p e (a ++ r :: b) (a ++ b) i l B s' ->
     evictions s' = evictions s ++ [(f, p_data er, key_p_key (key er))] -> Q tt s') ->
  wp (link_entry (Z.of_nat i) p) Q s.
Proof.
  intros HR HF Her Hf Hlim HQ. pose proof HF as [He Hp Hk Hkeys Hx Hi Hnew]. rep_facts HR.
  destruct (rep_chain0 i _ Hi) as (Hl & Hlinks & Hpp & _).
  destruct (rep_nr _ _ _ _ i _ HR Hi) as (Hnr & Hnrl & Hlt).
  assert (HlL : forall q, q ∈ l ++ [r] -> q ∈ a ++ r :: b) by (intros q; by eapply rep_chain_in).
  assert (Hrab : r ∉ a ++ b) by (by eapply rep_not_in).
  assert (Hpab : p ∉ a ++ b) by set_solver.
  apply wp_bind. apply (wp_link_bucket i (l ++ [r]) p e); [done|done|by intros ?%HlL|by intros q ?%HlL; apply rep_live0|].
  intros m1 Hm1 HM1. apply wp_bind, wp_get_ht. cbn [ht put_ht].
  apply wp_bind. eapply wp_get_nr; [lia|by rewrite Nat2Z.id; cbn; exact Hnr|].
  replace (negb _ && _) with true.
  2: { symmetry. apply andb_true_iff. cbn. rewrite (wrap_small 32) by (unfold is_u; lia).
       split; [apply negb_true_iff, Z.eqb_neq; lia|apply Z.leb_le; lia]. }
  apply wp_bind. eapply (wp_evict_last a b r p e er i l m1 B f); try done.
  intros m3 [Hm3 HM3].
  assert (Hnewest : match head b with Some _ => p_newest (ht s) | None => last a end = last (a ++ b)).
  { rewrite rep_newest0. destruct b as [|y b]; cbn; [by rewrite app_nil_r|].
    by rewrite !last_app_cons, last_cons_cons. }
  assert (Holdest : match last a with Some _ => p_oldest (ht s) | None => head b end = head (a ++ b)).
  { rewrite rep_oldest0. destruct (last a) eqn:Ela; [|by rewrite (last_app_none _ _ Ela)].
    by rewrite !(head_app_some _ _ _ Ela). }
  rewrite Hnewest, Holdest. eapply wp_link_age; [exact Hm3|cbn; by intros ?%last_in| |].
  { cbn. intros q Hq%last_in. rewrite HM3 by (intros ->; set_solver). apply fmap_is_Some, rep_live0. set_solver. }
  cbn. intros m4 Hm4 HM4.
  assert (HM : forall q, q <> p -> q <> r -> m4 !! q =
    relink None None (head l) (Some p) None None (last (a ++ b)) (Some p) q <$> without_mem (mem s) a b l !! q).
  { intros q Hqp Hqr. rewrite HM4, HM3 by done. rewrite without_mem_lookup.
    destruct (mem s !! q); [|done]. cbn. unfold relink. cbn. by repeat case_decide. }
  rewrite Hnew in Hm4. destruct (Rep_evict_insert _ _ m4 a b r p e i l B HR HF Hm4 HM) as [HR4 HE4].
  apply HQ; [|done]. split_and!; try done; cbn.
  - by destruct (a ++ b).
  - intros q Hq Hqp. rewrite HM4, HM3 by (done || (intros ->; apply Hq; set_solver)).
    destruct (mem s !! q) as [e'|]; [|done]. cbn. f_equal. rewrite (relink_other (last l)); [apply relink_other|..]; try done.
    all: intros Hq'; (apply head_in in Hq' || apply last_in in Hq'); apply Hq; first [apply HlL; set_solver|set_solver].
Qed.
End inserting_full.
