(* ===== verification/HashTableOps.v ===== *)
(** * The hash table: the operations

    What the exported operations of [HashTable] do to the dictionary a table
    holds: insertion with its bounded buckets and its automatic rehash, look-up
    under the heuristics that reorder chains, iteration, creation, emptying and
    rehashing. *)

From S2P Require Import Prelude HashFunctions GhtIface HashTable HashTableRep HashTableRemove HashTableInsert.

(** ** [ght_insert], before rehashing *)

Section insert.
Context {V : Type}.
Implicit Types (s : ght_state V) (m : gmap addr (ght_hash_entry_t V)) (p q r : addr)
  (L a b c d l : list addr) (B : list (list addr)).

Definition new_entry (data : option V) (k : ght_hash_key_t) : ght_hash_entry_t V :=
  mk_entry data 0 None None None None k.

Definition with_new s p (e : ght_hash_entry_t V) : ght_state V :=
  mk_state (ht s) (<[p := e]> (mem s)) (S (requests s)) (evictions s).

(** A new block changes nothing for the table. *)
Lemma Rep_new t m L B p e : m !! p = None -> Rep t m L B -> p ∉ L /\ Rep t (<[p := e]> m) L B.
Proof.
  intros Hp HR. assert (Hpl : p ∉ L).
  { intros Hin. destruct (rep_live _ _ _ _ HR p Hin) as [e' He]. by rewrite Hp in He. }
  split; [done|]. eapply Rep_frame; [|done]. intros q Hq. rewrite lookup_insert_ne; [done|]. by intros ->.
Qed.

Lemma entries_new m L p (e : ght_hash_entry_t V) : p ∉ L -> entries (<[p := e]> m) L = entries m L.
Proof. intros Hp. apply entries_frame. intros q Hq. rewrite lookup_insert_ne; [done|]. by intros ->. Qed.

Lemma fresh_new s L B p data k :
  Rep (ht s) (mem s) L B -> key_ok k -> mem s !! p = None ->
  (forall q e, q ∈ L -> mem s !! q = Some e -> key e <> k) ->
  exists i l, fresh_entry (ht s) (<[p := new_entry data k]> (mem s)) L B p (new_entry data k) i l /\
    Z.land (fn_hash (ht s) k) (i_size_mask (ht s)) = Z.of_nat i.
Proof.
  intros HR Hk Hp Hkeys. destruct (Rep_new _ _ _ _ p (new_entry data k) Hp HR) as [Hpl _].
  pose proof (bucket_range _ _ _ _ k HR Hk) as Hr. destruct (bucket_chain _ _ _ _ k HR Hk) as [l Hl].
  destruct (Z_of_nat_complete (Z.land (fn_hash (ht s) k) (i_size_mask (ht s)))) as [i Hx]; [lia|].
  rewrite Hx, Nat2Z.id in Hl. exists i, l. split; [|done]. constructor; try done.
  - by rewrite lookup_insert_eq.
  - intros q e Hq. rewrite lookup_insert_ne by (by intros ->). by apply Hkeys.
Qed.

(** The keys of each bucket, in the order of its chain. *)
Definition chains m B : list (list ght_hash_key_t) := (fun l => (entries m l).*1) <$> B.

(** The effect of an insertion on a dictionary [D] whose keys are in the
    chains [C]: the result, the dictionary and the chains after it and the
    callbacks made.  [t] is the table afterwards.  A new key goes to the front
    of its chain; if the bucket has as many entries as its limit, the last key
    of the chain goes. *)
Inductive inserts t (D : dict ght_hash_key_t (option V)) (C : list (list ght_hash_key_t)) k data :
    Z -> dict ght_hash_key_t (option V) -> list (list ght_hash_key_t) -> list (Z * option V * list Z) -> Prop :=
| inserts_present : k ∈ D.*1 -> inserts t D C k data (-1) D C []
| inserts_no_memory : k ∉ D.*1 -> inserts t D C k data (-2) D C []
| inserts_new i ks : k ∉ D.*1 -> Z.land (fn_hash t k) (i_size_mask t) = Z.of_nat i -> C !! i = Some ks ->
    bucket_limit t = 0 \/ Z.of_nat (length ks) < bucket_limit t ->
    inserts t D C k data 0 (D ++ [(k, data)]) (<[i := k :: ks]> C) []
| inserts_evict i ks k' v' f : k ∉ D.*1 -> Z.land (fn_hash t k) (i_size_mask t) = Z.of_nat i ->
    C !! i = Some (ks ++ [k']) ->
    bucket_limit t <> 0 -> bucket_limit t <= Z.of_nat (length (ks ++ [k'])) -> fn_bucket_free t = Some f ->
    (k', v') ∈ D ->
    inserts t D C k data 0 (dict_without k' D ++ [(k, data)]) (<[i := k :: ks]> C) [(f, v', key_p_key k')].

Definition limit_ok t : Prop := 0 <= bucket_limit t /\ (bucket_limit t <> 0 -> is_Some (fn_bucket_free t)).

(** No bucket holds more than the limit. *)
Definition within t B : Prop :=
  bucket_limit t = 0 \/ forall i l, B !! i = Some l -> Z.of_nat (length l) <= bucket_limit t.

(** What linking the new entry leaves. *)
Record link_post s L B p k data s' (L' : list addr) (B' : list (list addr)) D' ev : Prop := {
  lp_rep : Rep (ht s') (mem s') L' B';
  lp_entries : entries (mem s') L' = D';
  lp_config : config (ht s') = config (ht s);
  lp_mask : i_size_mask (ht s') = i_size_mask (ht s);
  lp_requests : requests s' = requests s;
  lp_evictions : evictions s' = evictions s ++ ev;
  lp_inserts : inserts (ht s') (entries (mem s) L) (chains (mem s) B) k data 0 D' (chains (mem s') B') ev;
  lp_frame : forall q, q ∉ L -> q <> p -> mem s' !! q = mem s !! q;
  lp_sub : forall q, q ∈ L' -> q ∈ L \/ q = p;
  lp_unbounded : bucket_limit (ht s) = 0 -> L' = L ++ [p]
}.

Lemma config_parts t t' : config t' = config t ->
  fn_hash t' = fn_hash t /\ fn_bucket_free t' = fn_bucket_free t /\ i_heuristics t' = i_heuristics t /\
  i_automatic_rehash t' = i_automatic_rehash t /\ bucket_limit t' = bucket_limit t.
Proof. unfold config. by intros [= -> -> -> -> ->]. Qed.

(** A chain of live blocks shows as many keys as it has blocks. *)
Lemma chain_length m l : (forall p, p ∈ l -> is_Some (m !! p)) -> length (entries m l).*1 = length l.
Proof. intros H. by rewrite length_fmap, entries_length. Qed.

(** If two memories show the same entries for a list, they do for every part of it. *)
Lemma entries_part m m' L l :
  (forall p, p ∈ L -> is_Some (m !! p)) -> (forall p, p ∈ L -> is_Some (m' !! p)) ->
  entries m' L = entries m L -> (forall p, p ∈ l -> p ∈ L) -> entries m' l = entries m l.
Proof.
  intros H H' HE Hl. apply entries_frame. intros p Hp%Hl. clear l Hl. induction L as [|q L IH]; [by apply elem_of_nil in Hp|].
  destruct (H q) as [e He]; [by left|]. destruct (H' q) as [e' He']; [by left|].
  rewrite (entries_cons _ _ _ _ He), (entries_cons _ _ _ _ He') in HE. injection HE as Hk Hd HE.
  apply elem_of_cons in Hp as [->|Hp]; [by rewrite He, He'; cbn; rewrite Hk, Hd|].
  apply IH; try done; intros x Hx; [apply H|apply H']; by right.
Qed.

(** Linking a new entry in front of the chain [i] leaves the other chains. *)
Lemma linked_chains s p e L L' i l' B s' :
  linked s p e L L' i l' B s' -> (i < length B)%nat -> (forall q, q ∈ L' -> is_Some (mem s !! q)) ->
  (forall q, q ∈ l' -> q ∈ L') -> (forall j l, B !! j = Some l -> j <> i -> forall q, q ∈ l -> q ∈ L') ->
  chains (mem s') (<[i := p :: l']> B) = <[i := key e :: (entries (mem s) l').*1]> (chains (mem s) B).
Proof.
  intros (HR & HE & _) Hi Hlive Hl' Hother. rewrite entries_app in HE.
  assert (Hlive' : forall q, q ∈ L' ++ [p] -> is_Some (mem s' !! q)) by apply (rep_live _ _ _ _ HR).
  apply app_inj_1 in HE as [HL HP]; [|rewrite !entries_length; [done|done|intros q Hq; apply Hlive'; set_solver]].
  assert (Hpart : forall l, (forall q, q ∈ l -> q ∈ L') -> entries (mem s') l = entries (mem s) l).
  { intros l. apply entries_part; [done| |done]. intros q Hq. apply Hlive'. set_solver. }
  unfold chains. rewrite list_fmap_insert.
  destruct (Hlive' p) as [e' He']; [set_solver|]. rewrite (entries_cons _ _ _ _ He') in HP. rewrite (entries_cons _ _ _ _ He'). injection HP as Hke _. rewrite Hke.
  cbn. rewrite Hpart by done. apply list_eq. intros j. destruct (decide (j = i)) as [->|Hj].
  - rewrite !list_lookup_insert_eq by (by rewrite length_fmap). done.
  - rewrite !list_lookup_insert_ne, !list_lookup_fmap by done. destruct (B !! j) as [l|] eqn:El; [|done].
    cbn. f_equal. rewrite Hpart; [done|]. by apply (Hother j).
Qed.

Lemma wp_link_new s L B p data k Q :
  Rep (ht s) (mem s) L B -> key_ok k -> limit_ok (ht s) -> within (ht s) B ->
  mem s !! p = Some (new_entry data k) -> p ∉ L ->
  (forall q e, q ∈ L -> mem s !! q = Some e -> key e <> k) -> Z.of_nat (length L) + 1 < 2 ^ 31 ->
  (forall s' L' B' D' ev, link_post s L B p k data s' L' B' D' ev -> within (ht s') B' -> Q tt s') ->
  wp (link_entry (Z.land (fn_hash (ht s) k) (i_size_mask (ht s))) p) Q s.
Proof.
  intros HR Hk [Hlim Hfn] Hw Hp Hpl Hkeys Hlen HQ.
  pose proof (bucket_range _ _ _ _ k HR Hk) as Hr. destruct (bucket_chain _ _ _ _ k HR Hk) as [l Hl].
  destruct (Z_of_nat_complete (Z.land (fn_hash (ht s) k) (i_size_mask (ht s)))) as [i Hx]; [lia|].
  rewrite Hx, Nat2Z.id in *. 
  assert (Hfresh : fresh_entry (ht s) (mem s) L B p (new_entry data k) i l) by (by constructor).
  pose proof (rep_find_none _ _ _ Hkeys) as Hkn.
  assert (Hil : (i < length B)%nat) by (by apply lookup_lt_Some in Hl).
  destruct (decide (bucket_limit (ht s) = 0 \/ Z.of_nat (length l) < bucket_limit (ht s))) as [Hroom|Hfull].
  - eapply wp_link_entry; [done|done|done|done|]. intros s' (H1 & H2 & H3 & H4 & H5 & H6) Hev.
    destruct (config_parts _ _ H3) as (_ & _ & _ & _ & Hc5).
    eapply (HQ s' (L ++ [p]) _ _ []).
    + constructor; [exact H1|exact H2|done|done|done|by rewrite app_nil_r| |done| |done].
      { rewrite (linked_chains s p (new_entry data k) L L i l B s'); [|done|done|apply (rep_live _ _ _ _ HR)|..].
        - destruct (config_parts _ _ H3) as (Hc1 & _). apply inserts_new; [done|by rewrite Hc1, H4| |].
          + unfold chains. by rewrite list_lookup_fmap, Hl.
          + rewrite Hc5, chain_length; [done|]. intros q Hq. by eapply rep_live, rep_chain_in.
        - intros q. by eapply rep_chain_in.
        - intros j l' Hj _ q. by eapply rep_chain_in. }
      intros q [?|?%list_elem_of_singleton]%elem_of_app; auto.
    + destruct Hw as [Hw|Hw]; [by left; rewrite Hc5|]. destruct Hroom as [Hroom|Hroom]; [by left; rewrite Hc5|].
      right. rewrite Hc5. intros j l'. rewrite list_lookup_insert. case_decide; [|by apply Hw].
      intros [= <-]. cbn. lia.
  - assert (Hne : l <> []) by (intros ->; cbn in Hfull; lia).
    destruct (exists_last Hne) as (l0 & r & ->).
    assert (HrL : r ∈ L) by (eapply rep_chain_in; [done|done|set_solver]).
    apply list_elem_of_split in HrL as (a & b & ->).
    destruct (rep_live _ _ _ _ HR r) as [er Her]; [set_solver|].
    destruct Hfn as [f Hf]; [lia|].
    eapply wp_link_entry_full; [done|done|done|done|lia|]. intros s' (H1 & H2 & H3 & H4 & H5 & H6) Hev.
    destruct (config_parts _ _ H3) as (Hc1 & Hc2 & _ & _ & Hc5).
    eapply (HQ s' ((a ++ b) ++ [p])).
    + constructor; [exact H1|exact H2|done|done|done|exact Hev| |done| |lia].
      * rewrite (rep_entries_without _ _ _ _ _ _ _ HR Her).
        assert (HlL : forall q, q ∈ l0 ++ [r] -> q ∈ a ++ r :: b) by (intros q; by eapply rep_chain_in).
        assert (Hall : forall q, q ∈ a ++ r :: b -> is_Some (mem s !! q)) by apply (rep_live _ _ _ _ HR).
        assert (Hne' : forall q, q ∈ a ++ r :: b -> q <> r -> q ∈ a ++ b) by set_solver.
        destruct (rep_chain _ _ _ _ HR i _ Hl) as (Hnd & _).
        assert (Hrl : r ∉ l0) by (apply NoDup_app in Hnd as (_ & Hnd & _); intros Hr'; apply (Hnd r Hr'); by left).
        assert (Hkr : (entries (mem s) (l0 ++ [r])).*1 = (entries (mem s) l0).*1 ++ [key er]).
        { by rewrite entries_app, fmap_app, (entries_cons _ _ _ _ Her). }
        rewrite (linked_chains s p (new_entry data k) (a ++ r :: b) (a ++ b) i l0 B s'); [|done|done|set_solver|..].
        -- apply inserts_evict; [done|by rewrite Hc1, H4| | | |by rewrite Hc2|].
           ++ unfold chains. by rewrite list_lookup_fmap, Hl, <- Hkr.
           ++ rewrite Hc5. lia.
           ++ rewrite Hc5, <- Hkr, chain_length by (intros q ?%HlL; by apply Hall). lia.
           ++ apply entries_elem. exists r, er. set_solver.
        -- intros q Hq. apply Hne'; [apply HlL; set_solver|by intros ->].
        -- intros j l' Hj Hji q Hq. apply Hne'; [by eapply rep_chain_in|]. intros ->.
           apply (rep_chains_disjoint _ _ _ _ _ _ _ _ _ HR Hj Hl Hji Hq). set_solver.
      * intros q [?|?%list_elem_of_singleton]%elem_of_app; [|by right]. left. set_solver.
    + right. rewrite Hc5. destruct Hw as [Hw|Hw]; [lia|].
      intros j l'. rewrite list_lookup_insert. case_decide; [|by apply Hw].
      intros [= <-]. specialize (Hw i _ Hl). rewrite length_app in Hw. cbn in *. lia.
Qed.

(** [malloc] returns fresh blocks. *)
Context (fn_alloc : nat -> gmap addr (ght_hash_entry_t V) -> option addr).
Context (alloc_fresh : forall n m p, fn_alloc n m = Some p -> m !! p = None).

Lemma wp_he_create data k Q s :
  key_ok k ->
  (fn_alloc (requests s) (mem s) = None ->
   Q None (mk_state (ht s) (mem s) (S (requests s)) (evictions s))) ->
  (forall p, fn_alloc (requests s) (mem s) = Some p -> mem s !! p = None ->
     Q (Some p) (with_new s p (new_entry data k))) ->
  wp (he_create fn_alloc data (key_i_size k) (key_p_key k)) Q s.
Proof.
  intros [Hk _] HN HS. unfold wp, he_create. destruct (fn_alloc _ _) as [p|] eqn:E; [|by apply HN].
  rewrite Hk, Nat2Z.id, firstn_all, <- Hk. specialize (HS p eq_refl (alloc_fresh _ _ _ E)).
  by destruct k.
Qed.

(** Up to the decision to rehash. *)
Lemma wp_insert_with rehash data k L B Q s :
  Rep (ht s) (mem s) L B -> key_ok k ->
  (k ∈ (entries (mem s) L).*1 -> Q (-1) s) ->
  (k ∉ (entries (mem s) L).*1 -> fn_alloc (requests s) (mem s) = None ->
   Q (-2) (mk_state (ht s) (mem s) (S (requests s)) (evictions s))) ->
  (forall p, k ∉ (entries (mem s) L).*1 -> fn_alloc (requests s) (mem s) = Some p -> mem s !! p = None ->
     (forall q e, q ∈ L -> mem s !! q = Some e -> key e <> k) ->
     wp (l_key ← (if i_automatic_rehash (ht s) && (u32 (2 * i_size (ht s)) <? i_items (ht s))
                  then _ ← rehash (u32 (2 * i_size (ht s))); bucket_of k
                  else mret (Z.land (fn_hash (ht s) k) (i_size_mask (ht s))));
         _ ← link_entry l_key p; mret 0) Q (with_new s p (new_entry data k))) ->
  wp (insert_with fn_alloc rehash data (key_i_size k) (key_p_key k)) Q s.
Proof.
  intros HR Hk HP HN HS. unfold insert_with, hk_fill.
  replace (mk_hash_key (key_i_size k) (key_p_key k)) with k by (by destruct k).
  apply wp_bind, wp_bucket_of. apply wp_bind. eapply wp_search; [done|done|..].
  - intros Hnone. pose proof (rep_find_none _ _ _ Hnone) as Hkn.
    apply wp_bind, wp_he_create; [done|by intros ?; apply HN|].
    intros p Ha Hp. apply wp_bind, wp_get_ht. by apply HS.
  - intros i p e a b c d -> He Hke _ _. change (wrap 8 0) with 0.
    unfold heuristic. cbn [GHT_HEURISTICS_MOVE_TO_FRONT GHT_HEURISTICS_TRANSPOSE Z.eqb].
    apply wp_ret, wp_ret, HP. apply entries_key. exists p, e. set_solver.
Qed.
End insert.

(** ** Creation *)

Section creation.
Context {V : Type}.
Implicit Types (s : ght_state V) (m : gmap addr (ght_hash_entry_t V)).

(** The loop finds the least power of two that is large enough. *)
Lemma create_loop_ok n fuel : forall k,
  0 <= k -> n <= 2 ^ 30 -> (k = 0 \/ 2 ^ (k - 1) < n) -> (Z.to_nat (30 - k) < fuel)%nat -> k <= 30 ->
  exists k', create_loop fuel (2 ^ k) (k + 1) n = Some (2 ^ k', k' + 1) /\
    k <= k' <= 30 /\ n <= 2 ^ k' /\ (k' = 0 \/ 2 ^ (k' - 1) < n).
Proof.
  induction fuel as [|fuel IH]; intros k Hk Hn Hlow Hf Hk30; [lia|]. cbn [create_loop].
  destruct (Z.ltb_spec (2 ^ k) n) as [Hlt|Hge].
  - assert (k < 30).
    { destruct (Z.eq_dec k 30) as [->|]; lia. }
    rewrite (proj2 (Z.ltb_lt (k + 1) 31)) by lia. rewrite Z.shiftl_1_l.
    destruct (IH (k + 1)) as (k' & E & H1 & H2 & H3); try lia.
    { right. by replace (k + 1 - 1) with k by lia. }
    exists k'. split; [done|]. split; [lia|done].
  - exists k. split; [done|]. split; [lia|]. split; [lia|done].
Qed.

(** An empty table. *)
Lemma Rep_empty m h hash fb rehash limit k :
  0 <= k <= 30 -> (forall key, key_ok key -> is_u 32 (hash key)) ->
  Rep (mk_table 0 (2 ^ k) hash fb h rehash (replicate (Z.to_nat (2 ^ k)) None)
         (replicate (Z.to_nat (2 ^ k)) 0) (2 ^ k - 1) limit None None) m []
      (replicate (Z.to_nat (2 ^ k)) []).
Proof.
  intros Hk Hh. constructor; cbn; try done.
  - by exists k.
  - by rewrite length_replicate.
  - by rewrite length_replicate.
  - by rewrite length_replicate.
  - constructor.
  - by intros p ?%elem_of_nil.
  - apply links_nil.
  - intros i l [-> Hi]%lookup_replicate. split_and!; [constructor|apply links_nil| |]; by apply lookup_replicate.
  - intros i l p [-> Hi]%lookup_replicate. rewrite !elem_of_nil. tauto.
  - by intros p e ?%elem_of_nil.
  - by intros p q e e' ?%elem_of_nil.
Qed.

Definition empty_table (k : Z) : ght_hash_table_t :=
  mk_table 0 (2 ^ k) ght_one_at_a_time_hash None GHT_HEURISTICS_NONE false
    (replicate (Z.to_nat (2 ^ k)) None) (replicate (Z.to_nat (2 ^ k)) 0) (2 ^ k - 1) 0 None None.

Context (fn_alloc : nat -> gmap addr (ght_hash_entry_t V) -> option addr).

Lemma ght_create_run n s :
  0 <= n <= 2 ^ 30 ->
  exists k, 0 <= k <= 30 /\ n <= 2 ^ k /\ (k = 0 \/ 2 ^ (k - 1) < n) /\
    exists r c, ght_create fn_alloc n s = Some (r, mk_state (ht s) (mem s) (requests s + c) (evictions s)) /\
      (r = None \/ r = Some (empty_table k)) /\
      ((forall i, is_Some (fn_alloc i (mem s))) -> r = Some (empty_table k)).
Proof.
  intros Hn. destruct (create_loop_ok n 32 0) as (k & E & Hk & H1 & H2); try lia.
  exists k. split; [lia|]. split; [done|]. split; [done|]. unfold ght_create.
  change (2 ^ 0) with 1 in E. change (0 + 1) with 1 in E. rewrite E. rewrite Z.shiftl_1_l.
  replace (k + 1 - 1) with k by lia. fold (empty_table k).
  set (ok i := match fn_alloc (requests s + i) (mem s) with Some _ => true | None => false end).
  assert (Hok : (forall i, is_Some (fn_alloc i (mem s))) -> forall i, ok i = true).
  { intros H i. unfold ok. by destruct (H (requests s + i)%nat) as [p ->]. }
  change (match fn_alloc (requests s + 0) (mem s) with Some _ => true | None => false end) with (ok 0%nat).
  change (match fn_alloc (requests s + 1) (mem s) with Some _ => true | None => false end) with (ok 1%nat).
  change (match fn_alloc (requests s + 2) (mem s) with Some _ => true | None => false end) with (ok 2%nat).
  destruct (ok 0%nat) eqn:E0; cbn.
  2: { eexists _, 1%nat. split; [done|]. split; [by left|]. intros H. by rewrite Hok in E0. }
  destruct (ok 1%nat) eqn:E1; cbn.
  2: { eexists _, 2%nat. split; [done|]. split; [by left|]. intros H. by rewrite Hok in E1. }
  destruct (ok 2%nat) eqn:E2; cbn.
  2: { eexists _, 3%nat. split; [done|]. split; [by left|]. intros H. by rewrite Hok in E2. }
  eexists _, 3%nat. split; [done|]. split; [by right|done].
Qed.

(** [ght_create] terminates, shifts within the width of [int], and gives
    NULL or an empty table whose number of buckets is the least power of two
    that is not below the request; the mask is one less, so that every hash
    value picks an existing bucket.  Requests above 2^30 are excluded: for
    2^30 < n the loop would shift into the sign bit. *)
Theorem ght_create_spec n s :
  0 <= n <= 2 ^ 30 ->
  exists r c, ght_create fn_alloc n s = Some (r, mk_state (ht s) (mem s) (requests s + c) (evictions s)) /\
    match r with
    | None => ~ forall i, is_Some (fn_alloc i (mem s))
    | Some t => holds (mk_state t (mem s) (requests s + c) (evictions s)) [] /\
        n <= i_size t /\ (i_size t = 1 \/ i_size t < 2 * n) /\
        (exists k, i_size t = 2 ^ k) /\ i_size_mask t = i_size t - 1
    end.
Proof.
  intros Hn. destruct (ght_create_run n s Hn) as (k & Hk & H1 & H2 & r & c & E & Hr & Hok).
  exists r, c. split; [done|]. destruct r as [t|].
  - destruct Hr as [|[= ->]]; [done|]. split_and!; try done.
    + exists [], (replicate (Z.to_nat (2 ^ k)) []). split; [|done].
      apply Rep_empty; [done|]. intros key [_ Hb]. by apply ght_one_at_a_time_hash_range.
    + cbn. destruct H2 as [->|H2]; [by left|right]. replace k with (Z.succ (k - 1)) at 1 by lia.
      destruct (decide (k = 0)) as [->|]; [lia|]. rewrite Z.pow_succ_r by lia. lia.
    + by exists k.
  - intros H. by specialize (Hok H).
Qed.

(** The request that is refused. *)
Example create_too_large s : (forall i, is_Some (fn_alloc i (mem s))) -> ght_create fn_alloc (2 ^ 30 + 1) s = None.
Proof.
  intros H. unfold ght_create. destruct (H (requests s + 0)%nat) as [p ->]. reflexivity.
Qed.
End creation.

(** ** Emptying *)

Section emptying.
Context {V : Type}.
Implicit Types (s : ght_state V) (m : gmap addr (ght_hash_entry_t V)) (p q r : addr)
  (L a b c d l : list addr) (B : list (list addr)).

(** [m'] is [m] without the blocks of [l]. *)
Definition freed l m m' : Prop := forall q, m' !! q = if decide (q ∈ l) then None else m !! q.

Lemma freed_nil m : freed [] m m.
Proof. intros q. rewrite decide_False; [done|]. by intros ?%elem_of_nil. Qed.

Lemma freed_app a b m m1 m2 : freed a m m1 -> freed b m1 m2 -> freed (a ++ b) m m2.
Proof.
  intros H1 H2 q. rewrite H2, H1. destruct (decide (q ∈ b)), (decide (q ∈ a)).
  all: destruct (decide (q ∈ a ++ b)) as [Hq|Hq]; rewrite elem_of_app in Hq; done || tauto.
Qed.

Lemma wp_free_chain_loop l : forall fuel Q s,
  NoDup l -> (forall a q b, l = a ++ q :: b -> exists e, mem s !! q = Some e /\ p_next e = head b) ->
  (length l <= fuel)%nat -> (forall m', freed l (mem s) m' -> Q tt (put_mem m' s)) ->
  wp (free_chain_loop fuel (head l)) Q s.
Proof.
  induction l as [|p l IH]; intros fuel Q s Hnd HN Hf HQ.
  - destruct fuel; cbn; apply wp_ret; specialize (HQ _ (freed_nil _)); by destruct s.
  - destruct fuel as [|fuel]; [cbn in Hf; lia|]. cbn [head free_chain_loop].
    destruct (HN [] p l eq_refl) as (e & He & Hn). apply wp_bind, (wp_rd _ _ _ _ e He). rewrite Hn.
    apply wp_bind, wp_he_finalize; [by eexists|]. apply NoDup_cons in Hnd as [Hp Hnd].
    apply IH; [done| |cbn in Hf; lia|].
    + intros a q b E. destruct (HN (p :: a) q b) as (e' & He' & Hn'); [by rewrite E|].
      exists e'. split; [|done]. unfold put_mem. cbn [mem]. rewrite lookup_delete_ne; [done|].
      intros <-. apply Hp. rewrite E. set_solver.
    + intros m' Hm'. apply (HQ m'). intros q. rewrite Hm'. unfold put_mem. cbn [mem].
      destruct (decide (q = p)) as [->|Hqp].
      * rewrite lookup_delete_eq, (decide_True (P := p ∈ p :: l)) by (by left). by case_decide.
      * rewrite lookup_delete_ne by done. destruct (decide (q ∈ l)) as [Hq|Hq].
        -- rewrite decide_True; [done|]. by right.
        -- rewrite decide_False; [done|]. by intros [?|?]%elem_of_cons.
Qed.

(** The chains from the [i]-th on, as the loop of [remove_all_entries] finds
    them. *)
Definition chains_from m (pp : list (option addr)) (B : list (list addr)) (i : nat) : Prop :=
  forall j l, B !! j = Some l -> (i <= j)%nat ->
    NoDup l /\ (forall q, q ∈ l -> is_Some (m !! q)) /\
    (forall a q b, l = a ++ q :: b -> exists e, m !! q = Some e /\ p_next e = head b) /\
    pp !! j = Some (head l).

Lemma wp_free_buckets B n : forall i Q s,
  (i + n = length B)%nat -> length (pp_entries (ht s)) = length B ->
  (forall j k l l', B !! j = Some l -> B !! k = Some l' -> j <> k -> forall q, q ∈ l -> q ∉ l') ->
  chains_from (mem s) (pp_entries (ht s)) B i ->
  (forall m' t', freed (mjoin (drop i B)) (mem s) m' ->
     t' = with_lists (ht s) (take i (pp_entries (ht s)) ++ replicate n None) (p_nr (ht s))
            (p_oldest (ht s)) (p_newest (ht s)) (i_items (ht s)) ->
     Q tt (put_ht t' (put_mem m' s))) ->
  wp (free_buckets n (Z.of_nat i)) Q s.
Proof.
  induction n as [|n IH]; intros i Q s Hin Hlen Hdis HC HQ.
  - apply wp_ret. specialize (HQ (mem s) (ht s)). destruct s as [t m rq ev]. apply HQ.
    + rewrite drop_ge by lia. apply freed_nil.
    + cbn in *. rewrite take_ge by lia. rewrite app_nil_r. by destruct t.
  - destruct (lookup_lt_is_Some_2 B i) as [l Hl]; [lia|].
    destruct (HC i l Hl (Nat.le_refl i)) as (Hnd & Hlive & Hnext & Hpp).
    cbn [free_buckets]. apply wp_bind. eapply wp_get_bucket; [lia|by rewrite Nat2Z.id|].
    apply wp_bind. unfold free_entry_chain. apply wp_bind. unfold wp at 1, mem_fuel.
    apply wp_free_chain_loop; [done|done|by apply le_S, live_length|]. intros m1 Hm1.
    apply wp_bind. eapply wp_set_bucket; [lia|by cbn; rewrite Nat2Z.id|].
    replace (Z.of_nat i + 1) with (Z.of_nat (S i)) by lia.
    apply IH; [lia|by cbn; rewrite length_insert|done| |].
    + intros j l' Hj Hij. destruct (HC j l' Hj) as (H1 & H2 & H3 & H4); [lia|].
      assert (Hout : forall q, q ∈ l' -> m1 !! q = mem s !! q).
      { intros q Hq. rewrite Hm1, decide_False; [done|]. apply (Hdis j i l' l Hj Hl); [lia|done]. }
      cbn. rewrite Nat2Z.id. split_and!; [done| | |].
      * intros q Hq. rewrite Hout by done. by apply H2.
      * intros a q b ->. rewrite Hout by set_solver. by apply (H3 a q b).
      * rewrite list_lookup_insert_ne by lia. done.
    + intros m2 t' Hm2 ->. apply HQ.
      * rewrite (drop_S _ _ _ Hl). cbn. by eapply freed_app.
      * cbn. rewrite Nat2Z.id. unfold put_bucket, with_lists. cbn. f_equal.
        assert (Hi : (i < length (pp_entries (ht s)))%nat) by lia.
        rewrite (take_S_r _ _ None) by (by rewrite list_lookup_insert_eq).
        rewrite take_insert_ge by lia. by rewrite <- app_assoc.
Qed.
End emptying.

Section remove_all.
Context {V : Type}.
Implicit Types (s : ght_state V) (m : gmap addr (ght_hash_entry_t V)) (p q r : addr)
  (L a b c d l : list addr) (B : list (list addr)).

Lemma rep_chains_from t m L B : Rep t m L B -> chains_from m (pp_entries t) B 0.
Proof.
  intros HR j l Hl _. destruct (rep_chain _ _ _ _ HR j l Hl) as (H1 & H2 & H3 & _).
  assert (Hlive : forall q, q ∈ l -> is_Some (m !! q)).
  { intros q Hq. eapply rep_live; [done|]. by eapply rep_chain_in. }
  split_and!; try done. intros a q b ->. destruct (H2 a q b eq_refl) as [Hn _].
  destruct (Hlive q) as [e He]; [set_solver|]. exists e. unfold fld in Hn. by rewrite He in Hn.
Qed.

Lemma rep_mjoin t m L B q : Rep t m L B -> q ∈ mjoin B <-> q ∈ L.
Proof.
  intros HR. rewrite list_elem_of_join. split.
  - intros (l & Hq & Hl). apply list_elem_of_lookup in Hl as [i Hl]. by eapply rep_chain_in.
  - intros Hq. destruct (rep_live _ _ _ _ HR q Hq) as [e He].
    destruct (rep_in_chain _ _ _ _ q e HR Hq He) as (_ & l & Hl & Hql). exists l. split; [done|].
    by apply list_elem_of_lookup_2 in Hl.
Qed.

Lemma wp_remove_all_entries L B Q s :
  Rep (ht s) (mem s) L B ->
  (forall m', freed L (mem s) m' ->
     Q tt (put_ht (with_lists (ht s) (replicate (Z.to_nat (i_size (ht s))) None) (p_nr (ht s))
                     (p_oldest (ht s)) (p_newest (ht s)) (i_items (ht s))) (put_mem m' s))) ->
  wp remove_all_entries Q s.
Proof.
  intros HR HQ. apply wp_bind, wp_get_ht. apply (wp_free_buckets B _ 0).
  - by rewrite (rep_B_length _ _ _ _ HR).
  - by rewrite (rep_B_length _ _ _ _ HR), (rep_pp_length _ _ _ _ HR).
  - intros j k l l' Hj Hk Hjk q Hq. exact (rep_chains_disjoint _ _ _ _ _ _ _ _ _ HR Hj Hk Hjk Hq).
  - by apply (rep_chains_from _ _ L).
  - intros m' t' Hm' ->. apply HQ. intros q. rewrite Hm', drop_0. apply decide_ext.
    by apply (rep_mjoin _ _ _ _ _ HR).
Qed.

(** [ght_remove_all] frees the block of every entry, and no other block,
    and leaves an empty table with the same buckets and settings. *)
Theorem ght_remove_all_spec L B s :
  Rep (ht s) (mem s) L B ->
  exists s', ght_remove_all s = Some (tt, s') /\ holds s' [] /\
    config (ht s') = config (ht s) /\ i_size (ht s') = i_size (ht s) /\
    forall q, mem s' !! q = if decide (q ∈ L) then None else mem s !! q.
Proof.
  intros HR. apply wp_run_eq. apply wp_bind. eapply wp_remove_all_entries; [done|]. intros m' Hm'.
  apply wp_bind, wp_get_ht. apply wp_set_ht. split; [done|]. split_and!; try done.
  exists [], (replicate (Z.to_nat (i_size (ht s))) []). split; [|done].
  destruct (rep_size _ _ _ _ HR) as (k & Hk & Hs). cbn. unfold with_lists. cbn.
  rewrite (rep_mask _ _ _ _ HR), Hs. apply (Rep_empty _ _ _ _ _ _ k); [exact Hk|]. apply (rep_hash _ _ _ _ HR).
Qed.
End remove_all.

(** ** Iteration *)

Section iteration.
Context {V : Type}.
Implicit Types (s : ght_state V) (m : gmap addr (ght_hash_entry_t V)) (p q r : addr)
  (L a b c d l : list addr) (B : list (list addr)).

(** What an iterator shows when the entries [b] are to come. *)
Definition position m b : ght_iterator_t * option ght_hash_key_t * option V :=
  match b with
  | p :: b' => (mk_iterator (Some p) (head b'), key <$> m !! p, m !! p ≫= p_data)
  | [] => (mk_iterator None None, None, None)
  end.

Lemma wp_visit L B a b Q s :
  Rep (ht s) (mem s) L B -> L = a ++ b -> Q (position (mem s) b) s -> wp (visit (head b)) Q s.
Proof.
  intros HR -> HQ. destruct b as [|p b]; [done|].
  destruct (rep_live _ _ _ _ HR p) as [e He]; [set_solver|].
  destruct (rep_age _ _ _ _ HR a p b eq_refl) as [Hn _]. unfold fld in Hn. rewrite He in Hn. cbn in *.
  do 3 (apply wp_bind, (wp_rd _ _ _ _ e He)). apply wp_ret. rewrite He in HQ. cbn in HQ. by rewrite Hn.
Qed.

(** [for (p = ght_first(...); p; p = ght_next(...))], collecting what [p_key]
    and [p] point to. *)
Fixpoint walk (fuel : nat) (pos : ght_iterator_t * option ght_hash_key_t * option V)
    : ghtM V (list (ght_hash_key_t * V)) :=
  match pos, fuel with
  | (it, Some k, Some v), S fuel =>
      pos ← ght_next it;
      rest ← walk fuel pos;
      mret ((k, v) :: rest)
  | (_, _, None), _ => mret []
  | _, _ => stuck
  end.
Definition iterate : ghtM V (list (ght_hash_key_t * V)) :=
  fuel ← mem_fuel;
  pos ← ght_first;
  walk fuel pos.

(** The walk stops at the first NULL. *)
Fixpoint until_null (D : dict ght_hash_key_t (option V)) : list (ght_hash_key_t * V) :=
  match D with
  | (k, Some v) :: D => (k, v) :: until_null D
  | _ => []
  end.

Lemma wp_walk L B b : forall a fuel Q s,
  Rep (ht s) (mem s) L B -> L = a ++ b -> (length b <= fuel)%nat ->
  Q (until_null (entries (mem s) b)) s -> wp (walk fuel (position (mem s) b)) Q s.
Proof.
  induction b as [|p b IH]; intros a fuel Q s HR HL Hf HQ; [by destruct fuel|].
  destruct (rep_live _ _ _ _ HR p) as [e He]; [set_solver|].
  rewrite (entries_cons _ _ _ _ He) in HQ. cbn [position]. rewrite He. cbn.
  destruct fuel as [|fuel]; [cbn in Hf; lia|]. cbn in HQ |- *. destruct (p_data e) as [v|]; [|done].
  rewrite cons_middle, app_assoc in HL.
  apply wp_bind. unfold ght_next, next_keysize. cbn [it_next]. eapply wp_visit; [done|done|].
  apply wp_bind. eapply IH; [done|done|cbn in Hf; lia|]. by apply wp_ret.
Qed.

(** Iteration visits the entries from the oldest to the newest, once each,
    and ends; it stops at the first entry whose datum is NULL. *)
Lemma iterate_spec s D :
  holds s D -> iterate s = Some (until_null D, s).
Proof.
  intros (L & B & HR & <-). assert (H : wp iterate (fun out s' => out = until_null (entries (mem s) L) /\ s' = s) s).
  { apply wp_bind. unfold wp at 1, mem_fuel. apply wp_bind. apply wp_bind, wp_get_ht.
    rewrite (rep_oldest _ _ _ _ HR). eapply (wp_visit L B []); [done|done|].
    eapply (wp_walk L B L []); [done|done| |done].
    apply le_S, live_length; [by eapply rep_nodup|by eapply rep_live]. }
  destruct (wp_run _ _ _ H) as (out & s' & E & -> & ->). done.
Qed.
End iteration.
