(* ===== verification/HashTableLookup.v ===== *)
(** * The hash table: look-up

    [ght_get] and [ght_replace] of [HashTable], under the heuristics that
    reorder the chain of a bucket when an entry is found. *)

From S2P Require Import Prelude HashFunctions GhtIface HashTable HashTableRep HashTableRemove HashTableInsert.

(** ** Look-up, and the heuristics that reorder a chain *)

Section lookup.
Context {V : Type}.
Implicit Types (s : ght_state V) (m : gmap addr (ght_hash_entry_t V)) (p q : addr)
  (L a b c d l : list addr) (B : list (list addr)).

(** Everything of an entry but its links in the chain. *)
Definition core (e : ght_hash_entry_t V) := (key e, p_data e, p_bucketidx e, p_older e, p_newer e).

Lemma core_parts e e' : core e' = core e ->
  key e' = key e /\ p_data e' = p_data e /\ p_bucketidx e' = p_bucketidx e /\
  p_older e' = p_older e /\ p_newer e' = p_newer e.
Proof. unfold core. by intros [= -> -> -> -> ->]. Qed.

Lemma core_opt (o o' : option (ght_hash_entry_t V)) :
  core <$> o' = core <$> o ->
  match o', o with
  | Some e', Some e => core e' = core e
  | None, None => True
  | _, _ => False
  end.
Proof. destruct o, o'; cbn; try done. intros E. by apply (inj Some) in E. Qed.

Definition put_chain (t : ght_hash_table_t) i l : ght_hash_table_t :=
  with_lists t (<[i := head l]> (pp_entries t)) (p_nr t) (p_oldest t) (p_newest t) (i_items t).

(** A chain in another order. *)
Lemma Rep_rechain t m m' L B i l l' :
  Rep t m L B -> B !! i = Some l -> l' ≡ₚ l ->
  (forall q, core <$> m' !! q = core <$> m !! q) -> (forall q, q ∉ l -> m' !! q = m !! q) ->
  links (fld p_next m') (fld p_prev m') l' ->
  Rep (put_chain t i l') m' L (<[i := l']> B).
Proof.
  intros HR Hi Hperm Hcore Hout Hlinks. rep_facts HR.
  destruct (rep_chain0 i l Hi) as (Hnd & _ & Hpp & Hnr).
  assert (Hget : forall q e', m' !! q = Some e' -> exists e, m !! q = Some e /\ core e' = core e).
  { intros q e' E. pose proof (core_opt _ _ (Hcore q)) as Hc. rewrite E in Hc.
    destruct (m !! q) as [e|]; [by exists e|done]. }
  assert (Hfld : forall f, (forall e e', core e' = core e -> f e' = f e) -> forall q, fld f m' q = fld f m q).
  { intros f Hf q. unfold fld. pose proof (core_opt _ _ (Hcore q)) as Hc.
    destruct (m' !! q), (m !! q); try done. by apply Hf. }
  assert (Hidx : forall q, p_bucketidx <$> m' !! q = p_bucketidx <$> m !! q).
  { intros q. pose proof (core_opt _ _ (Hcore q)) as Hc. destruct (m' !! q), (m !! q); try done.
    cbn. f_equal. by apply core_parts in Hc as (_ & _ & ? & _). }
  constructor; cbn; try done.
  - by rewrite length_insert.
  - by rewrite length_insert.
  - intros q Hq. pose proof (core_opt _ _ (Hcore q)) as Hc. destruct (rep_live0 q Hq) as [e He].
    rewrite He in Hc. destruct (m' !! q); [by eexists|done].
  - eapply links_ext; [|done]. intros q _.
    rewrite !Hfld; [done|intros e e' Hc; by apply core_parts in Hc as (_ & _ & _ & ? & ?)..].
  - rewrite <- (list_insert_id (p_nr t) i (Z.of_nat (length l'))) by (by rewrite Hperm).
    eapply Rep_chains; [exact HR|exact Hi|by rewrite Hperm|done|].
    intros q _ Hq. unfold fld. by rewrite Hout.
  - eapply Rep_buckets; [exact HR|exact Hi| |].
    + intros q. rewrite Hperm, Hidx. by apply rep_bucket0.
    + intros j q _. by rewrite Hidx.
  - intros q e' Hq E. destruct (Hget q e' E) as (e & He & Hc). apply core_parts in Hc as (-> & _ & -> & _).
    by apply (rep_entry0 q e).
  - intros q q' e1 e2 Hq Hq' E1 E2. destruct (Hget q e1 E1) as (e3 & He3 & Hc3), (Hget q' e2 E2) as (e4 & He4 & Hc4).
    apply core_parts in Hc3 as (-> & _), Hc4 as (-> & _). by apply rep_keys0.
Qed.

Lemma entries_core m m' L : (forall q, core <$> m' !! q = core <$> m !! q) -> entries m' L = entries m L.
Proof.
  intros HC. apply entries_frame. intros q _. pose proof (core_opt _ _ (HC q)) as Hc. destruct (m' !! q), (m !! q); try done.
  cbn. by apply core_parts in Hc as (-> & -> & _).
Qed.

(** What a heuristic may do. *)
Record rechained s L B i l s' (l' : list addr) : Prop := {
  rc_perm : l' ≡ₚ l;
  rc_rep : Rep (ht s') (mem s') L (<[i := l']> B);
  rc_core : forall q, core <$> mem s' !! q = core <$> mem s !! q;
  rc_config : config (ht s') = config (ht s);
  rc_requests : requests s' = requests s;
  rc_evictions : evictions s' = evictions s
}.

Lemma rechained_refl s L B i l : Rep (ht s) (mem s) L B -> B !! i = Some l -> rechained s L B i l s l.
Proof. intros HR Hi. constructor; try done. by rewrite list_insert_id. Qed.

Lemma core_upd_next o v m q : core <$> upd o (set_p_next v) m !! q = core <$> m !! q.
Proof. rewrite lookup_upd. destruct (m !! q); [|done]. by case_decide. Qed.
Lemma core_upd_prev o v m q : core <$> upd o (set_p_prev v) m !! q = core <$> m !! q.
Proof. rewrite lookup_upd. destruct (m !! q); [|done]. by case_decide. Qed.

Lemma upd_out o g m q : o <> Some q -> upd o g m !! q = m !! q.
Proof. intros Hq. rewrite lookup_upd, decide_False by done. by rewrite option_fmap_id. Qed.

Lemma rechained_intro s L B i l m' l' :
  Rep (ht s) (mem s) L B -> B !! i = Some l -> l' ≡ₚ l ->
  (forall q, core <$> m' !! q = core <$> mem s !! q) -> (forall q, q ∉ l -> m' !! q = mem s !! q) ->
  links (fld p_next m') (fld p_prev m') l' ->
  rechained s L B i l (put_ht (put_chain (ht s) i l') (put_mem m' s)) l'.
Proof. intros. constructor; try done. cbn. by eapply Rep_rechain. Qed.

(** The five writes that bring [p], between [y] and [z], before the first
    entry [x] of its chain. *)
Definition fronted_mem m x (y : option addr) p (z : option addr) : gmap addr (ght_hash_entry_t V) :=
  upd (Some x) (set_p_prev (Some p)) (upd (Some p) (set_p_prev None) (upd (Some p) (set_p_next (Some x))
    (upd z (set_p_prev y) (upd y (set_p_next z) m)))).

Lemma fronted_rechained s L B i x c p d :
  Rep (ht s) (mem s) L B -> B !! i = Some (x :: c ++ p :: d) ->
  rechained s L B i (x :: c ++ p :: d)
    (put_ht (put_chain (ht s) i (p :: x :: c ++ d)) (put_mem (fronted_mem (mem s) x (last (x :: c)) p (head d)) s))
    (p :: x :: c ++ d).
Proof.
  intros HR Hi. rep_facts HR. destruct (rep_chain0 i _ Hi) as (Hnd & Hlinks & _).
  assert (Hlive : forall q, q ∈ x :: c ++ p :: d -> is_Some (mem s !! q)).
  { intros q Hq. eapply rep_live0, rep_chain_in; done. }
  destruct (Hlive p) as [e He]; [set_solver|].
  assert (Hpcd : p ∉ (x :: c) ++ d).
  { apply (NoDup_app (x :: c)) in Hnd as (_ & Ha & [Hd _]%NoDup_cons). specialize (Ha p). set_solver. }
  assert (Hpy : last (x :: c) <> Some p) by (intros ?%last_in; set_solver).
  assert (Hpz : head d <> Some p) by (intros ?%head_in; set_solver).
  assert (Hpx : Some x <> Some p) by (intros [= ->]; set_solver).
  apply rechained_intro; try done.
  - apply (Permutation_middle (x :: c)).
  - intros q. unfold fronted_mem. by rewrite core_upd_prev, core_upd_prev, core_upd_next, core_upd_prev, core_upd_next.
  - intros q Hq. unfold fronted_mem. rewrite !upd_out; [done|..]; intros Hq'; apply Hq.
    + apply last_in in Hq'. set_solver.
    + apply head_in in Hq'. set_solver.
    + injection Hq' as ->. set_solver.
    + injection Hq' as ->. set_solver.
    + injection Hq' as ->. set_solver.
  - cbn [mem put_ht put_mem]. unfold fronted_mem. set (m1 := upd (head d) _ _).
    assert (Hm1 : links (fld p_next m1) (fld p_prev m1) ((x :: c) ++ d)).
    { eapply (links_remove _ _ _ _ (x :: c) p d); [done|exact Hlinks|]. intros q Hq.
      destruct (Hlive q) as [e' He']; [set_solver|]. unfold fld, m1. rewrite !lookup_upd, He'.
      split; by repeat case_decide. }
    assert (Hp1 : m1 !! p = Some e) by (unfold m1; by rewrite !upd_out).
    eapply (links_cons _ _ _ _ p ((x :: c) ++ d)); [|exact Hm1|done|..].
    + apply (NoDup_app (x :: c)) in Hnd as (H1 & H2 & [_ H3]%NoDup_cons). apply NoDup_app. set_solver.
    + unfold fld. rewrite upd_out by done. by rewrite !lookup_upd, Hp1, !decide_True.
    + unfold fld. rewrite upd_out by done. by rewrite !lookup_upd, Hp1, !decide_True.
    + intros q Hq. assert (Hqp : Some p <> Some q) by (intros [= ->]; done).
      assert (Hq1 : is_Some (m1 !! q)) by (do 2 apply upd_live; apply Hlive; set_solver).
      unfold fld. cbn [head app]. rewrite !lookup_upd, !(decide_False (P := Some p = Some q)) by done.
      rewrite !option_fmap_id. destruct Hq1 as [e' ->]. cbn. split; by repeat case_decide.
Qed.

Lemma wp_move_to_front s L B i c p d e Q :
  Rep (ht s) (mem s) L B -> B !! i = Some (c ++ p :: d) -> mem s !! p = Some e ->
  (forall s' l', rechained s L B i (c ++ p :: d) s' l' -> Q tt s') ->
  wp (move_to_front (Z.of_nat i) p) Q s.
Proof.
  intros HR Hi He HQ. rep_facts HR. destruct (rep_chain0 i _ Hi) as (Hnd & Hlinks & Hpp & _).
  destruct (Hlinks c p d eq_refl) as [Hn Hp]. unfold fld in Hn, Hp. rewrite He in Hn, Hp. cbn in Hn, Hp.
  assert (Hlive : forall q, q ∈ c ++ p :: d -> is_Some (mem s !! q)).
  { intros q Hq. eapply rep_live0, rep_chain_in; done. }
  assert (Hpcd : p ∉ c ++ d).
  { apply NoDup_app in Hnd as (_ & Ha & [Hd _]%NoDup_cons). specialize (Ha p). set_solver. }
  unfold move_to_front. apply wp_bind. eapply wp_get_bucket; [lia|by rewrite Nat2Z.id|].
  case_decide as Hfirst.
  { apply wp_ret. eapply HQ. by apply rechained_refl. }
  destruct c as [|x c]; [done|].
  destruct (last_cons_some x c) as [y Hy]. rewrite Hy in Hp.
  assert (Hyc : y ∈ x :: c) by (by apply last_in).
  apply wp_bind, (wp_rd _ _ _ _ e He). apply wp_bind, (wp_rd _ _ _ _ e He). rewrite Hn, Hp.
  apply wp_bind, wp_wr; [apply Hlive; set_solver|].
  assert (Hpy : Some y <> Some p) by (intros [= ->]; set_solver).
  assert (He1 : mem (put_mem (upd (Some y) (set_p_next (head d)) (mem s)) s) !! p = Some e).
  { cbn. by rewrite upd_out. }
  apply wp_bind, (wp_rd _ _ _ _ e He1). apply wp_bind, (wp_rd _ _ _ _ e He1). rewrite Hn, Hp.
  apply wp_bind, wp_if_some. { intros q ?%head_in. live. apply Hlive. set_solver. }
  apply wp_bind. eapply wp_get_bucket; [lia|by rewrite Nat2Z.id|]. cbn [head app].
  do 3 (apply wp_bind, wp_wr; [live; first [by eexists|apply Hlive; set_solver]|]).
  eapply wp_set_bucket; [lia|by rewrite Nat2Z.id|]. cbn [ht mem put_mem].
  pose proof (fronted_rechained s L B i x c p d HR Hi) as Hrc. rewrite Hy in Hrc.
  unfold put_bucket. rewrite Nat2Z.id. eapply HQ. exact Hrc.
Qed.
End lookup.

Section lookup_transpose.
Context {V : Type}.
Implicit Types (s : ght_state V) (m : gmap addr (ght_hash_entry_t V)) (p q : addr)
  (L a b c d l : list addr) (B : list (list addr)).

(** The six writes of the swap of [p] with its predecessor [x], with [y]
    before and [z] after them. *)
Definition swapped_mem m (y : option addr) x p (z : option addr) : gmap addr (ght_hash_entry_t V) :=
  upd (Some p) (set_p_prev y) (upd (Some p) (set_p_next (Some x))
    (upd (Some x) (set_p_prev (Some p)) (upd (Some x) (set_p_next z)
      (upd z (set_p_prev (Some x)) (upd y (set_p_next (Some p)) m))))).

Lemma lookup_swapped m y x p z q :
  x <> p -> y <> Some p -> y <> Some x -> z <> Some p -> z <> Some x ->
  swapped_mem m y x p z !! q = (fun e => mk_entry (p_data e) (p_bucketidx e)
    (if decide (q = p) then Some x else if decide (q = x) then z
     else if decide (y = Some q) then Some p else p_next e)
    (if decide (q = p) then y else if decide (q = x) then Some p
     else if decide (z = Some q) then Some x else p_prev e)
    (p_older e) (p_newer e) (key e)) <$> m !! q.
Proof.
  intros. unfold swapped_mem. rewrite !lookup_upd. destruct (m !! q) as [e'|]; [|done]. cbn. f_equal.
  destruct (decide (q = p)) as [->|Hqp].
  - by rewrite !(decide_True (P := Some p = Some p)), !(decide_False (P := Some x = Some p)),
      (decide_False (P := z = Some p)), (decide_False (P := y = Some p)) by congruence.
  - rewrite !(decide_False (P := Some p = Some q)) by congruence.
    destruct (decide (q = x)) as [->|Hqx].
    + by rewrite !(decide_True (P := Some x = Some x)),
        (decide_False (P := z = Some x)), (decide_False (P := y = Some x)) by congruence.
    + rewrite !(decide_False (P := Some x = Some q)) by congruence. destruct e'. by repeat case_decide.
Qed.

Lemma swapped_rechained s L B i c x p d :
  Rep (ht s) (mem s) L B -> B !! i = Some (c ++ x :: p :: d) ->
  rechained s L B i (c ++ x :: p :: d)
    (put_ht (put_chain (ht s) i (c ++ p :: x :: d)) (put_mem (swapped_mem (mem s) (last c) x p (head d)) s))
    (c ++ p :: x :: d).
Proof.
  intros HR Hi. rep_facts HR. destruct (rep_chain0 i _ Hi) as (Hnd & Hlinks & _).
  pose proof Hnd as (Hnd1 & Hnd2 & [Hx1 [Hx2 Hx3]%NoDup_cons]%NoDup_cons)%NoDup_app.
  assert (Hlive : forall q, q ∈ c ++ x :: p :: d -> is_Some (mem s !! q)).
  { intros q Hq. eapply rep_live0, rep_chain_in; done. }
  destruct (Hlive x) as [ex Hex]; [set_solver|]. destruct (Hlive p) as [e He]; [set_solver|].
  assert (Hsw : forall q, swapped_mem (mem s) (last c) x p (head d) !! q = _) by
    (intros q; apply lookup_swapped; [set_solver|intros ?%last_in..|intros ?%head_in|intros ?%head_in]; set_solver).
  apply rechained_intro; try done.
  - apply Permutation_app_head, Permutation_swap.
  - intros q. cbn. rewrite Hsw. by destruct (mem s !! q).
  - intros q Hq. unfold swapped_mem. cbn. rewrite !upd_out; [done|..]; intros Hq'; apply Hq;
      try (injection Hq' as ->; set_solver); [apply last_in in Hq'|apply head_in in Hq']; set_solver.
  - cbn [mem put_ht put_mem]. eapply links_swap; [exact Hnd|exact Hlinks|..]; unfold fld.
    + rewrite Hsw, He. cbn. by rewrite decide_True.
    + rewrite Hsw, He. cbn. by rewrite decide_True.
    + rewrite Hsw, Hex. cbn. by rewrite decide_False, decide_True by set_solver.
    + rewrite Hsw, Hex. cbn. by rewrite decide_False, decide_True by set_solver.
    + intros q Hq. destruct (Hlive q) as [e' He']; [set_solver|].
      rewrite Hsw, He'. cbn. rewrite !(decide_False (P := q = p)), !(decide_False (P := q = x)); [done|..].
      all: intros ->; apply elem_of_app in Hq; set_solver.
Qed.

Lemma wp_transpose s L B i c p d e Q :
  Rep (ht s) (mem s) L B -> B !! i = Some (c ++ p :: d) -> mem s !! p = Some e ->
  (forall s' l', rechained s L B i (c ++ p :: d) s' l' -> Q tt s') ->
  wp (transpose (Z.of_nat i) p) Q s.
Proof.
  intros HR Hi He HQ. rep_facts HR. destruct (rep_chain0 i _ Hi) as (Hnd & Hlinks & Hpp & _).
  destruct (Hlinks c p d eq_refl) as [Hn Hp]. unfold fld in Hn, Hp. rewrite He in Hn, Hp. cbn in Hn, Hp.
  unfold transpose. apply wp_bind, (wp_rd _ _ _ _ e He). rewrite Hp.
  destruct (last c) as [x|] eqn:Hx.
  2: { apply wp_ret. eapply HQ. by apply rechained_refl. }
  apply last_Some in Hx as [c0 ->]. rewrite <- app_assoc in *. cbn [app] in *.
  assert (Hlive : forall q, q ∈ c0 ++ x :: p :: d -> is_Some (mem s !! q)).
  { intros q Hq. eapply rep_live0, rep_chain_in; done. }
  destruct (Hlive x) as [ex Hex]; [set_solver|].
  destruct (Hlinks c0 x (p :: d) eq_refl) as [_ Hxp]. unfold fld in Hxp. rewrite Hex in Hxp. cbn in Hxp.
  pose proof Hnd as (_ & Hnd2 & [Hx1 [Hx2 _]%NoDup_cons]%NoDup_cons)%NoDup_app.
  apply wp_bind, (wp_rd _ _ _ _ ex Hex). rewrite Hxp. apply wp_bind, (wp_rd _ _ _ _ e He). rewrite Hn.
  apply wp_bind. apply (wp_mono _ (fun _ s' => s' = put_ht (put_chain (ht s) i (c0 ++ p :: x :: d))
    (put_mem (upd (last c0) (set_p_next (Some p)) (mem s)) s))).
  { destruct (last c0) as [y|] eqn:Hy.
    - apply wp_wr; [apply Hlive; apply last_in in Hy; set_solver|]. unfold put_chain, with_lists.
      rewrite list_insert_id; [by destruct s as [[] ? ? ?]|]. rewrite Hpp. by rewrite !(head_app_some _ _ _ Hy).
    - eapply wp_set_bucket; [lia|by rewrite Nat2Z.id|]. apply last_None in Hy as ->. cbn.
      unfold put_bucket. rewrite Nat2Z.id. by destruct s. }
  intros _ s' ->. set (s1 := put_ht _ _).
  assert (Hlive1 : forall q, q ∈ c0 ++ x :: p :: d -> is_Some (mem s1 !! q)).
  { intros q Hq. cbn. apply upd_live. by apply Hlive. }
  apply wp_bind, wp_if_some. { intros q ?%head_in. apply Hlive1. set_solver. }
  assert (He1 : upd (head d) (set_p_prev (Some x)) (mem s1) !! p = Some e).
  { rewrite upd_out by (by intros ?%head_in). cbn. rewrite upd_out; [done|].
    intros ?%last_in. apply (Hnd2 p); set_solver. }
  apply wp_bind. eapply wp_rd; [exact He1|]. rewrite Hn.
  do 3 (apply wp_bind, wp_wr; [live; first [by eexists|apply Hlive; set_solver]|]).
  apply wp_wr; [live; by eexists|].
  eapply HQ. by apply (swapped_rechained s L B i c0 x p d).
Qed.

Lemma wp_heuristic h s L B i c p d e Q :
  Rep (ht s) (mem s) L B -> B !! i = Some (c ++ p :: d) -> mem s !! p = Some e ->
  (forall s' l', rechained s L B i (c ++ p :: d) s' l' -> Q tt s') ->
  wp (heuristic h (Z.of_nat i) p) Q s.
Proof.
  intros HR Hi He HQ. unfold heuristic. case_match; [by eapply wp_move_to_front|].
  case_match; [by eapply wp_transpose|]. apply wp_ret. eapply HQ. by apply rechained_refl.
Qed.

(** The part [ght_get] and [ght_replace] share. *)
Lemma wp_find {A} k (f : option addr -> ghtM V A) L B Q s :
  Rep (ht s) (mem s) L B -> key_ok k ->
  (k ∉ (entries (mem s) L).*1 -> wp (f None) Q s) ->
  (forall p e i l s' l', p ∈ L -> mem s !! p = Some e -> key e = k -> rechained s L B i l s' l' ->
     wp (f (Some p)) Q s') ->
  wp (l_key ← bucket_of k; _ ← assert_first l_key; t ← get_ht;
      p_e ← search_in_bucket l_key k (i_heuristics t); f p_e) Q s.
Proof.
  intros HR Hk HN HS. apply wp_bind, wp_bucket_of. apply wp_bind. eapply wp_assert_first; [done..|].
  apply wp_bind, wp_get_ht, wp_bind. eapply wp_search; [done|done| |].
  - intros Hnone. by apply HN, rep_find_none.
  - intros i p e a b c d -> He Hke _ Hi. eapply wp_heuristic; [done|done|done|].
    intros s' l' Hrc. eapply HS; [set_solver|done|done|exact Hrc].
Qed.
End lookup_transpose.
