(* ===== verification/HashTableCorrect.v ===== *)
(** * The hash table is a dictionary

    The theorems about the exported operations of [HashTable] that look up a
    key: [ght_get] and [ght_replace]. *)

From S2P Require Import Prelude HashFunctions GhtIface HashTable HashTableRep HashTableRemove HashTableInsert HashTableOps HashTableLookup.

(** ** Look-up *)

Section getting.
Context {V : Type}.
Implicit Types (s : ght_state V) (m : gmap addr (ght_hash_entry_t V)) (p q : addr)
  (L : list addr) (B : list (list addr)).

(** [C30] [ght_get] returns the datum of the key, or NULL, whichever heuristic
    the table uses; the dictionary stays the same, and so does its order by
    age, although the chain of the bucket may be reordered. *)
Theorem ght_get_spec k s D :
  holds s D -> key_ok k ->
  exists s', ght_get (key_i_size k) (key_p_key k) s = Some (mjoin (dict_find k D), s') /\
    holds s' D /\ config (ht s') = config (ht s).
Proof.
  intros (L & B & HR & <-) Hk. apply wp_run_eq. unfold ght_get, hk_fill.
  replace (mk_hash_key (key_i_size k) (key_p_key k)) with k by (by destruct k).
  eapply wp_find; [done|done| |].
  - intros Hn. apply wp_ret. rewrite dict_find_none by done. split; [done|]. split; [by exists L, B|done].
  - intros p e i l s' l' Hp He <- [Hperm HR' Hcore Hc _ _]. cbn.
    pose proof (core_opt _ _ (Hcore p)) as Hcp. rewrite He in Hcp.
    destruct (mem s' !! p) as [e'|] eqn:He'; [|done]. eapply wp_rd; [exact He'|].
    apply core_parts in Hcp as (_ & -> & _). rewrite (rep_find _ _ _ _ p e HR) by done.
    split; [done|]. split; [|done]. exists L, (<[i := l']> B). split; [done|]. by apply entries_core.
Qed.

(** The datum of a key is replaced in place. *)
Definition dict_set {K W} `{EqDecision K} (k : K) (v : W) (d : dict K W) : dict K W :=
  (fun kv => if decide (kv.1 = k) then (k, v) else kv) <$> d.

(** The invariant does not look at the data. *)
Lemma Rep_data t m L B p v : Rep t m L B -> Rep t (upd (Some p) (set_p_data v) m) L B.
Proof.
  intros HR. rep_facts HR. set (m' := upd _ _ _).
  assert (Hget : forall A (f : ght_hash_entry_t V -> A), (forall e, f (set_p_data v e) = f e) ->
    forall q, f <$> m' !! q = f <$> m !! q).
  { intros A f Hf q. unfold m'. rewrite lookup_upd. destruct (m !! q) as [e|]; [|done]. cbn.
    case_decide; cbn; [by rewrite Hf|done]. }
  assert (Hfld : forall f, (forall e, f (set_p_data v e) = f e) -> forall q, fld f m' q = fld f m q).
  { intros f Hf q. specialize (Hget _ f Hf q). unfold fld.
    destruct (m' !! q), (m !! q); cbn in *; congruence. }
  assert (Hent : forall q e', m' !! q = Some e' -> exists e, m !! q = Some e /\ key e' = key e /\ p_bucketidx e' = p_bucketidx e).
  { intros q e'. unfold m'. rewrite lookup_upd. destruct (m !! q) as [e|]; [|done]. intros [= <-].
    exists e. split; [done|]. by case_decide. }
  constructor; try done.
  - intros q Hq. apply upd_live. by apply rep_live0.
  - eapply links_ext; [|exact rep_age0]. intros q _. by rewrite !Hfld.
  - intros i l Hl. destruct (rep_chain0 i l Hl) as (H1 & H2 & H3). split_and!; try done; [|apply H3..].
    eapply links_ext; [|exact H2]. intros q _. by rewrite !Hfld.
  - intros i l q Hl. rewrite (Hget _ p_bucketidx) by done. by apply rep_bucket0.
  - intros q e' Hq E. destruct (Hent q e' E) as (e & He & -> & ->). by apply (rep_entry0 q e).
  - intros q q' e1 e2 Hq Hq' E1 E2. destruct (Hent q e1 E1) as (e3 & He3 & -> & _), (Hent q' e2 E2) as (e4 & He4 & -> & _).
    by apply rep_keys0.
Qed.

Lemma entries_set t m L B p e v :
  Rep t m L B -> p ∈ L -> m !! p = Some e ->
  entries (upd (Some p) (set_p_data v) m) L = dict_set (key e) v (entries m L).
Proof.
  intros HR Hp He. pose proof (rep_keys _ _ _ _ HR) as Hkeys.
  assert (Hlive := rep_live _ _ _ _ HR). clear HR.
  assert (HL : forall q, q ∈ L -> is_Some (m !! q) /\
     forall e', m !! q = Some e' -> key e' = key e -> q = p).
  { intros q Hq. split; [by apply Hlive|]. intros e' He' Hk. by apply (Hkeys q p e' e). }
  clear Hp Hkeys Hlive. unfold entries, dict_set. induction L as [|q L IH]; [done|]. cbn.
  destruct (HL q) as [[eq Heq] Hq]; [by left|]. rewrite lookup_upd, Heq. cbn.
  rewrite IH by (intros q' Hq'; apply HL; by right). destruct (decide (Some p = Some q)) as [[= ->]|Hne]; cbn.
  - rewrite Heq in He. injection He as ->. by rewrite decide_True.
  - rewrite decide_False; [done|]. intros Hk. apply Hne. by rewrite (Hq eq Heq Hk).
Qed.

(** [ght_replace] stores the new datum under a key that is there and
    returns the old one; it does nothing and returns NULL otherwise. *)
Lemma ght_replace_spec k v s D :
  holds s D -> key_ok k ->
  exists s', ght_replace v (key_i_size k) (key_p_key k) s = Some (mjoin (dict_find k D), s') /\
    holds s' (dict_set k v D) /\ config (ht s') = config (ht s).
Proof.
  intros (L & B & HR & <-) Hk. apply wp_run_eq. unfold ght_replace, hk_fill.
  replace (mk_hash_key (key_i_size k) (key_p_key k)) with k by (by destruct k).
  eapply wp_find; [done|done| |].
  - intros Hn. apply wp_ret. rewrite dict_find_none by done. split; [done|]. split; [|done].
    exists L, B. split; [done|]. unfold dict_set. symmetry. rewrite <- list_fmap_id. apply list_fmap_ext.
    intros i [k' v'] Hi. cbn. rewrite decide_False; [done|]. intros ->. apply Hn.
    apply list_elem_of_fmap. exists (k, v'). split; [done|]. by eapply list_elem_of_lookup_2.
  - intros p e i l s' l' Hp He <- [Hperm HR' Hcore Hc _ _].
    pose proof (core_opt _ _ (Hcore p)) as Hcp. rewrite He in Hcp.
    destruct (mem s' !! p) as [e'|] eqn:He'; [|done]. apply core_parts in Hcp as (Hke & Hde & _).
    apply wp_bind. eapply wp_rd; [exact He'|]. apply wp_bind, wp_wr; [by eexists|]. apply wp_ret.
    rewrite (rep_find _ _ _ _ p e HR) by done. split; [by rewrite Hde|]. split; [|done].
    exists L, (<[i := l']> B). split; [by apply Rep_data|]. cbn.
    rewrite (entries_set _ _ _ _ p e' v HR') by done. by rewrite Hke, (entries_core (mem s)).
Qed.
End getting.
