(* ===== verification/HashTableRehash.v ===== *)
(** * Rehashing and insertion

    [ght_rehash] copies the entries of a table into a fresh one; [ght_insert]
    may call it.  Theorems: what survives a rehash, and the effect of an
    insertion with and without automatic rehashing. *)

From S2P Require Import Prelude HashFunctions GhtIface HashTable HashTableRep HashTableRemove HashTableInsert HashTableOps HashTableLookup.

(** ** Rehashing *)

Section rehashing.
Context {V : Type}.
Implicit Types (s : ght_state V) (m : gmap addr (ght_hash_entry_t V)) (p q : addr)
  (L a b : list addr) (B : list (list addr)) (t : ght_hash_table_t).
Context (fn_alloc : nat -> gmap addr (ght_hash_entry_t V) -> option addr).
Context (alloc_fresh : forall n m p, fn_alloc n m = Some p -> m !! p = None).

Lemma wp_on_table {A} t (f : ghtM V A) Q s :
  wp f (fun x s' => Q (x, ht s') (put_ht (ht s) s')) (put_ht t s) -> wp (on_table t f) Q s.
Proof.
  intros H. unfold on_table. apply wp_bind, wp_get_ht. apply wp_bind, wp_set_ht. apply wp_bind.
  eapply wp_mono; [exact H|]. intros x s' HQ. apply wp_bind, wp_get_ht. by apply wp_bind, wp_set_ht.
Qed.

(** Insertion when the table does not rehash itself. *)
Lemma wp_insert_plain rehash data k L B Q s :
  Rep (ht s) (mem s) L B -> key_ok k -> limit_ok (ht s) -> within (ht s) B ->
  i_automatic_rehash (ht s) = false -> Z.of_nat (length L) + 1 < 2 ^ 31 ->
  (k ∈ (entries (mem s) L).*1 -> Q (-1) s) ->
  (k ∉ (entries (mem s) L).*1 -> fn_alloc (requests s) (mem s) = None ->
   Q (-2) (mk_state (ht s) (mem s) (S (requests s)) (evictions s))) ->
  (forall p s' L' B' D' ev, k ∉ (entries (mem s) L).*1 -> fn_alloc (requests s) (mem s) = Some p ->
     mem s !! p = None -> p ∉ L -> Rep (ht s) (<[p := new_entry data k]> (mem s)) L B ->
     link_post (with_new s p (new_entry data k)) L B p k data s' L' B' D' ev -> within (ht s') B' -> Q 0 s') ->
  wp (insert_with fn_alloc rehash data (key_i_size k) (key_p_key k)) Q s.
Proof.
  intros HR Hk Hlim Hw Hauto Hlen HP HN HS. eapply wp_insert_with; [done..|].
  intros p Hkn Ha Hp Hkeys. rewrite Hauto. cbn [andb].
  destruct (Rep_new _ _ _ _ p (new_entry data k) Hp HR) as [Hpl HR'].
  apply wp_bind, wp_ret. apply wp_bind. eapply (wp_link_new (with_new s p (new_entry data k)) L B); try done.
  - cbn. by rewrite lookup_insert_eq.
  - intros q e Hq. cbn. rewrite lookup_insert_ne by (by intros ->). by apply Hkeys.
  - intros s' L' B' D' ev Hlp Hw'. apply wp_ret. by eapply HS.
Qed.

(** What survives a rehash. *)
Fixpoint live_prefix (D : dict ght_hash_key_t (option V)) : dict ght_hash_key_t (option V) :=
  match D with
  | (k, Some v) :: D => (k, Some v) :: live_prefix D
  | _ => []
  end.

(** Two tables in one memory: [t0] with the entries [L], and the new one. *)
Record copying t0 L B s (tmp : ght_hash_table_t) a L' B' : Prop := {
  cp_ht : ht s = t0;
  cp_old : Rep t0 (mem s) L B;
  cp_new : Rep tmp (mem s) L' B';
  cp_disjoint : forall q, q ∈ L' -> q ∉ L;
  cp_entries : entries (mem s) L' = entries (mem s) a;
  cp_plain : bucket_limit tmp = 0 /\ i_automatic_rehash tmp = false
}.

(** From [s] and the new table [tmp] with [L'] to [s'], [tmp'] and [L'']: the
    settings stay, only fresh blocks are written. *)
Record copied_to s (tmp : ght_hash_table_t) L1 s' tmp' L2 : Prop := {
  ct_config : config tmp' = config tmp;
  ct_mask : i_size_mask tmp' = i_size_mask tmp;
  ct_evictions : evictions s' = evictions s;
  ct_frame : forall q, q ∉ L1 -> is_Some (mem s !! q) -> mem s' !! q = mem s !! q;
  ct_fresh : forall q, q ∈ L2 -> q ∈ L1 \/ mem s !! q = None
}.

Lemma copied_to_refl s tmp L : copied_to s tmp L s tmp L.
Proof. constructor; try done. by left. Qed.

Lemma copied_to_trans s tmp L s1 tmp1 L1 s2 tmp2 L2 :
  (forall q, q ∈ L -> is_Some (mem s !! q)) ->
  copied_to s tmp L s1 tmp1 L1 -> copied_to s1 tmp1 L1 s2 tmp2 L2 -> copied_to s tmp L s2 tmp2 L2.
Proof.
  intros Hlive [C1 M1 E1 F1 S1] [C2 M2 E2 F2 S2]. constructor; [congruence..| |].
  - intros q Hq Hs. rewrite F2; [by apply F1| |by rewrite F1].
    intros [?|Hn]%S1; [done|]. rewrite Hn in Hs. by destruct Hs.
  - intros q Hq. destruct (S2 q Hq) as [Hq'|Hq']; [by apply S1|].
    destruct (decide (q ∈ L)); [by left|right]. destruct (mem s !! q) eqn:E; [|done].
    rewrite F1 in Hq'; [by rewrite E in Hq'|done|by eexists].
Qed.

(** The key at the iterator is not in the new table yet. *)
Lemma copying_key t0 L B s tmp a L' B' p e b :
  copying t0 L B s tmp a L' B' -> L = a ++ p :: b -> mem s !! p = Some e ->
  key e ∉ (entries (mem s) L').*1.
Proof.
  intros [_ Hold _ _ Hent _] HL He. rewrite Hent. intros (q & e' & Hq & He' & Hk)%entries_key.
  pose proof (rep_nodup _ _ _ _ Hold) as Hnd. rewrite HL in Hnd. apply NoDup_app in Hnd as (_ & Hnd & _).
  apply (Hnd q Hq). apply elem_of_cons. left.
  apply (rep_keys _ _ _ _ Hold q p e' e); try done; set_solver.
Qed.

Lemma copying_length t0 L B s tmp a L' B' b :
  copying t0 L B s tmp a L' B' -> L = a ++ b -> length L' = length a.
Proof.
  intros [_ Hold Hnew _ Hent _] ->.
  rewrite <- (entries_length (mem s) L'), <- (entries_length (mem s) a); [by rewrite Hent| |].
  - intros q Hq. apply (rep_live _ _ _ _ Hold). set_solver.
  - apply (rep_live _ _ _ _ Hnew).
Qed.

(** One turn of the loop: what linking the copy of [p] does to both tables. *)
Lemma copying_step t0 L B s (tmp : ght_hash_table_t) a L' B' p e v b pn s1 L1 B1 D1 ev :
  copying t0 L B s tmp a L' B' -> L = a ++ p :: b -> mem s !! p = Some e -> p_data e = Some v ->
  mem s !! pn = None ->
  link_post (with_new (put_ht tmp s) pn (new_entry (Some v) (key e))) L' B' pn (key e) (Some v) s1 L1 B1 D1 ev ->
  copying t0 L B (put_ht t0 s1) (ht s1) (a ++ [p]) L1 B1 /\
  copied_to s tmp L' (put_ht t0 s1) (ht s1) L1 /\
  (forall q, q ∈ L -> mem s1 !! q = mem s !! q).
Proof.
  intros [Hht Hold Hnew Hdis Hent [Hlim Hauto]] HL He Hd Hpn [Hr1 He1 Hc1 Hmask Hrq1 Hev1 Hins1 Hfr1 Hsub1 Hub1].
  destruct (config_parts _ _ Hc1) as (_ & _ & _ & Ha1 & Hb1). cbn in Ha1, Hb1.
  assert (Hfr : forall q, q ∉ L' -> is_Some (mem s !! q) -> mem s1 !! q = mem s !! q).
  { intros q Hq [e' He']. assert (q <> pn) by (intros ->; by rewrite Hpn in He').
    rewrite Hfr1 by done. cbn. by rewrite lookup_insert_ne. }
  assert (HoldL : forall q, q ∈ L -> mem s1 !! q = mem s !! q).
  { intros q Hq. apply Hfr; [intros Hq'; by apply (Hdis q Hq')|by apply (rep_live _ _ _ _ Hold)]. }
  assert (Hpn' : pn ∉ L') by (intros Hq; destruct (rep_live _ _ _ _ Hnew pn Hq) as [? E]; by rewrite Hpn in E).
  assert (HD1 : D1 = entries (mem s) a ++ [(key e, Some v)] /\ ev = []).
  { cbn in Hins1. rewrite entries_new, Hent in Hins1 by done. inversion Hins1; subst; try done.
    match goal with H : bucket_limit _ <> 0 |- _ => rewrite Hb1 in H; done end. }
  destruct HD1 as [-> ->]. rewrite app_nil_r in Hev1. split_and!; [| |done]; constructor; cbn; try done.
  - by eapply Rep_frame.
  - intros q Hq. destruct (Hsub1 q Hq) as [Hq'| ->]; [by apply Hdis|].
    intros Hq'. destruct (rep_live _ _ _ _ Hold pn Hq') as [? E]. by rewrite Hpn in E.
  - rewrite He1, (entries_frame (mem s) _ (a ++ [p])).
    + rewrite entries_app. f_equal. by rewrite (entries_cons _ _ _ _ He), Hd.
    + intros q Hq. rewrite HoldL; [done|]. rewrite HL. set_solver.
  - by rewrite Ha1, Hb1.
  - intros q Hq. destruct (Hsub1 q Hq) as [| ->]; [by left|by right].
Qed.

Lemma wp_rehash_loop t0 L B b : forall a L' B' fuel tmp Q s,
  (forall n m, is_Some (fn_alloc n m)) ->
  L = a ++ b -> copying t0 L B s tmp a L' B' -> (length b <= fuel)%nat ->
  (forall s' tmp' a' L'' B'', copying t0 L B s' tmp' a' L'' B'' ->
     entries (mem s') a' = entries (mem s) a ++ live_prefix (entries (mem s) b) ->
     copied_to s tmp L' s' tmp' L'' -> Q tmp' s') ->
  wp (rehash_loop fn_alloc fuel tmp (position (mem s) b)) Q s.
Proof.
  induction b as [|p b IH]; intros a L' B' fuel tmp Q s Hall HL HC Hf HQ; pose proof (copied_to_refl s tmp L') as H0.
  - destruct fuel; cbn; apply wp_ret; eapply HQ; eauto; cbn; by rewrite app_nil_r.
  - pose proof HC as [Hht Hold Hnew Hdis Hent [Hlim Hauto]].
    destruct (rep_live _ _ _ _ Hold p) as [e He]; [set_solver|].
    destruct (rep_entry _ _ _ _ Hold p e) as [Hke _]; [set_solver|done|].
    cbn [position]. rewrite He. cbn [fmap option_fmap option_map mbind option_bind].
    assert (Hstop : p_data e = None -> Q tmp s).
    { intros Hd. eapply (HQ s tmp a L' B'); eauto.
      rewrite (entries_cons _ _ _ _ He), Hd. cbn. by rewrite app_nil_r. }
    destruct (p_data e) as [v|] eqn:Hd; [|by destruct fuel; apply wp_ret, Hstop].
    destruct fuel as [|fuel]; [cbn in Hf; lia|]. cbn [rehash_loop it_entry].
    apply wp_bind, (wp_rd _ _ _ _ e He). apply wp_bind, (wp_rd _ _ _ _ e He). rewrite Hd.
    apply wp_bind, wp_on_table.
    eapply (wp_insert_plain _ (Some v) (key e) L' B'); try done.
    + unfold limit_ok. cbn. rewrite Hlim. by split.
    + by left.
    + rewrite (copying_length _ _ _ _ _ _ _ _ _ HC HL).
      destruct (rep_items _ _ _ _ Hold) as [_ Hi]. rewrite HL, length_app in Hi. cbn in Hi. lia.
    + intros Hk. by destruct (copying_key _ _ _ _ _ _ _ _ _ _ _ HC HL He).
    + intros _ Hnone. by destruct (Hall (requests (put_ht tmp s)) (mem (put_ht tmp s))) as [? E]; rewrite E in Hnone.
    + intros pn s1 L1 B1 D1 ev _ _ Hpn _ _ Hlp _. cbn [mem put_ht] in Hpn. cbn [ht put_ht]. rewrite Hht.
      destruct (copying_step _ _ _ _ _ _ _ _ _ _ _ _ _ _ _ _ _ _ HC HL He Hd Hpn Hlp) as (HC1 & Hct & HoldL).
      assert (Hent1 : forall l, (forall q, q ∈ l -> q ∈ L) -> entries (mem s1) l = entries (mem s) l).
      { intros l Hl. apply entries_frame. intros q Hq. by rewrite HoldL by (by apply Hl). }
      apply wp_bind. unfold ght_next, next_keysize. cbn [it_next].
      eapply (wp_visit L B (a ++ [p]) b); [apply HC1|by rewrite <- app_assoc|].
      eapply (IH (a ++ [p]) L1 B1 _ _ _ (put_ht t0 s1)); [done|by rewrite <- app_assoc|done|cbn in Hf; lia|].
      intros s' tmp' a' L'' B'' HC' HE' Hct'. eapply (HQ s' tmp' a' L'' B''); [done| |].
      * cbn [mem put_ht] in HE'. rewrite HE', !Hent1 by set_solver.
        by rewrite entries_app, !(entries_cons _ _ _ _ He), Hd, <- app_assoc.
      * eapply copied_to_trans; [apply (rep_live _ _ _ _ Hnew)|done|done].
Qed.

Lemma Rep_config t t' m L B :
  Rep t m L B -> i_items t' = i_items t -> i_size t' = i_size t -> fn_hash t' = fn_hash t ->
  pp_entries t' = pp_entries t -> p_nr t' = p_nr t -> i_size_mask t' = i_size_mask t ->
  p_oldest t' = p_oldest t -> p_newest t' = p_newest t -> Rep t' m L B.
Proof.
  intros HR E1 E2 E3 E4 E5 E6 E7 E8. rep_facts HR.
  constructor; rewrite ?E1, ?E2, ?E3, ?E4, ?E5, ?E6, ?E7, ?E8; try done.
Qed.

(** What a rehash leaves. *)
Record rehashed s L n s' L' B' : Prop := {
  rh_rep : Rep (ht s') (mem s') L' B';
  rh_entries : entries (mem s') L' = live_prefix (entries (mem s) L);
  rh_config : config (ht s') = config (ht s);
  rh_size : n <= i_size (ht s');
  rh_least : i_size (ht s') = 1 \/ i_size (ht s') < 2 * n;
  rh_evictions : evictions s' = evictions s;
  rh_frame : forall q, q ∉ L -> is_Some (mem s !! q) -> mem s' !! q = mem s !! q;
  rh_fresh : forall q, q ∈ L' -> mem s !! q = None;
  rh_freed : forall q, q ∈ L -> mem s' !! q = None
}.

Lemma wp_ght_rehash n L B Q s :
  Rep (ht s) (mem s) L B -> 0 <= n <= 2 ^ 30 -> (forall i m, is_Some (fn_alloc i m)) ->
  (forall s' L' B', rehashed s L n s' L' B' -> Q tt s') -> wp (ght_rehash fn_alloc n) Q s.
Proof.
  intros HR Hn Hall HQ. destruct (ght_create_run fn_alloc n s Hn) as (k & Hk & Hnk & Hleast & r & c & E & _ & Hok).
  rewrite Hok in E by (intros; apply Hall). clear Hok.
  apply wp_bind. unfold wp at 1. rewrite E. apply wp_bind, wp_get_ht. cbn [ht].
  set (s0 := mk_state (ht s) (mem s) (requests s + c)%nat (evictions s)).
  set (tmp := ght_set_rehash false _).
  apply wp_bind. unfold wp at 1, mem_fuel. apply wp_bind. unfold ght_first, first_keysize. apply wp_bind, wp_get_ht.
  change (ht s0) with (ht s). rewrite (rep_oldest _ _ _ _ HR). eapply (wp_visit L B [] L); [exact HR|done|].
  apply wp_bind. eapply (wp_rehash_loop (ht s) L B L [] [] (replicate (Z.to_nat (2 ^ k)) [])); [done|done| | |].
  - constructor; try done.
    + apply Rep_empty; [done|]. apply (rep_hash _ _ _ _ HR).
    + by intros q ?%elem_of_nil.
  - by apply le_S, live_length; [apply (rep_nodup _ _ _ _ HR)|apply (rep_live _ _ _ _ HR)].
  - intros s1 tmp' a' L1 B1 [Hht Hold Hnew Hdis Hent _] HE [Hc Hm Hev Hfr Hsub].
    apply wp_bind. eapply wp_remove_all_entries; [by rewrite Hht|]. intros m' Hm'.
    apply wp_bind, wp_get_ht. apply wp_set_ht. eapply (HQ _ L1 B1).
    assert (HL1 : forall q, q ∈ L1 -> m' !! q = mem s1 !! q).
    { intros q Hq. rewrite Hm'. rewrite decide_False; [done|by apply Hdis]. }
    destruct (config_parts _ _ Hc) as (Hh & _). destruct (rep_size _ _ _ _ Hnew) as (k' & Hk' & Hs').
    constructor; cbn.
    + eapply (Rep_config tmp'); [by eapply Rep_frame| try done..]. cbn. by rewrite Hht, Hh.
    + rewrite (entries_frame (mem s1)), Hent, HE; [done|]. intros q Hq. by rewrite HL1.
    + unfold config. cbn. by rewrite Hht.
    + pose proof (rep_mask _ _ _ _ Hnew). cbn in Hm. lia.
    + pose proof (rep_mask _ _ _ _ Hnew). cbn in Hm. destruct Hleast as [->|Hleast]; [left; cbn in *; lia|right].
      destruct (decide (k = 0)) as [->|]; [cbn in *; lia|].
      replace k with (Z.succ (k - 1)) in * by lia. rewrite Z.pow_succ_r in * by lia.
      replace (Z.succ (k - 1) - 1) with (k - 1) in * by lia. lia.
    + done.
    + intros q Hq Hlive. rewrite Hm', decide_False by done. apply Hfr; [by intros ?%elem_of_nil|done].
    + intros q Hq. by destruct (Hsub q Hq) as [?%elem_of_nil|].
    + intros q Hq. by rewrite Hm', decide_True.
Qed.

(** [C29] [ght_rehash] copies the entries into a fresh table of at least the
    requested size, oldest first, and frees the old blocks; keys, data, age and
    settings stay.  The loop ends at the first NULL datum: the entries from
    there on are lost. *)
Theorem ght_rehash_spec n s D :
  holds s D -> 0 <= n <= 2 ^ 30 -> (forall i m, is_Some (fn_alloc i m)) ->
  exists s', ght_rehash fn_alloc n s = Some (tt, s') /\ holds s' (live_prefix D) /\
    config (ht s') = config (ht s) /\ n <= i_size (ht s') /\ evictions s' = evictions s.
Proof.
  intros (L & B & HR & <-) Hn Hall. apply wp_run_eq. eapply wp_ght_rehash; [done..|].
  intros s' L' B' Hrh. split; [done|]. split; [|split_and!; apply Hrh]. exists L', B'. split; apply Hrh.
Qed.

(** ** Insertion *)

(** A table within its bucket limit, its dictionary and the keys of its chains. *)
Definition bounded s D (C : list (list ght_hash_key_t)) : Prop :=
  exists L B, Rep (ht s) (mem s) L B /\ entries (mem s) L = D /\ chains (mem s) B = C /\
    limit_ok (ht s) /\ within (ht s) B.

Lemma bounded_config s s' L' B' :
  config (ht s') = config (ht s) -> limit_ok (ht s) -> Rep (ht s') (mem s') L' B' -> within (ht s') B' ->
  bounded s' (entries (mem s') L') (chains (mem s') B').
Proof.
  intros (_ & Hf & _ & _ & Hb)%config_parts [H1 H2] HR Hw. exists L', B'. split_and!; try done.
  unfold limit_ok. by rewrite Hb, Hf.
Qed.

(** A new block shows in no chain. *)
Lemma chains_new t m L B p (e : ght_hash_entry_t V) :
  Rep t m L B -> p ∉ L -> chains (<[p := e]> m) B = chains m B.
Proof.
  intros HR Hp. unfold chains. apply list_fmap_ext. intros i l Hl. f_equal. apply entries_new.
  by intros Hq%(rep_chain_in _ _ _ _ _ _ _ HR Hl).
Qed.

(** [C12] [ght_insert] refuses a key that is there with -1, returns -2 exactly
    when the key is new and the allocation fails, and otherwise adds the entry
    as the newest of the table and the first of its bucket's chain.  If the
    bucket already holds as many entries as the limit, and only then, the last
    entry of its chain, and no other, is removed and given to [fn_bucket_free];
    so no bucket ever exceeds the limit.  The other buckets keep their chains,
    and the table its settings. *)
Theorem ght_insert_spec data k s D C :
  bounded s D C -> key_ok k -> i_automatic_rehash (ht s) = false -> Z.of_nat (length D) + 1 < 2 ^ 31 ->
  exists r s' D' C' ev, ght_insert fn_alloc data (key_i_size k) (key_p_key k) s = Some (r, s') /\
    inserts (ht s') D C k data r D' C' ev /\ bounded s' D' C' /\ config (ht s') = config (ht s) /\
    i_size (ht s') = i_size (ht s) /\ evictions s' = evictions s ++ ev /\
    (r = -2 <-> k ∉ D.*1 /\ fn_alloc (requests s) (mem s) = None).
Proof.
  intros (L & B & HR & <- & <- & Hlim & Hw) Hk Hauto Hlen.
  rewrite entries_length in Hlen by apply (rep_live _ _ _ _ HR).
  enough (wp (ght_insert fn_alloc data (key_i_size k) (key_p_key k)) (fun r s' => exists D' C' ev,
    inserts (ht s') (entries (mem s) L) (chains (mem s) B) k data r D' C' ev /\ bounded s' D' C' /\
    config (ht s') = config (ht s) /\ i_size (ht s') = i_size (ht s) /\ evictions s' = evictions s ++ ev /\
    (r = -2 <-> k ∉ (entries (mem s) L).*1 /\ fn_alloc (requests s) (mem s) = None)) s)
    as (r & s' & E & D' & C' & ev & H)%wp_run by by exists r, s', D', C', ev.
  eapply wp_insert_plain; try done.
  - intros Hp. exists (entries (mem s) L), (chains (mem s) B), []. rewrite app_nil_r.
    split; [by constructor|]. split; [by exists L, B|]. do 3 (split; [done|]). by split; [|intros [? _]].
  - intros Hn Ha. exists (entries (mem s) L), (chains (mem s) B), []. rewrite app_nil_r.
    split; [by constructor|]. split; [by exists L, B|]. by split_and!.
  - intros p s' L' B' D' ev Hkn Ha Hp Hpl HRn [Hr He Hc Hm _ Hev Hins _ _ _] Hw'. exists D', (chains (mem s') B'), ev.
    cbn in Hins. rewrite entries_new, (chains_new _ _ _ _ _ _ HR) in Hins by done. split; [done|].
    rewrite <- He. split; [by apply (bounded_config s s' L' B')|]. split_and!; try done.
    + pose proof (rep_mask _ _ _ _ Hr) as Hm1. pose proof (rep_mask _ _ _ _ HR) as Hm2. cbn in Hm. lia.
    + rewrite Ha. by split; [|intros [_ ?]].
Qed.

Lemma live_prefix_all D : Forall (fun kv => is_Some kv.2) D -> live_prefix D = D.
Proof. induction 1 as [|[k [v|]] D [? H] _ IH]; cbn in *; [done|by rewrite IH|done]. Qed.

(** The end of an insertion when buckets have no limit, into a table [s1] that may
    have been rehashed since it was [s]: the new entry at [p] becomes the newest. *)
Lemma wp_link_last data k s L B p s1 L1 B1 :
  Rep (ht s) (mem s) L B -> bucket_limit (ht s) = 0 -> key_ok k -> k ∉ (entries (mem s) L).*1 -> Z.of_nat (length L) + 1 < 2 ^ 31 ->
  mem s !! p = None ->
  Rep (ht s1) (mem s1) L1 B1 -> config (ht s1) = config (ht s) -> mem s1 !! p = Some (new_entry data k) -> p ∉ L1 ->
  entries (mem s1) L1 = entries (mem s) L ->
  wp (link_entry (Z.land (fn_hash (ht s1) k) (i_size_mask (ht s1))) p ≫= (fun _ => mret 0))
    (fun r s' => r = 0 /\ holds s' (entries (mem s) L ++ [(k, data)]) /\ config (ht s') = config (ht s) /\
       i_size (ht s') = i_size (ht s1)) s1.
Proof.
  intros HR Hlim Hk Hkn Hlen Hp HR1 Hc1 Hp1 Hpl1 HE1. destruct (config_parts _ _ Hc1) as (_ & _ & _ & _ & Hb1).
  rewrite Hlim in Hb1. assert (Hll : length L1 = length L).
  { rewrite <- (entries_length (mem s1) L1), <- (entries_length (mem s) L); [by rewrite HE1| |].
    - apply (rep_live _ _ _ _ HR). - apply (rep_live _ _ _ _ HR1). }
  apply wp_bind. eapply wp_link_new; try done.
  - unfold limit_ok. rewrite Hb1. by split.
  - by left.
  - intros q e Hq He Hke. apply Hkn. rewrite <- HE1. apply entries_key. by exists q, e.
  - by rewrite Hll.
  - intros s' L' B' D' ev [Hr He Hc Hm _ _ Hins _ _ _] _. apply wp_ret. split; [done|].
    rewrite <- Hc1, <- Hc. split_and!; try done.
    + exists L', B'. split; [done|]. rewrite He. rewrite HE1 in Hins. inversion Hins; subst; try done.
      match goal with H : bucket_limit _ <> 0 |- _ => exfalso; apply H end.
      destruct (config_parts _ _ Hc) as (_ & _ & _ & _ & ->). exact Hb1.
    + pose proof (rep_mask _ _ _ _ HR1). pose proof (rep_mask _ _ _ _ Hr). lia.
Qed.

(** The least power of two that is not below twice a power of two. *)
Lemma least_double t t' :
  (exists k, 0 <= k <= 30 /\ i_size t = 2 ^ k) -> (exists k, 0 <= k <= 30 /\ i_size t' = 2 ^ k) ->
  2 * i_size t <= i_size t' -> i_size t' = 1 \/ i_size t' < 2 * (2 * i_size t) -> i_size t' = 2 * i_size t.
Proof.
  intros (k & Hk & ->) (k' & Hk' & ->) Hle Hlt. pose proof (Z.pow_pos_nonneg 2 k).
  rewrite <- !Z.pow_succ_r in * by lia. destruct Hlt as [Hlt|Hlt].
  - rewrite Z.pow_succ_r in Hle by lia. lia.
  - apply Z.pow_le_mono_r_iff in Hle; [|lia..]. apply Z.pow_lt_mono_r_iff in Hlt; [|lia..]. f_equal. lia.
Qed.

(** [C28] With automatic rehashing and no bucket limit, an insertion adds a
    new key as the newest entry and refuses one that is there; it doubles the
    number of buckets, first, exactly when the key is new and the table holds
    more entries than twice its number of buckets, and leaves that number as it
    is otherwise; nothing is lost as long as no datum is NULL. *)
Theorem ght_insert_rehash_spec data k s D :
  holds s D -> key_ok k -> i_automatic_rehash (ht s) = true -> bucket_limit (ht s) = 0 ->
  Forall (fun kv => is_Some kv.2) D -> i_size (ht s) <= 2 ^ 29 -> Z.of_nat (length D) + 1 < 2 ^ 31 ->
  (forall i m, is_Some (fn_alloc i m)) ->
  exists s', ght_insert fn_alloc data (key_i_size k) (key_p_key k) s =
      Some (if decide (k ∈ D.*1) then -1 else 0, s') /\
    holds s' (if decide (k ∈ D.*1) then D else D ++ [(k, data)]) /\
    config (ht s') = config (ht s) /\
    i_size (ht s') = (if decide (k ∉ D.*1 /\ 2 * i_size (ht s) < Z.of_nat (length D))
                      then 2 * i_size (ht s) else i_size (ht s)).
Proof.
  intros (L & B & HR & <-) Hk Hauto Hlim Hsome Hsz Hlen Hall. apply wp_run_eq.
  rewrite entries_length in * by apply (rep_live _ _ _ _ HR).
  eapply wp_insert_with; [done|done|done|..].
  - intros Hp. rewrite !(decide_True (P := k ∈ _)) by done. split; [done|]. split; [by exists L, B|].
    split; [done|]. rewrite decide_False by tauto. done.
  - intros _ Hnone. by destruct (Hall (requests s) (mem s)) as [? E]; rewrite E in Hnone.
  - intros p Hkn _ Hp Hkeys. rewrite Hauto, !(decide_False (P := k ∈ _)) by done. cbn [andb].
    destruct (Rep_new _ _ _ _ p (new_entry data k) Hp HR) as [Hpl HR'].
    destruct (rep_size _ _ _ _ HR) as (e & He & Hse). destruct (rep_items _ _ _ _ HR) as [Hi _].
    assert (Hu : u32 (2 * i_size (ht s)) = 2 * i_size (ht s)).
    { apply wrap_small. unfold is_u. lia. }
    rewrite Hu, Hi. destruct (Z.ltb_spec (2 * i_size (ht s)) (Z.of_nat (length L))) as [Hbig|Hsmall].
    + rewrite decide_True by done.
      apply wp_bind, wp_bind. eapply (wp_ght_rehash _ L B); [exact HR'|lia|done|].
      intros s1 L1 B1 Hrh. apply wp_bucket_of.
      assert (Hs1 : i_size (ht s1) = 2 * i_size (ht s)).
      { apply least_double; [by exists e|apply (rep_size _ _ _ _ (rh_rep _ _ _ _ _ _ Hrh))|apply Hrh|apply Hrh]. }
      rewrite <- Hs1. eapply (wp_link_last data k s L B p s1 L1 B1); try done; try by apply Hrh.
      * rewrite (rh_frame _ _ _ _ _ _ Hrh); cbn; rewrite ?lookup_insert_eq; done.
      * intros Hq. apply (rh_fresh _ _ _ _ _ _ Hrh) in Hq. cbn in Hq. by rewrite lookup_insert_eq in Hq.
      * rewrite (rh_entries _ _ _ _ _ _ Hrh). cbn. rewrite entries_new by done. by apply live_prefix_all.
    + rewrite decide_False by lia.
      apply wp_bind, wp_ret. eapply (wp_link_last data k s L B p (with_new s p (new_entry data k)) L B); try done.
      * cbn. by rewrite lookup_insert_eq.
      * by apply entries_new.
Qed.
End rehashing.
