(* ===== verification/HashTableDict.v ===== *)
(** * The table of transaction ids

    The RPC client keeps its callbacks in a [ght_hash_table_t] whose keys are
    the four bytes of a transaction id as the machine stores it (little
    endian), with the settings [ght_create] gives: no bucket limit and no
    automatic rehashing.  Such a table, pointers and all, is an instance of the
    interface of [GhtIface]. *)

From S2P Require Import Prelude HashFunctions HashTable HashTableRep HashTableRemove HashTableInsert HashTableOps HashTableRehash GhtIface.

(** The key [ght_insert(t, p, sizeof(u_int32_t), &xid)] passes. *)
Definition xid_key (x : Z) : ght_hash_key_t := mk_hash_key 4 (rev (be 4 x)).
Definition key_xid (k : ght_hash_key_t) : Z := unbe (rev (key_p_key k)).

Arguments xid_key : simpl never.
Arguments key_xid : simpl never.

Lemma xid_key_ok x : key_ok (xid_key x).
Proof.
  unfold xid_key. split; cbn [key_i_size key_p_key]; [by rewrite length_rev, length_be|].
  apply Forall_rev, be_bytes_ok.
Qed.

Lemma key_xid_key x : is_u 32 x -> key_xid (xid_key x) = x.
Proof.
  intros Hx. unfold key_xid, xid_key. cbn [key_p_key]. rewrite rev_involutive, unbe_be.
  by apply Z.mod_small.
Qed.

Lemma xid_key_inj x y : is_u 32 x -> is_u 32 y -> xid_key x = xid_key y -> x = y.
Proof. intros Hx Hy E. by rewrite <- (key_xid_key x), E, key_xid_key. Qed.

Section xid_table.
Context {V : Type}.
Implicit Types (s : ght_state V) (d : dict Z V).

(** What the table stores for a dictionary of the client. *)
Definition stored d : dict ght_hash_key_t (option V) := (fun xv => (xid_key xv.1, Some xv.2)) <$> d.
Definition words d : Prop := Forall (fun xv => is_u 32 xv.1) d.

Lemma stored_keys k d : is_u 32 k -> words d -> xid_key k ∈ (stored d).*1 <-> k ∈ d.*1.
Proof.
  intros Hk Hd. unfold stored. rewrite <- list_fmap_compose. split.
  - intros ([x v] & E & Hx)%list_elem_of_fmap. apply list_elem_of_fmap. exists (x, v). split; [|done].
    eapply (proj1 (Forall_forall _ _)) in Hd; [|done]. by apply xid_key_inj.
  - intros ([x v] & -> & Hx)%list_elem_of_fmap. apply list_elem_of_fmap. by exists (x, v).
Qed.

Lemma stored_find k d : is_u 32 k -> words d -> dict_find (xid_key k) (stored d) = Some <$> dict_find k d.
Proof.
  intros Hk. induction 1 as [|[x v] d Hx _ IH]; [done|]. cbn in *. unfold stored in IH. rewrite IH.
  destruct (decide (k = x)) as [->|Hne]; [by rewrite decide_True|].
  rewrite decide_False; [done|]. by intros ?%xid_key_inj.
Qed.

Lemma stored_without k d : is_u 32 k -> words d -> dict_without (xid_key k) (stored d) = stored (dict_without k d).
Proof.
  intros Hk. induction 1 as [|[x v] d Hx _ IH]; [done|]. cbn in *. unfold stored in IH. rewrite IH.
  destruct (decide (k = x)) as [->|Hne]; [by rewrite decide_True|].
  rewrite decide_False; [done|]. by intros ?%xid_key_inj.
Qed.

Lemma words_without k d : words d -> words (dict_without k d).
Proof. induction 1 as [|[x v] d Hx _ IH]; cbn; [constructor|]. case_decide; [done|by constructor]. Qed.

Lemma stored_until_null d : words d -> (fun kv => (key_xid kv.1, kv.2)) <$> until_null (stored d) = d.
Proof. induction 1 as [|[x v] d Hx _ IH]; [done|]. cbn in *. unfold stored in IH. by rewrite key_xid_key, IH. Qed.

(** Distinct keys: a consequence of the invariant. *)
Lemma holds_nodup s D : holds s D -> NoDup D.*1.
Proof. intros (L & B & HR & <-). by eapply rep_entries_nodup. Qed.

Lemma stored_nodup d : NoDup (stored d).*1 -> NoDup d.*1.
Proof.
  unfold stored. rewrite <- list_fmap_compose. intros Hnd. apply (NoDup_fmap_1 xid_key).
  by rewrite <- list_fmap_compose.
Qed.

(** A table of transaction ids that holds [d]. *)
Record xid_table s d : Prop := {
  xt_holds : holds s (stored d);
  xt_words : words d;
  xt_plain : bucket_limit (ht s) = 0 /\ i_automatic_rehash (ht s) = false
}.

Lemma ght_first_run s d : xid_table s d ->
  exists it, HashTable.ght_first s = Some ((it, xid_key <$> (fst <$> head d), snd <$> head d), s).
Proof.
  intros [(L & B & HR & HE) _ _].
  assert (H : wp HashTable.ght_first (fun r s' => r = position (mem s) L /\ s' = s) s).
  { apply wp_bind, wp_get_ht. rewrite (rep_oldest _ _ _ _ HR). by eapply (wp_visit L B [] L). }
  apply wp_run in H as ([[it k] v] & s' & -> & H & ->). exists it. do 2 f_equal.
  destruct L as [|p L]; cbn in H.
  - injection H as -> -> ->. by destruct d as [|[x v] d].
  - destruct (rep_live _ _ _ _ HR p) as [e He]; [by left|]. rewrite (entries_cons _ _ _ _ He) in HE.
    rewrite He in H. destruct d as [|[x w] d]; [done|]. cbn in *. injection HE as Hk Hd _.
    by injection H as -> -> ->; rewrite Hk, Hd.
Qed.

Context (fn_alloc : nat -> gmap addr (ght_hash_entry_t V) -> option addr).

(** The calls the client makes, on tables. *)
#[export] Instance xid_ght : Ght (ght_state V) V := {|
  ght_ok s := exists d, xid_table s d;
  ght_entries s :=
    match iterate s with
    | Some (kvs, _) => (fun kv => (key_xid kv.1, kv.2)) <$> kvs
    | None => []
    end;
  ght_insert s x v :=
    match HashTable.ght_insert fn_alloc (Some v) 4 (key_p_key (xid_key x)) s with
    | Some (r, s') => (s', r)
    | None => (s, 0)
    end;
  ght_first s :=
    match HashTable.ght_first s with
    | Some ((_, Some k, Some v), _) => Some (key_xid k, v)
    | _ => None
    end;
  ght_remove s x :=
    match HashTable.ght_remove 4 (key_p_key (xid_key x)) s with
    | Some (r, s') => (s', r)
    | None => (s, None)
    end;
  ght_remove_first s :=
    match HashTable.ght_remove_first s with
    | Some (r, s') => (s', r)
    | None => (s, None)
    end
|}.

Lemma xid_entries s d : xid_table s d -> ght_entries s = d.
Proof. intros [Hh Hw _]. cbn. rewrite (iterate_spec _ _ Hh). by apply stored_until_null. Qed.

Lemma xid_plain s s' d : xid_table s d -> config (ht s') = config (ht s) ->
  bucket_limit (ht s') = 0 /\ i_automatic_rehash (ht s') = false.
Proof. intros [_ _ [H1 H2]] (_ & _ & _ & -> & ->)%config_parts. done. Qed.

Lemma xid_remove s d x : xid_table s d -> is_u 32 x ->
  xid_table (fst (ght_remove s x)) (dict_without x d) /\ snd (ght_remove s x) = dict_find x d.
Proof.
  intros Hx Hu. pose proof Hx as [Hh Hw _].
  destruct (ght_remove_spec (xid_key x) s _ Hh (xid_key_ok x)) as (s' & E & Hh' & Hc).
  cbn [ght_remove xid_ght]. change (key_i_size (xid_key x)) with 4 in E. rewrite E. cbn [fst snd].
  rewrite stored_find by done. split; [|by destruct (dict_find x d)].
  constructor; [rewrite <- stored_without; done|by apply words_without|by apply (xid_plain s s' d)].
Qed.

Lemma xid_remove_first s d : xid_table s d ->
  xid_table (fst (ght_remove_first s)) (tail d) /\ snd (ght_remove_first s) = snd <$> head d.
Proof.
  intros Hx. pose proof Hx as [Hh Hw _]. destruct (ght_remove_first_spec s _ Hh) as (s' & E & Hh' & Hc).
  cbn [ght_remove_first xid_ght]. rewrite E. cbn [fst snd]. split; [|by destruct d].
  constructor; [by destruct d|destruct Hw; [constructor|done]|by apply (xid_plain s s' d)].
Qed.

Context (alloc_fresh : forall n m p, fn_alloc n m = Some p -> m !! p = None).

Lemma xid_insert s d x v : xid_table s d -> is_u 32 x -> Z.of_nat (length d) < 2 ^ 31 - 1 ->
  exists r s', HashTable.ght_insert fn_alloc (Some v) 4 (key_p_key (xid_key x)) s = Some (r, s') /\
    ((r = 0 /\ x ∉ d.*1 /\ xid_table s' (d ++ [(x, v)])) \/
     (r = -1 /\ x ∈ d.*1 /\ xid_table s' d) \/
     (r = -2 /\ fn_alloc (requests s) (mem s) = None /\ xid_table s' d)).
Proof.
  intros Hx Hu Hlen. pose proof Hx as [(L & B & HR & HE) Hw [Hlim Hauto]].
  apply (wp_run _ (fun r s' => (r = 0 /\ x ∉ d.*1 /\ xid_table s' (d ++ [(x, v)])) \/
     (r = -1 /\ x ∈ d.*1 /\ xid_table s' d) \/
     (r = -2 /\ fn_alloc (requests s) (mem s) = None /\ xid_table s' d))).
  assert (Hkeys : xid_key x ∈ (entries (mem s) L).*1 <-> x ∈ d.*1) by (rewrite HE; by apply stored_keys).
  apply (wp_insert_plain fn_alloc alloc_fresh _ (Some v) (xid_key x) L B); try done.
  - apply xid_key_ok.
  - unfold limit_ok. by rewrite Hlim.
  - by left.
  - rewrite <- (entries_length (mem s)) by apply (rep_live _ _ _ _ HR).
    rewrite HE. unfold stored. rewrite length_fmap. lia.
  - intros Hp. right; left. by rewrite <- Hkeys.
  - intros _ Hno. right; right. split; [done|]. split; [done|]. constructor; [by exists L, B|done|done].
  - intros p s' L' B' D' ev Hkn _ Hp Hpl _ [Hr He Hc _ _ _ Hins _ _ _] _. left.
    rewrite <- Hkeys. split; [done|]. split; [done|]. destruct (xid_plain s s' d Hx Hc) as [Hl Ha].
    constructor; [|apply Forall_app; split; [done|by constructor]|done].
    exists L', B'. split; [done|]. rewrite He. cbn in Hins. rewrite entries_new, HE in Hins by done.
    unfold stored. rewrite fmap_app. inversion Hins; subst; done.
Qed.

#[export] Instance xid_ght_laws : GhtLaws (ght_state V) V.
Proof.
  split.
  - intros s [d Hx]. rewrite (xid_entries s d Hx). apply stored_nodup. by apply (holds_nodup s), Hx.
  - intros s x v [d Hx] Hu. rewrite (xid_entries s d Hx). intros Hlen.
    destruct (xid_insert s d x v Hx Hu Hlen) as (r & s' & E & H). cbn [ght_insert xid_ght]. rewrite E.
    cbn [fst snd]. destruct H as [(-> & Hn & H)|[(-> & Hn & H)|(-> & _ & H)]]; rewrite (xid_entries _ _ H).
    all: split; [by eexists|]. all: auto.
  - intros s [d Hx]. rewrite (xid_entries s d Hx). cbn [ght_first xid_ght].
    destruct (ght_first_run s d Hx) as [it ->]. destruct Hx as [_ Hw _]. destruct Hw as [|[x v] d Hx _]; [done|].
    cbn in *. by rewrite key_xid_key.
  - intros s x [d Hx] Hu. rewrite (xid_entries s d Hx). destruct (xid_remove s d x Hx Hu) as [H ->].
    split; [by eexists|]. split; [|done]. by apply xid_entries.
  - intros s [d Hx]. rewrite (xid_entries s d Hx). destruct (xid_remove_first s d Hx) as [H ->].
    split; [by eexists|]. split; [|done]. by apply xid_entries.
Qed.

(** With memory for the entries, insertion does not fail for lack of it. *)
Lemma xid_memory s x v : (forall n m, is_Some (fn_alloc n m)) -> ght_ok s -> is_u 32 x ->
  Z.of_nat (length (ght_entries s)) < 2 ^ 31 - 1 -> snd (ght_insert s x v) <> -2.
Proof.
  intros Hall [d Hx] Hu. rewrite (xid_entries s d Hx). intros Hlen.
  destruct (xid_insert s d x v Hx Hu Hlen) as (r & s' & E & H). cbn [ght_insert xid_ght]. rewrite E. cbn [fst snd].
  destruct H as [(-> & _)|[(-> & _)|(-> & Hno & _)]]; try done.
  destruct (Hall (requests s) (mem s)) as [p Hp]. by rewrite Hp in Hno.
Qed.
End xid_table.

(** ** The table of a new connection *)

(** An allocator with memory for everything. *)
Definition malloc {V} (_ : nat) (m : gmap addr (ght_hash_entry_t V)) : option addr := Some (fresh (dom m)).

Lemma malloc_fresh {V} n (m : gmap addr (ght_hash_entry_t V)) p : malloc n m = Some p -> m !! p = None.
Proof. intros [= <-]. apply not_elem_of_dom, is_fresh. Qed.

(** The state after [ght_create(n)]. *)
Definition created_table {V} (n : Z) : option (ght_state V) :=
  match ght_create malloc n (mk_state (mk_table 0 0 (fun _ => 0) None 0 false [] [] 0 0 None None) ∅ 0 []) with
  | Some (Some t, s) => Some (mk_state t (mem s) (requests s) (evictions s))
  | _ => None
  end.

Lemma created_table_ok {V} n : 0 <= n <= 2 ^ 30 ->
  exists s, created_table (V := V) n = Some s /\ xid_table s [].
Proof.
  intros Hn. unfold created_table. set (s0 := mk_state _ _ _ _).
  destruct (ght_create_run malloc n s0 Hn) as (k & Hk & _ & _ & r & c & -> & _ & Hr).
  rewrite Hr by (intros i; by eexists). eexists. split; [done|]. split; [|constructor|done].
  exists [], (replicate (Z.to_nat (2 ^ k)) []). split; [|done].
  apply Rep_empty; [done|]. intros key Hkey. apply ght_one_at_a_time_hash_range.
Qed.
