(* ===== verification/HashTableExamples.v ===== *)
(** * A table at work

    The theorems about the hash table at concrete tables, made by [ght_create]
    and [ght_insert] with the allocator [malloc]: a table of two entries, a
    bucket at its limit that evicts, and a table that doubles. *)

From S2P Require Import Prelude HashFunctions GhtIface HashTable HashTableRep HashTableRemove HashTableInsert HashTableOps HashTableCorrect HashTableRehash HashTableDict.

(** The empty table of one bucket. *)
Definition empty_ex (rehash : bool) : ght_state Z :=
  mk_state (ght_set_rehash rehash (empty_table 0)) ∅ 0 [].

Lemma empty_ex_holds rehash : holds (empty_ex rehash) [].
Proof.
  exists [], (replicate (Z.to_nat (2 ^ 0)) []). split; [|done].
  apply (Rep_empty ∅ 0 ght_one_at_a_time_hash None rehash 0 0); [lia|].
  intros k _. apply ght_one_at_a_time_hash_range.
Qed.

Definition data_ex : dict Z Z := [(7, 70); (9, 90)].

Lemma two_entries : exists s : ght_state Z, xid_table s data_ex.
Proof.
  assert (H0 : xid_table (empty_ex false) []) by (constructor; [apply empty_ex_holds|constructor|done]).
  destruct (xid_insert malloc malloc_fresh _ _ 7 70 H0) as (r1 & s1 & _ & H1); [done|done|].
  assert (H1' : xid_table s1 [(7, 70)]).
  { destruct H1 as [(_ & _ & H)|[(_ & H & _)|(_ & H & _)]]; [done|by apply elem_of_nil in H|done]. }
  destruct (xid_insert malloc malloc_fresh _ _ 9 90 H1') as (r2 & s2 & _ & H2); [done|done|].
  exists s2. destruct H2 as [(_ & _ & H)|[(_ & H & _)|(_ & H & _)]]; [done| |done].
  by apply list_elem_of_singleton in H.
Qed.

Lemma ght_get_spec_witness :
  exists s : ght_state Z, holds s (stored data_ex) /\
  exists s', ght_get 4 (key_p_key (xid_key 9)) s = Some (Some 90, s') /\
    holds s' (stored data_ex) /\ config (ht s') = config (ht s).
Proof.
  destruct two_entries as [s [Hs _ _]]. exists s. split; [exact Hs|].
  exact (ght_get_spec (xid_key 9) s (stored data_ex) Hs (xid_key_ok 9)).
Defined.

Lemma ght_replace_spec_witness :
  exists s : ght_state Z, holds s (stored data_ex) /\
  exists s', ght_replace (Some 91) 4 (key_p_key (xid_key 9)) s = Some (Some 90, s') /\
    holds s' (stored [(7, 70); (9, 91)]) /\ config (ht s') = config (ht s).
Proof.
  destruct two_entries as [s [Hs _ _]]. exists s. split; [exact Hs|].
  exact (ght_replace_spec (xid_key 9) (Some 91) s (stored data_ex) Hs (xid_key_ok 9)).
Defined.

Lemma ght_create_spec_witness :
  exists r c, ght_create malloc 100 (empty_ex false) =
      Some (r, mk_state (ht (empty_ex false)) (mem (empty_ex false)) (requests (empty_ex false) + c)
                 (evictions (empty_ex false))) /\
    match r with
    | None => ~ forall i, is_Some (malloc i (mem (empty_ex false)))
    | Some t => holds (mk_state t (mem (empty_ex false)) (requests (empty_ex false) + c)
                         (evictions (empty_ex false))) [] /\
        100 <= i_size t /\ (i_size t = 1 \/ i_size t < 2 * 100) /\
        (exists k, i_size t = 2 ^ k) /\ i_size_mask t = i_size t - 1
    end.
Proof. apply (ght_create_spec malloc 100 (empty_ex false)). lia. Defined.

Lemma ght_remove_all_spec_witness :
  exists (s : ght_state Z) L B, Rep (ht s) (mem s) L B /\ length L = 2%nat /\
  exists s', ght_remove_all s = Some (tt, s') /\ holds s' [] /\
    config (ht s') = config (ht s) /\ i_size (ht s') = i_size (ht s) /\
    forall q, mem s' !! q = if decide (q ∈ L) then None else mem s !! q.
Proof.
  destruct two_entries as [s [(L & B & HR & HE) _ _]]. exists s, L, B. split; [exact HR|]. split.
  - rewrite <- (entries_length (mem s)) by apply (rep_live _ _ _ _ HR). by rewrite HE.
  - exact (ght_remove_all_spec L B s HR).
Defined.

Lemma ght_rehash_spec_witness :
  exists s : ght_state Z, holds s (stored data_ex) /\
  exists s', ght_rehash malloc 8 s = Some (tt, s') /\ holds s' (stored data_ex) /\
    config (ht s') = config (ht s) /\ 8 <= i_size (ht s') /\ evictions s' = evictions s.
Proof.
  destruct two_entries as [s [Hs _ _]]. exists s. split; [exact Hs|].
  apply (ght_rehash_spec malloc malloc_fresh 8 s (stored data_ex) Hs); [lia|].
  intros i m. by eexists.
Defined.

(** A table of one bucket for at most [limit] entries, with the function 5 as
    its [fn_bucket_free]. *)
Definition bounded_ex (limit : Z) : ght_state Z :=
  mk_state (ght_set_bounded_buckets limit (Some 5) (empty_table 0)) ∅ 0 [].

Lemma bounded_ex_ok limit : 0 <= limit -> bounded (bounded_ex limit) [] [[]].
Proof.
  intros Hlim. exists [], (replicate (Z.to_nat (2 ^ 0)) []). split.
  - apply (Rep_empty ∅ 0 ght_one_at_a_time_hash (Some 5) false limit 0); [lia|].
    intros k _. apply ght_one_at_a_time_hash_range.
  - split; [done|]. split; [done|]. split; [split; [done|by eexists]|].
    right. intros i l [-> _]%lookup_replicate. done.
Qed.

(** An insertion into a table of one bucket that has room, and into one that is full. *)
Lemma inserts_room t (D D' : dict ght_hash_key_t (option Z)) ks C' k d r ev :
  inserts t D [ks] k d r D' C' ev -> k ∉ D.*1 -> r <> -2 -> Z.of_nat (length ks) < bucket_limit t ->
  r = 0 /\ D' = D ++ [(k, d)] /\ C' = [k :: ks] /\ ev = [].
Proof.
  intros [?|?|i ks' _ _ Hi _|i ks' k' v' f _ _ Hi _ Hfull _ _] Hk Hr Hroom; try done.
  - destruct i; [|done]. by injection Hi as <-.
  - destruct i; [|done]. injection Hi as ->. lia.
Qed.

Lemma inserts_full t (D D' : dict ght_hash_key_t (option Z)) ks k' C' k d r ev :
  inserts t D [ks ++ [k']] k d r D' C' ev -> k ∉ D.*1 -> r <> -2 ->
  bucket_limit t <> 0 -> bucket_limit t <= Z.of_nat (length (ks ++ [k'])) ->
  r = 0 /\ D' = dict_without k' D ++ [(k, d)] /\ C' = [k :: ks] /\
  exists v' f, (k', v') ∈ D /\ fn_bucket_free t = Some f /\ ev = [(f, v', key_p_key k')].
Proof.
  intros [?|?|i ks' _ _ Hi Hroom|i ks' k'' v' f _ _ Hi _ _ Hf Hv] Hk Hr Hlim Hfull; try done.
  - destruct i; [|done]. injection Hi as <-. destruct Hroom; lia.
  - destruct i; [|done]. injection Hi as [-> ->]%app_inj_tail.
    do 3 (split; [done|]).
    by exists v', f.
Qed.

(** A bucket for two entries: after the keys 1 and 2 the key 3 evicts the last
    of the chain, the key 1, and its datum 10 goes to the callback. *)
Lemma ght_insert_spec_witness :
  exists s s' : ght_state Z,
    bounded s [(xid_key 1, Some 10); (xid_key 2, Some 20)] [[xid_key 2; xid_key 1]] /\
    bucket_limit (ht s) = 2 /\
    ght_insert malloc (Some 30) 4 (key_p_key (xid_key 3)) s = Some (0, s') /\
    bounded s' [(xid_key 2, Some 20); (xid_key 3, Some 30)] [[xid_key 3; xid_key 2]] /\
    evictions s' = evictions s ++ [(5, Some 10, key_p_key (xid_key 1))].
Proof.
  destruct (ght_insert_spec malloc malloc_fresh (Some 10) (xid_key 1) (bounded_ex 2) [] [[]])
    as (r1 & s1 & D1 & C1 & ev1 & _ & H1 & B1 & Hc1 & _ & _ & Hr1);
    [by apply bounded_ex_ok|apply xid_key_ok|done|done|].
  destruct (config_parts _ _ Hc1) as (_ & Hf1 & _ & Ha1 & Hl1).
  apply inserts_room in H1 as (-> & -> & -> & ->); [|apply not_elem_of_nil|by intros [_ ?]%Hr1|by rewrite Hl1].
  destruct (ght_insert_spec malloc malloc_fresh (Some 20) (xid_key 2) s1 _ _ B1)
    as (r2 & s2 & D2 & C2 & ev2 & _ & H2 & B2 & Hc2 & _ & _ & Hr2);
    [apply xid_key_ok|by rewrite Ha1|done|].
  destruct (config_parts _ _ Hc2) as (_ & Hf2 & _ & Ha2 & Hl2).
  apply inserts_room in H2 as (-> & -> & -> & ->);
    [|by intros ?%list_elem_of_singleton|by intros [_ ?]%Hr2|by rewrite Hl2, Hl1].
  destruct (ght_insert_spec malloc malloc_fresh (Some 30) (xid_key 3) s2 _ _ B2)
    as (r3 & s3 & D3 & C3 & ev3 & E3 & H3 & B3 & Hc3 & _ & He3 & Hr3);
    [apply xid_key_ok|by rewrite Ha2, Ha1|done|].
  destruct (config_parts _ _ Hc3) as (_ & Hf3 & _ & _ & Hl3).
  apply (inserts_full _ _ _ [xid_key 2] (xid_key 1)) in H3 as (-> & -> & -> & v & f & Hv & Hf & ->);
    [|by intros [?|[?|[]%not_elem_of_nil]%elem_of_cons]%elem_of_cons|by intros [_ ?]%Hr3
     |by rewrite Hl3, Hl2, Hl1|by rewrite Hl3, Hl2, Hl1].
  rewrite Hf3, Hf2, Hf1 in Hf. injection Hf as <-.
  assert (v = Some 10) as ->.
  { apply elem_of_cons in Hv as [[= ->]|Hv]; [done|]. by apply list_elem_of_singleton in Hv. }
  exists s2, s3. split; [exact B2|]. split; [by rewrite Hl2, Hl1|]. split; [exact E3|]. by split.
Defined.

(** Three entries in one bucket: the fourth insertion doubles the buckets, the
    third did not. *)
Lemma ght_insert_rehash_spec_witness :
  exists s s' : ght_state Z,
    holds s [(xid_key 1, Some 10); (xid_key 2, Some 20); (xid_key 3, Some 30)] /\ i_size (ht s) = 1 /\
    ght_insert malloc (Some 40) 4 (key_p_key (xid_key 4)) s = Some (0, s') /\
    holds s' [(xid_key 1, Some 10); (xid_key 2, Some 20); (xid_key 3, Some 30); (xid_key 4, Some 40)] /\
    i_size (ht s') = 2.
Proof.
  assert (Hm : forall i (m : gmap addr (ght_hash_entry_t Z)), is_Some (malloc i m)) by (by eexists).
  destruct (ght_insert_rehash_spec malloc malloc_fresh (Some 10) (xid_key 1) (empty_ex true) [])
    as (s1 & _ & H1 & Hc1 & Hs1); [apply empty_ex_holds|apply xid_key_ok|done|done|constructor|done|done|done|].
  destruct (config_parts _ _ Hc1) as (_ & _ & _ & Ha1 & Hl1).
  destruct (ght_insert_rehash_spec malloc malloc_fresh (Some 20) (xid_key 2) s1 _ H1)
    as (s2 & _ & H2 & Hc2 & Hs2); [apply xid_key_ok|by rewrite Ha1|by rewrite Hl1|by repeat constructor|by rewrite Hs1|done|done|].
  rewrite Hs1 in Hs2. destruct (config_parts _ _ Hc2) as (_ & _ & _ & Ha2 & Hl2).
  destruct (ght_insert_rehash_spec malloc malloc_fresh (Some 30) (xid_key 3) s2 _ H2)
    as (s3 & _ & H3 & Hc3 & Hs3);
    [apply xid_key_ok|by rewrite Ha2, Ha1|by rewrite Hl2, Hl1|by repeat constructor|by rewrite Hs2|done|done|].
  rewrite Hs2 in Hs3. destruct (config_parts _ _ Hc3) as (_ & _ & _ & Ha3 & Hl3).
  destruct (ght_insert_rehash_spec malloc malloc_fresh (Some 40) (xid_key 4) s3 _ H3)
    as (s4 & E4 & H4 & Hc4 & Hs4);
    [apply xid_key_ok|by rewrite Ha3, Ha2, Ha1|by rewrite Hl3, Hl2, Hl1|by repeat constructor|by rewrite Hs3|done|done|].
  rewrite Hs3 in Hs4. exists s3, s4. by split_and!.
Defined.

(** ** Runs *)

(** Four insertions with automatic rehashing: the fourth finds more entries than
    twice the number of buckets. *)
Definition inserts_ex (xs : list Z) (s : ght_state Z) : option (ght_state Z) :=
  foldl (fun o x => s ← o; snd <$> ght_insert malloc (Some (10 * x)) 4 (key_p_key (xid_key x)) s) (Some s) xs.

Example rehash_happens :
  (fun s => i_size (ht s)) <$> inserts_ex [1; 2; 3; 4] (empty_ex true) = Some 2.
Proof. vm_compute. reflexivity. Qed.

(** With a limit of one entry a bucket gives up its entry: [fn_bucket_free] (the
    function 5) is called on it. *)
Example eviction_happens :
  evictions <$> inserts_ex [1; 2] (bounded_ex 1) = Some [(5, Some 10, key_p_key (xid_key 1))].
Proof. vm_compute. reflexivity. Qed.
