(* ===== verification/RpcRecord.v ===== *)
(** * Receiving RPC replies: [src/src/clnt_tcp_nb.c]

    Replies arrive on a TCP stream cut into records, and records into
    fragments, each preceded by a 4-byte header (RFC 1831, record marking).
    [update_frag_state] is handed whatever a [read] returned; it rebuilds the
    fragments, [update_record_state] collects them, and [call_user_cb] decodes
    the reply header of a complete record and calls the callback registered
    under its transaction id.

    A call of a user callback is an entry of [ct_called]; callbacks that
    themselves call back into the library are not modelled.  The heap is
    accounted for as in [Prelude]; [junk] is the content of fresh memory. *)

From S2P Require Import Prelude GhtIface.

(** ** State *)

(** One fragment, received or to be sent; [fb_base] is the content of the block
    it points to, [fb_current] an offset into it. *)
Record frag_buffer := mk_frag_buffer {
  fb_base : list Z;
  fb_current : Z;
  fb_len : Z
}.

Record rpc_record_state := mk_rpc_record_state {
  rs_frag_list : list frag_buffer;
  rs_recordsize : Z;
  rs_frag_remaining : Z;
  rs_frag_buf_base : ptr (list Z);
  rs_frag_bufsz : Z;
  rs_frag_offset : Z;
  rs_fh_remaining : Z;
  rs_fraghdr : list Z;
  rs_last_frag : Z
}.

(** A callback is a function pointer (NULL or the address of a function). *)
Record callback_info := mk_callback_info {
  callback : option Z;
  cb_private : Z
}.

(** One invocation of a callback: the function, its private pointer, and the
    bytes of the reply that follow the RPC header. *)
Record invocation := mk_invocation {
  inv_callback : Z;
  inv_private : Z;
  inv_payload : list Z
}.

Record ct_data (T : Type) := mk_ct_data {
  ct_record_state : rpc_record_state;
  ct_xid_to_ucb : option T;
  ct_datarx : Z;
  ct_heap : heap;
  ct_called : list invocation
}.
Arguments mk_ct_data {T}.
Arguments ct_record_state {T} c.
Arguments ct_xid_to_ucb {T} c.
Arguments ct_datarx {T} c.
Arguments ct_heap {T} c.
Arguments ct_called {T} c.

(** A step succeeds, has undefined behaviour, or runs out of fuel. *)
Inductive rres (A : Type) := ROk (a : A) | RUB | RFuel.
Arguments ROk {A} a.
Arguments RUB {A}.
Arguments RFuel {A}.

Definition set_rs {T} (ct : ct_data T) (rs : rpc_record_state) : ct_data T :=
  mk_ct_data rs (ct_xid_to_ucb ct) (ct_datarx ct) (ct_heap ct) (ct_called ct).
Definition set_ct_heap {T} (ct : ct_data T) (h : heap) : ct_data T :=
  mk_ct_data (ct_record_state ct) (ct_xid_to_ucb ct) (ct_datarx ct) h (ct_called ct).

Definition RPC_RECORD_HEADER : Z := 4.
Definition EXPECT_NEW_FRAG : Z := -1.
Definition FRAG_SIZE (hdr : Z) : Z := Z.land hdr 0x7fffffff.
Definition LAST_FRAG (hdr : Z) : Z := Z.land hdr 0x80000000.

Definition expect_new_rpc_record (rs : rpc_record_state) : rpc_record_state :=
  {| rs_frag_list := rs_frag_list rs;
     rs_recordsize := 0;
     rs_frag_remaining := EXPECT_NEW_FRAG;
     rs_frag_buf_base := rs_frag_buf_base rs;
     rs_frag_bufsz := rs_frag_bufsz rs;
     rs_frag_offset := rs_frag_offset rs;
     rs_fh_remaining := RPC_RECORD_HEADER;
     rs_fraghdr := rs_fraghdr rs;
     rs_last_frag := rs_last_frag rs |}.

(** [memcpy(dst + off, src, |src|)]: [None] outside the block. *)
Definition memcpy (dst : list Z) (off : nat) (src : list Z) : option (list Z) :=
  if decide (off + length src <= length dst)%nat
  then Some (take off dst ++ src ++ drop (off + length src) dst)
  else None.

Section reception.
Context {T : Type} `{Ght T callback_info} (junk : Z).

(** [xdr_replymsg] of the C library on a whole record: the transaction id of
    the reply and the bytes after the RPC header, or FALSE. *)
Context (xdr_replymsg : list Z -> option (Z * list Z)).

(** The new list and the result.  With [nocopy] the node takes over the block
    [buf], without it the node gets a copy of its first [len] bytes. *)
Definition add_buffer_list (fl : list frag_buffer) (buf : ptr (list Z)) (len : Z) (nocopy : bool)
    (h : heap) : list frag_buffer * Z * heap :=
  match buf with
  | PTo bytes =>
      let (ok, h) := mem_alloc h in
      if ok
      then (fl ++ [mk_frag_buffer (if nocopy then bytes else take (Z.to_nat len) bytes) 0 len], 0, h)
      else (fl, -1, h)
  | _ => (fl, -1, h)
  end.

(** [buf] is what is left of the read buffer. *)
Definition update_new_frag_state (rs : rpc_record_state) (h : heap) (buf : list Z)
    : option (Z * rpc_record_state * heap) :=
  let bufsz := Z.of_nat (length buf) in
  let rm_len := if rs_fh_remaining rs =? 0 then 0
                else if bufsz <? rs_fh_remaining rs then bufsz else rs_fh_remaining rs in
  fraghdr ← memcpy (rs_fraghdr rs) 0 (take (Z.to_nat rm_len) buf);
  let fh_remaining := rs_fh_remaining rs - rm_len in
  let consumed := rm_len in
  if negb (fh_remaining =? 0) then
    Some (consumed,
      {| rs_frag_list := rs_frag_list rs;
         rs_recordsize := rs_recordsize rs;
         rs_frag_remaining := rs_frag_remaining rs;
         rs_frag_buf_base := rs_frag_buf_base rs;
         rs_frag_bufsz := rs_frag_bufsz rs;
         rs_frag_offset := rs_frag_offset rs;
         rs_fh_remaining := fh_remaining;
         rs_fraghdr := fraghdr;
         rs_last_frag := rs_last_frag rs |}, h)
  else
    let hdr := unbe fraghdr in
    let (ok, h) := mem_alloc h in
    Some (if ok then consumed else 0,
      {| rs_frag_list := rs_frag_list rs;
         rs_recordsize := rs_recordsize rs;
         rs_frag_remaining := if ok then FRAG_SIZE hdr else rs_frag_remaining rs;
         rs_frag_buf_base := if ok then PTo (repeat junk (Z.to_nat (FRAG_SIZE hdr))) else PNull;
         rs_frag_bufsz := FRAG_SIZE hdr;
         rs_frag_offset := if ok then 0 else rs_frag_offset rs;
         rs_fh_remaining := fh_remaining;
         rs_fraghdr := fraghdr;
         rs_last_frag := LAST_FRAG hdr |}, h).

(** The copying loop: each fragment goes to [curr], which must stay inside the
    block of [bufsize] bytes; the list nodes are freed, the fragments' blocks
    are not. *)
Fixpoint collate_loop (fl : list frag_buffer) (rpc_msg : list Z) (curr : nat) (h : heap)
    : option (list Z * heap) :=
  match fl with
  | [] => Some (rpc_msg, h)
  | fbuf :: fl =>
      rpc_msg ← memcpy rpc_msg curr (take (Z.to_nat (fb_len fbuf)) (fb_base fbuf));
      h ← mem_free (PTo fbuf) h;
      collate_loop fl rpc_msg (curr + Z.to_nat (fb_len fbuf)) h
  end.

(** [PNull] and an unchanged list when the allocation fails. *)
Definition collate_buf_list (rs : rpc_record_state) (h : heap)
    : option (ptr (list Z) * rpc_record_state * heap) :=
  let bufsize := rs_recordsize rs in
  let (ok, h) := mem_alloc h in
  if negb ok then Some (PNull, rs, h)
  else
    '(rpc_msg, h) ← collate_loop (rs_frag_list rs) (repeat junk (Z.to_nat bufsize)) 0 h;
    Some (PTo rpc_msg,
      {| rs_frag_list := [];
         rs_recordsize := rs_recordsize rs;
         rs_frag_remaining := rs_frag_remaining rs;
         rs_frag_buf_base := rs_frag_buf_base rs;
         rs_frag_bufsz := rs_frag_bufsz rs;
         rs_frag_offset := rs_frag_offset rs;
         rs_fh_remaining := rs_fh_remaining rs;
         rs_fraghdr := rs_fraghdr rs;
         rs_last_frag := rs_last_frag rs |}, h).

(** [ght_first], then [ght_remove_first] if the oldest call is the one that is
    answered and [ght_remove] otherwise. *)
Definition take_callback (t : T) (xid : Z) : T * option callback_info :=
  match ght_first t with
  | None => (t, None)
  | Some (cached_xid, _) =>
      if negb (cached_xid =? xid) then ght_remove t xid else ght_remove_first t
  end.

Definition call_user_cb (ct : ct_data T) : option (ct_data T) :=
  '(rpc_msg, rs, h) ← collate_buf_list (ct_record_state ct) (ct_heap ct);
  match rpc_msg with
  | PTo msg =>
      match xdr_replymsg msg with
      | None =>
          h ← mem_free rpc_msg h;
          Some (mk_ct_data rs (ct_xid_to_ucb ct) (ct_datarx ct) h (ct_called ct))
      | Some (rm_xid, payload) =>
          let datarx := u64 (ct_datarx ct + rs_recordsize rs) in
          t ← ct_xid_to_ucb ct;
          let (t, cbi) := take_callback t rm_xid in
          match cbi with
          | None =>
              h ← mem_free rpc_msg h;
              Some (mk_ct_data rs (Some t) datarx h (ct_called ct))
          | Some cbi =>
              let called :=
                match callback cbi with
                | Some f => ct_called ct ++ [mk_invocation f (cb_private cbi) payload]
                | None => ct_called ct
                end in
              h ← mem_free (PTo cbi) h;
              h ← mem_free rpc_msg h;
              Some (mk_ct_data rs (Some t) datarx h called)
          end
      end
  | _ => Some (set_ct_heap ct h)
  end.

Definition update_record_state (ct : ct_data T) : option (ct_data T * Z) :=
  let rs := ct_record_state ct in
  let '(fl, _, h) := add_buffer_list (rs_frag_list rs) (rs_frag_buf_base rs) (rs_frag_bufsz rs)
                       true (ct_heap ct) in
  let rs :=
    {| rs_frag_list := fl;
       rs_recordsize := rs_recordsize rs + rs_frag_bufsz rs;
       rs_frag_remaining := rs_frag_remaining rs;
       rs_frag_buf_base := rs_frag_buf_base rs;
       rs_frag_bufsz := rs_frag_bufsz rs;
       rs_frag_offset := rs_frag_offset rs;
       rs_fh_remaining := rs_fh_remaining rs;
       rs_fraghdr := rs_fraghdr rs;
       rs_last_frag := rs_last_frag rs |} in
  let ct := set_ct_heap (set_rs ct rs) h in
  '(ct, called_back) ←
    (if negb (rs_last_frag rs =? 0)
     then ct ← call_user_cb ct; Some (ct, 1)
     else Some (ct, 0));
  Some (set_rs ct (expect_new_rpc_record (ct_record_state ct)), called_back).

(** If the current fragment expects more: copy what the buffer has. *)
Definition copy_fragment (rs : rpc_record_state) (buf : list Z) (consumed : Z)
    : option (rpc_record_state * Z) :=
  if 0 <? rs_frag_remaining rs then
    let left := Z.of_nat (length buf) - consumed in
    let tocopy := if left <? rs_frag_remaining rs then left else rs_frag_remaining rs in
    match rs_frag_buf_base rs with
    | PTo base =>
        base ← memcpy base (Z.to_nat (rs_frag_offset rs))
                 (take (Z.to_nat tocopy) (drop (Z.to_nat consumed) buf));
        Some ({| rs_frag_list := rs_frag_list rs;
                 rs_recordsize := rs_recordsize rs;
                 rs_frag_remaining := rs_frag_remaining rs - tocopy;
                 rs_frag_buf_base := PTo base;
                 rs_frag_bufsz := rs_frag_bufsz rs;
                 rs_frag_offset := rs_frag_offset rs + tocopy;
                 rs_fh_remaining := rs_fh_remaining rs;
                 rs_fraghdr := rs_fraghdr rs;
                 rs_last_frag := rs_last_frag rs |}, consumed + tocopy)
    | _ => None
    end
  else Some (rs, consumed).

(** The body of [while(bufsz > consumed)]. *)
Definition update_frag_body (ct : ct_data T) (buf : list Z) (consumed called_back : Z)
    : option (ct_data T * Z * Z) :=
  '(rs, consumed) ← copy_fragment (ct_record_state ct) buf consumed;
  let ct := set_rs ct rs in
  '(ct, called_back) ←
    (if (rs_frag_offset rs =? rs_frag_bufsz rs) && (rs_frag_remaining rs =? 0)
     then '(ct, c) ← update_record_state ct; Some (ct, called_back + c)
     else Some (ct, called_back));
  if consumed <? Z.of_nat (length buf) then
    '(n, rs, h) ← update_new_frag_state (ct_record_state ct) (ct_heap ct)
                    (drop (Z.to_nat consumed) buf);
    Some (set_ct_heap (set_rs ct rs) h, consumed + n, called_back)
  else Some (ct, consumed, called_back).

Fixpoint update_frag_loop (fuel : nat) (ct : ct_data T) (buf : list Z) (consumed called_back : Z)
    : rres (ct_data T * Z) :=
  if consumed <? Z.of_nat (length buf) then
    match fuel with
    | O => RFuel
    | S fuel =>
        match update_frag_body ct buf consumed called_back with
        | Some (ct, consumed, called_back) => update_frag_loop fuel ct buf consumed called_back
        | None => RUB
        end
    end
  else ROk (ct, called_back).

(** Every iteration consumes a byte when memory suffices, so the length of the
    buffer bounds the loop. *)
Definition update_frag_state (ct : ct_data T) (buf : list Z) : rres (ct_data T * Z) :=
  update_frag_loop (length buf) ct buf 0 0.

End reception.
