(* ===== verification/RpcRecordCorrect.v ===== *)
(** * The reply reader is correct, and where it is not

    [RpcRecord] against the record marking standard of RFC 1831: the relation
    [Feed] says what a stream of bytes means, [Rep] relates a state of the
    reader to a position in the stream and to the calls that wait.  For bytes
    that the reader does not handle, [scan_bytes] says byte by byte where they
    take it. *)

From S2P Require Import Prelude GhtIface RpcRecord.

(** ** What the reader should do: the record marking standard

    A fragment has a 4-byte header with its size; the top bit marks the last
    fragment of a record. *)
Definition frag_header (last : bool) (n : nat) : Z := (if last then 2 ^ 31 else 0) + Z.of_nat n.

(** A fragment on the wire, and a record that is sent as one fragment. *)
Definition fragment (last : bool) (d : list Z) : list Z := be 4 (frag_header last (length d)) ++ d.
Definition mark (r : list Z) : list Z := fragment true r.

(** Where the reader stands in the stream: between records ([None]), or inside
    a record of [n] bytes, of which it has [got]. *)
Definition position : Type := option (list Z * nat).

(** [Feed st bs st' out]: reading [bs] from [st] leads to [st'] and completes
    the records [out], in this order.  A header arrives in one piece, and
    records are not empty. *)
Inductive Feed : position -> list Z -> position -> list (list Z) -> Prop :=
| feed_nil st : Feed st [] st []
| feed_header n rest st out :
    (0 < n)%nat -> Z.of_nat n < 2 ^ 31 -> Feed (Some ([], n)) rest st out ->
    Feed None (be 4 (frag_header true n) ++ rest) st out
| feed_part got n d :
    d <> [] -> (length got + length d < n)%nat ->
    Feed (Some (got, n)) d (Some (got ++ d, n)) []
| feed_full got n d rest st out :
    d <> [] -> (length got + length d = n)%nat -> Feed None rest st out ->
    Feed (Some (got, n)) (d ++ rest) st ((got ++ d) :: out).

(** The calls that wait for a reply, oldest first, and the callbacks made. *)
Record session := mk_session {
  sn_calls : dict Z callback_info;
  sn_called : list invocation
}.

(** A reply: the callback of the call it answers is called once and
    forgotten; a reply that answers no call is dropped. *)
Definition reply (xdr_replymsg : list Z -> option (Z * list Z)) (s : session) (msg : list Z)
    : session :=
  match xdr_replymsg msg with
  | None => s
  | Some (xid, payload) =>
      match dict_find xid (sn_calls s) with
      | None => s
      | Some cbi =>
          mk_session (dict_without xid (sn_calls s))
            (match callback cbi with
             | Some f => sn_called s ++ [mk_invocation f (cb_private cbi) payload]
             | None => sn_called s
             end)
      end
  end.

(** ** Memory and headers *)

Lemma memcpy_app (a b c src : list Z) :
  length src = length b -> memcpy (a ++ b ++ c) (length a) src = Some (a ++ src ++ c).
Proof.
  intros Hl. unfold memcpy. rewrite decide_True by (rewrite !length_app; lia).
  rewrite take_app_length, Hl, <- length_app. do 3 f_equal.
  by rewrite app_assoc, drop_app_length.
Qed.

Lemma memcpy_all (dst src : list Z) : length src = length dst -> memcpy dst 0 src = Some src.
Proof.
  intros Hl. pose proof (memcpy_app [] dst [] src Hl) as E. by rewrite !app_nil_r in E.
Qed.

Lemma memcpy_length dst off src m : memcpy dst off src = Some m -> length m = length dst.
Proof.
  unfold memcpy. case_decide; [|done]. intros [= <-].
  rewrite !length_app, length_take, length_drop. lia.
Qed.

Lemma FRAG_SIZE_last n : 0 <= n < 2 ^ 31 -> FRAG_SIZE (2 ^ 31 + n) = n.
Proof.
  intros Hn. unfold FRAG_SIZE. change 0x7fffffff with (Z.ones 31).
  rewrite Z.land_ones by lia. rewrite Z.add_mod by lia. rewrite Z.mod_same by lia.
  rewrite Z.add_0_l, Z.mod_mod by lia. apply Z.mod_small. lia.
Qed.

Lemma LAST_FRAG_last n : 0 <= n < 2 ^ 31 -> LAST_FRAG (2 ^ 31 + n) <> 0.
Proof.
  intros Hn H0. unfold LAST_FRAG in H0. apply (f_equal (fun z => Z.testbit z 31)) in H0.
  rewrite Z.land_spec, Z.bits_0 in H0. change 0x80000000 with (2 ^ 31) in H0.
  rewrite Z.pow2_bits_true, andb_true_r in H0 by lia.
  assert (Ht : Z.testbit (2 ^ 31 + n) 31 = true); [|congruence].
  apply Z.testbit_true; [lia|]. replace (2 ^ 31 + n) with (n + 1 * 2 ^ 31) by lia.
  rewrite Z.div_add by lia. rewrite Z.div_small by lia. done.
Qed.

Lemma unbe_be4_u v : 0 <= v < 2 ^ 32 -> unbe (be 4 v) = v.
Proof. intros Hv. rewrite unbe_be. apply Z.mod_small. by change (256 ^ Z.of_nat 4) with (2 ^ 32). Qed.

(** ** The reader refines the standard *)

(** [fl] are the earlier fragments of the record. *)
Definition rs_common (fl : list frag_buffer) (rs : rpc_record_state) : Prop :=
  rs_frag_list rs = fl /\ rs_recordsize rs = 0 /\ length (rs_fraghdr rs) = 4%nat.

(** Waiting for a header. *)
Definition rs_idle (fl : list frag_buffer) (rs : rpc_record_state) : Prop :=
  rs_common fl rs /\ rs_fh_remaining rs = RPC_RECORD_HEADER /\ rs_frag_remaining rs = EXPECT_NEW_FRAG.

(** In a fragment of [n] bytes (the last of its record or not), with [got]
    received. *)
Definition rs_frag (fl : list frag_buffer) (last : bool) (rs : rpc_record_state)
    (got : list Z) (n : nat) : Prop :=
  rs_common fl rs /\ rs_fh_remaining rs = 0 /\ (rs_last_frag rs =? 0) = negb last /\
  (length got <= n)%nat /\ Z.of_nat n < 2 ^ 31 /\
  rs_frag_remaining rs = Z.of_nat (n - length got) /\ rs_frag_bufsz rs = Z.of_nat n /\
  rs_frag_offset rs = Z.of_nat (length got) /\
  exists tl, rs_frag_buf_base rs = PTo (got ++ tl) /\ length tl = (n - length got)%nat.

Lemma FRAG_SIZE_header last n : Z.of_nat n < 2 ^ 31 -> FRAG_SIZE (frag_header last n) = Z.of_nat n.
Proof.
  intros Hn. unfold frag_header. destruct last; [by apply FRAG_SIZE_last; lia|].
  unfold FRAG_SIZE. change 0x7fffffff with (Z.ones 31). rewrite Z.land_ones by lia.
  apply Z.mod_small. lia.
Qed.

Lemma LAST_FRAG_header last n :
  Z.of_nat n < 2 ^ 31 -> (LAST_FRAG (frag_header last n) =? 0) = negb last.
Proof.
  intros Hn. unfold frag_header. destruct last; cbn [negb].
  - apply Z.eqb_neq. apply LAST_FRAG_last. lia.
  - apply Z.eqb_eq. apply Z.bits_inj'. intros i Hi. unfold LAST_FRAG. change 0x80000000 with (2 ^ 31).
    rewrite Z.land_spec, Z.bits_0, Z.pow2_bits_eqb by lia. destruct (Z.eqb_spec 31 i) as [<-|]; [|by rewrite andb_false_r].
    rewrite andb_true_r. apply (testbit_is_u_high 31); unfold is_u; lia.
Qed.

(** Nothing read, nothing done. *)
Lemma feed_nothing st st' out : Feed st [] st' out -> st = st' /\ out = [].
Proof.
  intros HF. remember (@nil Z) as bs eqn:Hbs. destruct HF as [|n rest st out| |].
  - done.
  - exfalso. apply (f_equal length) in Hbs. rewrite length_app, length_be in Hbs. cbn in Hbs. lia.
  - done.
  - by apply app_eq_nil in Hbs as [??].
Qed.

Section refinement.
Context {T : Type} `{GhtLaws T callback_info} (junk : Z).
Context (xdr_replymsg : list Z -> option (Z * list Z)).
Context (replymsg_word : forall m xid payload, xdr_replymsg m = Some (xid, payload) -> is_u 32 xid).

(** The table and the callbacks agree with the session, and [k] blocks are
    live besides one for each waiting call. *)
Definition sess (k : nat) (ct : ct_data T) (s : session) : Prop :=
  ght_ok (ct_xid_to_ucb ct) /\ ght_entries (ct_xid_to_ucb ct) = sn_calls s /\
  ct_called ct = sn_called s /\ mem_ample (ct_heap ct) /\
  h_live (ct_heap ct) = (k + length (sn_calls s))%nat.

Definition Rep (k : nat) (st : position) (ct : ct_data T) (s : session) : Prop :=
  match st with
  | None => rs_idle [] (ct_record_state ct) /\ sess k ct s
  | Some (got, n) =>
      rs_frag [] true (ct_record_state ct) got n /\ (length got < n)%nat /\ sess (S k) ct s
  end.

(** However the table is searched, the callback is the one registered for
    the transaction. *)
Lemma take_callback_ok t xid :
  ght_ok t -> is_u 32 xid ->
  ght_ok (fst (take_callback t xid)) /\
  ght_entries (fst (take_callback t xid)) = dict_without xid (ght_entries t) /\
  snd (take_callback t xid) = dict_find xid (ght_entries t).
Proof.
  intros Ht Hxid. pose proof (ght_nodup t Ht) as Hnd. unfold take_callback. rewrite ght_first_ok by done.
  destruct (ght_entries t) as [|[x v] d] eqn:Hd; cbn [head].
  { cbn. by rewrite Hd. }
  destruct (Z.eqb_spec x xid) as [->|Hx]; cbn [negb].
  - destruct (ght_remove_first_ok t Ht) as (H1 & H2 & H3). rewrite H2, H3, Hd. cbn.
    rewrite !decide_True by done. split_and!; try done.
    rewrite dict_without_notin; [done|]. by apply NoDup_cons in Hnd as [??].
  - destruct (ght_remove_ok t xid Ht Hxid) as (H1 & H2 & H3). by rewrite H2, H3, Hd.
Qed.

Lemma dict_without_length {V} k (d : dict Z V) v :
  NoDup d.*1 -> dict_find k d = Some v -> length d = S (length (dict_without k d)).
Proof.
  induction d as [|[k' w] d IH]; cbn; [done|]. intros [Hk Hd]%NoDup_cons Hf.
  case_decide; subst; [by rewrite dict_without_notin|]. cbn. by rewrite <- IH.
Qed.

(** A header in one piece opens the fragment. *)
Lemma header_step fl last k ct s n rest :
  rs_idle fl (ct_record_state ct) -> sess k ct s -> Z.of_nat n < 2 ^ 31 ->
  exists rs h,
    update_new_frag_state junk (ct_record_state ct) (ct_heap ct)
      (be 4 (frag_header last n) ++ rest) = Some (4, rs, h) /\
    rs_frag fl last rs [] n /\ sess (S k) (set_ct_heap (set_rs ct rs) h) s.
Proof.
  intros ((Hfl & Hrz & Hhdr) & Hfh & Hrem) (Ht & He & Hc & Hm & Hl) Hn.
  unfold update_new_frag_state. rewrite Hfh. cbn [RPC_RECORD_HEADER Z.eqb].
  rewrite length_app, length_be.
  rewrite (proj2 (Z.ltb_ge _ _)) by (unfold RPC_RECORD_HEADER; lia).
  change (Z.to_nat RPC_RECORD_HEADER) with 4%nat.
  rewrite take_app_length' by (by rewrite length_be).
  rewrite memcpy_all by (rewrite length_be; lia). cbn.
  rewrite unbe_be4_u by (unfold frag_header; destruct last; lia). unfold mem_alloc. rewrite Hm.
  rewrite FRAG_SIZE_header by lia. eexists _, _. split; [done|].
  unfold rs_frag, rs_common, sess, mem_ample. cbn. rewrite length_be, LAST_FRAG_header by done.
  split_and!; try done; try lia. eexists. split; [done|]. rewrite repeat_length. lia.
Qed.

(** Bytes of the fragment are copied where they belong. *)
Lemma copy_step fl last rs got n d rest buf consumed :
  rs_frag fl last rs got n -> d <> [] -> drop (Z.to_nat consumed) buf = d ++ rest -> 0 <= consumed ->
  (length got + length d = n \/ length got + length d < n /\ rest = [])%nat ->
  exists rs', copy_fragment rs buf consumed = Some (rs', consumed + Z.of_nat (length d)) /\
              rs_frag fl last rs' (got ++ d) n.
Proof.
  intros ((Hfl & Hrz & Hhdr) & Hfh & Hlast & Hgn & Hn & Hrem & Hsz & Hoff & tl & Hbase & Htl)
    Hne Hdrop Hc0 Hd.
  assert (Hdl : (0 < length d)%nat) by (destruct d; [done|cbn; lia]).
  pose proof (f_equal length Hdrop) as E. rewrite length_drop, length_app in E.
  unfold copy_fragment. rewrite Hrem. rewrite (proj2 (Z.ltb_lt _ _)) by lia.
  set (left := Z.of_nat (length buf) - consumed) in *.
  assert (Hleft : left = Z.of_nat (length d + length rest)) by lia.
  assert (Hcopy : (if left <? Z.of_nat (n - length got) then left
                   else Z.of_nat (n - length got)) = Z.of_nat (length d)).
  { destruct Hd as [?|[? ->]]; [|cbn in Hleft]; destruct (Z.ltb_spec left (Z.of_nat (n - length got))); lia. }
  rewrite Hcopy, Hbase, Hoff, !Nat2Z.id, Hdrop, take_app_length.
  rewrite <- (take_drop (length d) tl).
  assert (Htk : length (take (length d) tl) = length d) by (rewrite length_take; lia).
  rewrite memcpy_app by done. cbn. eexists. split; [done|].
  unfold rs_frag, rs_common. cbn. rewrite length_app. split_and!; try done; try lia.
  eexists. split; [by rewrite <- app_assoc|]. rewrite length_drop. lia.
Qed.

(** [free] on a heap with live blocks. *)
Lemma mem_free_live {A} (a : A) h n :
  h_live h = S n -> mem_free (PTo a) h = Some (mk_heap n (h_requests h) (h_ok h)).
Proof. intros E. unfold mem_free. by rewrite E. Qed.

(** [free] leaves the answers of the allocator. *)
Lemma mem_free_oracle {A} (p : ptr A) h h' : mem_free p h = Some h' -> h_ok h' = h_ok h.
Proof. unfold mem_free. destruct p, (h_live h); intros [= <-]; done. Qed.

(** The single fragment of a record is copied out whole. *)
Lemma collate_one rs msg h n :
  rs_frag_list rs = [mk_frag_buffer msg 0 (Z.of_nat (length msg))] ->
  rs_recordsize rs = Z.of_nat (length msg) -> mem_ample h -> h_live h = S n ->
  exists rs' h', collate_buf_list junk rs h = Some (PTo msg, rs', h') /\
    rs_frag_list rs' = [] /\ rs_recordsize rs' = rs_recordsize rs /\
    rs_fraghdr rs' = rs_fraghdr rs /\ h_live h' = S n /\ mem_ample h'.
Proof.
  intros Hfl Hrz Hm Hl. unfold collate_buf_list, mem_alloc. rewrite Hm, Hfl, Hrz. cbn.
  rewrite !Nat2Z.id, firstn_all.
  rewrite memcpy_all by (rewrite repeat_length; done). cbn.
  rewrite (mem_free_live _ _ (S n)) by (cbn; lia). cbn.
  eexists _, _. split; [done|]. cbn. by split_and!.
Qed.

(** A complete record is handed to the callback it belongs to. *)
Lemma complete_step k ct s msg n :
  rs_frag [] true (ct_record_state ct) msg n -> length msg = n -> sess k ct s ->
  exists ct', update_record_state junk xdr_replymsg ct = Some (ct', 1) /\
    Rep k None ct' (reply xdr_replymsg s msg).
Proof.
  intros ((Hfl & Hrz & Hhdr) & Hfh & Hlast & Hgn & Hn & Hrem & Hsz & Hoff & tl & Hbase & Htl)
    Hmsg (Ht & He & Hc & Hm & Hl).
  assert (tl = []) as -> by (apply length_zero_iff_nil; lia). rewrite app_nil_r in Hbase.
  unfold update_record_state. rewrite Hbase, Hfl. cbn [add_buffer_list].
  unfold mem_alloc at 1. rewrite Hm. cbn [app].
  set (rs1 := {| rs_frag_list := _ |}). set (h1 := mk_heap _ _ _).
  set (ct1 := set_ct_heap (set_rs ct rs1) h1).
  assert (Hl1 : h_live h1 = S (k + length (sn_calls s))) by (cbn; lia).
  destruct (collate_one rs1 msg h1 (k + length (sn_calls s)))
    as (rs2 & h2 & E2 & Hfl2 & Hrz2 & Hhdr2 & Hl2 & Hm2).
  { cbn. by rewrite Hsz, Hmsg. } { cbn. rewrite Hrz, Hsz, Hmsg. lia. } { done. } { done. }
  assert (Hidle : forall t dx h c, rs_idle [] (ct_record_state
    (set_rs (mk_ct_data (T:=T) rs2 t dx h c) (expect_new_rpc_record rs2)))).
  { intros. unfold rs_idle, rs_common. cbn. rewrite Hhdr2. cbn. by split_and!. }
  change (rs_last_frag rs1) with (rs_last_frag (ct_record_state ct)).
  rewrite Hlast. cbn [negb].
  unfold call_user_cb. change (ct_record_state ct1) with rs1. change (ct_heap ct1) with h1.
  rewrite E2. cbn [mbind option_bind]. unfold reply.
  destruct (xdr_replymsg msg) as [[xid payload]|] eqn:Hreply.
  2: { rewrite (mem_free_live _ _ _ Hl2). cbn. eexists. split; [done|]. split; [apply Hidle|].
       unfold sess. cbn. by split_and!. }
  change (ct_xid_to_ucb ct1) with (ct_xid_to_ucb ct).
  destruct (ct_xid_to_ucb ct) as [t0|]; [|done]. cbn [mbind option_bind].
  destruct (take_callback_ok t0 xid Ht (replymsg_word _ _ _ Hreply)) as (H1 & H2 & H3).
  change (ght_entries t0 = sn_calls s) in He. pose proof (ght_nodup t0 Ht) as Hnd.
  destruct (take_callback t0 xid) as [t cbi]. cbn in H1, H2, H3. subst cbi.
  rewrite He in H2, Hnd |- *. destruct (dict_find xid (sn_calls s)) as [cbi|] eqn:Hfind.
  - pose proof (dict_without_length _ _ _ Hnd Hfind) as Hlen.
    rewrite (mem_free_live _ _ _ Hl2). cbn [mbind option_bind].
    rewrite (mem_free_live _ _ (k + length (dict_without xid (sn_calls s)))) by (cbn; lia). cbn.
    eexists. split; [done|]. split; [apply Hidle|]. unfold sess. cbn.
    split_and!; try done. by rewrite Hc.
  - rewrite (mem_free_live _ _ _ Hl2). cbn. eexists. split; [done|]. split; [apply Hidle|].
    unfold sess. cbn. rewrite H2. split_and!; try done.
    apply dict_without_notin. rewrite dict_find_elem, Hfind. by intros [??].
Qed.

(** One iteration of the loop when a header is next. *)
Lemma body_header fl last k ct s n rest buf consumed c :
  rs_idle fl (ct_record_state ct) -> sess k ct s -> Z.of_nat n < 2 ^ 31 -> 0 <= consumed ->
  drop (Z.to_nat consumed) buf = be 4 (frag_header last n) ++ rest ->
  exists ct', update_frag_body junk xdr_replymsg ct buf consumed c = Some (ct', consumed + 4, c) /\
    rs_frag fl last (ct_record_state ct') [] n /\ sess (S k) ct' s.
Proof.
  intros Hidle Hs Hn Hc0 Hdrop. unfold update_frag_body, copy_fragment.
  destruct (header_step fl last k ct s n rest Hidle Hs Hn) as (rs & h & E & HR & HS).
  destruct Hidle as ((Hfl & Hrz & Hhdr) & Hfh & Hrem). rewrite Hrem. cbn [EXPECT_NEW_FRAG Z.ltb Z.compare].
  cbn [mbind option_bind]. rewrite Hrem, andb_false_r. cbn [mbind option_bind].
  assert (Hlt : (consumed <? Z.of_nat (length buf)) = true).
  { apply Z.ltb_lt. pose proof (f_equal length Hdrop) as E'.
    rewrite length_drop, length_app, length_be in E'. lia. }
  rewrite Hlt, Hdrop. change (ct_record_state (set_rs ct (ct_record_state ct))) with (ct_record_state ct).
  change (ct_heap (set_rs ct (ct_record_state ct))) with (ct_heap ct).
  rewrite E. cbn. by eexists.
Qed.

(** An iteration inside a fragment that the buffer does not complete. *)
Lemma body_part k ct s got n d buf consumed c :
  Rep k (Some (got, n)) ct s -> d <> [] -> (length got + length d < n)%nat -> 0 <= consumed ->
  drop (Z.to_nat consumed) buf = d ->
  exists ct', update_frag_body junk xdr_replymsg ct buf consumed c =
                Some (ct', Z.of_nat (length buf), c) /\ Rep k (Some (got ++ d, n)) ct' s.
Proof.
  intros (Hfr & Hgn & Hs) Hne Hlt Hc0 Hdrop.
  assert (Hlen : Z.of_nat (length buf) = consumed + Z.of_nat (length d)).
  { pose proof (f_equal length Hdrop) as E. rewrite length_drop in E.
    destruct d; [done|]. cbn in *. lia. }
  unfold update_frag_body.
  destruct (copy_step _ _ _ got n d [] buf consumed Hfr Hne) as (rs' & -> & Hfr'); [by rewrite app_nil_r|lia|by right|].
  cbn [mbind option_bind]. pose proof Hfr' as (_ & _ & _ & _ & _ & Hrem & _).
  rewrite length_app in Hrem. rewrite (proj2 (Z.eqb_neq (rs_frag_remaining rs') 0)) by lia.
  rewrite andb_false_r. cbn [mbind option_bind]. rewrite Hlen, Z.ltb_irrefl.
  eexists. split; [done|]. split_and!; [done|rewrite length_app; lia|done].
Qed.

(** An iteration that completes a fragment. *)
Lemma body_copy fl last ct got n d rest buf consumed c :
  rs_frag fl last (ct_record_state ct) got n -> d <> [] -> (length got + length d = n)%nat ->
  0 <= consumed -> drop (Z.to_nat consumed) buf = d ++ rest ->
  exists rs', rs_frag fl last rs' (got ++ d) n /\
    update_frag_body junk xdr_replymsg ct buf consumed c =
      '(ct2, c1) ← update_record_state junk xdr_replymsg (set_rs ct rs');
      if consumed + Z.of_nat (length d) <? Z.of_nat (length buf)
      then '(n, rs, h) ← update_new_frag_state junk (ct_record_state ct2) (ct_heap ct2)
                          (drop (Z.to_nat (consumed + Z.of_nat (length d))) buf);
           Some (set_ct_heap (set_rs ct2 rs) h, consumed + Z.of_nat (length d) + n, c + c1)
      else Some (ct2, consumed + Z.of_nat (length d), c + c1).
Proof.
  intros Hfr Hne Hfull Hc0 Hdrop. unfold update_frag_body.
  destruct (copy_step _ _ _ got n d rest buf consumed Hfr Hne Hdrop Hc0) as (rs' & -> & Hfr'); [by left|].
  exists rs'. split; [done|].
  cbn [mbind option_bind]. pose proof Hfr' as (_ & _ & _ & _ & _ & Hrem & Hsz & Hoff & _).
  rewrite length_app in Hrem, Hoff. rewrite Hsz, Hoff, Hrem.
  replace (Z.of_nat (n - (length got + length d))) with 0 by lia.
  rewrite Hfull, Z.eqb_refl. cbn [Z.eqb andb].
  by destruct (update_record_state junk xdr_replymsg (set_rs ct rs')) as [[ct2 c1]|].
Qed.

(** An iteration that completes the record; what follows in the buffer is the
    next header. *)
Lemma body_full k ct s got n d rest buf consumed c :
  Rep k (Some (got, n)) ct s -> d <> [] -> (length got + length d = n)%nat -> 0 <= consumed ->
  drop (Z.to_nat consumed) buf = d ++ rest ->
  exists ct2, Rep (S k) None ct2 (reply xdr_replymsg s (got ++ d)) /\
    update_frag_body junk xdr_replymsg ct buf consumed c =
      if consumed + Z.of_nat (length d) <? Z.of_nat (length buf)
      then '(n, rs, h) ← update_new_frag_state junk (ct_record_state ct2) (ct_heap ct2)
                          (drop (Z.to_nat (consumed + Z.of_nat (length d))) buf);
           Some (set_ct_heap (set_rs ct2 rs) h, consumed + Z.of_nat (length d) + n, c + 1)
      else Some (ct2, consumed + Z.of_nat (length d), c + 1).
Proof.
  intros (Hfr & Hgn & Hs) Hne Hfull Hc0 Hdrop.
  destruct (body_copy [] true ct got n d rest buf consumed c Hfr Hne Hfull Hc0 Hdrop) as (rs' & Hfr' & ->).
  destruct (complete_step (S k) (set_rs ct rs') s (got ++ d) n) as (ct2 & -> & Hct2);
    [done|by rewrite length_app|done|]. by exists ct2.
Qed.

(** The loop follows the standard, and the length of the buffer is fuel enough. *)
Lemma feed_loop fuel : forall ct buf consumed c st st' out s k,
  Feed st (drop (Z.to_nat consumed) buf) st' out -> Rep k st ct s ->
  0 <= consumed <= Z.of_nat (length buf) -> (length buf - Z.to_nat consumed <= fuel)%nat ->
  exists ct', update_frag_loop junk xdr_replymsg fuel ct buf consumed c =
                ROk (ct', c + Z.of_nat (length out)) /\
    Rep (k + length out) st' ct' (foldl (reply xdr_replymsg) s out).
Proof.
  induction fuel as [|fuel IH]; intros ct buf consumed c st st' out s k HF HR Hc Hfuel.
  all: destruct (Z.ltb_spec consumed (Z.of_nat (length buf))) as [Hlt|Hge]; [try lia|].
  all: try (rewrite drop_ge in HF by lia; apply feed_nothing in HF as [<- ->];
    exists ct; cbn [update_frag_loop]; rewrite (proj2 (Z.ltb_ge _ _)) by lia;
    cbn; rewrite Z.add_0_r, Nat.add_0_r; done).
  cbn [update_frag_loop]. rewrite (proj2 (Z.ltb_lt _ _)) by lia.
  remember (drop (Z.to_nat consumed) buf) as l eqn:Hl. symmetry in Hl.
  pose proof (f_equal length Hl) as Hlen. rewrite length_drop in Hlen.
  destruct HF as [st|n rest st out Hn Hn' HF|got n d Hne Hd|got n d rest st out Hne Hd HF].
  - cbn in Hlen. lia.
  - destruct HR as [Hidle Hs].
    destruct (body_header [] true k ct s n rest buf consumed c Hidle Hs Hn') as (ct1 & -> & Hf1 & Hs1);
      [lia|done|].
    rewrite length_app, length_be in Hlen.
    apply IH with (st := Some ([], n)); [|by split_and!|lia|lia].
    rewrite Z2Nat.inj_add by lia. rewrite <- drop_drop, Hl.
    by rewrite drop_app_length' by (by rewrite length_be).
  - destruct (body_part k ct s got n d buf consumed c HR Hne Hd) as (ct1 & -> & HR1); [lia|done|].
    apply IH with (st := Some (got ++ d, n)); [|done|lia|lia].
    rewrite drop_ge by lia. constructor.
  - rewrite length_app in Hlen.
    assert (Hdl : (0 < length d)%nat) by (destruct d; [done|cbn; lia]).
    destruct (body_full k ct s got n d rest buf consumed c HR Hne Hd) as (ct2 & HR2 & ->); [lia|done|].
    replace (k + length ((got ++ d) :: out))%nat with (S k + length out)%nat by (cbn; lia).
    replace (c + Z.of_nat (length ((got ++ d) :: out))) with (c + 1 + Z.of_nat (length out)) by (cbn; lia).
    assert (Hdrop : drop (Z.to_nat (consumed + Z.of_nat (length d))) buf = rest).
    { rewrite Z2Nat.inj_add, Nat2Z.id by lia. by rewrite <- drop_drop, Hl, drop_app_length. }
    rewrite Hdrop. cbn [foldl].
    destruct (Z.ltb_spec (consumed + Z.of_nat (length d)) (Z.of_nat (length buf))) as [Hmore|Hend].
    + destruct HR2 as [Hidle Hs2]. remember None as st0 eqn:Hst0.
      destruct HF as [|n' rest' st out Hn1 Hn2 HF'| |]; try done; [cbn in Hlen; lia|].
      destruct (header_step [] true (S k) ct2 _ n' rest' Hidle Hs2 Hn2) as (rs3 & h3 & -> & Hf3 & Hs3).
      cbn [mbind option_bind]. rewrite length_app, length_be in Hlen.
      apply IH with (st := Some ([], n')); [|by split_and!|lia|lia].
      rewrite Z2Nat.inj_add by lia. rewrite <- drop_drop, Hdrop.
      by rewrite drop_app_length' by (by rewrite length_be).
    + apply IH with (st := None); [|done|lia|lia]. by rewrite Hdrop.
Qed.
End refinement.

(** ** Streams and reads *)

(** Reading [a ++ b] is reading [a] and then [b]. *)
Lemma feed_trans st a st1 o1 b st2 o2 :
  Feed st a st1 o1 -> Feed st1 b st2 o2 -> Feed st (a ++ b) st2 (o1 ++ o2).
Proof.
  intros HF. revert b st2 o2. induction HF as [st|n rest st out Hn Hn' HF IH|got n d Hne Hd
    |got n d rest st out Hne Hd HF IH]; intros b st2 o2 Hb; [exact Hb| | |].
  - rewrite <- app_assoc. constructor; [done|done|]. by apply IH.
  - cbn. remember (Some (got ++ d, n)) as st0 eqn:Hst0. destruct Hb as [st0|? ? ? ? ? ? ?|got' n' d' Hne' Hd'
      |got' n' d' rest st out Hne' Hd' HF']; try done; [|injection Hst0 as -> ->..].
    + rewrite app_nil_r. subst st0. by constructor.
    + rewrite length_app in Hd'. rewrite <- app_assoc. constructor; [|rewrite length_app; lia].
      by intros [??]%app_eq_nil.
    + rewrite length_app in Hd'. rewrite <- !app_assoc, (app_assoc d).
      constructor; [|rewrite length_app; lia|done]. by intros [??]%app_eq_nil.
  - rewrite <- app_assoc. cbn. constructor; [done|done|by apply IH].
Qed.

(** The reader is deterministic. *)
Lemma be4_inj a b : 0 <= a < 2 ^ 32 -> 0 <= b < 2 ^ 32 -> be 4 a = be 4 b -> a = b.
Proof. intros Ha Hb E. apply (f_equal unbe) in E. by rewrite !unbe_be4_u in E. Qed.

Lemma feed_split st a st1 o1 b st2 o :
  Feed st a st1 o1 -> Feed st (a ++ b) st2 o -> exists o2, Feed st1 b st2 o2 /\ o = o1 ++ o2.
Proof.
  intros HF. revert b st2 o. induction HF as [st|n rest st out Hn Hn' HF IH|got n d Hne Hd
    |got n d rest st out Hne Hd HF IH]; intros b st2 o Hb; [by exists o| | |].
  - remember ((be 4 (frag_header true n) ++ rest) ++ b) as bs eqn:Hbs.
    remember None as st0 eqn:Hst0. rewrite <- app_assoc in Hbs.
    destruct Hb as [st0|n' rest' st0 out' Hn1 Hn2 HF'| |]; try done.
    apply app_inj_1 in Hbs as [Hh ->]; [|by rewrite !length_be].
    unfold frag_header in Hh. apply be4_inj in Hh; [|lia..].
    assert (n' = n) as -> by lia. by apply IH.
  - exists o. split; [|done]. remember (d ++ b) as bs eqn:Hbs.
    remember (Some (got, n)) as st0 eqn:Hst0.
    destruct Hb as [st0| |got' n' d' Hne' Hd'|got' n' d' rest st out Hne' Hd' HF']; try done.
    + symmetry in Hbs. by apply app_eq_nil in Hbs as [??].
    + injection Hst0 as -> ->. subst d'. rewrite length_app in Hd'. rewrite app_assoc.
      destruct b as [|x b]; [rewrite app_nil_r; constructor|].
      constructor; [done|rewrite length_app; lia].
    + injection Hst0 as -> ->.
      apply app_eq_app in Hbs as (l & [[-> ->]|[-> ->]]); rewrite length_app in *.
      * rewrite app_assoc. constructor; [|rewrite !length_app in *; lia|done].
        intros ->. cbn in *. lia.
      * lia.
  - remember ((d ++ rest) ++ b) as bs eqn:Hbs. rewrite <- app_assoc in Hbs.
    remember (Some (got, n)) as st0 eqn:Hst0.
    destruct Hb as [st0| |got' n' d' Hne' Hd'|got' n' d' rest' st0 out' Hne' Hd' HF']; try done.
    + symmetry in Hbs. by apply app_eq_nil in Hbs as [??].
    + injection Hst0 as -> ->. subst d'. rewrite !length_app in Hd'. lia.
    + injection Hst0 as -> ->. apply app_inj_1 in Hbs as [<- ->]; [|lia].
      destruct (IH _ _ _ HF') as (o2 & Ho2 & ->). by exists o2.
Qed.

(** A stream of records, each sent as one non-empty fragment. *)
Definition sendable (r : list Z) : Prop := r <> [] /\ Z.of_nat (length r) < 2 ^ 31.

Lemma feed_stream recs : Forall sendable recs -> Feed None (mjoin (mark <$> recs)) None recs.
Proof.
  induction 1 as [|r recs [Hne Hr] _ IH]; [constructor|]. cbn. unfold mark at 1, fragment.
  rewrite <- app_assoc. constructor; [destruct r; [done|cbn; lia]|done|].
  replace (r :: recs) with (([] ++ r) :: recs) by done. by constructor.
Qed.

Section reception_theorems.
Context {T : Type} `{GhtLaws T callback_info} (junk : Z).
Context (xdr_replymsg : list Z -> option (Z * list Z)).
Context (replymsg_word : forall m xid payload, xdr_replymsg m = Some (xid, payload) -> is_u 32 xid).

(** One [update_frag_state] per [read]. *)
Fixpoint receive (ct : ct_data T) (reads : list (list Z)) : rres (ct_data T) :=
  match reads with
  | [] => ROk ct
  | buf :: reads =>
      match update_frag_state junk xdr_replymsg ct buf with
      | ROk (ct, _) => receive ct reads
      | RUB => RUB
      | RFuel => RFuel
      end
  end.

Lemma update_frag_state_feed k st st' buf out ct s :
  Feed st buf st' out -> Rep k st ct s ->
  exists ct', update_frag_state junk xdr_replymsg ct buf = ROk (ct', Z.of_nat (length out)) /\
    Rep (k + length out) st' ct' (foldl (reply xdr_replymsg) s out).
Proof.
  intros HF HR. apply (feed_loop junk xdr_replymsg replymsg_word (length buf) ct buf 0 0 st); try done; lia.
Qed.

(** [C3] The reader implements the record marking standard on single-fragment
    records: whatever a read returns, as long as it does not end inside a
    header, [update_frag_state] goes where the standard goes, hands every
    completed record, in order, to the callback of the call it answers, and
    returns how many it completed.  [Rep] counts the live blocks: one block is
    left behind per record. *)
Theorem update_frag_state_refines k st st' buf out ct s :
  Feed st buf st' out -> Rep k st ct s ->
  exists ct', update_frag_state junk xdr_replymsg ct buf = ROk (ct', Z.of_nat (length out)) /\
    Rep (k + length out) st' ct' (foldl (reply xdr_replymsg) s out).
Proof. apply update_frag_state_feed. Qed.

(** Reads one after the other. *)
Lemma receive_feed reads : forall st st' recs k ct s,
  Feed st (mjoin reads) st' recs ->
  (forall i, exists st1 o, Feed st (mjoin (take i reads)) st1 o) ->
  Rep k st ct s ->
  exists ct', receive ct reads = ROk ct' /\
    Rep (k + length recs) st' ct' (foldl (reply xdr_replymsg) s recs).
Proof.
  induction reads as [|buf reads IH]; intros st st' recs k ct s HF Hcuts HR.
  - apply feed_nothing in HF as [-> ->]. exists ct. cbn. by rewrite Nat.add_0_r.
  - cbn in HF. destruct (Hcuts 1%nat) as (st1 & o1 & H1). cbn in H1. rewrite take_0, app_nil_r in H1.
    destruct (feed_split _ _ _ _ _ _ _ H1 HF) as (o2 & H2 & ->).
    destruct (update_frag_state_feed k st st1 buf o1 ct s H1 HR) as (ct1 & E1 & HR1).
    destruct (IH st1 st' o2 (k + length o1)%nat ct1 (foldl (reply xdr_replymsg) s o1) H2) as (ct2 & E2 & HR2); [|done|].
    { intros i. destruct (Hcuts (S i)) as (st2 & o & Hi). cbn in Hi.
      destruct (feed_split _ _ _ _ _ _ _ H1 Hi) as (o' & Ho' & _). by exists st2, o'. }
    exists ct2. cbn. rewrite E1, E2, foldl_app, length_app. split; [done|].
    by rewrite Nat.add_assoc.
Qed.

(** [C17] However the stream is cut into reads, if no read ends inside a header,
    the replies are delivered as if the stream had come in one piece. *)
Theorem receive_any_reads recs reads k ct s :
  Forall sendable recs -> mjoin reads = mjoin (mark <$> recs) ->
  (forall i, exists st o, Feed None (mjoin (take i reads)) st o) ->
  Rep k None ct s ->
  exists ct', receive ct reads = ROk ct' /\
    Rep (k + length recs) None ct' (foldl (reply xdr_replymsg) s recs).
Proof.
  intros Hrecs Hjoin. apply receive_feed. rewrite Hjoin. by apply feed_stream.
Qed.
End reception_theorems.

(** ** Every call is answered *)

(** What a reply to a waiting call makes happen. *)
Definition invocation_of (calls : dict Z callback_info) (r : Z * list Z) : option invocation :=
  cbi ← dict_find r.1 calls;
  f ← callback cbi;
  Some (mk_invocation f (cb_private cbi) r.2).

Lemma dict_without_perm {V} x (d : dict Z V) l :
  NoDup d.*1 -> x :: l ≡ₚ d.*1 -> l ≡ₚ (dict_without x d).*1.
Proof.
  intros Hd Hp. assert (Hxl : NoDup (x :: l)) by (by rewrite Hp).
  apply NoDup_cons in Hxl as [Hx Hl].
  apply NoDup_Permutation; [done|by apply dict_without_nodup|]. intros y.
  rewrite dict_without_elem, <- Hp, elem_of_cons. split; [|tauto].
  intros Hy. split; [by intros ->|by right].
Qed.

Lemma invocation_of_without x calls rs :
  x ∉ rs.*1 -> omap (invocation_of (dict_without x calls)) rs = omap (invocation_of calls) rs.
Proof.
  induction rs as [|r rs IH]; [done|]. cbn. rewrite elem_of_cons. intros Hx.
  rewrite IH by tauto. unfold invocation_of at 1 3. rewrite dict_find_without.
  rewrite decide_False by (intros E; apply Hx; left; done). done.
Qed.

(** Replies to all the waiting calls, in any order. *)
Lemma foldl_reply_all xdr_replymsg msgs rs : forall s,
  Forall2 (fun m r => xdr_replymsg m = Some r) msgs rs ->
  NoDup (sn_calls s).*1 -> rs.*1 ≡ₚ (sn_calls s).*1 ->
  foldl (reply xdr_replymsg) s msgs =
    mk_session [] (sn_called s ++ omap (invocation_of (sn_calls s)) rs).
Proof.
  intros s HF. revert s. induction HF as [|m [x payload] msgs rs Hm HF IH]; intros [calls called] Hd Hp.
  - cbn in *. apply Permutation_nil_l in Hp. destruct calls; [|done]. by rewrite app_nil_r.
  - cbn in Hp, Hd |- *. unfold reply at 2. rewrite Hm. cbn.
    assert (Hx : is_Some (dict_find x calls)).
    { apply dict_find_elem. rewrite <- Hp. by left. }
    destruct Hx as [cbi Hx]. rewrite Hx. cbn.
    assert (Hnd : NoDup (x :: rs.*1)) by (by rewrite Hp). apply NoDup_cons in Hnd as [Hxr _].
    rewrite IH; cbn; [|by apply dict_without_nodup|by apply dict_without_perm].
    rewrite invocation_of_without by done.
    destruct (callback cbi); cbn; [|done]. by rewrite <- app_assoc.
Qed.

Section answered.
Context {T : Type} `{GhtLaws T callback_info} (junk : Z).
Context (xdr_replymsg : list Z -> option (Z * list Z)).
Context (replymsg_word : forall m xid payload, xdr_replymsg m = Some (xid, payload) -> is_u 32 xid).

(** Transaction matching: when the stream carries one reply for each
    waiting call, in whatever order the server answered, the table ends up
    empty and each callback has been called exactly once, with its own private
    pointer and its own reply, in the order of the replies. *)
Theorem all_calls_answered recs rs reads k ct s :
  Forall sendable recs -> mjoin reads = mjoin (mark <$> recs) ->
  (forall i, exists st o, Feed None (mjoin (take i reads)) st o) ->
  Forall2 (fun m r => xdr_replymsg m = Some r) recs rs ->
  rs.*1 ≡ₚ (sn_calls s).*1 ->
  Rep k None ct s ->
  exists ct', receive junk xdr_replymsg ct reads = ROk ct' /\
    ght_entries (ct_xid_to_ucb ct') = [] /\
    ct_called ct' = ct_called ct ++ omap (invocation_of (sn_calls s)) rs.
Proof.
  intros Hrecs Hjoin Hcuts Hdec Hperm HR.
  destruct (receive_feed junk xdr_replymsg replymsg_word reads None None recs k ct s) as (ct' & E & [_ Hs']); try done.
  { rewrite Hjoin. by apply feed_stream. }
  destruct HR as (_ & Ht & He & Hc & _).
  assert (Hnd : NoDup (sn_calls s).*1) by (rewrite <- He; by apply ght_nodup).
  rewrite (foldl_reply_all _ _ rs) in Hs' by done. destruct Hs' as (_ & He' & Hc' & _).
  exists ct'. by rewrite He', Hc', Hc.
Qed.
End answered.

(** ** Where the reader departs from the standard *)

Section departures.
Context {T : Type} `{GhtLaws T callback_info} (junk : Z).
Context (xdr_replymsg : list Z -> option (Z * list Z)).

(** A complete fragment that is not the last of its record is queued; the size
    of the record is forgotten with it. *)
Lemma complete_nonlast k ct s d :
  rs_frag [] false (ct_record_state ct) d (length d) -> sess k ct s ->
  exists ct', update_record_state junk xdr_replymsg ct = Some (ct', 0) /\
    rs_idle [mk_frag_buffer d 0 (Z.of_nat (length d))] (ct_record_state ct') /\ sess (S k) ct' s.
Proof.
  intros ((Hfl & Hrz & Hhdr) & Hfh & Hlast & _ & _ & Hrem & Hsz & Hoff & tl & Hbase & Htl)
    (Ht & He & Hc & Hm & Hl).
  assert (tl = []) as -> by (apply length_zero_iff_nil; lia). rewrite app_nil_r in Hbase.
  unfold update_record_state. rewrite Hbase, Hfl, Hsz. cbn [add_buffer_list].
  unfold mem_alloc. rewrite Hm. cbn. rewrite Hlast. cbn.
  eexists. split; [done|]. unfold rs_idle, rs_common, sess. cbn. split_and!; try done. lia.
Qed.

(** The block of a record is as large as its last fragment. *)
Lemma complete_overflow k ct s d1 d2 :
  d1 <> [] ->
  rs_frag [mk_frag_buffer d1 0 (Z.of_nat (length d1))] true (ct_record_state ct) d2 (length d2) ->
  sess (S k) ct s -> update_record_state junk xdr_replymsg ct = None.
Proof.
  intros Hne ((Hfl & Hrz & Hhdr) & Hfh & Hlast & _ & _ & Hrem & Hsz & Hoff & tl & Hbase & Htl)
    (Ht & He & Hc & Hm & Hl).
  assert (tl = []) as -> by (apply length_zero_iff_nil; lia). rewrite app_nil_r in Hbase.
  unfold update_record_state. rewrite Hbase, Hfl, Hsz, Hrz. cbn [add_buffer_list].
  unfold mem_alloc. rewrite Hm. cbn. rewrite Hlast. cbn.
  unfold call_user_cb, collate_buf_list, mem_alloc. cbn. rewrite Hm. cbn.
  rewrite Z.add_0_l, !Nat2Z.id, !firstn_all.
  destruct (memcpy (repeat junk (length d2)) 0 d1) as [m|] eqn:E1; cbn; [|done].
  pose proof (memcpy_length _ _ _ _ E1) as Hlm. rewrite repeat_length in Hlm.
  rewrite (mem_free_live _ _ (S (k + length (sn_calls s)) + 1)) by (cbn; lia). cbn.
  unfold memcpy. rewrite decide_False; [done|].
  destruct d1; [done|]. cbn. lia.
Qed.

(** [C40] Records of several fragments: [update_record_state] resets the size of
    the record after every fragment, so the buffer for a two-fragment record
    has the size of its second fragment, and copying the first one in front of
    it overruns the buffer. *)
Theorem multi_fragment_overflow k ct s d1 d2 rest :
  Rep k None ct s -> d1 <> [] -> d2 <> [] ->
  Z.of_nat (length d1) < 2 ^ 31 -> Z.of_nat (length d2) < 2 ^ 31 ->
  update_frag_state junk xdr_replymsg ct (fragment false d1 ++ fragment true d2 ++ rest) = RUB.
Proof.
  intros [Hidle Hs] Hne1 Hne2 Hn1 Hn2. unfold update_frag_state.
  set (buf := fragment false d1 ++ fragment true d2 ++ rest).
  assert (Hlen : length buf = (8 + length d1 + length d2 + length rest)%nat).
  { unfold buf, fragment. rewrite !length_app, !length_be. lia. }
  assert (Hd0 : drop (Z.to_nat 0) buf = be 4 (frag_header false (length d1)) ++ (d1 ++ fragment true d2 ++ rest)).
  { unfold buf, fragment at 1. cbn. by rewrite <- app_assoc. }
  destruct (body_header junk xdr_replymsg [] false k ct s (length d1) _ buf 0 0 Hidle Hs Hn1 (Z.le_refl 0) Hd0)
    as (ct1 & E1 & Hf1 & Hs1).
  assert (Hd4 : drop (Z.to_nat (0 + 4)) buf = d1 ++ fragment true d2 ++ rest).
  { rewrite Z2Nat.inj_add by lia. rewrite <- drop_drop, Hd0.
    by rewrite drop_app_length' by (by rewrite length_be). }
  assert (H1 : (0 < length d1)%nat) by (destruct d1; [done|cbn; lia]).
  destruct (body_copy junk xdr_replymsg [] false ct1 [] (length d1) d1 (fragment true d2 ++ rest) buf (0 + 4) 0
    Hf1 Hne1 eq_refl) as (rs2 & Hf2 & E2); [lia|done|].
  destruct (complete_nonlast (S k) (set_rs ct1 rs2) s d1 Hf2 Hs1) as (ct2 & E3 & Hidle2 & Hs2).
  rewrite E3 in E2. cbn [mbind option_bind] in E2.
  assert (Hd5 : drop (Z.to_nat (0 + 4 + Z.of_nat (length d1))) buf =
                be 4 (frag_header true (length d2)) ++ (d2 ++ rest)).
  { rewrite Z2Nat.inj_add, Nat2Z.id by lia. rewrite <- drop_drop, Hd4, drop_app_length.
    unfold fragment. by rewrite <- app_assoc. }
  rewrite Hd5 in E2. rewrite (proj2 (Z.ltb_lt _ _)) in E2 by lia.
  destruct (header_step junk [mk_frag_buffer d1 0 (Z.of_nat (length d1))] true (S (S k)) ct2 s (length d2)
    (d2 ++ rest) Hidle2 Hs2 Hn2) as (rs3 & h3 & E4 & Hf3 & Hs3).
  rewrite E4 in E2. cbn [mbind option_bind] in E2.
  set (ct3 := set_ct_heap (set_rs ct2 rs3) h3) in *.
  destruct (body_copy junk xdr_replymsg [mk_frag_buffer d1 0 (Z.of_nat (length d1))] true ct3 [] (length d2) d2 rest buf
    (0 + 4 + Z.of_nat (length d1) + 4) (0 + 0) Hf3 Hne2 eq_refl) as (rs4 & Hf4 & E5); [lia| |].
  { rewrite Z2Nat.inj_add by lia. rewrite <- drop_drop, Hd5.
    by rewrite drop_app_length' by (by rewrite length_be). }
  rewrite (complete_overflow (S (S k)) (set_rs ct3 rs4) s d1 d2 Hne1 Hf4 Hs3) in E5. cbn in E5.
  assert (H2 : (0 < length d2)%nat) by (destruct d2; [done|cbn; lia]).
  destruct (length buf) as [|[|[|fuel]]] eqn:Hfuel; [lia..|].
  cbn [update_frag_loop]. rewrite Hfuel.
  rewrite (proj2 (Z.ltb_lt 0 _)), E1 by lia.
  rewrite (proj2 (Z.ltb_lt (0 + 4) _)), E2 by lia.
  rewrite (proj2 (Z.ltb_lt (0 + 4 + Z.of_nat (length d1) + 4) _)), E5 by lia. done.
Qed.

(** Split headers: each part of a header is stored at the start of
    [rs_fraghdr], so a header that arrives as [a] and then [b] is read as
    [b] followed by the tail of what was there before. *)
Theorem split_header_misread rs h a b rest :
  rs_fh_remaining rs = RPC_RECORD_HEADER -> length (rs_fraghdr rs) = 4%nat ->
  a <> [] -> b <> [] -> (length a + length b = 4)%nat ->
  exists rs1 rs2 h2,
    update_new_frag_state junk rs h a = Some (Z.of_nat (length a), rs1, h) /\
    update_new_frag_state junk rs1 h (b ++ rest) =
      Some (if fst (mem_alloc h) then Z.of_nat (length b) else 0, rs2, h2) /\
    rs_fraghdr rs2 = b ++ drop (length b) (a ++ drop (length a) (rs_fraghdr rs)) /\
    rs_frag_bufsz rs2 = FRAG_SIZE (unbe (rs_fraghdr rs2)) /\
    rs_last_frag rs2 = LAST_FRAG (unbe (rs_fraghdr rs2)).
Proof.
  intros Hfh Hhdr Hna Hnb Hab.
  assert (0 < length a)%nat by (destruct a; [done|cbn; lia]).
  assert (0 < length b)%nat by (destruct b; [done|cbn; lia]).
  unfold update_new_frag_state at 1. rewrite Hfh. unfold RPC_RECORD_HEADER. cbn [Z.eqb].
  rewrite (proj2 (Z.ltb_lt (Z.of_nat (length a)) 4)) by lia. rewrite Nat2Z.id, firstn_all.
  unfold memcpy at 1. rewrite decide_True by lia. cbn [mbind option_bind take app].
  rewrite (proj2 (Z.eqb_neq (4 - Z.of_nat (length a)) 0)) by lia. cbn [negb].
  destruct (mem_alloc h) as [ok h2] eqn:Hmem.
  eexists _, _, _. split; [done|]. unfold update_new_frag_state.
  cbn [rs_fh_remaining rs_fraghdr rs_frag_list rs_recordsize rs_frag_remaining rs_frag_buf_base
       rs_frag_bufsz rs_frag_offset rs_last_frag].
  rewrite (proj2 (Z.eqb_neq (4 - Z.of_nat (length a)) 0)) by lia.
  rewrite length_app, (proj2 (Z.ltb_ge _ _)) by lia.
  replace (4 - Z.of_nat (length a)) with (Z.of_nat (length b)) by lia.
  rewrite Nat2Z.id, take_app_length, Z.sub_diag. unfold memcpy. rewrite !length_app, length_drop.
  rewrite decide_True by lia. cbn [mbind option_bind take app Z.eqb negb].
  rewrite Hmem. by split_and!.
Qed.
End departures.

(** ** Any bytes at all *)

(** What the reader makes of any bytes, one at a time: it takes the first
    [missing] bytes of a buffer for the start of a header that ends in [kept],
    or is in a fragment of [size] bytes of which [togo] are to come. *)
Inductive scan_state :=
| SHeader (got : list Z) (missing : nat) (kept : list Z)
| SFragment (togo size : Z) (last : bool).

(** A fragment is complete when its last byte has come (an empty one when the
    next byte comes).  [earlier] is the number of bytes in the earlier fragments
    of the record; a last fragment completes the record, and that overruns the
    block for the record ([None]) if there are any. *)
Definition scan_complete (earlier size : Z) (last : bool) (next : Z -> option Z) : option Z :=
  if last then if 0 <? earlier then None else n ← next 0; Some (n + 1) else next (earlier + size).

(** The number of records completed. *)
Fixpoint scan_bytes (st : scan_state) (earlier : Z) (buf : list Z) : option Z :=
  match buf with
  | [] => Some 0
  | b :: buf =>
      match st with
      | SHeader got missing kept =>
          let got := got ++ [b] in
          if decide (length got = missing) then
            let hdr := unbe (got ++ kept) in
            scan_bytes (SFragment (FRAG_SIZE hdr) (FRAG_SIZE hdr) (negb (LAST_FRAG hdr =? 0))) earlier buf
          else scan_bytes (SHeader got missing kept) earlier buf
      | SFragment togo size last =>
          if togo =? 0 then scan_complete earlier size last (fun e => scan_bytes (SHeader [b] 4 []) e buf)
          else if togo =? 1 then scan_complete earlier size last (fun e => scan_bytes (SHeader [] 4 []) e buf)
          else scan_bytes (SFragment (togo - 1) size last) earlier buf
      end
  end.

Lemma scan_header d : forall got missing kept e r,
  d <> [] -> (length got + length d = missing)%nat ->
  scan_bytes (SHeader got missing kept) e (d ++ r) =
    let hdr := unbe (got ++ d ++ kept) in
    scan_bytes (SFragment (FRAG_SIZE hdr) (FRAG_SIZE hdr) (negb (LAST_FRAG hdr =? 0))) e r.
Proof.
  induction d as [|b d IH]; intros got missing kept e r Hne Hl; [done|]. cbn [app scan_bytes]. cbn in Hl.
  destruct d as [|b' d].
  - rewrite decide_True by (rewrite length_app; cbn in *; lia). by rewrite <- app_assoc.
  - rewrite decide_False by (rewrite length_app; cbn in *; lia).
    rewrite IH; [by rewrite <- app_assoc|done|]. rewrite length_app. cbn in *. lia.
Qed.

Lemma scan_header_part r : forall got missing kept e,
  (length got + length r < missing)%nat -> scan_bytes (SHeader got missing kept) e r = Some 0.
Proof.
  induction r as [|b r IH]; intros got missing kept e Hl; [done|]. cbn [scan_bytes]. cbn in Hl.
  rewrite decide_False by (rewrite length_app; cbn; lia). apply IH. rewrite length_app. cbn. lia.
Qed.

Lemma scan_fragment d : forall e size last r,
  d <> [] -> scan_bytes (SFragment (Z.of_nat (length d)) size last) e (d ++ r) =
    scan_complete e size last (fun e => scan_bytes (SHeader [] 4 []) e r).
Proof.
  induction d as [|b d IH]; intros e size last r Hne; [done|]. cbn [app scan_bytes length].
  destruct d as [|b' d]; [done|].
  rewrite (proj2 (Z.eqb_neq _ 0)), (proj2 (Z.eqb_neq _ 1)) by (cbn; lia).
  replace (Z.of_nat (S (length (b' :: d))) - 1) with (Z.of_nat (length (b' :: d))) by (cbn; lia).
  by rewrite <- (IH e size last r).
Qed.

Lemma scan_fragment_part r : forall togo e size last,
  Z.of_nat (length r) < togo -> scan_bytes (SFragment togo size last) e r = Some 0.
Proof.
  induction r as [|b r IH]; intros togo e size last Hl; [done|]. cbn [scan_bytes]. cbn in Hl.
  rewrite (proj2 (Z.eqb_neq _ 0)), (proj2 (Z.eqb_neq _ 1)) by lia. apply IH. lia.
Qed.

Lemma scan_fragment_empty e size last r :
  r <> [] -> scan_bytes (SFragment 0 size last) e r = scan_complete e size last (fun e => scan_bytes (SHeader [] 4 []) e r).
Proof. destruct r; [done|]. intros _. done. Qed.

Section any_bytes.
Context {T : Type} `{GhtLaws T callback_info} (junk : Z).
Context (xdr_replymsg : list Z -> option (Z * list Z)).
Context (replymsg_word : forall m xid payload, xdr_replymsg m = Some (xid, payload) -> is_u 32 xid).

(** The states of the reader: part of a header is missing, or a fragment is
    being filled. *)
Definition rs_inv (rs : rpc_record_state) : Prop :=
  length (rs_fraghdr rs) = 4%nat /\
  ((1 <= rs_fh_remaining rs <= 4 /\ rs_frag_remaining rs = EXPECT_NEW_FRAG) \/
   (rs_fh_remaining rs = 0 /\ 0 <= rs_frag_remaining rs /\ 0 <= rs_frag_offset rs /\
    rs_frag_offset rs + rs_frag_remaining rs = rs_frag_bufsz rs /\
    exists m, rs_frag_buf_base rs = PTo m /\ Z.of_nat (length m) = rs_frag_bufsz rs)).

(** The earlier fragments of a record are as long as they say. *)
Definition earlier_inv (rs : rpc_record_state) : Prop :=
  rs_recordsize rs = 0 /\ Forall (fun fb => fb_len fb = Z.of_nat (length (fb_base fb))) (rs_frag_list rs).
Definition earlier (fl : list frag_buffer) : Z := foldr (fun fb n => fb_len fb + n) 0 fl.

(** The reader, its memory, and the callbacks it may free. *)
Record ct_inv (ct : ct_data T) : Prop := {
  ci_rs : rs_inv (ct_record_state ct);
  ci_earlier : earlier_inv (ct_record_state ct);
  ci_ample : mem_ample (ct_heap ct);
  ci_table : ght_ok (ct_xid_to_ucb ct);
  ci_live : (length (rs_frag_list (ct_record_state ct)) + length (ght_entries (ct_xid_to_ucb ct)) <= h_live (ct_heap ct))%nat
}.

Definition view (rs : rpc_record_state) : scan_state :=
  if rs_fh_remaining rs =? 0 then SFragment (rs_frag_remaining rs) (rs_frag_bufsz rs) (negb (rs_last_frag rs =? 0))
  else SHeader [] (Z.to_nat (rs_fh_remaining rs)) (drop (Z.to_nat (rs_fh_remaining rs)) (rs_fraghdr rs)).

(** What the reader makes of the bytes that come next. *)
Definition scan_next (ct : ct_data T) (buf : list Z) : option Z :=
  scan_bytes (view (ct_record_state ct)) (earlier (rs_frag_list (ct_record_state ct))) buf.

Lemma earlier_app fl fl' : earlier (fl ++ fl') = earlier fl + earlier fl'.
Proof.
  induction fl as [|fb fl IH]; [done|].
  change (fb_len fb + earlier (fl ++ fl') = fb_len fb + earlier fl + earlier fl'). lia.
Qed.

Lemma earlier_nonneg fl : Forall (fun fb => fb_len fb = Z.of_nat (length (fb_base fb))) fl -> 0 <= earlier fl.
Proof. induction 1 as [|fb fl Hfb _ IH]; [done|]. change (0 <= fb_len fb + earlier fl). lia. Qed.

(** The fragments are copied if they fit the block. *)
Lemma collate_loop_ok fl : forall msg curr h,
  Forall (fun fb => fb_len fb = Z.of_nat (length (fb_base fb))) fl -> (length fl <= h_live h)%nat ->
  (curr <= length msg)%nat ->
  if decide (Z.of_nat curr + earlier fl <= Z.of_nat (length msg))
  then exists msg', collate_loop fl msg curr h = Some (msg', mk_heap (h_live h - length fl) (h_requests h) (h_ok h))
  else collate_loop fl msg curr h = None.
Proof.
  induction fl as [|fb fl IH]; intros msg curr h Hfl Hl Hc; cbn [earlier foldr collate_loop].
  { rewrite decide_True by lia. exists msg. rewrite Nat.sub_0_r. by destruct h. }
  apply Forall_cons in Hfl as [Hfb Hfl]. pose proof (earlier_nonneg fl Hfl) as He. fold (earlier fl).
  rewrite Hfb, Nat2Z.id, firstn_all. cbn in Hl. destruct (h_live h) as [|n] eqn:Eh; [lia|].
  unfold memcpy. destruct (decide (curr + length (fb_base fb) <= length msg)%nat) as [Hle|Hgt]; cbn [mbind option_bind].
  - rewrite (mem_free_live _ _ _ Eh). cbn [mbind option_bind]. set (msg1 := take _ _ ++ _).
    assert (Hm1 : length msg1 = length msg).
    { unfold msg1. rewrite !length_app, length_take, length_drop. lia. }
    specialize (IH msg1 (curr + length (fb_base fb))%nat (mk_heap n (h_requests h) (h_ok h)) Hfl).
    cbn [h_live h_requests h_ok] in IH. rewrite Hm1 in IH.
    destruct (decide (_ <= _)) as [H1|H1] in IH; [rewrite decide_True by lia|rewrite decide_False by lia]; apply IH; lia.
  - rewrite decide_False by lia. done.
Qed.

(** The callback of a call, if there is one, has its block. *)
Lemma take_callback_live t xid :
  ght_ok t -> is_u 32 xid ->
  (length (ght_entries (take_callback t xid).1) +
     (match (take_callback t xid).2 with Some _ => 1 | None => 0 end) <= length (ght_entries t))%nat.
Proof.
  intros Ht Hx. destruct (take_callback_ok t xid Ht Hx) as (_ & -> & ->).
  destruct (dict_find xid (ght_entries t)) as [cbi|] eqn:E.
  - pose proof (dict_without_length _ _ _ (ght_nodup _ Ht) E). lia.
  - rewrite dict_without_notin; [lia|]. rewrite dict_find_elem, E. by intros [??].
Qed.

(** A record is handed over: nothing is in front of its last fragment. *)
Lemma call_user_cb_inv ct :
  earlier (rs_frag_list (ct_record_state ct)) <= rs_recordsize (ct_record_state ct) ->
  Forall (fun fb => fb_len fb = Z.of_nat (length (fb_base fb))) (rs_frag_list (ct_record_state ct)) ->
  mem_ample (ct_heap ct) -> ght_ok (ct_xid_to_ucb ct) ->
  (length (rs_frag_list (ct_record_state ct)) + length (ght_entries (ct_xid_to_ucb ct)) <= h_live (ct_heap ct))%nat ->
  exists ct', call_user_cb junk xdr_replymsg ct = Some ct' /\
    rs_fraghdr (ct_record_state ct') = rs_fraghdr (ct_record_state ct) /\
    rs_frag_list (ct_record_state ct') = [] /\ mem_ample (ct_heap ct') /\ ght_ok (ct_xid_to_ucb ct') /\
    (length (ght_entries (ct_xid_to_ucb ct')) <= h_live (ct_heap ct'))%nat.
Proof.
  intros Hsz Hfl Hm Ht Hl. unfold call_user_cb, collate_buf_list, mem_alloc. rewrite Hm. cbn [negb].
  set (h1 := mk_heap _ _ _). set (blk := repeat junk _).
  pose proof (earlier_nonneg _ Hfl) as He.
  pose proof (collate_loop_ok (rs_frag_list (ct_record_state ct)) blk 0 h1 Hfl) as Hloop.
  cbn [h1 h_live h_requests h_ok] in Hloop.
  rewrite decide_True in Hloop by (unfold blk; rewrite repeat_length; lia).
  destruct Hloop as [msg ->]; [lia|lia|]. cbn [mbind option_bind].
  set (live := (S (h_live (ct_heap ct)) - _)%nat).
  destruct (ct_xid_to_ucb ct) as [t|] eqn:Et; [|done]. change (ght_ok t) in Ht.
  change (ght_entries (Some t)) with (ght_entries t) in Hl.
  destruct live as [|n] eqn:Elive; [unfold live in Elive; lia|].
  destruct (xdr_replymsg msg) as [[xid payload]|] eqn:Er.
  2: { rewrite (mem_free_live _ _ n) by done. cbn [mbind option_bind]. eexists. split; [done|].
       cbn. split_and!; try done. unfold live in Elive. lia. }
  pose proof (take_callback_live t xid Ht (replymsg_word _ _ _ Er)) as Hlen.
  destruct (take_callback_ok t xid Ht (replymsg_word _ _ _ Er)) as (Ht' & _).
  cbn [mbind option_bind]. destruct (take_callback t xid) as [t' [cbi|]]; cbn [fst snd] in Hlen, Ht'.
  - destruct n as [|n]; [unfold live in Elive; lia|].
    rewrite (mem_free_live _ _ (S n)) by done. cbn [mbind option_bind].
    rewrite (mem_free_live _ _ n) by done. cbn [mbind option_bind]. eexists. split; [done|].
    cbn. split_and!; try done. unfold live in Elive. lia.
  - rewrite (mem_free_live _ _ n) by done. cbn [mbind option_bind]. eexists. split; [done|].
    cbn. split_and!; try done. unfold live in Elive. lia.
Qed.

(** A record is handed over although its block is too small. *)
Lemma call_user_cb_overrun ct :
  rs_recordsize (ct_record_state ct) < earlier (rs_frag_list (ct_record_state ct)) -> 0 <= rs_recordsize (ct_record_state ct) ->
  Forall (fun fb => fb_len fb = Z.of_nat (length (fb_base fb))) (rs_frag_list (ct_record_state ct)) ->
  mem_ample (ct_heap ct) -> (length (rs_frag_list (ct_record_state ct)) <= h_live (ct_heap ct))%nat ->
  call_user_cb junk xdr_replymsg ct = None.
Proof.
  intros Hsz Hpos Hfl Hm Hl. unfold call_user_cb, collate_buf_list, mem_alloc. rewrite Hm. cbn [negb].
  pose proof (collate_loop_ok (rs_frag_list (ct_record_state ct)) (repeat junk (Z.to_nat (rs_recordsize (ct_record_state ct)))) 0
    (mk_heap (S (h_live (ct_heap ct))) (S (h_requests (ct_heap ct))) (h_ok (ct_heap ct))) Hfl) as Hloop.
  rewrite decide_False in Hloop by (rewrite repeat_length; lia). rewrite Hloop by (cbn; lia). done.
Qed.

(** What [update_record_state] does with a fragment that is complete. *)
Lemma update_record_state_inv ct :
  ct_inv ct -> rs_fh_remaining (ct_record_state ct) = 0 -> rs_frag_remaining (ct_record_state ct) = 0 ->
  let e := earlier (rs_frag_list (ct_record_state ct)) in
  let last := negb (rs_last_frag (ct_record_state ct) =? 0) in
  if last && (0 <? e) then update_record_state junk xdr_replymsg ct = None
  else exists ct', update_record_state junk xdr_replymsg ct = Some (ct', if last then 1 else 0) /\ ct_inv ct' /\
    rs_fh_remaining (ct_record_state ct') = RPC_RECORD_HEADER /\
    earlier (rs_frag_list (ct_record_state ct')) = if last then 0 else e + rs_frag_bufsz (ct_record_state ct).
Proof.
  intros [[Hh Hrs] [Hrz Hfl] Hm Ht Hl] Hfh Hrem e last.
  destruct Hrs as [[? _]|(_ & _ & Ho & Hsum & m & Hbase & Hlm)]; [lia|].
  unfold update_record_state. rewrite Hbase. cbn [add_buffer_list]. unfold mem_alloc. rewrite Hm, Hrz.
  fold last. set (fb := mk_frag_buffer m 0 _). set (rs1 := {| rs_frag_list := _ |}). set (h1 := mk_heap _ _ _).
  set (ct1 := set_ct_heap (set_rs ct rs1) h1).
  assert (Hfl1 : Forall (fun fb => fb_len fb = Z.of_nat (length (fb_base fb))) (rs_frag_list rs1)).
  { apply Forall_app. split; [done|]. by apply Forall_singleton. }
  assert (He1 : earlier (rs_frag_list rs1) = e + rs_frag_bufsz (ct_record_state ct)).
  { cbn [rs1 rs_frag_list]. rewrite earlier_app. cbn. fold e. lia. }
  pose proof (earlier_nonneg _ Hfl) as He. fold e in He.
  assert (Hl1 : (length (rs_frag_list rs1) + length (ght_entries (ct_xid_to_ucb ct)) <= h_live h1)%nat).
  { cbn [rs1 h1 rs_frag_list h_live]. rewrite length_app. cbn [length]. lia. }
  change (negb (rs_last_frag rs1 =? 0)) with last. destruct last; cbn [andb].
  - destruct (Z.ltb_spec 0 e) as [Hpos|Hnone].
    + rewrite (call_user_cb_overrun ct1); [done| | |exact Hfl1|exact Hm|].
      * cbn [ct1 ct_record_state set_rs set_ct_heap]. rewrite He1. cbn [rs1 rs_recordsize]. lia.
      * cbn. lia.
      * cbn [ct1 ct_record_state set_rs set_ct_heap ct_heap]. lia.
    + destruct (call_user_cb_inv ct1) as (ct2 & -> & H1 & H2 & H3 & H4 & H5); [|exact Hfl1|exact Hm|exact Ht|exact Hl1|].
      * cbn [ct1 ct_record_state set_rs set_ct_heap]. rewrite He1. cbn [rs1 rs_recordsize]. lia.
      * cbn [mbind option_bind]. eexists. split; [done|]. split; [|split; [done|by cbn; rewrite H2]].
        constructor; cbn.
        -- split; cbn; [by rewrite H1|]. left. unfold RPC_RECORD_HEADER. lia.
        -- split; cbn; [done|by rewrite H2].
        -- exact H3. -- exact H4. -- rewrite H2. exact H5.
  - cbn [mbind option_bind]. eexists. split; [done|]. split; [|by split].
    constructor; cbn; [|by split|exact Hm|exact Ht|exact Hl1].
    split; [done|]. left. cbn. unfold RPC_RECORD_HEADER. lia.
Qed.

(** A part of a header, or a whole one, is read. *)
Lemma update_new_frag_state_inv ct buf :
  ct_inv ct -> rs_fh_remaining (ct_record_state ct) <> 0 -> buf <> [] ->
  exists n rs' h', update_new_frag_state junk (ct_record_state ct) (ct_heap ct) buf = Some (n, rs', h') /\
    0 < n <= Z.of_nat (length buf) /\ ct_inv (set_ct_heap (set_rs ct rs') h') /\
    scan_next ct buf = scan_next (set_ct_heap (set_rs ct rs') h') (drop (Z.to_nat n) buf).
Proof.
  intros [[Hh Hrs] [Hrz Hfl] Hm Ht Hl] Hfh Hne. destruct Hrs as [[Hfr Hrem]|[? _]]; [|done].
  assert (0 < length buf)%nat by (destruct buf; [done|cbn; lia]).
  unfold update_new_frag_state. rewrite (proj2 (Z.eqb_neq (rs_fh_remaining (ct_record_state ct)) 0)) by lia.
  unfold scan_next, view. rewrite (proj2 (Z.eqb_neq (rs_fh_remaining (ct_record_state ct)) 0)) by lia.
  destruct (Z.ltb_spec (Z.of_nat (length buf)) (rs_fh_remaining (ct_record_state ct))) as [Hpart|Hall].
  - rewrite Nat2Z.id, firstn_all. unfold memcpy. rewrite decide_True by lia. cbn [mbind option_bind]. rewrite take_0. cbn [app Nat.add].
    rewrite (proj2 (Z.eqb_neq (rs_fh_remaining (ct_record_state ct) - Z.of_nat (length buf)) 0)) by lia. cbn [negb].
    eexists _, _, _. split; [done|]. split; [lia|]. split.
    + constructor; cbn; [|by split|done|done|done]. split; cbn; [rewrite length_app, length_drop; lia|]. left. lia.
    + rewrite Nat2Z.id, drop_all. rewrite scan_header_part by (cbn; lia). done.
  - set (n := rs_fh_remaining (ct_record_state ct)) in *. assert (Hn : (Z.to_nat n <= length buf)%nat) by lia.
    unfold memcpy. rewrite decide_True by (rewrite length_take; lia). cbn [mbind option_bind]. rewrite take_0. cbn [app Nat.add].
    rewrite Z.sub_diag. cbn [Z.eqb negb]. rewrite length_take, Nat.min_l by lia.
    set (hdr := take (Z.to_nat n) buf ++ _). unfold mem_alloc. rewrite Hm.
    assert (Hs : 0 <= FRAG_SIZE (unbe hdr)) by (apply Z.land_nonneg; by right).
    eexists _, _, _. split; [done|]. split; [lia|]. split.
    + constructor; cbn; [|by split|done|done|cbn in Hl; lia]. split; cbn.
      * unfold hdr. rewrite length_app, length_take, length_drop. lia.
      * right. split_and!; try lia. eexists. split; [done|]. rewrite repeat_length. lia.
    + cbn. rewrite <- (take_drop (Z.to_nat n) buf) at 1.
      rewrite scan_header; [done| |rewrite length_take; cbn; lia].
      intros E. apply (f_equal length) in E. rewrite length_take in E. cbn in E. lia.
Qed.

(** Copying stays inside the fragment, and stops short of the end of the buffer
    only when the fragment is complete. *)
Lemma copy_fragment_inv ct buf c :
  ct_inv ct -> 0 <= c < Z.of_nat (length buf) -> let rs := ct_record_state ct in
  exists rs' c', copy_fragment rs buf c = Some (rs', c') /\ ct_inv (set_rs ct rs') /\
    c <= c' <= Z.of_nat (length buf) /\ (rs_fh_remaining rs' = rs_fh_remaining rs) /\
    if rs_fh_remaining rs' =? 0 then
      if rs_frag_remaining rs' =? 0 then
        scan_next ct (drop (Z.to_nat c) buf) =
          scan_complete (earlier (rs_frag_list rs')) (rs_frag_bufsz rs') (negb (rs_last_frag rs' =? 0))
            (fun e => scan_bytes (SHeader [] 4 []) e (drop (Z.to_nat c') buf))
      else c' = Z.of_nat (length buf) /\ c < c' /\ scan_next ct (drop (Z.to_nat c) buf) = Some 0
    else c' = c /\ rs' = rs.
Proof.
  intros [[Hh Hrs] [Hrz Hfl] Hm Ht Hl] Hc rs. fold rs in Hh, Hrs, Hrz, Hfl, Hl. unfold copy_fragment.
  destruct Hrs as [[Hfr Hrem]|(Hfr & Hr0 & Ho0 & Hsum & m & Hbase & Hlm)].
  { rewrite Hrem. cbn [EXPECT_NEW_FRAG Z.ltb Z.compare]. eexists _, _. split; [done|].
    rewrite (proj2 (Z.eqb_neq (rs_fh_remaining rs) 0)) by lia. split; [|split_and!; done || lia]. constructor; cbn; [|by split|done..]. split; [done|]. by left. }
  unfold scan_next, view. fold rs. rewrite Hfr. cbn [Z.eqb].
  destruct (Z.ltb_spec 0 (rs_frag_remaining rs)) as [Hpos|].
  2: { eexists _, _. split; [done|]. rewrite Hfr. cbn [Z.eqb].
       replace (rs_frag_remaining rs) with 0 by lia. cbn [Z.eqb]. split.
       - constructor; cbn; [|by split|done..]. split; [done|]. right. split_and!; try done. by exists m.
       - split; [lia|]. split; [done|]. apply scan_fragment_empty.
         intros E. apply (f_equal length) in E. rewrite length_drop in E. cbn in E. lia. }
  set (n := if _ <? _ then _ else _). set (r := drop (Z.to_nat c) buf).
  assert (Hr : Z.of_nat (length r) = Z.of_nat (length buf) - c) by (unfold r; rewrite length_drop; lia).
  assert (Hn : 0 < n <= Z.of_nat (length r) /\ n <= rs_frag_remaining rs /\
               (n < rs_frag_remaining rs -> n = Z.of_nat (length r))).
  { unfold n. destruct (Z.ltb_spec (Z.of_nat (length buf) - c) (rs_frag_remaining rs)); lia. }
  clearbody n. rewrite Hbase. assert (Htk : length (take (Z.to_nat n) r) = Z.to_nat n) by (rewrite length_take; lia).
  unfold memcpy. rewrite decide_True by lia. cbn [mbind option_bind]. eexists _, _. split; [done|].
  cbn [rs_fh_remaining rs_frag_remaining rs_frag_list rs_frag_bufsz rs_last_frag rs_frag_offset rs_frag_buf_base
       rs_fraghdr rs_recordsize]. cbn [Z.eqb].
  split.
  { constructor; cbn; [|by split|done..]. split; cbn; [done|]. right. split_and!; try lia.
    eexists. split; [done|]. rewrite !length_app, length_take, length_drop, Htk. lia. }
  split; [lia|]. split; [done|]. destruct (Z.eqb_spec (rs_frag_remaining rs - n) 0) as [E|E].
  - replace (drop (Z.to_nat (c + n)) buf) with (drop (Z.to_nat n) r).
    2: { unfold r. rewrite drop_drop. f_equal. lia. }
    rewrite <- (take_drop (Z.to_nat n) r) at 1. replace (rs_frag_remaining rs) with (Z.of_nat (length (take (Z.to_nat n) r))) by lia.
    apply scan_fragment. intros E'. rewrite E' in Htk. cbn in Htk. lia.
  - split; [lia|]. split; [lia|]. apply scan_fragment_part. lia.
Qed.

(** The end of an iteration: the next header is begun if bytes are left. *)
Lemma next_header_inv ct buf c c1 (cb : Z) :
  ct_inv ct -> 0 <= c <= c1 -> c1 <= Z.of_nat (length buf) ->
  (c1 = c -> c < Z.of_nat (length buf)) ->
  (c1 < Z.of_nat (length buf) -> rs_fh_remaining (ct_record_state ct) <> 0) ->
  exists ct' c',
    (if c1 <? Z.of_nat (length buf) then
       '(n, rs, h) ← update_new_frag_state junk (ct_record_state ct) (ct_heap ct) (drop (Z.to_nat c1) buf);
       Some (set_ct_heap (set_rs ct rs) h, c1 + n, cb)
     else Some (ct, c1, cb)) = Some (ct', c', cb) /\
    ct_inv ct' /\ c < c' <= Z.of_nat (length buf) /\
    scan_next ct (drop (Z.to_nat c1) buf) = scan_next ct' (drop (Z.to_nat c') buf).
Proof.
  intros Hct Hc Hc1 Hne Hfh. destruct (Z.ltb_spec c1 (Z.of_nat (length buf))) as [Hlt|Hge].
  2: { exists ct, c1. split; [done|]. split; [done|]. split; [lia|done]. }
  destruct (update_new_frag_state_inv ct (drop (Z.to_nat c1) buf) Hct (Hfh Hlt)) as (n & rs & h & -> & Hn & Hct' & ->).
  { intros E. apply (f_equal length) in E. rewrite length_drop in E. cbn in E. lia. }
  rewrite length_drop in Hn. cbn [mbind option_bind]. eexists _, _. split; [done|]. split; [done|]. split; [lia|].
  rewrite drop_drop. do 2 f_equal. lia.
Qed.

(** After a fragment a whole header is missing. *)
Lemma scan_next_header ct buf :
  ct_inv ct -> rs_fh_remaining (ct_record_state ct) = RPC_RECORD_HEADER ->
  scan_next ct buf = scan_bytes (SHeader [] 4 []) (earlier (rs_frag_list (ct_record_state ct))) buf.
Proof.
  intros [[Hh _] _ _ _ _] Hfh. unfold scan_next, view. rewrite Hfh. change (Z.to_nat RPC_RECORD_HEADER) with 4%nat.
  by rewrite drop_ge by lia.
Qed.

(** One iteration of the loop moves on, or overruns as foreseen. *)
Lemma update_frag_body_inv ct buf c cb :
  ct_inv ct -> 0 <= c < Z.of_nat (length buf) ->
  match update_frag_body junk xdr_replymsg ct buf c cb with
  | Some (ct', c', cb') => ct_inv ct' /\ c < c' <= Z.of_nat (length buf) /\
      scan_next ct (drop (Z.to_nat c) buf) = (n ← scan_next ct' (drop (Z.to_nat c') buf); Some (cb' - cb + n))
  | None => scan_next ct (drop (Z.to_nat c) buf) = None
  end.
Proof.
  intros Hct Hc. unfold update_frag_body.
  destruct (copy_fragment_inv ct buf c Hct Hc) as (rs1 & c1 & -> & Hct1 & Hc1 & _ & Hcase). cbn [mbind option_bind].
  assert (Hstay : forall o : option Z, o = (n ← o; Some (cb - cb + n))).
  { intros [n|]; [|done]. cbn. by rewrite Z.sub_diag. }
  destruct (Z.eqb_spec (rs_fh_remaining rs1) 0) as [Hfh|Hfh].
  2: { destruct Hcase as [-> ->]. destruct (ci_rs _ Hct) as [_ [[_ Hrem]|[? _]]]; [|done].
       rewrite Hrem, andb_false_r. cbn [mbind option_bind].
       destruct (next_header_inv (set_rs ct (ct_record_state ct)) buf c c cb) as (ct' & c' & -> & Hct' & Hc' & E); try done; try lia.
       split; [done|]. split; [lia|]. rewrite <- E. apply Hstay. }
  destruct (Z.eqb_spec (rs_frag_remaining rs1) 0) as [Hrem|Hrem].
  2: { destruct Hcase as (-> & Hlt & ->). rewrite andb_false_r. cbn [mbind option_bind].
       rewrite Z.ltb_irrefl, Nat2Z.id, drop_all. split; [done|]. split; [lia|]. cbn. by rewrite Z.sub_diag. }
  assert (Hsz : rs_frag_offset rs1 = rs_frag_bufsz rs1).
  { destruct (ci_rs _ Hct1) as [_ [[? _]|(_ & _ & _ & ? & _)]]; cbn in *; lia. }
  rewrite Hsz, Z.eqb_refl. cbn [andb].
  pose proof (update_record_state_inv (set_rs ct rs1) Hct1 Hfh Hrem) as Hu. cbn [ct_record_state set_rs] in Hu.
  rewrite Hcase. unfold scan_complete. destruct (negb (rs_last_frag rs1 =? 0)) eqn:Elast; cbn [andb] in Hu.
  - destruct (0 <? earlier (rs_frag_list rs1)); [by rewrite Hu|].
    destruct Hu as (ct2 & -> & Hct2 & Hfh2 & He2). cbn [mbind option_bind].
    destruct (next_header_inv ct2 buf c c1 (cb + 1)) as (ct' & c' & E & Hct' & Hc' & Hs); try done; try lia.
    { by rewrite Hfh2. }
    rewrite E. split; [done|]. split; [lia|]. rewrite <- Hs, (scan_next_header ct2), He2 by done.
    destruct (scan_bytes _ _ _) as [n|]; [|done]. cbn. f_equal. lia.
  - destruct Hu as (ct2 & -> & Hct2 & Hfh2 & He2). cbn [mbind option_bind].
    destruct (next_header_inv ct2 buf c c1 (cb + 0)) as (ct' & c' & E & Hct' & Hc' & Hs); try done; try lia.
    { by rewrite Hfh2. }
    rewrite E. split; [done|]. split; [lia|]. rewrite <- Hs, (scan_next_header ct2), He2, Z.add_0_r by done. apply Hstay.
Qed.

Lemma update_frag_loop_inv fuel : forall ct buf c cb,
  ct_inv ct -> 0 <= c <= Z.of_nat (length buf) -> (length buf - Z.to_nat c <= fuel)%nat ->
  match scan_next ct (drop (Z.to_nat c) buf) with
  | Some n => exists ct', update_frag_loop junk xdr_replymsg fuel ct buf c cb = ROk (ct', cb + n) /\ ct_inv ct'
  | None => update_frag_loop junk xdr_replymsg fuel ct buf c cb = RUB
  end.
Proof.
  induction fuel as [|fuel IH]; intros ct buf c cb Hct Hc Hfuel; cbn [update_frag_loop].
  all: destruct (Z.ltb_spec c (Z.of_nat (length buf))) as [Hlt|Hge].
  1: lia.
  1, 3: rewrite drop_ge by lia; exists ct; by rewrite Z.add_0_r.
  pose proof (update_frag_body_inv ct buf c cb Hct ltac:(lia)) as Hb.
  destruct (update_frag_body _ _ _ _ _ _) as [[[ct' c'] cb']|]; [|by rewrite Hb].
  destruct Hb as (Hct' & Hc' & ->). specialize (IH ct' buf c' cb' Hct' ltac:(lia) ltac:(lia)).
  destruct (scan_next ct' _) as [n|]; cbn [mbind option_bind]; [|done].
  by replace (cb + (cb' - cb + n)) with (cb' + n) by lia.
Qed.

(** [C18] On any bytes (headers cut anywhere, fragments of any size, garbage)
    and from any state the reader can be in, with memory available, the loop of
    [update_frag_state] does what [scan_bytes] foresees, byte by byte: if [scan_bytes] counts
    [n] records, the loop ends, within as many iterations as the buffer has
    bytes, returns [n], and leaves the reader in such a state again; if [scan_bytes]
    meets a last fragment with bytes of the same record in front of it, and only
    then, the copy of the record overruns its block.  (Without memory the loop may
    spin: [out_of_memory_spins].) *)
Theorem update_frag_state_terminates ct buf :
  ct_inv ct ->
  match scan_next ct buf with
  | Some n => exists ct', update_frag_state junk xdr_replymsg ct buf = ROk (ct', n) /\ ct_inv ct'
  | None => update_frag_state junk xdr_replymsg ct buf = RUB
  end.
Proof.
  intros Hct. unfold update_frag_state.
  pose proof (update_frag_loop_inv (length buf) ct buf 0 0 Hct ltac:(lia) ltac:(lia)) as Hl.
  by rewrite drop_0 in Hl.
Qed.

(** Out of memory, with a header read. *)
Lemma spin_loop ct buf c cb fuel :
  (forall n, h_ok (ct_heap ct) n = false) -> 0 <= c < Z.of_nat (length buf) ->
  length (rs_fraghdr (ct_record_state ct)) = 4%nat ->
  rs_fh_remaining (ct_record_state ct) = 0 \/
    rs_fh_remaining (ct_record_state ct) = RPC_RECORD_HEADER /\ c + 4 <= Z.of_nat (length buf) ->
  rs_frag_remaining (ct_record_state ct) = EXPECT_NEW_FRAG ->
  update_frag_loop junk xdr_replymsg fuel ct buf c cb = RFuel.
Proof.
  revert ct. induction fuel as [|fuel IH]; intros ct Hno Hc Hh Hfh Hrem; cbn [update_frag_loop];
    rewrite (proj2 (Z.ltb_lt c (Z.of_nat (length buf)))) by lia; [done|].
  unfold update_frag_body, copy_fragment. rewrite Hrem. cbn [EXPECT_NEW_FRAG Z.ltb Z.compare].
  cbn [mbind option_bind]. rewrite Hrem, andb_false_r. cbn [mbind option_bind].
  rewrite (proj2 (Z.ltb_lt c (Z.of_nat (length buf)))) by lia.
  unfold update_new_frag_state. set (n := if _ =? 0 then _ else _).
  assert (Hn : 0 <= n <= 4 /\ c + n <= Z.of_nat (length buf) /\
               n = rs_fh_remaining (ct_record_state ct)).
  { unfold n. cbn [set_rs ct_record_state] in *. destruct Hfh as [->|[-> Hl]]; cbn [RPC_RECORD_HEADER Z.eqb]; [lia|].
    rewrite length_drop. rewrite (proj2 (Z.ltb_ge _ _)); unfold RPC_RECORD_HEADER; lia. }
  clearbody n. cbn [set_rs ct_record_state ct_heap] in *.
  destruct (memcpy _ 0 _) as [hd|] eqn:E.
  2: { unfold memcpy in E. rewrite decide_True in E; [done|]. rewrite length_take, length_drop. lia. }
  apply memcpy_length in E. cbn. destruct Hn as (_ & _ & ->). rewrite Z.sub_diag. cbn.
  unfold mem_alloc. rewrite Hno. cbn. rewrite Z.add_0_r. apply IH; cbn; try done; [lia|by left].
Qed.

(** Liveness is lost when memory is: if the block for a fragment cannot be
    allocated, [update_new_frag_state] returns 0 although it consumed the
    header, and the loop of [update_frag_state] spins on the same bytes: no
    number of iterations ends it while the allocation keeps failing. *)
Theorem out_of_memory_spins ct buf fuel :
  rs_idle [] (ct_record_state ct) -> (4 <= length buf)%nat ->
  (forall n, h_ok (ct_heap ct) n = false) ->
  update_frag_loop junk xdr_replymsg fuel ct buf 0 0 = RFuel.
Proof.
  intros ((_ & _ & Hh) & Hfh & Hrem) Hlen Hno. apply spin_loop; try done; [lia|].
  right. split; [done|lia].
Qed.
End any_bytes.

(** ** A session

    Two calls wait (transactions 7 and 9); replies are a transaction id
    followed by the payload. *)
Definition replymsg_ex (m : list Z) : option (Z * list Z) :=
  match m with
  | [] => None
  | x :: payload => Some (u32 x, payload)
  end.
Lemma replymsg_ex_word m xid payload : replymsg_ex m = Some (xid, payload) -> is_u 32 xid.
Proof. destruct m; [done|]. intros [= <- _]. by apply wrap_is_u. Qed.

Definition calls_ex : dict Z callback_info :=
  [(7, mk_callback_info (Some 100) 1); (9, mk_callback_info (Some 200) 2)].
Definition rs_ex (hdr : list Z) : rpc_record_state :=
  expect_new_rpc_record (mk_rpc_record_state [] 0 0 PNull 0 0 0 hdr 0).
Definition ct_ex (ok : bool) : ct_data (dict Z callback_info) :=
  mk_ct_data (rs_ex [0; 0; 0; 0]) (Some calls_ex) 0 (mk_heap 2 0 (fun _ => ok)) [].
Definition session_ex : session := mk_session calls_ex [].
Definition recs_ex : list (list Z) := [[9; 4]; [7; 1; 2]].
Definition reads_ex : list (list Z) :=
  [take 5 (mjoin (mark <$> recs_ex)); drop 5 (mjoin (mark <$> recs_ex))].

Lemma rep_ex : Rep 0 None (ct_ex true) session_ex.
Proof.
  split; [done|]. split_and!; try done. cbn. apply NoDup_cons. split.
  - by intros [=]%list_elem_of_singleton.
  - apply NoDup_singleton.
Qed.

Lemma sendable_ex : Forall sendable recs_ex.
Proof. repeat constructor; done. Qed.

Lemma reads_ex_join : mjoin reads_ex = mjoin (mark <$> recs_ex).
Proof. reflexivity. Qed.

Lemma reads_ex_cuts i : exists st o, Feed None (mjoin (take i reads_ex)) st o.
Proof.
  destruct i as [|[|i]].
  - exists None, []. constructor.
  - exists (Some ([9], 2%nat)), []. apply (feed_header 2 [9]); [lia|lia|].
    apply (feed_part [] 2 [9]); [done|cbn; lia].
  - exists None, recs_ex. replace (take (S (S i)) reads_ex) with reads_ex by (by destruct i).
    rewrite reads_ex_join. apply feed_stream, sendable_ex.
Qed.

Lemma update_frag_state_refines_witness :
  exists ct', update_frag_state 0 replymsg_ex (ct_ex true) (mjoin (mark <$> recs_ex)) = ROk (ct', 2) /\
    Rep 2 None ct' (mk_session [] [mk_invocation 200 2 [4]; mk_invocation 100 1 [1; 2]]).
Proof.
  apply (update_frag_state_refines 0 replymsg_ex replymsg_ex_word 0 None None _ recs_ex (ct_ex true) session_ex).
  - apply feed_stream, sendable_ex.
  - apply rep_ex.
Defined.

Lemma receive_any_reads_witness :
  exists ct', receive 0 replymsg_ex (ct_ex true) reads_ex = ROk ct' /\
    Rep 2 None ct' (mk_session [] [mk_invocation 200 2 [4]; mk_invocation 100 1 [1; 2]]).
Proof.
  apply (receive_any_reads 0 replymsg_ex replymsg_ex_word recs_ex reads_ex 0 (ct_ex true) session_ex).
  - apply sendable_ex.
  - apply reads_ex_join.
  - apply reads_ex_cuts.
  - apply rep_ex.
Defined.

Lemma all_calls_answered_witness :
  exists ct', receive 0 replymsg_ex (ct_ex true) reads_ex = ROk ct' /\
    ght_entries (ct_xid_to_ucb ct') = [] /\
    ct_called ct' = [mk_invocation 200 2 [4]; mk_invocation 100 1 [1; 2]].
Proof.
  apply (all_calls_answered 0 replymsg_ex replymsg_ex_word recs_ex [(9, [4]); (7, [1; 2])] reads_ex 0 (ct_ex true) session_ex).
  - apply sendable_ex.
  - apply reads_ex_join.
  - apply reads_ex_cuts.
  - by repeat constructor.
  - cbn. apply Permutation_swap.
  - apply rep_ex.
Defined.

Lemma multi_fragment_overflow_witness :
  update_frag_state 0 replymsg_ex (ct_ex true) (fragment false [9; 9] ++ fragment true [4] ++ []) = RUB.
Proof.
  apply (multi_fragment_overflow 0 replymsg_ex 0 (ct_ex true) session_ex); try done.
  apply rep_ex.
Defined.

(** The header of a last fragment of 24 bytes, cut after its first byte, is
    taken for one of a fragment of 6,144 bytes that is not the last. *)
Lemma split_header_misread_witness :
  exists rs1 rs2 h2,
    update_new_frag_state 0 (rs_ex [0; 0; 0; 0]) (mk_heap 0 0 (fun _ => true)) [128] =
      Some (1, rs1, mk_heap 0 0 (fun _ => true)) /\
    update_new_frag_state 0 rs1 (mk_heap 0 0 (fun _ => true)) ([0; 0; 24] ++ []) = Some (3, rs2, h2) /\
    rs_fraghdr rs2 = [0; 0; 24; 0] /\
    rs_frag_bufsz rs2 = FRAG_SIZE (unbe (rs_fraghdr rs2)) /\
    rs_last_frag rs2 = LAST_FRAG (unbe (rs_fraghdr rs2)).
Proof.
  apply (split_header_misread 0 (rs_ex [0; 0; 0; 0]) (mk_heap 0 0 (fun _ => true)) [128] [0; 0; 24] []);
    done.
Defined.

(** A header in two parts, and its fragment, which is not the last: a record is
    begun; with a last fragment behind it the block of the record is overrun. *)
Lemma update_frag_state_terminates_witness :
  ct_inv (ct_ex true) /\
  (exists ct', update_frag_state 0 replymsg_ex (ct_ex true) (mark [7; 1] ++ fragment false [9; 9] ++ [128]) = ROk (ct', 1) /\
     ct_inv ct') /\
  update_frag_state 0 replymsg_ex (ct_ex true) (mark [7; 1] ++ fragment false [9; 9] ++ mark [4]) = RUB.
Proof.
  assert (Hct : ct_inv (ct_ex true)).
  { destruct rep_ex as [_ (Ht & _)]. constructor; [|by split|done|exact Ht|cbn; lia].
    split; [done|]. left. cbn. unfold RPC_RECORD_HEADER. lia. }
  split; [exact Hct|]. split.
  - exact (update_frag_state_terminates 0 replymsg_ex replymsg_ex_word (ct_ex true) (mark [7; 1] ++ fragment false [9; 9] ++ [128]) Hct).
  - exact (update_frag_state_terminates 0 replymsg_ex replymsg_ex_word (ct_ex true) (mark [7; 1] ++ fragment false [9; 9] ++ mark [4]) Hct).
Defined.

Lemma out_of_memory_spins_witness :
  update_frag_loop 0 replymsg_ex 1000 (ct_ex false) (mark [7; 1]) 0 0 = RFuel.
Proof.
  apply (out_of_memory_spins 0 replymsg_ex (ct_ex false) (mark [7; 1]) 1000); try done. by apply Nat.leb_le.
Defined.
