(* ===== verification/RpcClient.v ===== *)
(** * Making RPC calls: [src/src/clnt_tcp_nb.c]

    A call registers its callback under a fresh transaction id, marshals the
    message through the record stream of the C library, which hands fragments
    to [writetcp_nb], and then looks for replies ([RpcRecord]).  What the socket
    does not take is kept in [ct_sndlist].

    The environment is a script of the results of the system calls, in the
    order of the calls; an operation that outlives the script [Waits].
    Transaction ids are those of a little-endian machine. *)

From S2P Require Import Prelude GhtIface RpcRecord.

(** ** Constants *)

Definition RPC_SUCCESS : Z := 0.
Definition RPC_CANTENCODEARGS : Z := 1.
Definition RPC_SYSTEMERROR : Z := 12.
Definition RPC_FAILED : Z := 16.

Definition MCALL_MSG_SIZE : Z := 24.
Definition DEFAULT_SOCKRW_SIZE : Z := 32768.
Definition BUCKET_XID : Z := 100.
Definition BUCKET_FD : Z := 10.

Definition RPC_BLOCKING_WAIT : Z := 0x0.
Definition RPC_NONBLOCK_WAIT : Z := 0x1.
Definition RPC_NO_TX_FLUSH : Z := 0x2.
Definition RPC_NO_RX : Z := 0x4.
Definition RPC_DEFAULT_FLAGS : Z := -1.

Definition is_nonblocking (flag : Z) : bool := negb (Z.land flag RPC_NONBLOCK_WAIT =? 0).
Definition is_blocking (flag : Z) : bool := negb (is_nonblocking flag).
Definition flush_tx_buffer (flag : Z) : bool := Z.land flag RPC_NO_TX_FLUSH =? 0.
Definition read_rpc_response (flag : Z) : bool := Z.land flag RPC_NO_RX =? 0.

(** ** The socket *)

(** [select] fails, returns without the socket being ready, or with it ready. *)
Inductive select_result := select_error | select_unset | select_ready.

(** [write] takes a number of bytes, at most what it is given, or fails with
    [EAGAIN] or another error. *)
Inductive write_result := write_taken (n : nat) | write_again | write_error.

(** [read] returns bytes, or a result that is not positive. *)
Inductive read_result := read_bytes (bs : list Z) | read_nothing.

Record socket := mk_socket {
  so_selects : list select_result;
  so_writes : list write_result;
  so_reads : list read_result;
  so_sent : list Z
}.

(** What an operation comes to: a result; waiting for the environment;
    undefined behaviour; or a loop without end. *)
Inductive outcome (A : Type) := Returns (a : A) | Waits | Undefined | Spins.
Arguments Returns {A} a.
Arguments Waits {A}.
Arguments Undefined {A}.
Arguments Spins {A}.

(** [block_again: select(...)] until the descriptor is ready: the results left. *)
Fixpoint select_loop (rs : list select_result) : option (list select_result) :=
  match rs with
  | [] => None
  | select_ready :: rs => Some rs
  | _ :: rs => select_loop rs
  end.

(** ** The record stream of the C library

    [x_put] takes bytes to be sent, [x_end] ends the record and flushes; both
    say which chunks are handed to the write function, each with the state of
    the stream in case that write fails, and the state after all of them. *)
Class Xdrrec (X : Type) := {
  x_put : X -> list Z -> list (list Z * X) * X;
  x_end : X -> list (list Z * X) * X
}.

(** ** State *)

(** [struct ct_data]; the members that only reception touches are in
    [RpcRecord.ct_data]. *)
Record clnt (T X : Type) := mk_clnt {
  ct_recv : ct_data T;
  ct_xdrs : X;
  re_status : Z;
  ct_sbufsz : Z;
  ct_mcall : list Z;
  ct_mpos : nat;
  ct_datatx : Z;
  ct_sndlist : list frag_buffer;
  ct_rbufsz : Z;
  ct_sockflags : Z;
  ct_pendingcalls : Z;
  ct_sock : socket
}.
Arguments mk_clnt {T X}.
Arguments ct_recv {T X} c.
Arguments ct_xdrs {T X} c.
Arguments re_status {T X} c.
Arguments ct_sbufsz {T X} c.
Arguments ct_mcall {T X} c.
Arguments ct_mpos {T X} c.
Arguments ct_datatx {T X} c.
Arguments ct_sndlist {T X} c.
Arguments ct_rbufsz {T X} c.
Arguments ct_sockflags {T X} c.
Arguments ct_pendingcalls {T X} c.
Arguments ct_sock {T X} c.

(** [struct rpc_proc_info]: [inproc(xdrs, inargs)] as the bytes it puts on the
    stream and whether it succeeds. *)
Record rpc_proc_info := mk_rpc_proc_info {
  proc : Z;
  inargs : list Z;
  inproc_ok : bool
}.

Section client.
Context {T : Type} `{Ght T callback_info} {X : Type} `{Xdrrec X}.
Implicit Types (c : clnt T X).

Definition set_recv (r : ct_data T) c : clnt T X :=
  mk_clnt r (ct_xdrs c) (re_status c) (ct_sbufsz c) (ct_mcall c) (ct_mpos c) (ct_datatx c)
    (ct_sndlist c) (ct_rbufsz c) (ct_sockflags c) (ct_pendingcalls c) (ct_sock c).
Definition set_heap (h : heap) c : clnt T X := set_recv (set_ct_heap (ct_recv c) h) c.
Definition set_xdrs (x : X) c : clnt T X :=
  mk_clnt (ct_recv c) x (re_status c) (ct_sbufsz c) (ct_mcall c) (ct_mpos c) (ct_datatx c)
    (ct_sndlist c) (ct_rbufsz c) (ct_sockflags c) (ct_pendingcalls c) (ct_sock c).
Definition set_status (st : Z) c : clnt T X :=
  mk_clnt (ct_recv c) (ct_xdrs c) st (ct_sbufsz c) (ct_mcall c) (ct_mpos c) (ct_datatx c)
    (ct_sndlist c) (ct_rbufsz c) (ct_sockflags c) (ct_pendingcalls c) (ct_sock c).
Definition set_mcall (bs : list Z) c : clnt T X :=
  mk_clnt (ct_recv c) (ct_xdrs c) (re_status c) (ct_sbufsz c) bs (ct_mpos c) (ct_datatx c)
    (ct_sndlist c) (ct_rbufsz c) (ct_sockflags c) (ct_pendingcalls c) (ct_sock c).
Definition set_datatx (n : Z) c : clnt T X :=
  mk_clnt (ct_recv c) (ct_xdrs c) (re_status c) (ct_sbufsz c) (ct_mcall c) (ct_mpos c) n
    (ct_sndlist c) (ct_rbufsz c) (ct_sockflags c) (ct_pendingcalls c) (ct_sock c).
Definition set_sndlist (l : list frag_buffer) c : clnt T X :=
  mk_clnt (ct_recv c) (ct_xdrs c) (re_status c) (ct_sbufsz c) (ct_mcall c) (ct_mpos c) (ct_datatx c)
    l (ct_rbufsz c) (ct_sockflags c) (ct_pendingcalls c) (ct_sock c).
Definition set_sockflags (f : Z) c : clnt T X :=
  mk_clnt (ct_recv c) (ct_xdrs c) (re_status c) (ct_sbufsz c) (ct_mcall c) (ct_mpos c) (ct_datatx c)
    (ct_sndlist c) (ct_rbufsz c) f (ct_pendingcalls c) (ct_sock c).
Definition set_pendingcalls (n : Z) c : clnt T X :=
  mk_clnt (ct_recv c) (ct_xdrs c) (re_status c) (ct_sbufsz c) (ct_mcall c) (ct_mpos c) (ct_datatx c)
    (ct_sndlist c) (ct_rbufsz c) (ct_sockflags c) n (ct_sock c).
Definition set_sock (s : socket) c : clnt T X :=
  mk_clnt (ct_recv c) (ct_xdrs c) (re_status c) (ct_sbufsz c) (ct_mcall c) (ct_mpos c) (ct_datatx c)
    (ct_sndlist c) (ct_rbufsz c) (ct_sockflags c) (ct_pendingcalls c) s.

Definition set_selects (l : list select_result) c : clnt T X :=
  set_sock (mk_socket l (so_writes (ct_sock c)) (so_reads (ct_sock c)) (so_sent (ct_sock c))) c.
Definition set_writes (l : list write_result) c : clnt T X :=
  set_sock (mk_socket (so_selects (ct_sock c)) l (so_reads (ct_sock c)) (so_sent (ct_sock c))) c.
Definition set_reads (l : list read_result) c : clnt T X :=
  set_sock (mk_socket (so_selects (ct_sock c)) (so_writes (ct_sock c)) l (so_sent (ct_sock c))) c.
(** The socket takes bytes. *)
Definition sock_take (bs : list Z) c : clnt T X :=
  set_sock (mk_socket (so_selects (ct_sock c)) (so_writes (ct_sock c)) (so_reads (ct_sock c))
              (so_sent (ct_sock c) ++ bs)) c.

(** Wait with [select] if [wait]; then go on. *)
Definition select_if {A} (wait : bool) c (k : clnt T X -> clnt T X * outcome A)
    : clnt T X * outcome A :=
  if wait then
    match select_loop (so_selects (ct_sock c)) with
    | None => (set_selects [] c, Waits)
    | Some rs => k (set_selects rs c)
    end
  else k c.

(** ** Sending *)

(** The bytes of a buffer that [write] is given. *)
Definition unsent (b : frag_buffer) : list Z :=
  take (Z.to_nat (fb_len b)) (drop (Z.to_nat (fb_current b)) (fb_base b)).

(** One round per [write]; [ws] are the results to come.  [wait] says whether
    the round starts with [select]: it does after [goto write_block_again]. *)
Fixpoint send_loop (ws : list write_result) (wait : bool) (flag : Z) c : clnt T X * outcome Z :=
  match ct_sndlist c with
  | [] => (c, Returns 0)
  | buf :: rest =>
      select_if wait c (fun c =>
        match ws with
        | [] => (c, Waits)
        | write_error :: ws => (set_writes ws c, Returns (-1))
        | write_again :: ws =>
            let c := set_writes ws c in
            if is_blocking flag then send_loop ws true flag c else (c, Returns 0)
        | write_taken n :: ws =>
            let c := set_writes ws c in
            let written := Z.min (Z.of_nat n) (fb_len buf) in
            let c := sock_take (take (Z.to_nat written) (unsent buf)) c in
            let c := set_datatx (u64 (ct_datatx c + written)) c in
            if written <? fb_len buf then
              let c := set_sndlist (mk_frag_buffer (fb_base buf) (fb_current buf + written)
                                      (fb_len buf - written) :: rest) c in
              if is_blocking flag then send_loop ws true flag c else (c, Returns 0)
            else
              match mem_free (PTo buf) (ct_heap (ct_recv c)) with
              | None => (c, Undefined)
              | Some h =>
                  send_loop ws (is_nonblocking (ct_sockflags c) && is_blocking flag) flag
                    (set_heap h (set_sndlist rest c))
              end
        end)
  end.
Definition send_buffers c (flag : Z) : clnt T X * outcome Z :=
  send_loop (so_writes (ct_sock c)) (is_nonblocking (ct_sockflags c) && is_blocking flag) flag c.

(** What the record stream would read with; a client only encodes. *)
Definition readtcp_nb (ct_handle : clnt T X) (buf : list Z) (len : Z) : Z := 0.

Definition writetcp_nb c (buf : list Z) : clnt T X * outcome Z :=
  let '(l, r, h) := add_buffer_list (ct_sndlist c) (PTo buf) (Z.of_nat (length buf)) false
                      (ct_heap (ct_recv c)) in
  let c := set_heap h (set_sndlist l c) in
  if r <? 0 then (c, Returns (-1))
  else
    match send_buffers c RPC_NONBLOCK_WAIT with
    | (c, Returns r) => (c, Returns (if r =? 0 then Z.of_nat (length buf) else -1))
    | (c, o) => (c, o)
    end.

(** The stream hands its chunks to [writetcp_nb]; it gives up when the result
    is not the length of the chunk. *)
Fixpoint hand_over (chunks : list (list Z * X)) (x' : X) c : clnt T X * outcome bool :=
  match chunks with
  | [] => (set_xdrs x' c, Returns true)
  | (chunk, failed) :: chunks =>
      match writetcp_nb c chunk with
      | (c, Returns n) =>
          if n =? Z.of_nat (length chunk) then hand_over chunks x' c
          else (set_xdrs failed c, Returns false)
      | (c, Waits) => (c, Waits)
      | (c, Undefined) => (c, Undefined)
      | (c, Spins) => (c, Spins)
      end
  end.
Definition xdr_put (bs : list Z) c : clnt T X * outcome bool :=
  let (chunks, x') := x_put (ct_xdrs c) bs in hand_over chunks x' c.
Definition xdrrec_endofrecord c : clnt T X * outcome bool :=
  let (chunks, x') := x_end (ct_xdrs c) in hand_over chunks x' c.

(** [f || g]: [g] runs if [f] did not fail. *)
Definition and_then (f g : clnt T X -> clnt T X * outcome bool) c : clnt T X * outcome bool :=
  match f c with
  | (c, Returns true) => g c
  | r => r
  end.

(** ** Receiving *)

Context (junk : Z) (xdr_replymsg : list Z -> option (Z * list Z)).

(** The reading loop of [rpc_cb]: one round per [read]; [rs] are the results to
    come.  [wait] says whether the round starts at [block_again]. *)
Fixpoint read_loop (rs : list read_result) (wait : bool) (flag called_back : Z) c
    : clnt T X * outcome Z :=
  select_if wait c (fun c =>
    match rs with
    | [] => (c, Waits)
    | read_nothing :: rs => (set_reads rs c, Returns called_back)
    | read_bytes bs :: rs =>
        let c := set_reads rs c in
        match update_frag_state junk xdr_replymsg (ct_recv c) bs with
        | RUB => (c, Undefined)
        | RFuel => (c, Spins)
        | ROk (r, called_back) =>
            let c := set_recv r c in
            if negb (called_back =? 0) then (c, Returns called_back)
            else if is_nonblocking (ct_sockflags c) then
              if is_blocking flag then read_loop rs true flag called_back c
              else (c, Returns called_back)
            else read_loop rs false flag called_back c
        end
    end).
Definition rpc_cb c (flag : Z) : clnt T X * outcome Z :=
  read_loop (so_reads (ct_sock c)) (is_nonblocking (ct_sockflags c) && is_blocking flag) flag 0 c.

(** The part of [clnttcp_nb_receive] after the flush. *)
Definition receive_replies (flag : Z) c : clnt T X * outcome Z :=
  if ct_pendingcalls c =? 0 then (c, Returns 0)
  else if read_rpc_response flag then
    match rpc_cb c flag with
    | (c, Returns called_back) =>
        (set_pendingcalls (ct_pendingcalls c - called_back) c, Returns called_back)
    | r => r
    end
  else (c, Returns 0).

(** A handle is NULL or refers to the data of its connection. *)
Definition on_handle {A} (dflt : A) (f : clnt T X -> clnt T X * outcome A) (handle : option (clnt T X))
    : option (clnt T X) * outcome A :=
  match handle with
  | None => (None, Returns dflt)
  | Some c => let (c, r) := f c in (Some c, r)
  end.

Definition receive_ct (flag : Z) c : clnt T X * outcome Z :=
  if flush_tx_buffer flag then
    match send_buffers c flag with
    | (c, Returns _) => receive_replies flag c
    | r => r
    end
  else receive_replies flag c.
Definition clnttcp_nb_receive (handle : option (clnt T X)) (flag : Z) : option (clnt T X) * outcome Z :=
  on_handle 0 (receive_ct flag) handle.

(** ** Calling *)

(** The transaction id in the first four bytes of [ct_mcall] is decremented as the machine reads
    it; [xid_host] is its value in the byte order of the network. *)
Definition decrement_xid (mcall : list Z) : list Z :=
  rev (be 4 (u32 (unbe (rev (take 4 mcall)) - 1))) ++ drop 4 mcall.
Definition xid_host (mcall : list Z) : Z := unbe (take 4 mcall).

(** [AUTH_MARSHALL] puts [auth] on the stream. *)
Context (auth : list Z).

Definition inproc (rpc : rpc_proc_info) c : clnt T X * outcome bool :=
  match xdr_put (inargs rpc) c with
  | (c, Returns b) => (c, Returns (b && inproc_ok rpc))
  | r => r
  end.
Definition send_message (rpc : rpc_proc_info) c : clnt T X * outcome bool :=
  and_then (xdr_put (take (ct_mpos c) (ct_mcall c)))
    (and_then (xdr_put (be 4 (proc rpc)))
       (and_then (xdr_put auth) (and_then (inproc rpc) xdrrec_endofrecord))) c.

Definition call_ct (rpc : rpc_proc_info) (ucbi : callback_info) (callflag : Z) c
    : clnt T X * outcome Z :=
  let (ok, h) := mem_alloc (ct_heap (ct_recv c)) in
  let c := set_heap h c in
  if negb ok then (c, Returns RPC_SYSTEMERROR)
  else
    let c := set_status RPC_SUCCESS (set_mcall (decrement_xid (ct_mcall c)) c) in
    let r := ct_recv c in
    match ct_xid_to_ucb r with
    | None => (c, Undefined)
    | Some t =>
        let (t, _) := ght_insert t (xid_host (ct_mcall c)) ucbi in
        let c := set_recv (mk_ct_data (ct_record_state r) (Some t) (ct_datarx r) (ct_heap r) (ct_called r)) c in
        match send_message rpc c with
        | (c, Returns false) => (set_status RPC_CANTENCODEARGS c, Returns RPC_CANTENCODEARGS)
        | (c, Returns true) =>
            if ct_pendingcalls c =? 2 ^ 31 - 1 then (c, Undefined)
            else
              let c := set_pendingcalls (ct_pendingcalls c + 1) c in
              let callflag := if callflag =? RPC_DEFAULT_FLAGS then ct_sockflags c else callflag in
              match receive_ct callflag c with
              | (c, Returns _) => (c, Returns RPC_SUCCESS)
              | r => r
              end
        | (c, Waits) => (c, Waits)
        | (c, Undefined) => (c, Undefined)
        | (c, Spins) => (c, Spins)
        end
    end.
Definition clnttcp_nb_call (handle : option (clnt T X)) (rpc : rpc_proc_info) (ucbi : callback_info)
    (callflag : Z) : option (clnt T X) * outcome Z :=
  on_handle RPC_FAILED (call_ct rpc ucbi callflag) handle.

(** ** Creation and destruction *)

(** What the system answers: [pmap_getport] (0: failure), [socket], [connect],
    [fcntl] with [F_GETFL] and with [F_SETFL], [gettimeofday]. *)
Record system := mk_system {
  sys_pmap_port : Z;
  sys_socket : Z;
  sys_connect : Z;
  sys_getfl : Z;
  sys_setfl : Z -> Z;
  sys_sec : Z;
  sys_usec : Z;
  sys_script : socket
}.

Definition O_NONBLOCK : Z := 2048.
Definition set_fd_nonblocking (sys : system) : Z :=
  if sys_getfl sys <? 0 then -1
  else if sys_setfl sys (Z.lor (sys_getfl sys) O_NONBLOCK) <? 0 then -1
  else 0.

(** [srand48] takes 32 bits of the seed for the upper part of the state; [lrand48]
    makes one step of the generator and returns its upper 31 bits. *)
Definition srand48 (seed : Z) : Z := u32 seed * 2 ^ 16 + 13070.
Definition lrand48 (state : Z) : Z := Z.shiftr (wrap 48 (25214903917 * state + 11)) 17.
Definition create_xid (sys : system) : Z := lrand48 (srand48 (Z.lxor (sys_sec sys) (sys_usec sys))).

(** The handle, the heap, [raddr->sin_port], [*sockp], whether that socket was
    closed, and the table of callbacks if one was made that no handle leads to. *)
Record created := mk_created {
  cr_handle : option (clnt T X);
  cr_heap : heap;
  cr_port : Z;
  cr_sock : Z;
  cr_closed : bool;
  cr_lost : option T
}.

(** [xdr_callhdr] into a buffer of [MCALL_MSG_SIZE] bytes: the bytes written. *)
Context (xdr_callhdr : Z -> Z -> Z -> option (list Z)).

(** [free(handle); free(ct)], where [ct] may be NULL. *)
Definition mem_free_return (with_ct : bool) (h : heap) : option heap :=
  h ← mem_free (PTo tt) h;
  mem_free (if with_ct then PTo tt else PNull) h.

(** The port (in the byte order of the host) and the socket; then [None] if the
    connection succeeds, and otherwise whether the socket was closed. *)
Definition connect_socket (sys : system) (port sock : Z) : Z * Z * option bool :=
  if (port =? 0) && (sys_pmap_port sys =? 0) then (port, sock, Some false)
  else
    let port := if port =? 0 then sys_pmap_port sys else port in
    if sock <? 0 then
      if sys_socket sys <=? 0 then (port, sys_socket sys, Some false)
      else if sys_connect sys <? 0 then (port, sys_socket sys, Some true)
      else (port, sys_socket sys, None)
    else (port, sock, None).

(** [table] is what [ght_create(BUCKET_XID)] returns, which is NULL when memory
    is out and goes into the handle as it is; [xdrs] is what [xdrrec_create] makes. *)
Definition clnttcp_b_create (sys : system) (port prog vers sock sbufsz rbufsz : Z) (table : option T) (xdrs : X)
    (h : heap) : option created :=
  let (ok, h) := mem_alloc h in
  if negb ok then Some (mk_created None h port sock false None)
  else
    let (ok, h) := mem_alloc h in
    if negb ok then h ← mem_free_return false h; Some (mk_created None h port sock false None)
    else
      match connect_socket sys port sock with
      | (port, sock, Some closed) => h ← mem_free_return true h; Some (mk_created None h port sock closed None)
      | (port, sock, None) =>
          let (ok, h) := mem_alloc h in
          if negb ok then Some (mk_created None h port sock false None)
          else
            match xdr_callhdr (create_xid sys) prog vers with
            | None => h ← mem_free_return true h; Some (mk_created None h port sock true table)
            | Some hdr =>
                let mcall := hdr ++ repeat junk (Z.to_nat MCALL_MSG_SIZE - length hdr) in
                let rs := expect_new_rpc_record
                            (mk_rpc_record_state [] 0 0 PNull 0 0 0 (repeat junk 4) junk) in
                Some (mk_created
                  (Some (mk_clnt (mk_ct_data rs table 0 h []) xdrs RPC_SUCCESS
                           (if sbufsz =? 0 then DEFAULT_SOCKRW_SIZE else sbufsz)
                           mcall (length hdr) 0 []
                           (if rbufsz =? 0 then DEFAULT_SOCKRW_SIZE else rbufsz)
                           RPC_BLOCKING_WAIT 0 (sys_script sys)))
                  h port sock false None)
            end
      end.

Definition clnttcp_sock_setflag (sys : system) (handle : option (clnt T X)) (flags : Z)
    : option (clnt T X) * Z :=
  match handle with
  | None => (None, -1)
  | Some c =>
      if is_nonblocking flags then
        if set_fd_nonblocking sys <? 0 then (Some c, -1)
        else (Some (set_sockflags (Z.lor (ct_sockflags c) RPC_NONBLOCK_WAIT) c), 0)
      else (Some c, 0)
  end.

(** The nodes of a list of buffers are freed. *)
Fixpoint free_list (l : list frag_buffer) (h : heap) : option heap :=
  match l with
  | [] => Some h
  | fb :: l => h ← mem_free (PTo fb) h; free_list l h
  end.
(** The heap after [clnttcp_nb_destroy]; the socket is closed and the table
    finalised, which asserts that there is one. *)
Definition clnttcp_nb_destroy (handle : option (clnt T X)) (h : heap) : option heap :=
  match handle with
  | None => Some h
  | Some c =>
      _ ← ct_xid_to_ucb (ct_recv c);
      h ← free_list (rs_frag_list (ct_record_state (ct_recv c))) h;
      h ← free_list (ct_sndlist c) h;
      h ← mem_free (PTo tt) h;
      mem_free (PTo tt) h
  end.

Definition clnttcp_nb_create (sys : system) (port prog vers sock sbufsz rbufsz : Z) (table : option T) (xdrs : X)
    (h : heap) : option created :=
  cr ← clnttcp_b_create sys port prog vers sock sbufsz rbufsz table xdrs h;
  match cr_handle cr with
  | None => Some cr
  | Some c =>
      let (handle, r) := clnttcp_sock_setflag sys (Some c) RPC_NONBLOCK_WAIT in
      if r <? 0 then
        h ← clnttcp_nb_destroy handle (cr_heap cr);
        Some (mk_created None h (cr_port cr) (cr_sock cr) true None)
      else Some (mk_created handle (cr_heap cr) (cr_port cr) (cr_sock cr) false None)
  end.

Definition clnttcp_datatx (handle : option (clnt T X)) : Z :=
  match handle with None => 0 | Some c => ct_datatx c end.
Definition clnttcp_datarx (handle : option (clnt T X)) : Z :=
  match handle with None => 0 | Some c => ct_datarx (ct_recv c) end.
End client.
