(* ===== verification/RpcSend.v ===== *)
(** * Sending is correct

    The bytes handed to the record stream of the C library reach the socket in
    order, none lost and none twice, however [write] cuts them; a call puts one
    complete record on the wire and registers its callback. *)

From S2P Require Import Prelude GhtIface RpcRecord RpcRecordCorrect RpcClient.

(** ** What the record stream promises *)

(** [framed data w]: [w] is a record with content [data], in fragments. *)
Definition framed (data w : list Z) : Prop :=
  exists frags last, data = mjoin frags ++ last /\
    w = mjoin (fragment false <$> frags) ++ fragment true last.

(** [x_rec x data w]: in the current record [data] has been put on the stream,
    and [w] handed to the write function. *)
Class XdrrecLaws (X : Type) `{Xdrrec X} := {
  x_rec : X -> list Z -> list Z -> Prop;
  x_put_ok x data w bs : x_rec x data w ->
    x_rec (snd (x_put x bs)) (data ++ bs) (w ++ mjoin (fst <$> fst (x_put x bs)));
  x_end_ok x data w : x_rec x data w ->
    framed data (w ++ mjoin (fst <$> fst (x_end x))) /\ x_rec (snd (x_end x)) [] []
}.

(** A stream that keeps the record until it ends. *)
#[export] Instance whole_record : Xdrrec (list Z) := {|
  x_put x bs := ([], x ++ bs);
  x_end x := ([(fragment true x, x)], [])
|}.
#[export] Instance whole_record_laws : XdrrecLaws (list Z).
Proof.
  refine {| x_rec x data w := x = data /\ w = [] |}; cbn.
  - by intros x data w bs [-> ->].
  - intros x data w [-> ->]. split; [|done]. exists [], data. cbn. by rewrite app_nil_r.
Defined.

(** ** Buffers and the socket *)

Section sending.
Context {T : Type} {X : Type}.
Implicit Types (c : clnt T X) (b : frag_buffer).

Definition buffer_ok b : Prop :=
  0 <= fb_current b /\ 0 <= fb_len b /\ fb_current b + fb_len b = Z.of_nat (length (fb_base b)).

(** The bytes accepted for transmission: sent, then kept back. *)
Definition pending c : list Z := mjoin (unsent <$> ct_sndlist c).
Definition outgoing c : list Z := so_sent (ct_sock c) ++ pending c.

(** The list of buffers is sound, and each node is a live block. *)
Definition tx_ok c : Prop :=
  is_u 64 (ct_datatx c) /\ Forall buffer_ok (ct_sndlist c) /\
  (length (ct_sndlist c) <= h_live (ct_heap (ct_recv c)))%nat.

(** What sending leaves alone. *)
Definition untouched c :=
  (ct_record_state (ct_recv c), ct_xid_to_ucb (ct_recv c), ct_datarx (ct_recv c), ct_called (ct_recv c),
   h_ok (ct_heap (ct_recv c)), (re_status c, ct_mcall c, ct_mpos c, ct_rbufsz c, ct_sockflags c),
   ct_pendingcalls c, so_reads (ct_sock c)).

(** [c'] comes from [c] by transmission, [bs] having been accepted. *)
Record transmits c (bs : list Z) c' : Prop := {
  tr_untouched : untouched c' = untouched c;
  tr_outgoing : outgoing c' = outgoing c ++ bs;
  tr_ok : tx_ok c';
  tr_live : (h_live (ct_heap (ct_recv c')) + length (ct_sndlist c) =
             h_live (ct_heap (ct_recv c)) + length (ct_sndlist c'))%nat;
  tr_sent : exists d, so_sent (ct_sock c') = so_sent (ct_sock c) ++ d /\
              ct_datatx c' = u64 (ct_datatx c + Z.of_nat (length d));
  tr_writes : exists ws, so_writes (ct_sock c) = ws ++ so_writes (ct_sock c')
}.

Lemma transmits_trans c1 c2 c3 bs1 bs2 :
  transmits c1 bs1 c2 -> transmits c2 bs2 c3 -> transmits c1 (bs1 ++ bs2) c3.
Proof.
  intros [U1 O1 K1 L1 (d1 & S1 & D1) (w1 & W1)] [U2 O2 K2 L2 (d2 & S2 & D2) (w2 & W2)]. constructor.
  - by rewrite U2.
  - by rewrite O2, O1, app_assoc.
  - done.
  - lia.
  - exists (d1 ++ d2). split; [by rewrite S2, S1, app_assoc|].
    rewrite D2, D1, length_app. unfold wrap. rewrite Zplus_mod_idemp_l. f_equal. lia.
  - exists (w1 ++ w2). by rewrite W1, W2, app_assoc.
Qed.

(** Nothing sent: only script and stream state differ. *)
Lemma transmits_nothing c c' : tx_ok c ->
  untouched c' = untouched c -> ct_datatx c' = ct_datatx c -> ct_sndlist c' = ct_sndlist c ->
  h_live (ct_heap (ct_recv c')) = h_live (ct_heap (ct_recv c)) -> so_sent (ct_sock c') = so_sent (ct_sock c) ->
  (exists ws, so_writes (ct_sock c) = ws ++ so_writes (ct_sock c')) -> transmits c [] c'.
Proof.
  intros (Hd & Hb & Hl) HU HD HB HH HS HW. constructor; try done.
  - unfold outgoing, pending. by rewrite HS, HB, app_nil_r.
  - unfold tx_ok. by rewrite HD, HB, HH.
  - by rewrite HH, HB.
  - exists []. rewrite HD, HS, app_nil_r, Z.add_0_r. split; [done|]. by rewrite wrap_small.
Qed.

Lemma transmits_refl c : tx_ok c -> transmits c [] c.
Proof. intros Hc. by apply transmits_nothing; [..|by exists []]. Qed.

(** What [P] holds of every way a step can end. *)
Definition ends {A} (r : clnt T X * outcome A) (P : clnt T X -> outcome A -> Prop) : Prop := P r.1 r.2.

(** How transmission ends: never with undefined behaviour or in a loop without
    end. *)
Definition io_ok {A} (r : outcome A) (P : A -> Prop) : Prop :=
  match r with
  | Returns a => P a
  | Waits => True
  | _ => False
  end.

Lemma select_if_ends {A} wait c (k : clnt T X -> clnt T X * outcome A) P :
  (wait = true -> P (set_selects [] c) Waits) ->
  (forall c', c' = c \/ (exists l, c' = set_selects l c) -> ends (k c') P) -> ends (select_if wait c k) P.
Proof.
  intros HW HK. unfold select_if. destruct wait; [|by apply HK; left].
  destruct (select_loop _) as [rs|]; [by apply HK; right; exists rs|by apply HW].
Qed.

Lemma buffer_split b n : buffer_ok b -> 0 <= n <= fb_len b ->
  unsent b = take (Z.to_nat n) (unsent b) ++ unsent (mk_frag_buffer (fb_base b) (fb_current b + n) (fb_len b - n)) /\
  buffer_ok (mk_frag_buffer (fb_base b) (fb_current b + n) (fb_len b - n)) /\
  length (take (Z.to_nat n) (unsent b)) = Z.to_nat n.
Proof.
  intros (H1 & H2 & H3) Hn. unfold unsent, buffer_ok. cbn. split_and!; try lia.
  - rewrite Z2Nat.inj_add, Z2Nat.inj_sub by lia. rewrite <- drop_drop, take_take, Nat.min_l by lia.
    rewrite <- (take_drop (Z.to_nat n) (drop (Z.to_nat (fb_current b)) (fb_base b))) at 1.
    rewrite take_app, take_take, Nat.min_r by lia. f_equal. rewrite length_take, length_drop. f_equal. lia.
  - rewrite take_take, length_take, length_drop. lia.
Qed.

(** One [write] that takes [n] bytes of the first buffer. *)
Lemma transmits_write c b rest n :
  tx_ok c -> ct_sndlist c = b :: rest -> 0 <= n <= fb_len b ->
  transmits c [] (set_sndlist (mk_frag_buffer (fb_base b) (fb_current b + n) (fb_len b - n) :: rest)
    (set_datatx (u64 (ct_datatx c + n)) (sock_take (take (Z.to_nat n) (unsent b)) c))).
Proof.
  intros (Hd & Hb & Hl) E Hn. rewrite E in Hb, Hl. apply Forall_cons in Hb as [Hb Hr].
  destruct (buffer_split b n Hb Hn) as (H1 & H2 & H3). constructor; try done.
  - unfold outgoing, pending. cbn. rewrite E, app_nil_r. cbn. rewrite <- app_assoc, (app_assoc (take _ _)).
    by rewrite <- H1.
  - split_and!; cbn; [by apply wrap_is_u|by constructor|done].
  - cbn. by rewrite E.
  - cbn. eexists. split; [done|]. by rewrite H3, Z2Nat.id by lia.
  - by exists [].
Qed.

(** A buffer that is done is freed. *)
Lemma transmits_free c b rest :
  tx_ok c -> ct_sndlist c = b :: rest -> fb_len b = 0 ->
  exists h, mem_free (PTo b) (ct_heap (ct_recv c)) = Some h /\ transmits c [] (set_heap h (set_sndlist rest c)).
Proof.
  intros (Hd & Hb & Hl) E Hn. rewrite E in Hb, Hl. apply Forall_cons in Hb as [Hb Hr]. cbn in Hl.
  unfold mem_free. destruct (h_live _) as [|live] eqn:Ev; [lia|]. eexists. split; [done|]. constructor; try done.
  - unfold outgoing, pending. cbn. rewrite E, app_nil_r. cbn. unfold unsent at 2.
    by rewrite Hn.
  - split_and!; [done|done|cbn; lia].
  - cbn. rewrite E, Ev. cbn. lia.
  - exists []. cbn. rewrite app_nil_r, Z.add_0_r. split; [done|]. by rewrite wrap_small.
  - by exists [].
Qed.

(** The next result of [write] is looked at. *)
Lemma transmits_round c c' w ws : tx_ok c -> so_writes (ct_sock c) = w :: ws ->
  c' = c \/ (exists l, c' = set_selects l c) -> transmits c [] (set_writes ws c').
Proof. intros Hc E [->|[l ->]]; (apply transmits_nothing; try done); by exists [w]. Qed.

Lemma set_writes_same c c' ws : c' = c \/ (exists l, c' = set_selects l c) ->
  ct_sndlist (set_writes ws c') = ct_sndlist c /\ so_writes (ct_sock (set_writes ws c')) = ws.
Proof. by intros [->|[l ->]]. Qed.

(** The result 0 with a blocking flag means that everything is sent, and -1
    that some [write] failed. *)
Definition send_result (flag : Z) (ws : list write_result) (r : Z) c : Prop :=
  (r = 0 /\ (is_blocking flag = true -> ct_sndlist c = [])) \/ (r = -1 /\ write_error ∈ ws).

Lemma send_loop_ok ws : forall wait flag c,
  tx_ok c -> so_writes (ct_sock c) = ws ->
  ends (send_loop ws wait flag c) (fun c' r =>
    transmits c [] c' /\ io_ok r (fun n => send_result flag ws n c')).
Proof.
  induction ws as [|w ws IH]; intros wait flag c Hc Hws; destruct (ct_sndlist c) as [|buf rest] eqn:E; cbn [send_loop]; rewrite E.
  1, 3: split; [by apply transmits_refl|by left].
  - apply select_if_ends; [intros _; split; [|done]; by apply transmits_nothing; [..|by exists []]|].
    intros c' [->|[l ->]]; (split; [|done]); [by apply transmits_refl|].
    by apply transmits_nothing; [..|by exists []].
  - apply select_if_ends; [intros _; split; [|done]; by apply transmits_nothing; [..|by exists []]|].
    intros c1 Hc1. pose proof (transmits_round c c1 w ws Hc Hws Hc1) as H1.
    destruct (set_writes_same c c1 ws Hc1) as [E1 W1]. rewrite E in E1.
    set (c2 := set_writes ws c1) in *. clearbody c2. assert (Hc2 := tr_ok _ _ _ H1).
    assert (Hnext : forall c3 wait, transmits c2 [] c3 -> so_writes (ct_sock c3) = ws ->
      ends (send_loop ws wait flag c3) (fun c' r => transmits c [] c' /\ io_ok r (fun n => send_result flag (w :: ws) n c'))).
    { intros c3 wait' H3 W3. destruct (IH wait' flag c3 (tr_ok _ _ _ H3) W3) as [H4 H5]. split.
      - exact (transmits_trans _ _ _ _ _ H1 (transmits_trans _ _ _ _ _ H3 H4)).
      - destruct (send_loop ws wait' flag c3) as [c4 [n| | |]]; try done. cbn in *.
        destruct H5 as [H5|[-> H5]]; [by left|right]. split; [done|by right]. }
    destruct w as [n| |]; cbn zeta.
    + set (written := Z.min (Z.of_nat n) (fb_len buf)).
      assert (Hbuf : buffer_ok buf). { destruct Hc2 as (_ & Hb & _). rewrite E1 in Hb. by apply Forall_cons in Hb as [? _]. }
      assert (Hwr : 0 <= written <= fb_len buf) by (destruct Hbuf as (? & ? & _); lia).
      pose proof (transmits_write c2 buf rest written Hc2 E1 Hwr) as H3.
      destruct (Z.ltb_spec written (fb_len buf)) as [Hpart|Hfull].
      * destruct (is_blocking flag) eqn:Hfl; [by apply Hnext|]. split; [|by left; rewrite Hfl].
        exact (transmits_trans _ _ _ _ _ H1 H3).
      * set (c3 := set_sndlist _ _) in H3.
        assert (E3 : ct_sndlist c3 = mk_frag_buffer (fb_base buf) (fb_current buf + written) (fb_len buf - written) :: rest) by done.
        destruct (transmits_free c3 _ rest (tr_ok _ _ _ H3) E3) as (h & Hh & H4); [cbn; lia|].
        unfold mem_free in Hh |- *. cbn in Hh |- *. destruct (h_live (ct_heap (ct_recv c2))); [done|]. injection Hh as <-.
        apply Hnext; [|done]. exact (transmits_trans _ _ _ _ _ H3 H4).
    + destruct (is_blocking flag) eqn:Hfl; [by apply Hnext; [apply transmits_refl|]|]. split; [done|by left; rewrite Hfl].
    + split; [done|]. right. split; [done|by left].
Qed.

(** [C11] Sending keeps the stream intact: whatever [write] and [select] answer,
    the bytes sent followed by the bytes kept back are what they were, in
    order; [ct_datatx] counts the bytes sent; the buffers stay sound and each
    node is freed once.  With a blocking flag, the result 0 means that nothing
    is kept back; the result -1 is a failed [write]. *)
Theorem send_buffers_fifo flag c :
  tx_ok c ->
  ends (send_buffers c flag) (fun c' r =>
    transmits c [] c' /\ io_ok r (fun n => send_result flag (so_writes (ct_sock c)) n c')).
Proof. intros Hc. by apply send_loop_ok. Qed.

(** The stream is not looked at. *)
Lemma send_loop_xdrs ws : forall wait flag c, ct_xdrs (send_loop ws wait flag c).1 = ct_xdrs c.
Proof.
  induction ws as [|w ws IH]; intros wait flag c; cbn [send_loop]; unfold select_if;
    repeat case_match; try done; by rewrite IH.
Qed.
End sending.

(** ** Messages *)

Section messages.
Context {T : Type} `{GT : Ght T callback_info} {X : Type} `{XL : XdrrecLaws X}.
Implicit Types (c : clnt T X).

(** Why handing over a chunk may fail. *)
Definition write_fails c : Prop := write_error ∈ so_writes (ct_sock c).

Lemma write_fails_later c bs c' : transmits c bs c' -> write_fails c' -> write_fails c.
Proof. intros Ht. unfold write_fails. destruct (tr_writes _ _ _ Ht) as [ws ->]. set_solver. Qed.

Lemma ample_later c bs c' : transmits c bs c' ->
  mem_ample (ct_heap (ct_recv c)) -> mem_ample (ct_heap (ct_recv c')).
Proof.
  intros Ht Hm n. pose proof (tr_untouched _ _ _ Ht) as Hu. unfold untouched in Hu.
  assert (h_ok (ct_heap (ct_recv c')) = h_ok (ct_heap (ct_recv c))) as -> by congruence. apply Hm.
Qed.

(** A chunk is appended to the list and sent as far as the socket takes it. *)
Lemma writetcp_nb_ok c chunk :
  tx_ok c -> mem_ample (ct_heap (ct_recv c)) ->
  ends (writetcp_nb c chunk) (fun c' r => transmits c chunk c' /\ ct_xdrs c' = ct_xdrs c /\
    io_ok r (fun n => n = Z.of_nat (length chunk) \/ n = -1 /\ write_fails c)).
Proof.
  intros (Hd & Hb & Hl) Hm. unfold writetcp_nb, add_buffer_list, mem_alloc. rewrite Hm. cbn zeta iota.
  rewrite Nat2Z.id, firstn_all. set (b := mk_frag_buffer _ _ _). set (c1 := set_heap _ _).
  assert (Hbok : buffer_ok b) by (unfold buffer_ok; cbn; lia).
  assert (Hu : unsent b = chunk) by (unfold unsent; cbn; by rewrite Nat2Z.id, firstn_all).
  assert (Hacc : transmits c chunk c1).
  { constructor; try done.
    - unfold outgoing, pending. cbn. by rewrite fmap_app, join_app, <- app_assoc; cbn; rewrite Hu, app_nil_r.
    - split_and!; [done|by apply Forall_app; split; [|constructor]|]. cbn. rewrite length_app. cbn. lia.
    - cbn. rewrite length_app. cbn. lia.
    - exists []. cbn. rewrite app_nil_r, Z.add_0_r. split; [done|]. by rewrite wrap_small.
    - by exists []. }
  change (0 <? 0) with false. cbn iota. pose proof (tr_ok _ _ _ Hacc) as Hok1.
  destruct (send_loop_ok _ (is_nonblocking (ct_sockflags c1) && is_blocking RPC_NONBLOCK_WAIT)
              RPC_NONBLOCK_WAIT c1 Hok1 eq_refl) as [Hs Hr].
  pose proof (send_loop_xdrs (so_writes (ct_sock c1))
    (is_nonblocking (ct_sockflags c1) && is_blocking RPC_NONBLOCK_WAIT) RPC_NONBLOCK_WAIT c1) as Hx.
  unfold send_buffers. destruct (send_loop _ _ _ _) as [c2 r]. cbn in Hs, Hr, Hx.
  assert (Hc2 : transmits c chunk c2).
  { rewrite <- (app_nil_r chunk). exact (transmits_trans _ _ _ _ _ Hacc Hs). }
  destruct r as [n| | |]; cbn in Hr |- *; try done.
  split; [done|]. split; [done|]. cbn. destruct Hr as [[-> _]|[-> Hr]]; [by left|right]. by split.
Qed.

(** [bs] has been handed over; [r] says whether everything went well. *)
Definition handed c (bs : list Z) c' (r : outcome bool) : Prop :=
  io_ok r (fun b => b = false -> write_fails c) /\
  exists pre, transmits c pre c' /\ (r = Returns true -> pre = bs).

Lemma hand_over_ok chunks x' : forall c,
  tx_ok c -> mem_ample (ct_heap (ct_recv c)) ->
  ends (hand_over chunks x' c) (fun c' r => handed c (mjoin (fst <$> chunks)) c' r /\
    (r = Returns true -> ct_xdrs c' = x')).
Proof.
  induction chunks as [|[chunk failed] chunks IH]; intros c Hc Hm.
  - cbn. split; [|done]. split; [done|]. exists []. split; [|done]. destruct (transmits_refl c Hc). by constructor.
  - cbn [hand_over]. destruct (writetcp_nb_ok c chunk Hc Hm) as (Ht & Hx & Hr).
    destruct (writetcp_nb c chunk) as [c1 r]. cbn in Ht, Hr.
    destruct r as [n| | |]; try done; cbn in Hr.
    2: { split; [|done]. split; [done|]. by exists chunk. }
    destruct (Z.eqb_spec n (Z.of_nat (length chunk))) as [->|Hne].
    + destruct (IH c1 (tr_ok _ _ _ Ht) (ample_later _ _ _ Ht Hm)) as ((Hio & pre & Hp & Hpre) & Hx2).
      destruct (hand_over chunks x' c1) as [c2 r]. cbn in Hio, Hp, Hpre, Hx2. split; [|done]. split.
      * destruct r; try done. cbn in *. intros ->. by eapply write_fails_later, Hio.
      * exists (chunk ++ pre). split; [by eapply transmits_trans|]. intros Hr2. exact (f_equal (app chunk) (Hpre Hr2)).
    + destruct Hr as [|[-> Hr]]; [done|]. split; [|done]. split; [by intros _|]. exists chunk. split; [|done].
      destruct Ht. by constructor.
Qed.

(** Steps of marshalling: from a record with [data] put to one with [data ++ bs]. *)
Definition puts (f : clnt T X -> clnt T X * outcome bool) (bs : list Z) (fails : Prop) : Prop :=
  forall c data w, tx_ok c -> mem_ample (ct_heap (ct_recv c)) -> x_rec (ct_xdrs c) data w ->
    ends (f c) (fun c' r =>
      io_ok r (fun b => b = false -> write_fails c \/ fails) /\
      exists out, transmits c out c' /\ (r = Returns true -> x_rec (ct_xdrs c') (data ++ bs) (w ++ out))).

Lemma xdr_put_ok bs : puts (xdr_put bs) bs False.
Proof.
  intros c data w Hc Hm Hrec. unfold xdr_put. pose proof (x_put_ok _ _ _ bs Hrec) as Hput.
  destruct (x_put (ct_xdrs c) bs) as [chunks x']. cbn in Hput.
  destruct (hand_over_ok chunks x' c Hc Hm) as ((Hio & pre & Hp & Hpre) & Hx).
  destruct (hand_over chunks x' c) as [c' r]. unfold ends. cbn in *. split.
  - destruct r; try done. cbn in *. tauto.
  - exists pre. split; [done|]. intros Hr. rewrite (Hx Hr), (Hpre Hr). exact Hput.
Qed.

Lemma puts_and_then f g bs1 bs2 F1 F2 :
  puts f bs1 F1 -> puts g bs2 F2 -> puts (and_then f g) (bs1 ++ bs2) (F1 \/ F2).
Proof.
  intros Hf Hg c data w Hc Hm Hrec. unfold and_then.
  destruct (Hf c data w Hc Hm Hrec) as (Hio & out & Ht & Hr). destruct (f c) as [c1 r1]. cbn in Hio, Ht, Hr.
  destruct r1 as [[|]| | |]; try done.
  - destruct (Hg c1 (data ++ bs1) (w ++ out) (tr_ok _ _ _ Ht) (ample_later _ _ _ Ht Hm) (Hr eq_refl))
      as (Hio2 & out2 & Ht2 & Hr2). destruct (g c1) as [c2 r2]. cbn in Hio2, Ht2, Hr2. split.
    + destruct r2 as [b| | |]; try done. cbn in *. intros Hb. destruct (Hio2 Hb) as [Hw|Hw]; [|tauto].
      left. by eapply write_fails_later.
    + exists (out ++ out2). split; [by eapply transmits_trans|]. intros E. rewrite !app_assoc. exact (Hr2 E).
  - split; [|by exists out]. cbn in *. intros _. destruct (Hio eq_refl); tauto.
  - split; [done|]. by exists out.
Qed.

Lemma inproc_puts rpc : puts (inproc rpc) (inargs rpc) (inproc_ok rpc = false).
Proof.
  intros c data w Hc Hm Hrec. unfold inproc. destruct (xdr_put_ok (inargs rpc) c data w Hc Hm Hrec) as (Hio & out & Ht & Hr).
  destruct (xdr_put (inargs rpc) c) as [c' [b| | |]]; try done; unfold ends; cbn in *.
  - split; [|exists out; split; [done|]].
    + intros [->|Hok]%andb_false_iff; [|by right]. destruct (Hio eq_refl); [by left|done].
    + intros [= [-> _]%andb_true_iff]. by apply Hr.
  - split; [done|]. by exists out.
Qed.

(** The end of a record. *)
Lemma endofrecord_ok c data w :
  tx_ok c -> mem_ample (ct_heap (ct_recv c)) -> x_rec (ct_xdrs c) data w ->
  ends (xdrrec_endofrecord c) (fun c' r =>
    io_ok r (fun b => b = false -> write_fails c) /\
    exists out, transmits c out c' /\ (r = Returns true -> x_rec (ct_xdrs c') [] [] /\ framed data (w ++ out))).
Proof.
  intros Hc Hm Hrec. unfold xdrrec_endofrecord. pose proof (x_end_ok _ _ _ Hrec) as Hend.
  destruct (x_end (ct_xdrs c)) as [chunks x']. cbn in Hend.
  destruct (hand_over_ok chunks x' c Hc Hm) as ((Hio & pre & Hp & Hpre) & Hx).
  destruct (hand_over chunks x' c) as [c' r]. unfold ends. cbn in *. split; [done|].
  exists pre. split; [done|]. intros Hr. rewrite (Hx Hr), (Hpre Hr). by destruct Hend.
Qed.

Context (auth : list Z).

(** The message of a call: the static header, the procedure, the credentials,
    the arguments. *)
Definition message c (rpc : rpc_proc_info) : list Z :=
  take (ct_mpos c) (ct_mcall c) ++ be 4 (proc rpc) ++ auth ++ inargs rpc.

Lemma send_message_ok c rpc data w :
  tx_ok c -> mem_ample (ct_heap (ct_recv c)) -> x_rec (ct_xdrs c) data w ->
  ends (send_message auth rpc c) (fun c' r =>
    io_ok r (fun b => b = false -> write_fails c \/ inproc_ok rpc = false) /\
    exists out, transmits c out c' /\
      (r = Returns true -> x_rec (ct_xdrs c') [] [] /\ framed (data ++ message c rpc) (w ++ out))).
Proof.
  intros Hc Hm Hrec. unfold send_message. set (hdr := xdr_put (take _ _)).
  set (body := and_then hdr (and_then (xdr_put (be 4 (proc rpc))) (and_then (xdr_put auth) (inproc rpc)))).
  assert (Hput : puts body (message c rpc) (False \/ False \/ False \/ inproc_ok rpc = false)).
  { repeat apply puts_and_then; try apply xdr_put_ok. apply inproc_puts. }
  assert (Hassoc : and_then hdr (and_then (xdr_put (be 4 (proc rpc))) (and_then (xdr_put auth)
      (and_then (inproc rpc) xdrrec_endofrecord))) c =
    and_then body xdrrec_endofrecord c).
  { unfold body, and_then. by repeat case_match; simplify_eq. }
  rewrite Hassoc. clear Hassoc. clearbody body. unfold and_then.
  destruct (Hput c data w Hc Hm Hrec) as (Hio & out & Ht & Hr). destruct (body c) as [c1 r1].
  cbn in Hio, Ht, Hr. destruct r1 as [[|]| | |]; try done.
  - destruct (endofrecord_ok c1 _ _ (tr_ok _ _ _ Ht) (ample_later _ _ _ Ht Hm) (Hr eq_refl))
      as (Hio2 & out2 & Ht2 & Hr2). destruct (xdrrec_endofrecord c1) as [c2 r2]. unfold ends. cbn in *. split.
    + destruct r2; try done. cbn in *. intros Hb. left. by eapply write_fails_later, Hio2.
    + exists (out ++ out2). split; [by eapply transmits_trans|]. intros E. rewrite app_assoc. exact (Hr2 E).
  - split; [|by exists out]. cbn in *. intros _. destruct (Hio eq_refl); tauto.
  - split; [done|]. by exists out.
Qed.
End messages.
