(* ===== verification/RpcClientCorrect.v ===== *)
(** * The RPC client is correct

    A call puts its message on the wire and its callback in the table; polling
    answers every call; transaction ids do not repeat; creation step by step, with
    what each failure loses; and what goes wrong after a failed call or a stray
    reply. *)

From S2P Require Import Prelude GhtIface RpcRecord RpcRecordCorrect RpcClient RpcSend.

(** ** Transaction ids *)

(** The header after [n] calls. *)
Definition after_calls (n : nat) (mcall : list Z) : list Z := Nat.iter n decrement_xid mcall.

Definition mcall_ok (mcall : list Z) : Prop := (4 <= length mcall)%nat /\ bytes_ok mcall.

(** The transaction id as the machine reads it. *)
Definition native (mcall : list Z) : Z := unbe (rev (take 4 mcall)).

Lemma mcall_word mcall : mcall_ok mcall -> is_u 32 (native mcall) /\ is_u 32 (xid_host mcall).
Proof.
  intros [Hl Hb]. assert (Ht : length (take 4 mcall) = 4%nat) by (rewrite length_take; lia).
  assert (Hbt : bytes_ok (take 4 mcall)) by (by apply Forall_take). unfold native, xid_host. split.
  - pose proof (unbe_range (rev (take 4 mcall))) as Hr. rewrite length_rev, Ht in Hr. apply Hr. by apply Forall_rev.
  - pose proof (unbe_range (take 4 mcall)) as Hr. rewrite Ht in Hr. by apply Hr.
Qed.

Lemma decrement_ok mcall : mcall_ok mcall ->
  mcall_ok (decrement_xid mcall) /\ native (decrement_xid mcall) = u32 (native mcall - 1).
Proof.
  intros [Hl Hb]. unfold decrement_xid. fold (native mcall). set (v := u32 _).
  assert (Hv : is_u 32 v) by (by apply wrap_is_u). split; [split|].
  - rewrite length_app, length_rev, length_be. lia.
  - apply Forall_app. split; [apply Forall_rev, be_bytes_ok|by apply Forall_drop].
  - unfold native. rewrite take_app_le by (by rewrite length_rev, length_be).
    rewrite (firstn_all2 (n := 4)) by (by rewrite length_rev, length_be).
    rewrite rev_involutive, unbe_be. by apply Z.mod_small.
Qed.

Lemma after_calls_ok n mcall : mcall_ok mcall ->
  mcall_ok (after_calls n mcall) /\ native (after_calls n mcall) = u32 (native mcall - Z.of_nat n).
Proof.
  intros Hm. induction n as [|n [IH1 IH2]]; cbn [after_calls Nat.iter].
  - split; [done|]. destruct (mcall_word mcall Hm) as [Hw _]. rewrite Z.sub_0_r. by rewrite wrap_small.
  - destruct (decrement_ok _ IH1) as [H1 H2]. split; [done|]. change (native (decrement_xid (after_calls n mcall)) = u32 (native mcall - Z.of_nat (S n))).
    rewrite H2. fold (after_calls n mcall) in IH2. rewrite IH2. unfold wrap. rewrite Zminus_mod_idemp_l. f_equal. lia.
Qed.

Lemma unbe_inj a : forall b, length a = length b -> bytes_ok a -> bytes_ok b -> unbe a = unbe b -> a = b.
Proof.
  induction a as [|x a IH]; intros [|y b] Hl Ha Hb E; try done. apply Forall_cons in Ha as [Hx Ha], Hb as [Hy Hb].
  rewrite !unbe_cons in E. cbn in Hl. injection Hl as Hl. rewrite Hl in E.
  pose proof (unbe_range a Ha) as Ra. pose proof (unbe_range b Hb) as Rb. rewrite Hl in Ra.
  assert (x = y) as <- by nia. f_equal. apply IH; [done|done|done|lia].
Qed.

Lemma xid_host_native m1 m2 : mcall_ok m1 -> mcall_ok m2 -> xid_host m1 = xid_host m2 -> native m1 = native m2.
Proof.
  intros [L1 B1] [L2 B2] E. unfold native. do 2 f_equal. apply unbe_inj; [|by apply Forall_take..|done].
  rewrite !length_take. lia.
Qed.

Lemma xids_inj mcall i j :
  mcall_ok mcall -> 0 <= Z.of_nat i < 2 ^ 32 -> 0 <= Z.of_nat j < 2 ^ 32 ->
  xid_host (after_calls i mcall) = xid_host (after_calls j mcall) -> i = j.
Proof.
  intros Hm Hi Hj E. destruct (after_calls_ok i mcall Hm) as [O1 E1], (after_calls_ok j mcall Hm) as [O2 E2].
  apply (xid_host_native _ _ O1 O2) in E. rewrite E1, E2 in E. unfold wrap in E.
  destruct (mcall_word mcall Hm) as [[Hw1 Hw2] _].
  assert (H : (Z.of_nat j - Z.of_nat i) mod 2 ^ 32 = 0).
  { replace (Z.of_nat j - Z.of_nat i) with ((native mcall - Z.of_nat i) - (native mcall - Z.of_nat j)) by lia.
    rewrite Zminus_mod, E, Z.sub_diag. done. }
  apply Z.mod_divide in H as [q Hq]; [|done]. nia.
Qed.

(** [C31] The transaction ids of 2^32 consecutive calls are distinct, although the
    decrement works on the wrong end of the number for a little-endian
    machine. *)
Theorem xids_distinct mcall i j :
  mcall_ok mcall -> 0 <= Z.of_nat i < 2 ^ 32 -> 0 <= Z.of_nat j < 2 ^ 32 ->
  xid_host (after_calls i mcall) = xid_host (after_calls j mcall) -> i = j.
Proof. apply xids_inj. Qed.

(** ** Calls *)

Section calls.
Context {T : Type} `{GL : GhtLaws T callback_info} {X : Type} `{XL : XdrrecLaws X}.
Implicit Types (c : clnt T X) (s : session).

(** A sound client at a position of the reply stream: [k] blocks are live
    besides the nodes of the send list and one for each waiting call. *)
Record client_ok k st c s : Prop := {
  co_rep : Rep (k + length (ct_sndlist c)) st (ct_recv c) s;
  co_tx : tx_ok c;
  co_stream : x_rec (ct_xdrs c) [] [];
  co_mcall : mcall_ok (ct_mcall c)
}.

Lemma sess_later k k' (r r' : ct_data T) s :
  sess k r s -> ct_xid_to_ucb r' = ct_xid_to_ucb r -> ct_called r' = ct_called r ->
  h_ok (ct_heap r') = h_ok (ct_heap r) -> (h_live (ct_heap r') + k = h_live (ct_heap r) + k')%nat ->
  sess k' r' s.
Proof.
  unfold sess. intros (H1 & H2 & H3 & H4 & H5) -> -> E Hl. split_and!; try done; [|lia].
  intros n. rewrite E. apply H4.
Qed.

Lemma Rep_later k k' st (r r' : ct_data T) s :
  Rep k st r s -> ct_record_state r' = ct_record_state r ->
  ct_xid_to_ucb r' = ct_xid_to_ucb r -> ct_called r' = ct_called r ->
  h_ok (ct_heap r') = h_ok (ct_heap r) -> (h_live (ct_heap r') + k = h_live (ct_heap r) + k')%nat ->
  Rep k' st r' s.
Proof.
  intros HR E1 E2 E3 E4 E5. destruct st as [[got n]|]; cbn in HR |- *; rewrite E1.
  - destruct HR as (H1 & H2 & H3). split_and!; [done|done|]. eapply sess_later; [done..|lia].
  - destruct HR as (H1 & H2). split; [done|]. by eapply sess_later.
Qed.

Lemma Rep_ample k st (r : ct_data T) s : Rep k st r s -> mem_ample (ct_heap r).
Proof. destruct st as [[got n]|]; cbn; [intros (_ & _ & Hs)|intros (_ & Hs)]; apply Hs. Qed.

Lemma Rep_table k st (r : ct_data T) s : Rep k st r s -> ght_ok (ct_xid_to_ucb r).
Proof. destruct st as [[got n]|]; cbn; [intros (_ & _ & Hs)|intros (_ & Hs)]; apply Hs. Qed.

(** Transmission keeps the client sound. *)
Lemma transmits_rep k st c bs c' s :
  transmits c bs c' -> Rep (k + length (ct_sndlist c)) st (ct_recv c) s ->
  Rep (k + length (ct_sndlist c')) st (ct_recv c') s.
Proof.
  intros [HU _ _ HL _ _] HR. unfold untouched in HU. injection HU as H1 H2 _ H3 H4 _ _ _ _ _ _ _.
  eapply Rep_later; [exact HR|done..|lia].
Qed.

Lemma transmits_fields c bs c' : transmits c bs c' ->
  ct_mcall c' = ct_mcall c /\ ct_mpos c' = ct_mpos c /\ ct_sockflags c' = ct_sockflags c /\
  ct_pendingcalls c' = ct_pendingcalls c /\ so_reads (ct_sock c') = so_reads (ct_sock c) /\
  ct_xid_to_ucb (ct_recv c') = ct_xid_to_ucb (ct_recv c).
Proof. intros [HU _ _ _ _ _]. unfold untouched in HU. by injection HU as ? ? ? ? ? ? ? ? ? ? ? ?. Qed.

(** The flush at the start of [clnttcp_nb_receive]. *)
Lemma send_buffers_keeps k st c s flag :
  client_ok k st c s ->
  ends (send_buffers c flag) (fun c' r => io_ok r (fun _ => client_ok k st c' s) /\ transmits c [] c').
Proof.
  intros [HR Ht Hx Hm]. unfold send_buffers.
  set (w := is_nonblocking _ && _). pose proof (send_loop_xdrs (so_writes (ct_sock c)) w flag c) as Hxd.
  destruct (send_loop_ok (so_writes (ct_sock c)) w flag c Ht eq_refl) as [Hs Hr].
  destruct (send_loop _ _ _ _) as [c' r]. cbn in Hxd, Hs, Hr. split; [|done].
  destruct r; try done. cbn. destruct (transmits_fields _ _ _ Hs) as (Hmc & _).
  constructor; [by eapply transmits_rep|apply Hs|by rewrite Hxd|by rewrite Hmc].
Qed.

(** The registration of the callback. *)
Lemma register_ok k st c s x cbi :
  Rep k st (ct_recv c) s -> is_u 32 x -> x ∉ (sn_calls s).*1 ->
  Z.of_nat (length (sn_calls s)) < 2 ^ 31 - 1 -> snd (ght_insert (ct_xid_to_ucb (ct_recv c)) x cbi) <> -2 ->
  forall h, h_ok h = h_ok (ct_heap (ct_recv c)) -> h_live h = S (h_live (ct_heap (ct_recv c))) ->
  Rep k st (mk_ct_data (ct_record_state (ct_recv c)) (fst (ght_insert (ct_xid_to_ucb (ct_recv c)) x cbi))
              (ct_datarx (ct_recv c)) h (ct_called (ct_recv c)))
    (mk_session (sn_calls s ++ [(x, cbi)]) (sn_called s)).
Proof.
  intros HR Hx Hn Hlen Hmem h Hh1 Hh2.
  assert (Hs : exists k', sess k' (ct_recv c) s /\ forall r' s', ct_record_state r' = ct_record_state (ct_recv c) ->
    sess k' r' s' -> Rep k st r' s').
  { destruct st as [[got n]|]; cbn in HR.
    - destruct HR as (H1 & H2 & H3). exists (S k). split; [done|]. intros r' s' E Hs. cbn. by rewrite E.
    - destruct HR as (H1 & H2). exists k. split; [done|]. intros r' s' E Hs. cbn. by rewrite E. }
  destruct Hs as (k' & (Ht & He & Hc & Ha & Hl) & Hrep). apply Hrep; [done|].
  destruct (ght_insert_ok (ct_xid_to_ucb (ct_recv c)) x cbi Ht Hx) as [Ht' Hins]; [by rewrite He|].
  rewrite He in Hins. destruct Hins as [(_ & _ & E)|[(_ & Hin & _)|(E & _)]]; [|done|done].
  split_and!; cbn; try done; [by intros n; rewrite Hh1|]. rewrite Hh2, Hl, length_app. cbn. lia.
Qed.

Context (junk : Z) (xdr_replymsg : list Z -> option (Z * list Z)) (auth : list Z).

(** The client after the steps before marshalling. *)
Definition prepared c cbi : clnt T X :=
  let mcall := decrement_xid (ct_mcall c) in
  let r := ct_recv c in
  set_recv (mk_ct_data (ct_record_state r) (fst (ght_insert (ct_xid_to_ucb r) (xid_host mcall) cbi))
              (ct_datarx r) (mem_alloc (ct_heap r)).2 (ct_called r))
    (set_status RPC_SUCCESS (set_mcall mcall c)).

(** What a call comes to once the message is out. *)
Lemma call_ct_unfold rpc cbi flag c :
  mem_ample (ct_heap (ct_recv c)) -> ght_ok (ct_xid_to_ucb (ct_recv c)) ->
  call_ct junk xdr_replymsg auth rpc cbi flag c =
    match send_message auth rpc (prepared c cbi) with
    | (c, Returns false) => (set_status RPC_CANTENCODEARGS c, Returns RPC_CANTENCODEARGS)
    | (c, Returns true) =>
        if ct_pendingcalls c =? 2 ^ 31 - 1 then (c, Undefined)
        else
          let c := set_pendingcalls (ct_pendingcalls c + 1) c in
          match receive_ct junk xdr_replymsg (if flag =? RPC_DEFAULT_FLAGS then ct_sockflags c else flag) c with
          | (c, Returns _) => (c, Returns RPC_SUCCESS)
          | r => r
          end
    | (c, Waits) => (c, Waits)
    | (c, Undefined) => (c, Undefined)
    | (c, Spins) => (c, Spins)
    end.
Proof.
  intros Hm Ht. unfold call_ct, prepared, mem_alloc. rewrite Hm. cbn -[xid_host].
  destruct (ct_xid_to_ucb (ct_recv c)) as [t|]; [|done].
  by destruct (ght_insert t (xid_host (decrement_xid (ct_mcall c))) cbi).
Qed.

(** What is asked of a call for it to go through. *)
Record callable c s rpc cbi : Prop := {
  ca_args : inproc_ok rpc = true;
  ca_writes : write_error ∉ so_writes (ct_sock c);
  ca_fresh : xid_host (decrement_xid (ct_mcall c)) ∉ (sn_calls s).*1;
  ca_room : Z.of_nat (length (sn_calls s)) < 2 ^ 31 - 1;
  ca_table : snd (ght_insert (ct_xid_to_ucb (ct_recv c)) (xid_host (decrement_xid (ct_mcall c))) cbi) <> -2;
  ca_pending : ct_pendingcalls c <> 2 ^ 31 - 1
}.

Definition called s x cbi : session := mk_session (sn_calls s ++ [(x, cbi)]) (sn_called s).

(** Up to the reception of replies. *)
Lemma send_call_ok k st c s rpc cbi :
  client_ok k st c s -> callable c s rpc cbi ->
  ends (send_message auth rpc (prepared c cbi)) (fun c' r =>
    io_ok r (fun b => b = true /\
      client_ok k st c' (called s (xid_host (decrement_xid (ct_mcall c))) cbi) /\
      exists w, framed (message auth (prepared c cbi) rpc) w /\ outgoing c' = outgoing c ++ w) /\
    exists out, transmits (prepared c cbi) out c').
Proof.
  intros [HR Ht Hx Hm] [Hok Hw Hf Hroom Htab _]. destruct (decrement_ok _ Hm) as [Hm' _].
  pose proof (Rep_ample _ _ _ _ HR) as Ha. set (x := xid_host _).
  assert (HR1 : Rep (k + length (ct_sndlist (prepared c cbi))) st (ct_recv (prepared c cbi)) (called s x cbi)).
  { apply register_ok; try done; [by apply mcall_word| |]; unfold mem_alloc; by rewrite Ha. }
  assert (Ht1 : tx_ok (prepared c cbi)).
  { destruct Ht as (H1 & H2 & H3). split_and!; try done. cbn. unfold mem_alloc. rewrite Ha. cbn. lia. }
  destruct (send_message_ok auth (prepared c cbi) rpc [] [] Ht1 (Rep_ample _ _ _ _ HR1) Hx) as (Hio & out & Htr & Hr).
  destruct (send_message auth rpc (prepared c cbi)) as [c' r]. cbn in Hio, Htr, Hr. split; [|by exists out].
  destruct r as [b| | |]; try done. cbn in *.
  assert (b = true) as ->. { destruct b; [done|]. destruct (Hio eq_refl) as [Hf'|Hf']; [by destruct Hw|by rewrite Hok in Hf']. }
  destruct (Hr eq_refl) as [Hxr Hfr]. split; [done|]. split.
  - constructor; [by eapply transmits_rep|apply Htr|done|]. by destruct (transmits_fields _ _ _ Htr) as (-> & _).
  - exists out. split; [exact Hfr|]. by rewrite (tr_outgoing _ _ _ Htr).
Qed.
End calls.

(** ** Replies *)

(** No [read] ends inside a header. *)
Fixpoint cuts (st : position) (rs : list read_result) : Prop :=
  match rs with
  | [] => True
  | read_nothing :: rs => cuts st rs
  | read_bytes bs :: rs => exists st1 out, Feed st bs st1 out /\ cuts st1 rs
  end.

Definition bytes_of (rs : list read_result) : list Z :=
  mjoin ((fun r => match r with read_bytes bs => bs | read_nothing => [] end) <$> rs).

Section replies.
Context {T : Type} `{GL : GhtLaws T callback_info} {X : Type} `{XL : XdrrecLaws X}.
Context (junk : Z) (xdr_replymsg : list Z -> option (Z * list Z)).
Context (replymsg_word : forall m xid payload, xdr_replymsg m = Some (xid, payload) -> is_u 32 xid).
Implicit Types (c : clnt T X) (s : session).

(** The client has read [used] and delivered the records [out]. *)
Record received k st c s (used : list read_result) (out : list (list Z)) c' : Prop := {
  rc_used : so_reads (ct_sock c) = used ++ so_reads (ct_sock c');
  rc_feed : exists st', Feed st (bytes_of used) st' out /\ cuts st' (so_reads (ct_sock c')) /\
              client_ok (k + length out) st' c' (foldl (reply xdr_replymsg) s out);
  rc_keeps : ct_sockflags c' = ct_sockflags c /\ outgoing c' = outgoing c
}.

(** Only the scripts of the socket change. *)
Lemma client_ok_sock k st c s so : client_ok k st c s -> client_ok k st (set_sock so c) s.
Proof. intros [HR [H1 H2] H3 H4]. by constructor. Qed.

Lemma received_nothing k st c s c' used :
  client_ok k st c s -> cuts st (so_reads (ct_sock c')) -> bytes_of used = [] ->
  so_reads (ct_sock c) = used ++ so_reads (ct_sock c') -> 
  (exists so, c' = set_sock so c /\ so_sent so = so_sent (ct_sock c)) -> received k st c s used [] c'.
Proof.
  intros Hc Hcut Hb Hu (so & -> & Hso). constructor; [done| |split; [done|by unfold outgoing; cbn; rewrite Hso]]. exists st. rewrite Hb, Nat.add_0_r.
  split; [constructor|]. split; [done|by apply client_ok_sock].
Qed.

Lemma Rep_live k st (r : ct_data T) s : Rep k st r s -> (k <= h_live (ct_heap r))%nat.
Proof. destruct st as [[got n]|]; cbn; [intros (_ & _ & Hs)|intros (_ & Hs)]; destruct Hs as (_ & _ & _ & _ & ->); lia. Qed.

(** One [read] and the [update_frag_state] after it. *)
Lemma receive_one k st c s bs rs st1 o1 :
  client_ok k st c s -> Feed st bs st1 o1 ->
  exists r, update_frag_state junk xdr_replymsg (ct_recv c) bs = ROk (r, Z.of_nat (length o1)) /\
    client_ok (k + length o1) st1 (set_recv r (set_reads rs c)) (foldl (reply xdr_replymsg) s o1).
Proof.
  intros [HR (Hd & Hb & _) Hx Hm] HF.
  destruct (update_frag_state_feed junk xdr_replymsg replymsg_word _ _ _ _ _ _ _ HF HR) as (r & E & HR1).
  exists r. split; [done|].
  assert (HR2 : Rep (k + length o1 + length (ct_sndlist c)) st1 r (foldl (reply xdr_replymsg) s o1)).
  { by replace (k + length o1 + length (ct_sndlist c))%nat with (k + length (ct_sndlist c) + length o1)%nat by lia. }
  constructor; [exact HR2| |done|done]. split; [exact Hd|]. split; [exact Hb|].
  pose proof (Rep_live _ _ _ _ HR2). cbn. lia.
Qed.

(** How the loop ends: without touching [ct_pendingcalls]; with the number of records, which is 0 only when [read]
    had nothing or when the caller does not want to block; or waiting, nothing
    having been delivered. *)
Definition read_result_ok c flag used (out : list (list Z)) (r : outcome Z) c' : Prop :=
  ct_pendingcalls c' = ct_pendingcalls c /\
  match r with
  | Returns n => n = Z.of_nat (length out) /\
      (out = [] -> last used = Some read_nothing \/ is_nonblocking flag = true)
  | Waits => out = [] /\ (is_nonblocking (ct_sockflags c) = false -> so_reads (ct_sock c') = [])
  | _ => False
  end.

Lemma read_loop_ok rs : forall wait flag c st k s,
  client_ok k st c s -> so_reads (ct_sock c) = rs -> cuts st rs ->
  (wait = true -> is_nonblocking (ct_sockflags c) = true) ->
  ends (read_loop junk xdr_replymsg rs wait flag 0 c) (fun c' r => exists used out,
    received k st c s used out c' /\ read_result_ok c flag used out r c').
Proof.
  induction rs as [|x rs IH]; intros wait flag c st k s Hc Hrs Hcut Hw; cbn [read_loop].
  - apply select_if_ends.
    + intros Hwt. exists [], []. split; [apply received_nothing; try done; [by cbn; rewrite Hrs|by eexists; split]|].
      split; [done|]. split; [done|]. rewrite Hw by done. done.
    + intros c1 Hc1. exists [], []. split.
      * destruct Hc1 as [->|[l ->]]; apply received_nothing; try done; try (by cbn; rewrite Hrs); try (by eexists; split).
        exists (ct_sock c). by destruct c.
      * split; [by destruct Hc1 as [->|[l ->]]|]. split; [done|]. intros _. by destruct Hc1 as [->|[l ->]].
  - apply select_if_ends.
    { intros Hwt. exists [], []. split; [apply received_nothing; try done; [by cbn; rewrite Hrs|by eexists; split]|].
      split; [done|]. split; [done|]. by rewrite Hw. }
    intros c1 Hc1. assert (Hc1' : exists so, c1 = set_sock so c /\ so_reads so = x :: rs /\ so_sent so = so_sent (ct_sock c)).
    { destruct Hc1 as [->|[l ->]]; [exists (ct_sock c); by destruct c|by eexists; split]. }
    clear Hc1. destruct Hc1' as (so & -> & Hso & Hst). destruct x as [bs|].
    2: { exists [read_nothing], []. split.
         - apply received_nothing; try done; by eexists; split.
         - split; [done|]. split; [done|]. intros _. by left. }
    cbn in Hcut. destruct Hcut as (st1 & o1 & HF & Hcut).
    destruct (receive_one k st (set_sock so c) s bs rs st1 o1) as (r & E & Hc2); [by apply client_ok_sock|done|].
    cbn zeta. change (ct_recv (set_sock so c)) with (ct_recv c) in E.
    change (ct_recv (set_reads rs (set_sock so c))) with (ct_recv c). rewrite E. set (c2 := set_recv r _) in *.
    assert (Hhere : forall P : bool, negb P = true \/ is_nonblocking flag = true -> (negb P = true -> o1 <> []) ->
      ends (c2, Returns (Z.of_nat (length o1))) (fun c' r' => exists used out,
        received k st c s used out c' /\ read_result_ok c flag used out r' c')).
    { intros P HP Ho. exists [read_bytes bs], o1. split.
      - constructor; [by rewrite Hrs| |split; [done|by unfold outgoing; cbn; rewrite Hst]]. exists st1. cbn. rewrite app_nil_r. done.
      - split; [done|]. split; [done|]. intros ->. right. destruct HP as [HP|HP]; [by destruct (Ho HP)|done]. }
    assert (Hgo : forall wait, o1 = [] -> (wait = true -> is_nonblocking (ct_sockflags c) = true) ->
      ends (read_loop junk xdr_replymsg rs wait flag (Z.of_nat (length o1)) c2) (fun c' r' => exists used out,
        received k st c s used out c' /\ read_result_ok c flag used out r' c')).
    { intros wait' -> Hw'. destruct (IH wait' flag c2 st1 (k + 0)%nat s Hc2 eq_refl Hcut Hw') as (used & out & Hrec & Hres).
      exists (read_bytes bs :: used), out. destruct Hrec as [Hu (st' & HF' & Hcut' & Hc') Hk]. split.
      - constructor; [rewrite Hrs; exact (f_equal (cons (read_bytes bs)) Hu)| |]; [|destruct Hk as [Hk1 Hk2]; split; [exact Hk1|]; etrans; [exact Hk2|]; unfold outgoing; cbn; by rewrite Hst]. exists st'. cbn. rewrite Nat.add_0_r in Hc'.
        split; [|done]. exact (feed_trans _ _ _ _ _ _ _ HF HF').
      - destruct (read_loop _ _ _ _ _ _ _) as [c' [n| | |]]; destruct Hres as [Hp Hres]; try done; (split; [exact Hp|]).
        cbn in Hres |- *. destruct Hres as [-> Hres]. split; [done|]. intros Hout. destruct (Hres Hout) as [Hl|Hl]; [left|by right].
        destruct used; [done|]. by rewrite last_cons_cons. }
    destruct (Z.eqb_spec (Z.of_nat (length o1)) 0) as [E0|E0]; cbn [negb].
    + assert (o1 = []) as Ho by (destruct o1; [done|cbn in E0; lia]).
      change (ct_sockflags c2) with (ct_sockflags c). destruct (is_nonblocking (ct_sockflags c)) eqn:Hnb.
      * unfold is_blocking. destruct (is_nonblocking flag) eqn:Hfl; cbn [negb]; [|by apply Hgo].
        apply (Hhere true); [by right|done].
      * by apply Hgo.
    + apply (Hhere false); [by left|]. intros _ ->. done.
Qed.

(** [clnttcp_nb_receive] after the flush. *)
Lemma receive_replies_ok k st c s flag :
  client_ok k st c s -> cuts st (so_reads (ct_sock c)) ->
  ends (receive_replies junk xdr_replymsg flag c) (fun c' r => exists used out,
    received k st c s used out c' /\
    match r with
    | Returns n => n = Z.of_nat (length out) /\ ct_pendingcalls c' = ct_pendingcalls c - n /\
        (out = [] -> ct_pendingcalls c = 0 \/ read_rpc_response flag = false \/
                     last used = Some read_nothing \/ is_nonblocking flag = true)
    | Waits => out = [] /\ (is_nonblocking (ct_sockflags c) = false -> so_reads (ct_sock c') = [])
    | _ => False
    end).
Proof.
  intros Hc Hcut. assert (Hsame : received k st c s [] [] c).
  { apply received_nothing; try done. exists (ct_sock c). by destruct c. }
  unfold receive_replies. destruct (Z.eqb_spec (ct_pendingcalls c) 0) as [Hp|Hp].
  { exists [], []. split; [done|]. split; [done|]. split; [cbn; lia|by left]. }
  destruct (read_rpc_response flag) eqn:Hrx.
  2: { exists [], []. split; [done|]. split; [done|]. split; [cbn; lia|by right; left]. }
  unfold rpc_cb. set (w := is_nonblocking (ct_sockflags c) && _).
  destruct (read_loop_ok (so_reads (ct_sock c)) w flag c st k s Hc eq_refl Hcut) as (used & out & Hrec & Hpc & Hres).
  { by intros [? _]%andb_true_iff. }
  destruct (read_loop _ _ _ _ _ _ _) as [c' r]. exists used, out. cbn in Hrec, Hpc.
  destruct r as [n| | |]; try done. destruct Hres as [-> Hres]. split.
  - destruct Hrec as [Hu (st' & HF & Hcu & [HR [H1 H2] H3 H4]) Hk]. constructor; [done| |done].
    exists st'. split; [done|]. split; [done|]. by constructor.
  - split; [done|]. split; [cbn; lia|]. intros Ho. right; right. by apply Hres.
Qed.

(** Flushing first makes no difference to what is received. *)
Lemma received_after k st c s bs c1 used out c' :
  transmits c bs c1 -> received k st c1 s used out c' ->
  so_reads (ct_sock c) = used ++ so_reads (ct_sock c') /\ ct_sockflags c' = ct_sockflags c /\
  outgoing c' = outgoing c ++ bs.
Proof.
  intros Ht [Hu _ [Hf Ho]]. destruct (transmits_fields _ _ _ Ht) as (_ & _ & Hs & _ & Hr & _).
  rewrite <- Hr, <- Hs, Hf, Ho. split_and!; [done|done|]. apply (tr_outgoing _ _ _ Ht).
Qed.

(** What [clnttcp_nb_receive] does to the client. *)
Definition receives k st c s flag c' (r : outcome Z) : Prop :=
  match r with
  | Returns n => exists used out, received k st c s used out c' /\ n = Z.of_nat (length out) /\
      ct_pendingcalls c' = ct_pendingcalls c - n /\
      (out = [] -> ct_pendingcalls c = 0 \/ read_rpc_response flag = false \/
                   last used = Some read_nothing \/ is_nonblocking flag = true)
  | Waits => flush_tx_buffer flag = false -> is_nonblocking (ct_sockflags c) = false ->
      exists used, received k st c s used [] c' /\ so_reads (ct_sock c') = []
  | _ => False
  end.

Lemma receive_ct_ok k st c s flag :
  client_ok k st c s -> cuts st (so_reads (ct_sock c)) ->
  ends (receive_ct junk xdr_replymsg flag c) (receives k st c s flag).
Proof.
  intros Hc Hcut. unfold receive_ct. destruct (flush_tx_buffer flag) eqn:Hfl.
  - destruct (send_buffers_keeps k st c s flag Hc) as [Hio Ht]. destruct (send_buffers c flag) as [c1 r1].
    cbn in Hio, Ht. destruct r1 as [n| | |]; try done.
    2: { intros E. by rewrite E in Hfl. }
    cbn in Hio. destruct (transmits_fields _ _ _ Ht) as (_ & _ & Hs & Hp & Hr & _).
    destruct (receive_replies_ok k st c1 s flag Hio) as (used & out & Hrec & Hres); [by rewrite Hr|].
    destruct (receive_replies junk xdr_replymsg flag c1) as [c' r]. unfold ends. cbn in *.
    destruct r as [m| | |]; try done; [|intros E; by rewrite E in Hfl].
    rewrite Hp in Hres. exists used, out. split; [|exact Hres].
    destruct (received_after _ _ _ _ _ _ _ _ _ Ht Hrec) as (H1 & H2 & H3). destruct Hrec as [_ HF _].
    constructor; [done|done|]. by rewrite app_nil_r in H3.
  - destruct (receive_replies_ok k st c s flag Hc Hcut) as (used & out & Hrec & Hres).
    destruct (receive_replies junk xdr_replymsg flag c) as [c' r]. unfold ends. cbn in *.
    destruct r as [m| | |]; try done; [by exists used, out|]. destruct Hres as [-> Hres]. intros _ Hnb.
    exists used. split; [done|by apply Hres].
Qed.

(** [C25] [clnttcp_nb_receive] delivers the replies that have come, in order, each
    to the callback of its call: for any flags, any answers of [select] and
    [write], and any reads that bring records of one fragment and do not end
    inside a fragment header ([cuts]; [split_header_misread] and
    [multi_fragment_overflow] show what happens to others).  It returns how many
    records it completed and takes that number from [ct_pendingcalls]; it returns
    0 only when no call is pending, the flags do not allow waiting, or [read] had
    nothing.  No byte to be sent is lost. *)
Theorem clnttcp_nb_receive_ok k st c s flag :
  client_ok k st c s -> cuts st (so_reads (ct_sock c)) ->
  exists c' r, clnttcp_nb_receive junk xdr_replymsg (Some c) flag = (Some c', r) /\
    receives k st c s flag c' r.
Proof.
  intros Hc Hcut. pose proof (receive_ct_ok k st c s flag Hc Hcut) as He. unfold clnttcp_nb_receive, on_handle.
  destruct (receive_ct junk xdr_replymsg flag c) as [c' r]. exists c', r. split; [done|exact He].
Qed.

Context (auth : list Z).

(** What a call does to the client. *)
Lemma call_ok k st c s rpc cbi flag :
  client_ok k st c s -> callable c s rpc cbi -> cuts st (so_reads (ct_sock c)) ->
  let x := xid_host (decrement_xid (ct_mcall c)) in
  let c1 := prepared c cbi in
  exists c' r, clnttcp_nb_call junk xdr_replymsg auth (Some c) rpc cbi flag = (Some c', r) /\
    io_ok r (fun v => v = RPC_SUCCESS /\
      (exists w, framed (message auth c1 rpc) w /\ outgoing c' = outgoing c ++ w) /\
      exists used out st', so_reads (ct_sock c) = used ++ so_reads (ct_sock c') /\
        Feed st (bytes_of used) st' out /\
        client_ok (k + length out) st' c' (foldl (reply xdr_replymsg) (called s x cbi) out) /\
        ct_pendingcalls c' = ct_pendingcalls c + 1 - Z.of_nat (length out)).
Proof.
  intros Hc Hca Hcut x c1. unfold clnttcp_nb_call, on_handle.
  rewrite call_ct_unfold by first [eapply Rep_ample, Hc|eapply Rep_table, Hc].
  destruct (send_call_ok auth k st c s rpc cbi Hc Hca) as (Hio & out1 & Ht). fold c1 x in Hio, Ht |- *.
  destruct (send_message auth rpc c1) as [c2 r2]. cbn in Hio, Ht.
  destruct (transmits_fields _ _ _ Ht) as (_ & _ & _ & Hp & Hr & _).
  change (ct_pendingcalls c1) with (ct_pendingcalls c) in Hp. change (ct_sock c1) with (ct_sock c) in Hr.
  destruct r2 as [b| | |]; try done; [|by exists c2, Waits].
  destruct Hio as (-> & Hc2 & w & Hw & Ho).
  destruct (Z.eqb_spec (ct_pendingcalls c2) (2 ^ 31 - 1)) as [E|_]; [by destruct Hca; rewrite Hp in E|].
  cbn zeta. set (c3 := set_pendingcalls _ c2). set (fl := if flag =? _ then _ else _).
  assert (Hc3 : client_ok k st c3 (called s x cbi)) by (destruct Hc2 as [? [? ?] ? ?]; by constructor).
  pose proof (receive_ct_ok k st c3 (called s x cbi) fl Hc3) as Hrec. change (ct_sock c3) with (ct_sock c2) in Hrec.
  rewrite Hr in Hrec. specialize (Hrec Hcut). destruct (receive_ct junk xdr_replymsg fl c3) as [c' r].
  unfold ends in Hrec. cbn in Hrec. destruct r as [n| | |]; try done; [|by exists c', Waits].
  exists c', (Returns RPC_SUCCESS). split; [done|]. cbn. destruct Hrec as (used & out & [Hu (st' & HF & _ & Hok) [_ Hout]] & -> & Hpc & _).
  split; [done|]. split; [exists w; by rewrite Hout, <- Ho|]. exists used, out, st'.
  split; [by rewrite <- Hu, <- Hr|]. split; [done|]. split; [done|]. rewrite Hpc. cbn. by rewrite Hp.
Qed.

(** [C24] A call that can be marshalled puts exactly one record on the outgoing
    stream, with the header, the procedure, the credentials and the arguments,
    registers its callback under the next transaction id, and then delivers the
    replies that have come; it returns [RPC_SUCCESS], or waits for the socket. *)
Theorem clnttcp_nb_call_ok k st c s rpc cbi flag :
  client_ok k st c s -> callable c s rpc cbi -> cuts st (so_reads (ct_sock c)) ->
  let x := xid_host (decrement_xid (ct_mcall c)) in
  let c1 := prepared c cbi in
  exists c' r, clnttcp_nb_call junk xdr_replymsg auth (Some c) rpc cbi flag = (Some c', r) /\
    io_ok r (fun v => v = RPC_SUCCESS /\
      (exists w, framed (message auth c1 rpc) w /\ outgoing c' = outgoing c ++ w) /\
      exists used out st', so_reads (ct_sock c) = used ++ so_reads (ct_sock c') /\
        Feed st (bytes_of used) st' out /\
        client_ok (k + length out) st' c' (foldl (reply xdr_replymsg) (called s x cbi) out) /\
        ct_pendingcalls c' = ct_pendingcalls c + 1 - Z.of_nat (length out)).
Proof. apply call_ok. Qed.

(** ** Polling *)

(** [n] times [clnttcp_nb_receive], blocking. *)
Fixpoint poll (n : nat) c : clnt T X * outcome unit :=
  match n with
  | O => (c, Returns tt)
  | S n =>
      match receive_ct junk xdr_replymsg RPC_NO_TX_FLUSH c with
      | (c, Returns _) => poll n c
      | (c, Waits) => (c, Waits)
      | (c, Undefined) => (c, Undefined)
      | (c, Spins) => (c, Spins)
      end
  end.

Lemma receive_none_pending flag c : flush_tx_buffer flag = false -> ct_pendingcalls c = 0 ->
  receive_ct junk xdr_replymsg flag c = (c, Returns 0).
Proof. intros Hf Hp. unfold receive_ct, receive_replies. by rewrite Hf, Hp. Qed.

Lemma poll_none_pending n c : ct_pendingcalls c = 0 -> poll n c = (c, Returns tt).
Proof. intros Hp. induction n as [|n IH]; [done|]. cbn [poll]. by rewrite receive_none_pending. Qed.

Lemma bytes_of_reads bufs : bytes_of (read_bytes <$> bufs) = mjoin bufs.
Proof. induction bufs as [|b bufs IH]; [done|]. exact (f_equal (app b) IH). Qed.

Lemma poll_ok n : forall c k st s recs bufs,
  client_ok k st c s -> so_reads (ct_sock c) = read_bytes <$> bufs -> cuts st (read_bytes <$> bufs) ->
  Feed st (mjoin bufs) None recs -> ct_pendingcalls c = Z.of_nat (length recs) ->
  is_nonblocking (ct_sockflags c) = false -> (length recs <= n)%nat ->
  exists c' k' st', poll n c = (c', Returns tt) /\
    client_ok k' st' c' (foldl (reply xdr_replymsg) s recs) /\ ct_pendingcalls c' = 0.
Proof.
  induction n as [|n IH]; intros c k st s recs bufs Hc Hrs Hcut HF Hp Hnb Hn.
  { destruct recs; [|cbn in Hn; lia]. by exists c, k, st. }
  destruct recs as [|r0 recs0]; [exists c, k, st; by rewrite poll_none_pending|].
  remember (r0 :: recs0) as recs eqn:Hne. cbn [poll].
  pose proof (receive_ct_ok k st c s RPC_NO_TX_FLUSH Hc) as Hrec. rewrite Hrs in Hrec. specialize (Hrec Hcut).
  assert (Hsplit : forall used out c1, received k st c s used out c1 -> exists b1 b2 st1 o2,
    used = read_bytes <$> b1 /\ so_reads (ct_sock c1) = read_bytes <$> b2 /\
    cuts st1 (read_bytes <$> b2) /\ client_ok (k + length out) st1 c1 (foldl (reply xdr_replymsg) s out) /\
    Feed st1 (mjoin b2) None o2 /\ recs = out ++ o2).
  { intros used out c1 [Hu (st1 & HF1 & Hcut1 & Hc1) _]. rewrite Hrs in Hu.
    apply fmap_app_inv in Hu as (b1 & b2 & -> & Hb2 & ->). rewrite bytes_of_reads in HF1. rewrite Hb2 in Hcut1.
    rewrite join_app in HF. destruct (feed_split _ _ _ _ _ _ _ HF1 HF) as (o2 & Ho2 & ->).
    by exists b1, b2, st1, o2. }
  destruct (receive_ct junk xdr_replymsg RPC_NO_TX_FLUSH c) as [c1 r]. unfold ends in Hrec. cbn in Hrec.
  destruct r as [m| | |]; try done.
  - destruct Hrec as (used & out & Hrc & -> & Hpc & Hout). destruct (rc_keeps _ _ _ _ _ _ _ Hrc) as [Hsf _].
    destruct (Hsplit _ _ _ Hrc) as (b1 & b2 & st1 & o2 & -> & Hr1 & Hcut1 & Hc1 & HF2 & ->).
    assert (Hout' : out <> []).
    { intros Ho. destruct (Hout Ho) as [E|[E|[E|E]]]; try done.
      - rewrite Hp, Hne in E. cbn in E. lia.
      - rewrite fmap_last in E. by destruct (last b1). }
    rewrite length_app in *. rewrite foldl_app.
    apply (IH c1 (k + length out)%nat st1 _ o2 b2); try done; [lia|by rewrite Hsf|].
    destruct out; [done|]. cbn in Hn. lia.
  - destruct (Hrec eq_refl Hnb) as (used & Hrc & Hr0).
    destruct (Hsplit _ _ _ Hrc) as (b1 & b2 & st1 & o2 & _ & Hr1 & _ & _ & HF2 & ->).
    rewrite Hr0 in Hr1. symmetry in Hr1. apply fmap_nil_inv in Hr1 as ->. apply feed_nothing in HF2 as [_ ->]. done.
Qed.

(** Liveness: on a blocking connection, when the server has sent one reply
    for each waiting call, in any order and cut into reads in any way that
    keeps headers whole, as many blocking calls of [clnttcp_nb_receive] as there
    are waiting calls make every callback run exactly once, with its own reply;
    none of them waits for more data. *)
Lemma polling_answers_all k c s recs rs bufs :
  client_ok k None c s -> is_nonblocking (ct_sockflags c) = false ->
  so_reads (ct_sock c) = read_bytes <$> bufs -> cuts None (read_bytes <$> bufs) ->
  Forall sendable recs -> mjoin bufs = mjoin (mark <$> recs) ->
  Forall2 (fun m r => xdr_replymsg m = Some r) recs rs -> rs.*1 ≡ₚ (sn_calls s).*1 ->
  ct_pendingcalls c = Z.of_nat (length (sn_calls s)) ->
  exists c', poll (length (sn_calls s)) c = (c', Returns tt) /\
    ght_entries (ct_xid_to_ucb (ct_recv c')) = [] /\ ct_pendingcalls c' = 0 /\
    ct_called (ct_recv c') = ct_called (ct_recv c) ++ omap (invocation_of (sn_calls s)) rs.
Proof.
  intros Hc Hnb Hrs Hcut Hsend Hjoin Hdec Hperm Hp.
  assert (Hlen : length recs = length (sn_calls s)).
  { rewrite (Forall2_length _ _ _ Hdec). apply Permutation_length in Hperm. by rewrite !length_fmap in Hperm. }
  destruct (poll_ok (length (sn_calls s)) c k None s recs bufs) as (c' & k' & st' & E & Hc' & Hp'); try done.
  - rewrite Hjoin. by apply feed_stream.
  - by rewrite Hlen.
  - by rewrite Hlen.
  - destruct (co_rep _ _ _ _ Hc) as (_ & Ht & He & Hcd & _).
    assert (Hnd : NoDup (sn_calls s).*1) by (rewrite <- He; by apply ght_nodup).
    rewrite (foldl_reply_all _ _ rs) in Hc' by done.
    assert (Hs : exists k2, sess k2 (ct_recv c') (mk_session [] (sn_called s ++ omap (invocation_of (sn_calls s)) rs))).
    { pose proof (co_rep _ _ _ _ Hc') as HR. destruct st' as [[got m]|]; [destruct HR as (_ & _ & HR)|destruct HR as [_ HR]]; by eexists. }
    destruct Hs as (k2 & _ & He' & Hcd' & _). exists c'. by rewrite He', Hcd', Hcd.
Qed.

(** ** What goes wrong *)

(** One reception after the other, with the flags [flags]; the results. *)
Fixpoint receive_all (flags : list Z) c : clnt T X * outcome (list Z) :=
  match flags with
  | [] => (c, Returns [])
  | flag :: flags =>
      match receive_ct junk xdr_replymsg flag c with
      | (c, Returns n) =>
          match receive_all flags c with
          | (c, Returns ns) => (c, Returns (n :: ns))
          | r => r
          end
      | (c, Waits) => (c, Waits)
      | (c, Undefined) => (c, Undefined)
      | (c, Spins) => (c, Spins)
      end
  end.

(** The table, the callbacks made and the bytes that are to be read. *)
Definition reception c := (ct_xid_to_ucb (ct_recv c), ct_called (ct_recv c), so_reads (ct_sock c)).

(** Without pending calls nothing is received, whatever the flags. *)
Lemma receive_all_none flags : forall k st c s,
  client_ok k st c s -> ct_pendingcalls c = 0 ->
  ends (receive_all flags c) (fun c' r => reception c' = reception c /\ io_ok r (Forall (eq 0))).
Proof.
  induction flags as [|flag flags IH]; intros k st c s Hc Hp; [by split; [|constructor]|]. cbn [receive_all].
  assert (H1 : ends (receive_ct junk xdr_replymsg flag c) (fun c1 r => reception c1 = reception c /\
    io_ok r (fun n => n = 0 /\ client_ok k st c1 s /\ ct_pendingcalls c1 = 0))).
  { unfold receive_ct. destruct (flush_tx_buffer flag); [|unfold receive_replies; rewrite Hp; by split; [|split]].
    pose proof (send_buffers_keeps k st c s flag Hc) as Hsend.
    destruct (send_buffers c flag) as [c1 r]. unfold ends in *. cbn in Hsend. destruct Hsend as [Hio Ht].
    destruct (transmits_fields _ _ _ Ht) as (_ & _ & _ & Hp1 & Hr1 & Htab).
    assert (Hrec : reception c1 = reception c).
    { unfold reception. rewrite Hr1, Htab. pose proof (tr_untouched _ _ _ Ht) as Hu. unfold untouched in Hu.
      injection Hu as _ _ _ -> _ _ _ _ _ _ _ _. done. }
    rewrite Hp in Hp1. destruct r as [n| | |]; try done. unfold receive_replies. rewrite Hp1. by split; [|split]. }
  destruct (receive_ct junk xdr_replymsg flag c) as [c1 r]. unfold ends in *. cbn [fst snd] in H1.
  destruct H1 as [Hrec Hio]. destruct r as [n| | |]; try done. destruct Hio as (-> & Hc1 & Hp1).
  specialize (IH k st c1 s Hc1 Hp1). destruct (receive_all flags c1) as [c2 r2]. cbn [fst snd] in IH.
  destruct IH as [Hrec2 Hio2]. rewrite Hrec in Hrec2. destruct r2 as [ns| | |]; try done.
  split; [done|]. by constructor.
Qed.

(** [C32] Any complete record is counted as an answer, also one that answers no
    call: with one call waiting, a stray reply brings [ct_pendingcalls] to 0, and
    from then on no [clnttcp_nb_receive], whatever its flags and however many
    there are, reads a byte or runs a callback; each returns 0.  So the reply to
    the call that still waits is not looked at until another call is made. *)
Theorem stray_reply_starves k c s m rest :
  client_ok k None c s -> is_nonblocking (ct_sockflags c) = false ->
  so_reads (ct_sock c) = read_bytes (mark m) :: rest -> sendable m ->
  reply xdr_replymsg s m = s -> ct_pendingcalls c = 1 ->
  exists c', clnttcp_nb_receive junk xdr_replymsg (Some c) RPC_NO_TX_FLUSH = (Some c', Returns 1) /\
    ght_entries (ct_xid_to_ucb (ct_recv c')) = sn_calls s /\ ct_called (ct_recv c') = sn_called s /\
    so_reads (ct_sock c') = rest /\ ct_pendingcalls c' = 0 /\
    forall flags, ends (receive_all flags c') (fun c2 r =>
      reception c2 = reception c' /\ io_ok r (Forall (eq 0))).
Proof.
  intros Hc Hnb Hrs Hm Hstray Hp. assert (HF : Feed None (mark m) None [m]).
  { pose proof (feed_stream [m] (proj2 (Forall_singleton _ _) Hm)) as HF. cbn in HF. by rewrite app_nil_r in HF. }
  destruct (receive_one k None c s (mark m) rest None [m] Hc HF) as (r & E & Hc1).
  cbn [foldl] in Hc1. rewrite Hstray in Hc1. set (c1 := set_recv r _) in Hc1.
  unfold clnttcp_nb_receive, on_handle, receive_ct at 1, receive_replies, rpc_cb. cbn [flush_tx_buffer].
  change (flush_tx_buffer RPC_NO_TX_FLUSH) with false. change (read_rpc_response RPC_NO_TX_FLUSH) with true.
  cbn iota. rewrite Hp, Hnb, Hrs. cbn [Z.eqb andb read_loop select_if].
  change (ct_recv (set_reads rest c)) with (ct_recv c). rewrite E. cbn [length Z.of_nat Pos.of_succ_nat Z.eqb negb].
  fold c1. exists (set_pendingcalls 0 c1).
  assert (Hs : exists k', sess k' (ct_recv c1) s) by (destruct (co_rep _ _ _ _ Hc1) as [_ HR]; by eexists).
  destruct Hs as (k' & _ & He & Hcd & _).
  change (negb (Z.of_nat 1 =? 0)) with true. cbn iota.
  replace (ct_pendingcalls c1 - Z.of_nat 1) with 0 by (change (ct_pendingcalls c1) with (ct_pendingcalls c); lia).
  do 5 (split; [done|]). intros flags. apply (receive_all_none flags (k + length [m]) None _ s); [|done].
  destruct Hc1 as [? [? ?] ? ?]. by constructor.
Qed.

(** A failing argument encoder: everything before it is on the stream. *)
Lemma failed_message c rpc data w :
  tx_ok c -> mem_ample (ct_heap (ct_recv c)) -> x_rec (ct_xdrs c) data w -> inproc_ok rpc = false ->
  ends (send_message auth rpc c) (fun c' r =>
    io_ok r (fun b => b = false /\ (~ write_fails c -> exists out, transmits c out c' /\
      x_rec (ct_xdrs c') (data ++ message auth c rpc) (w ++ out)))).
Proof.
  intros Hc Hm Hrec Hok.
  set (rpc' := mk_rpc_proc_info (proc rpc) (inargs rpc) true).
  set (body := and_then (T := T) (xdr_put (take (ct_mpos c) (ct_mcall c)))
         (and_then (xdr_put (be 4 (proc rpc))) (and_then (xdr_put auth) (inproc rpc')))).
  assert (Hput : puts body (message auth c rpc) (False \/ False \/ False \/ inproc_ok rpc' = false)).
  { repeat apply puts_and_then; try apply xdr_put_ok. apply (inproc_puts rpc'). }
  assert (E : send_message auth rpc c = match body c with
    | (c', Returns _) => (c', Returns false)
    | r => r
    end).
  { unfold send_message, body, and_then, inproc. rewrite Hok. change (inproc_ok rpc') with true.
    change (inargs rpc') with (inargs rpc).
    repeat (case_match; simplify_eq); rewrite ?andb_true_r, ?andb_false_r in *; try done. }
  rewrite E. clear E. destruct (Hput c data w Hc Hm Hrec) as (Hio & out & Ht & Hr).
  destruct (body c) as [c' r]. cbn in Hio, Ht, Hr. destruct r as [b| | |]; try done. cbn in *.
  split; [done|]. intros Hw. exists out. split; [done|]. apply Hr. f_equal. destruct b; [done|].
  destruct (Hio eq_refl) as [?|[?|[?|[?|?]]]]; done.
Qed.

(** [C33] A call whose arguments cannot be marshalled returns
    [RPC_CANTENCODEARGS], and leaves two things behind: its callback stays
    registered although no reply can come, and what was marshalled stays on the
    record stream, so that the next call sends one record made of the two
    messages. *)
Theorem failed_call_corrupts_next k st c s rpc cbi flag :
  client_ok k st c s -> inproc_ok rpc = false -> write_error ∉ so_writes (ct_sock c) ->
  let x := xid_host (decrement_xid (ct_mcall c)) in
  x ∉ (sn_calls s).*1 -> Z.of_nat (length (sn_calls s)) < 2 ^ 31 - 1 ->
  snd (ght_insert (ct_xid_to_ucb (ct_recv c)) x cbi) <> -2 ->
  exists c1 r, clnttcp_nb_call junk xdr_replymsg auth (Some c) rpc cbi flag = (Some c1, r) /\
    io_ok r (fun v => v = RPC_CANTENCODEARGS /\
      ght_entries (ct_xid_to_ucb (ct_recv c1)) = sn_calls s ++ [(x, cbi)] /\
      ct_pendingcalls c1 = ct_pendingcalls c /\
      exists out, outgoing c1 = outgoing c ++ out /\
      forall rpc2, inproc_ok rpc2 = true ->
        ends (send_message auth rpc2 c1) (fun c2 r2 => r2 = Returns true ->
          exists w, outgoing c2 = outgoing c1 ++ w /\
            framed (message auth (prepared c cbi) rpc ++ message auth c1 rpc2) (out ++ w))).
Proof.
  intros [HR Ht Hx Hm] Hok Hw x Hf Hroom Htab. unfold clnttcp_nb_call, on_handle.
  pose proof (Rep_ample _ _ _ _ HR) as Ha. rewrite call_ct_unfold by first [done|by eapply Rep_table].
  assert (HR1 : Rep (k + length (ct_sndlist (prepared c cbi))) st (ct_recv (prepared c cbi)) (called s x cbi)).
  { apply register_ok; try done; [apply mcall_word; by apply decrement_ok| |]; unfold mem_alloc; by rewrite Ha. }
  assert (Ht1 : tx_ok (prepared c cbi)).
  { destruct Ht as (H1 & H2 & H3). split_and!; try done. cbn. unfold mem_alloc. rewrite Ha. cbn. lia. }
  pose proof (failed_message (prepared c cbi) rpc [] [] Ht1 (Rep_ample _ _ _ _ HR1) Hx Hok) as Hio.
  destruct (send_message auth rpc (prepared c cbi)) as [c1 r]. unfold ends in Hio. cbn in Hio.
  destruct r as [b| | |]; try done; [|by eexists _, Waits].
  destruct Hio as [-> Hout]. destruct (Hout Hw) as (out & Htr & Hrec).
  exists (set_status RPC_CANTENCODEARGS c1), (Returns RPC_CANTENCODEARGS). split; [done|]. split; [done|].
  destruct (transmits_fields _ _ _ Htr) as (_ & _ & _ & Hp & _ & Htb).
  split; [|split; [exact Hp|]].
  - change (ght_entries (ct_xid_to_ucb c1.(ct_recv)) = sn_calls s ++ [(x, cbi)]). rewrite Htb. destruct st as [[got m]|]; [destruct HR1 as (_ & _ & HS)|destruct HR1 as [_ HS]].
    all: by destruct HS as (_ & -> & _).
  - exists out. split; [exact (tr_outgoing _ _ _ Htr)|]. intros rpc2 Hok2.
    destruct (send_message_ok auth (set_status RPC_CANTENCODEARGS c1) rpc2 _ _ (tr_ok _ _ _ Htr)
      (ample_later _ _ _ Htr (Rep_ample _ _ _ _ HR1)) Hrec) as (_ & w & Hw2 & Hfr).
    destruct (send_message auth rpc2 (set_status RPC_CANTENCODEARGS c1)) as [c2 r2]. unfold ends. cbn in *.
    intros ->. exists w. split; [apply (tr_outgoing _ _ _ Hw2)|]. by destruct (Hfr eq_refl).
Qed.
End replies.

(** ** Creation and destruction *)

Section lifetime.
Context {T : Type} `{GL : GhtLaws T callback_info} {X : Type} `{XL : XdrrecLaws X}.
Context (junk : Z) (xdr_callhdr : Z -> Z -> Z -> option (list Z)).
Context (callhdr_fits : forall xid prog vers hdr, xdr_callhdr xid prog vers = Some hdr ->
  (4 <= length hdr <= Z.to_nat MCALL_MSG_SIZE)%nat /\ bytes_ok hdr).
Implicit Types (c : clnt T X) (s : session).

Lemma mem_free_S {A} (a : A) n h : h_live h = S n -> mem_free (PTo a) h = Some (mk_heap n (h_requests h) (h_ok h)).
Proof. intros E. unfold mem_free. by rewrite E. Qed.

(** What every message of a connection begins with: the header that was encoded
    when it was made. *)
Definition prefix_of c (sys : system) (prog vers : Z) : Prop :=
  (4 <= ct_mpos c)%nat /\ xdr_callhdr (create_xid sys) prog vers = Some (take (ct_mpos c) (ct_mcall c)).

(** The steps of a creation that can fail, in their order, and the first that does. *)
Inductive create_step :=
| StepHandle | StepData | StepPort | StepSocket | StepConnect | StepBuffer | StepHeader.

Definition failing_step (sys : system) (port prog vers sock : Z) (h : heap) : option create_step :=
  if negb (h_ok h (h_requests h)) then Some StepHandle
  else if negb (h_ok h (1 + h_requests h)%nat) then Some StepData
  else if (port =? 0) && (sys_pmap_port sys =? 0) then Some StepPort
  else if (sock <? 0) && (sys_socket sys <=? 0) then Some StepSocket
  else if (sock <? 0) && (sys_connect sys <? 0) then Some StepConnect
  else if negb (h_ok h (2 + h_requests h)%nat) then Some StepBuffer
  else if xdr_callhdr (create_xid sys) prog vers then None else Some StepHeader.

(** The blocks that a failure leaves, and whether it closes the socket. *)
Definition blocks_lost (f : create_step) : nat :=
  match f with StepBuffer => 2 | StepHeader => 1 | _ => 0 end.
Definition socket_closed (f : create_step) : bool :=
  match f with StepConnect | StepHeader => true | _ => false end.

(** What a creation comes to: when no step fails, a connection without calls,
    with three blocks, on which the operations work if it has a table; else
    NULL, and what the failing step leaves behind. *)
Definition creation_ok (sys : system) (port prog vers sock : Z) (table : option T) (h : heap)
    (cr : @created T X) : Prop :=
  match failing_step sys port prog vers sock h with
  | None => exists c, cr_handle cr = Some c /\
      cr_closed cr = false /\ cr_lost cr = None /\ ct_pendingcalls c = 0 /\ ct_sock c = sys_script sys /\
      prefix_of c sys prog vers /\ ct_heap (ct_recv c) = cr_heap cr /\
      ct_sockflags c = RPC_BLOCKING_WAIT /\ ct_sndlist c = [] /\ ct_xid_to_ucb (ct_recv c) = table /\
      cr_port cr = (if port =? 0 then sys_pmap_port sys else port) /\
      cr_sock cr = (if sock <? 0 then sys_socket sys else sock) /\
      h_live (cr_heap cr) = (h_live h + 3)%nat /\
      (mem_ample h -> table <> None -> client_ok (h_live h + 3) None c (mk_session [] []))
  | Some f => cr_handle cr = None /\ h_live (cr_heap cr) = (h_live h + blocks_lost f)%nat /\
      cr_closed cr = socket_closed f /\
      cr_lost cr = (match f with StepHeader => table | _ => None end)
  end.

Lemma b_create_ok sys port prog vers sock sbufsz rbufsz (table : option T) (xdrs : X) h :
  (forall t, table = Some t -> ght_ok t /\ ght_entries t = []) -> x_rec xdrs [] [] -> byte_ok junk ->
  exists cr, clnttcp_b_create junk xdr_callhdr sys port prog vers sock sbufsz rbufsz table xdrs h = Some cr /\
    creation_ok sys port prog vers sock table h cr.
Proof.
  intros Htab Hx Hj. unfold clnttcp_b_create, creation_ok, failing_step, mem_alloc, connect_socket.
  destruct (h_ok h (h_requests h)); cbn [negb h_requests h_ok h_live Nat.add].
  2: { eexists. split; [done|]. cbn. split_and!; done || lia. }
  destruct (h_ok h (S (h_requests h))); cbn [negb h_requests h_ok h_live].
  2: { unfold mem_free_return. rewrite (mem_free_S _ (h_live h)) by done. cbn. eexists. split; [done|].
       cbn. split_and!; done || lia. }
  assert (Hfree : mem_free_return true (mk_heap (S (S (h_live h))) (S (S (h_requests h))) (h_ok h)) =
    Some (mk_heap (h_live h) (S (S (h_requests h))) (h_ok h))).
  { unfold mem_free_return. rewrite (mem_free_S _ (S (h_live h))) by done. cbn [mbind option_bind].
    by rewrite (mem_free_S _ (h_live h)). }
  destruct ((port =? 0) && (sys_pmap_port sys =? 0)); [rewrite Hfree; cbn; eexists; split; [done|]; cbn; split_and!; done || lia|].
  set (o := if sock <? 0 then _ else (_, sock, None)).
  assert (Ho : (exists p q, o = (p, q, Some false) /\ (sock <? 0) && (sys_socket sys <=? 0) = true) \/
    (sock <? 0) && (sys_socket sys <=? 0) = false /\
    ((exists p q, o = (p, q, Some true) /\ (sock <? 0) && (sys_connect sys <? 0) = true) \/
     (sock <? 0) && (sys_connect sys <? 0) = false /\
     o = (if port =? 0 then sys_pmap_port sys else port, if sock <? 0 then sys_socket sys else sock, None))).
  { unfold o. destruct (sock <? 0); cbn [andb]; [|by right; split; [|right]].
    destruct (sys_socket sys <=? 0); [left; by eexists _, _|right; split; [done|]].
    destruct (sys_connect sys <? 0); [left; by eexists _, _|by right]. }
  clearbody o. destruct Ho as [(p & q & -> & ->)|(-> & [(p & q & -> & ->)|(-> & ->)])].
  1, 2: rewrite Hfree; cbn; eexists; split; [done|]; cbn; split_and!; done || lia.
  destruct (h_ok h (S (S (h_requests h)))); cbn [negb h_requests h_ok h_live].
  2: { eexists. split; [done|]. cbn. split_and!; done || lia. }
  destruct (xdr_callhdr (create_xid sys) prog vers) as [hdr|] eqn:Hh.
  2: { unfold mem_free_return. rewrite (mem_free_S _ (S (S (h_live h)))) by done. cbn [mbind option_bind].
       rewrite (mem_free_S _ (S (h_live h))) by done. cbn. eexists. split; [done|]. cbn. split_and!; done || lia. }
  destruct (callhdr_fits _ _ _ _ Hh) as [Hl Hb].
  eexists. split; [done|]. eexists. split; [done|].
  split_and!; try done; [by split; cbn; [lia|rewrite take_app_length]|cbn; lia|].
  intros Hm Ht. destruct table as [t|]; [|done]. destruct (Htab t eq_refl) as [Ht1 Ht2]. constructor.
  - split; [done|]. split_and!; try done. cbn. lia.
  - split_and!; [done|done|cbn; lia].
  - done.
  - split; cbn; [rewrite length_app; lia|]. apply Forall_app. split; [done|].
    apply Forall_forall. intros z Hz. apply list_elem_of_In, repeat_spec in Hz. by subst.
Qed.

(** The connection that a creation makes with a table. *)
Lemma b_create_client sys port prog vers sock sbufsz rbufsz (table : option T) (xdrs : X) h :
  ght_ok table -> ght_entries table = [] -> x_rec xdrs [] [] -> byte_ok junk ->
  exists cr, clnttcp_b_create junk xdr_callhdr sys port prog vers sock sbufsz rbufsz table xdrs h = Some cr /\
    forall c, cr_handle cr = Some c -> ct_pendingcalls c = 0 /\ ct_sock c = sys_script sys /\
      prefix_of c sys prog vers /\ ct_sndlist c = [] /\ (mem_ample h -> client_ok (h_live h + 3) None c (mk_session [] [])).
Proof.
  intros Ht He Hx Hj. destruct table as [t|]; [|done].
  destruct (b_create_ok sys port prog vers sock sbufsz rbufsz (Some t) xdrs h) as (cr & E & Hcr);
    [by intros ? [= <-]|done..|]. exists cr. split; [done|]. intros c Hc. unfold creation_ok in Hcr.
  destruct (failing_step _ _ _ _ _ _) as [f|]; [destruct Hcr as [Hn _]; by rewrite Hn in Hc|].
  destruct Hcr as (c' & Hc' & _ & _ & ? & ? & ? & _ & _ & ? & _ & _ & _ & _ & Hok). rewrite Hc in Hc'. injection Hc' as <-.
  split_and!; try done. intros Hm. by apply Hok.
Qed.

(** A connection whose table could not be made: the first call on it, and its
    destruction, use the NULL pointer. *)
Lemma no_table_undefined xdr_replymsg auth rpc cbi flag c :
  ct_xid_to_ucb (ct_recv c) = None -> mem_ample (ct_heap (ct_recv c)) ->
  (clnttcp_nb_call junk xdr_replymsg auth (Some c) rpc cbi flag).2 = Undefined /\
  clnttcp_nb_destroy (Some c) (ct_heap (ct_recv c)) = None.
Proof.
  intros Ht Hm. unfold clnttcp_nb_call, on_handle, call_ct, mem_alloc, clnttcp_nb_destroy.
  rewrite Hm, Ht. cbn -[xid_host]. by rewrite Ht.
Qed.

(** [C37] [clnttcp_b_create] has no undefined behaviour.  It yields a connection
    exactly when no step fails (the two allocations, the port mapper, [socket],
    [connect], the read buffer, the header); the connection has no calls, and the
    other operations work on it.  When a step fails the result is NULL; the
    handle, its data and the socket are released only if the step is one of the
    first five: when the read buffer cannot be allocated, the handle and its data
    are lost and the socket stays open; when the header cannot be encoded, the
    read buffer and the table of callbacks are lost.  The table is not checked:
    if [ght_create] fails, the connection is there all the same, and the first
    call on it, or its destruction, is undefined. *)
Theorem clnttcp_b_create_spec sys port prog vers sock sbufsz rbufsz (table : option T) (xdrs : X) h :
  (forall t, table = Some t -> ght_ok t /\ ght_entries t = []) -> x_rec xdrs [] [] -> byte_ok junk ->
  exists cr, clnttcp_b_create junk xdr_callhdr sys port prog vers sock sbufsz rbufsz table xdrs h = Some cr /\
    creation_ok sys port prog vers sock table h cr /\
    (forall c, cr_handle cr = Some c -> table = None -> mem_ample h -> forall xdr_replymsg auth rpc cbi flag,
       (clnttcp_nb_call junk xdr_replymsg auth (Some c) rpc cbi flag).2 = Undefined /\
       clnttcp_nb_destroy (Some c) (cr_heap cr) = None).
Proof.
  intros Ht Hx Hj. destruct (b_create_ok sys port prog vers sock sbufsz rbufsz table xdrs h) as (cr & E & Hcr); [done..|].
  exists cr. split; [done|]. split; [done|]. intros c Hc Hnone Hm xdr_replymsg auth rpc cbi flag.
  unfold creation_ok in Hcr. destruct (failing_step _ _ _ _ _ _) as [f|]; [destruct Hcr as [Hn _]; by rewrite Hn in Hc|].
  destruct Hcr as (c' & Hc' & _ & _ & _ & _ & _ & Hheap & _ & _ & Htab & _). rewrite Hc in Hc'. injection Hc' as <-.
  rewrite <- Hheap. apply no_table_undefined; [by rewrite Htab|].
  assert (Ho : h_ok (cr_heap cr) = h_ok h).
  { clear -E. unfold clnttcp_b_create, mem_alloc, mem_free_return in E. repeat (case_match || simplify_option_eq); try done. }
  rewrite Hheap. intros n. rewrite Ho. apply Hm.
Qed.

Lemma free_list_ok l : forall h, (length l <= h_live h)%nat ->
  free_list l h = Some (mk_heap (h_live h - length l) (h_requests h) (h_ok h)).
Proof.
  induction l as [|b l IH]; intros h Hl; cbn in *; [by destruct h; rewrite Nat.sub_0_r|].
  destruct (h_live h) as [|n] eqn:E; [lia|]. rewrite (mem_free_S _ n) by done. cbn. rewrite IH; cbn; [done|lia].
Qed.

(** The same of a non-blocking connection. *)
Lemma nb_create_ok sys port prog vers sock sbufsz rbufsz (table : option T) (xdrs : X) h :
  ght_ok table -> ght_entries table = [] -> x_rec xdrs [] [] -> byte_ok junk ->
  exists cr, clnttcp_nb_create junk xdr_callhdr sys port prog vers sock sbufsz rbufsz table xdrs h = Some cr /\
    forall c, cr_handle cr = Some c -> ct_pendingcalls c = 0 /\ ct_sock c = sys_script sys /\
      prefix_of c sys prog vers /\ ct_sndlist c = [] /\ (mem_ample h -> client_ok (h_live h + 3) None c (mk_session [] [])).
Proof.
  intros Ht He Hx Hj. destruct table as [t|]; [|done].
  destruct (b_create_ok sys port prog vers sock sbufsz rbufsz (Some t) xdrs h) as (cr & E & Hcr);
    [by intros ? [= <-]|done..|].
  unfold clnttcp_nb_create, creation_ok in *. rewrite E. cbn [mbind option_bind].
  destruct (failing_step _ _ _ _ _ _) as [f|].
  { destruct Hcr as [Hn _]. rewrite Hn. eexists. split; [done|]. by rewrite Hn. }
  destruct Hcr as (c & Ec & _ & _ & Hp & Hs & Hpre & _ & _ & Hsnd & Htab & _ & _ & Hl & Hok). rewrite Ec.
  unfold clnttcp_sock_setflag.
  change (is_nonblocking RPC_NONBLOCK_WAIT) with true. destruct (set_fd_nonblocking sys <? 0); cbn -[clnttcp_nb_destroy].
  - assert (Hfl : rs_frag_list (ct_record_state (ct_recv c)) = []).
    { clear -E Ec. unfold clnttcp_b_create, mem_alloc in E.
      repeat (case_match || simplify_option_eq); try done. }
    unfold clnttcp_nb_destroy. rewrite Htab, Hfl, Hsnd. cbn [free_list mbind option_bind]. rewrite (mem_free_S _ (h_live h + 2)) by lia. cbn [mbind option_bind].
    rewrite (mem_free_S _ (h_live h + 1)) by (cbn; lia). cbn. by eexists.
  - eexists. split; [done|]. intros ? [= <-]. split_and!; [done..|]. intros Hm.
    destruct (Hok Hm ltac:(done)) as [? [? ?] ? ?]. by constructor.
Qed.

(** The first transaction id has 31 bits, and depends on the time alone: clients
    created in the same microsecond, or when [sec ^ usec] is the same, number their
    calls alike. *)
Lemma create_xid_ok sys : is_u 31 (create_xid sys) /\
  forall sys', Z.lxor (sys_sec sys) (sys_usec sys) = Z.lxor (sys_sec sys') (sys_usec sys') -> create_xid sys' = create_xid sys.
Proof.
  unfold create_xid, lrand48. split; [|by intros sys' ->].
  assert (Hw : is_u 48 (wrap 48 (25214903917 * srand48 (Z.lxor (sys_sec sys) (sys_usec sys)) + 11))) by (apply wrap_is_u; lia).
  unfold is_u in *. rewrite Z.shiftr_div_pow2 by lia. split; [apply Z.div_pos; lia|]. apply Z.div_lt_upper_bound; lia.
Qed.

(** [clnttcp_nb_destroy] frees the kept-back buffers, the data and the
    handle, each once; it leaves the callbacks of the calls that wait, the read
    buffer and the blocks of received fragments. *)
Theorem clnttcp_nb_destroy_spec k c s :
  client_ok (k + 2) None c s ->
  exists h, clnttcp_nb_destroy (Some c) (ct_heap (ct_recv c)) = Some h /\
    h_live h = (k + length (sn_calls s))%nat.
Proof.
  intros [((Hfl & _) & Ht & _ & _ & _ & Hl) _ _ _]. unfold rs_common in Hfl. unfold clnttcp_nb_destroy.
  destruct (ct_xid_to_ucb (ct_recv c)) as [t|]; [|done].
  destruct Hfl as (-> & _). cbn [free_list mbind option_bind].
  rewrite free_list_ok by lia. cbn [mbind option_bind].
  rewrite (mem_free_S _ (k + length (sn_calls s) + 1)) by (cbn; lia). cbn [mbind option_bind].
  rewrite (mem_free_S _ (k + length (sn_calls s))) by (cbn; lia). by eexists.
Qed.
End lifetime.

(** ** A conversation *)

Section conversation.
Context {T : Type} `{GL : GhtLaws T callback_info} {X : Type} `{XL : XdrrecLaws X}.
Context (junk : Z) (xdr_replymsg : list Z -> option (Z * list Z)) (auth : list Z).
Context (replymsg_word : forall m xid payload, xdr_replymsg m = Some (xid, payload) -> is_u 32 xid).
Context (table_memory : forall (t : T) x v, ght_ok t -> is_u 32 x ->
  Z.of_nat (length (ght_entries t)) < 2 ^ 31 - 1 -> snd (ght_insert t x v) <> -2).
Implicit Types (c : clnt T X) (s : session).

(** Neither flush nor read. *)
Definition CALL_ONLY : Z := Z.lor RPC_NO_TX_FLUSH RPC_NO_RX.

(** One call after the other. *)
Fixpoint call_all (calls : list (rpc_proc_info * callback_info)) c : clnt T X * outcome unit :=
  match calls with
  | [] => (c, Returns tt)
  | (rpc, cbi) :: calls =>
      match call_ct junk xdr_replymsg auth rpc cbi CALL_ONLY c with
      | (c, Returns _) => call_all calls c
      | (c, Waits) => (c, Waits)
      | (c, Undefined) => (c, Undefined)
      | (c, Spins) => (c, Spins)
      end
  end.

(** The transaction ids of the next [n] calls. *)
Definition xids (n : nat) (mcall : list Z) : list Z :=
  (fun i => xid_host (after_calls (S i) mcall)) <$> seq 0 n.

(** The messages of the calls. *)
Fixpoint messages (mpos : nat) (mcall : list Z) (calls : list (rpc_proc_info * callback_info)) : list (list Z) :=
  match calls with
  | [] => []
  | (rpc, _) :: calls =>
      (take mpos (decrement_xid mcall) ++ be 4 (proc rpc) ++ auth ++ inargs rpc)
        :: messages mpos (decrement_xid mcall) calls
  end.

Lemma after_calls_decrement n mcall : after_calls n (decrement_xid mcall) = after_calls (S n) mcall.
Proof. unfold after_calls. by rewrite <- Nat.iter_succ_r. Qed.

Lemma xids_S n mcall : xids (S n) mcall = xid_host (decrement_xid mcall) :: xids n (decrement_xid mcall).
Proof.
  unfold xids. cbn [seq]. rewrite fmap_cons. f_equal. rewrite <- fmap_S_seq, <- list_fmap_compose.
  apply list_fmap_ext. intros i j _. unfold compose. by rewrite after_calls_decrement.
Qed.

(** One call without reception. *)
Lemma call_only_ok k c s rpc cbi :
  client_ok k None c s -> callable c s rpc cbi ->
  ends (call_ct junk xdr_replymsg auth rpc cbi CALL_ONLY c) (fun c' r => io_ok r (fun _ =>
    client_ok k None c' (called s (xid_host (decrement_xid (ct_mcall c))) cbi) /\
    (exists w, framed (message auth (prepared c cbi) rpc) w /\ outgoing c' = outgoing c ++ w) /\
    ct_pendingcalls c' = ct_pendingcalls c + 1 /\ so_reads (ct_sock c') = so_reads (ct_sock c) /\
    (write_fails c' -> write_fails c) /\ ct_mcall c' = decrement_xid (ct_mcall c) /\
    ct_mpos c' = ct_mpos c /\ ct_sockflags c' = ct_sockflags c)).
Proof.
  intros Hc Hca. rewrite call_ct_unfold by first [eapply Rep_ample, Hc|eapply Rep_table, Hc].
  destruct (send_call_ok auth k None c s rpc cbi Hc Hca) as (Hio & out & Ht).
  destruct (send_message auth rpc (prepared c cbi)) as [c2 r2]. cbn in Hio, Ht.
  destruct (transmits_fields _ _ _ Ht) as (Hmc & Hmp & Hsf & Hp & Hr & _).
  destruct r2 as [b| | |]; try done. destruct Hio as (-> & Hc2 & Hw).
  change (ct_pendingcalls (prepared c cbi)) with (ct_pendingcalls c) in Hp.
  destruct (Z.eqb_spec (ct_pendingcalls c2) (2 ^ 31 - 1)) as [E|_]; [by destruct Hca; rewrite Hp in E|].
  change (CALL_ONLY =? RPC_DEFAULT_FLAGS) with false. cbn iota zeta. unfold receive_ct.
  change (flush_tx_buffer CALL_ONLY) with false. unfold receive_replies.
  change (read_rpc_response CALL_ONLY) with false. cbn iota.
  assert (Hfin : client_ok k None (set_pendingcalls (ct_pendingcalls c2 + 1) c2)
    (called s (xid_host (decrement_xid (ct_mcall c))) cbi)) by (destruct Hc2 as [? [? ?] ? ?]; by constructor).
  destruct (ct_pendingcalls (set_pendingcalls (ct_pendingcalls c2 + 1) c2) =? 0).
  all: unfold ends; cbn; split; [exact Hfin|]; split; [exact Hw|]; rewrite Hp; split; [done|].
  all: split; [exact Hr|]; split; [exact (write_fails_later _ _ _ Ht)|done].
Qed.

Lemma call_all_ok calls : forall k c s,
  client_ok k None c s -> Forall (fun p => inproc_ok p.1 = true) calls -> ~ write_fails c ->
  Z.of_nat (length (sn_calls s) + length calls) < 2 ^ 31 ->
  ct_pendingcalls c = Z.of_nat (length (sn_calls s)) ->
  NoDup ((sn_calls s).*1 ++ xids (length calls) (ct_mcall c)) ->
  ends (call_all calls c) (fun c' r => io_ok r (fun _ =>
    client_ok k None c' (mk_session (sn_calls s ++ zip (xids (length calls) (ct_mcall c)) calls.*2) (sn_called s)) /\
    (exists ws, Forall2 framed (messages (ct_mpos c) (ct_mcall c) calls) ws /\ outgoing c' = outgoing c ++ mjoin ws) /\
    ct_pendingcalls c' = Z.of_nat (length (sn_calls s) + length calls) /\
    so_reads (ct_sock c') = so_reads (ct_sock c) /\ ct_sockflags c' = ct_sockflags c)).
Proof.
  induction calls as [|[rpc cbi] calls IH]; intros k c s Hc Hin Hw Hlen Hp Hnd.
  - unfold ends. cbn. rewrite app_nil_r, Nat.add_0_r. split; [by destruct s|]. split; [|done].
    exists []. cbn. split; [constructor|by rewrite app_nil_r].
  - apply Forall_cons in Hin as [Hi Hin]. cbn [length call_all] in *. rewrite xids_S in Hnd |- *.
    assert (Hca : callable c s rpc cbi).
    { constructor; [done|done| | | |].
      - intros Hx. apply NoDup_app in Hnd as (_ & Hnd & _). apply (Hnd _ Hx). by left.
      - lia.
      - destruct (co_rep _ _ _ _ Hc) as (_ & Ht & He & _). apply (ptr_memory table_memory); [done| |rewrite He; lia].
        apply mcall_word, decrement_ok, Hc.
      - lia. }
    pose proof (call_only_ok k c s rpc cbi Hc Hca) as Hcall.
    destruct (call_ct junk xdr_replymsg auth rpc cbi CALL_ONLY c) as [c1 r1]. unfold ends in Hcall. cbn in Hcall.
    destruct r1 as [v| | |]; try done. destruct Hcall as (Hc1 & (w & Hfr & Ho) & Hp1 & Hr1 & Hw1 & Hm1 & Hmp1 & Hs1).
    specialize (IH k c1 _ Hc1 Hin). rewrite Hm1, Hp1, Hr1, Hmp1, Hs1 in IH. cbn [called sn_calls sn_called] in IH.
    rewrite fmap_app, length_app in IH. cbn [length fmap list_fmap fst] in IH.
    destruct (call_all calls c1) as [c2 r2]. unfold ends in IH |- *. cbn [fst snd] in IH |- *.
    destruct r2 as [u| | |]; cbn [io_ok] in IH |- *.
    + destruct IH as (Hc2 & (ws & Hws & Ho2) & Hp2 & Hr2 & Hs2); [tauto|lia|lia|by rewrite <- app_assoc|].
      rewrite <- app_assoc in Hc2. split; [done|]. split; [|split; [lia|done]].
      exists (w :: ws). split; [by constructor|]. rewrite Ho2, Ho. by rewrite <- app_assoc.
    + done.
    + apply IH; [tauto|lia|lia|by rewrite <- app_assoc].
    + apply IH; [tauto|lia|lia|by rewrite <- app_assoc].
Qed.

Lemma xids_nodup n mcall : mcall_ok mcall -> Z.of_nat n < 2 ^ 31 -> NoDup (xids n mcall).
Proof.
  intros Hm Hn. unfold xids. apply NoDup_fmap_2_strong; [|apply NoDup_seq].
  intros i j Hi Hj E. apply elem_of_seq in Hi, Hj. apply xids_inj in E; [lia|done|lia..].
Qed.

(** [C6] The round trip of asynchronous calls: on a blocking connection without
    waiting calls, make any number of calls; each puts its own record on the
    outgoing stream, in order.  If the server answers each once, in any order,
    then as many blocking calls of [clnttcp_nb_receive] run every callback
    exactly once, with its own private pointer and its own reply, and nothing
    waits any more. *)
Theorem rpc_round_trip calls k c called0 recs rs bufs :
  client_ok k None c (mk_session [] called0) -> is_nonblocking (ct_sockflags c) = false ->
  ct_pendingcalls c = 0 -> write_error ∉ so_writes (ct_sock c) ->
  Forall (fun p => inproc_ok p.1 = true) calls -> Z.of_nat (length calls) < 2 ^ 31 ->
  so_reads (ct_sock c) = read_bytes <$> bufs -> cuts None (read_bytes <$> bufs) ->
  Forall sendable recs -> mjoin bufs = mjoin (mark <$> recs) ->
  Forall2 (fun m r => xdr_replymsg m = Some r) recs rs ->
  rs.*1 ≡ₚ xids (length calls) (ct_mcall c) ->
  ends (call_all calls c) (fun c1 r => io_ok r (fun _ =>
    (exists ws, Forall2 framed (messages (ct_mpos c) (ct_mcall c) calls) ws /\
       outgoing c1 = outgoing c ++ mjoin ws) /\
    exists c2, poll junk xdr_replymsg (length calls) c1 = (c2, Returns tt) /\
      ght_entries (ct_xid_to_ucb (ct_recv c2)) = [] /\
      ct_called (ct_recv c2) =
        called0 ++ omap (invocation_of (zip (xids (length calls) (ct_mcall c)) calls.*2)) rs)).
Proof.
  intros Hc Hnb Hp Hw Hin Hlen Hrs Hcut Hsend Hjoin Hdec Hperm.
  assert (Hxl : length (xids (length calls) (ct_mcall c)) = length calls).
  { unfold xids. by rewrite length_fmap, length_seq. }
  pose proof (call_all_ok calls k c _ Hc Hin Hw Hlen Hp) as Hall.
  destruct (call_all calls c) as [c1 r]. unfold ends in Hall |- *. cbn [fst snd sn_calls sn_called app length fmap list_fmap Nat.add] in Hall |- *.
  assert (Hnd : NoDup (xids (length calls) (ct_mcall c))) by (by apply xids_nodup; [apply Hc|]).
  destruct r as [u| | |]; cbn [io_ok] in Hall |- *; try done; try (by apply Hall).
  destruct (Hall Hnd) as (Hc1 & Hws & Hp1 & Hr1 & Hs1). split; [done|]. set (w := zip _ _) in *.
  assert (Hwl : length w = length calls).
  { unfold w. rewrite length_zip, Hxl, length_fmap. lia. }
  assert (Hw1 : w.*1 = xids (length calls) (ct_mcall c)).
  { unfold w. apply fst_zip. by rewrite Hxl, length_fmap. }
  destruct (polling_answers_all junk xdr_replymsg replymsg_word k c1 (mk_session w called0) recs rs bufs)
    as (c2 & E & He & _ & Hcalled); try done; cbn [sn_calls].
  - by rewrite Hs1.
  - by rewrite Hr1.
  - by rewrite Hw1.
  - by rewrite Hp1, Hwl.
  - exists c2. cbn [sn_calls] in E, Hcalled. rewrite Hwl in E. split; [done|]. split; [done|].
    rewrite Hcalled. f_equal. by destruct (co_rep _ _ _ _ Hc1) as (_ & _ & _ & -> & _).
Qed.
End conversation.
