(* ===== verification/RpcClientExamples.v ===== *)
(** * A client at work

    The theorems about the RPC client at concrete connections: the table is the
    pointer-level hash table of [HashTable] with its allocator, the record
    stream keeps a record until it ends, and a reply is a transaction id of four
    bytes followed by the payload. *)

From S2P Require Import Prelude HashTable HashTableRep HashTableRemove HashTableOps HashTableDict HashFunctions GhtIface RpcRecord RpcRecordCorrect RpcClient RpcSend RpcClientCorrect.

Abbreviation table := (ght_state callback_info).

(** The calls of [ght_*] on it. *)
#[local] Instance table_ght : Ght table callback_info := xid_ght malloc.
#[local] Instance table_laws : GhtLaws table callback_info := xid_ght_laws malloc malloc_fresh.

(** [ght_create(BUCKET_XID)]. *)
Definition table_ex : table := mk_state (empty_table 7) ∅ 3 [].

Example table_created : (fun s => i_size (ht s)) <$> @created_table callback_info BUCKET_XID = Some (i_size (ht table_ex)).
Proof. vm_compute. reflexivity. Qed.

Lemma table_ex_ok : ght_ok table_ex /\ ght_entries table_ex = [].
Proof.
  assert (H : xid_table table_ex []).
  { constructor; [|constructor|done]. exists [], (replicate (Z.to_nat (2 ^ 7)) []). split; [|done].
    apply (Rep_empty ∅ 0 ght_one_at_a_time_hash None false 0 7); [lia|].
    intros k _. apply ght_one_at_a_time_hash_range. }
  split; [by exists []|]. exact (xid_entries malloc _ _ H).
Qed.

Lemma table_memory_ex (t : table) x v : ght_ok t -> is_u 32 x ->
  Z.of_nat (length (ght_entries t)) < 2 ^ 31 - 1 -> snd (ght_insert t x v) <> -2.
Proof. apply (xid_memory malloc malloc_fresh). intros n m. by eexists. Qed.

Definition replymsg4 (m : list Z) : option (Z * list Z) :=
  if decide (4 <= length m)%nat then Some (u32 (unbe (take 4 m)), drop 4 m) else None.

Lemma replymsg4_word m xid payload : replymsg4 m = Some (xid, payload) -> is_u 32 xid.
Proof. unfold replymsg4. case_decide; [|done]. intros [= <- _]. by apply wrap_is_u. Qed.

(** The static header: transaction id 1000, then 16 bytes. *)
Definition mcall_ex : list Z := be 4 1000 ++ repeat 0 20.
Definition auth_ex : list Z := repeat 0 16.
Definition x1 : Z := Eval vm_compute in xid_host (after_calls 1 mcall_ex).
Definition x2 : Z := Eval vm_compute in xid_host (after_calls 2 mcall_ex).

Lemma mcall_ex_ok : mcall_ok mcall_ex.
Proof. split; [by apply Nat.leb_le|]. apply Forall_app. split; [apply be_bytes_ok|by repeat constructor]. Qed.

Definition client_ex (ws : list write_result) (rs : list read_result) (pending : Z) : clnt table (list Z) :=
  mk_clnt (mk_ct_data (rs_ex [0; 0; 0; 0]) (Some table_ex) 0 (mk_heap 3 0 (fun _ => true)) []) [] RPC_SUCCESS
    DEFAULT_SOCKRW_SIZE mcall_ex 20 0 [] DEFAULT_SOCKRW_SIZE RPC_BLOCKING_WAIT pending
    (mk_socket [] ws rs []).

Lemma client_ex_ok ws rs pending : client_ok 3 None (client_ex ws rs pending) (mk_session [] []).
Proof.
  destruct table_ex_ok as [H1 H2]. constructor.
  - split; [done|]. split_and!; done.
  - split_and!; [done|constructor|cbn; lia].
  - done.
  - exact mcall_ex_ok.
Qed.

Lemma insert_ex ws rs pending cbi :
  let c := client_ex ws rs pending in
  snd (ght_insert (ct_xid_to_ucb (ct_recv c)) (xid_host (decrement_xid (ct_mcall c))) cbi) <> -2.
Proof.
  intros c. apply (ptr_memory table_memory_ex); [exact (proj1 table_ex_ok)|apply mcall_word, decrement_ok, mcall_ex_ok|].
  change (ct_xid_to_ucb (ct_recv c)) with (Some table_ex).
  change (ght_entries (Some table_ex)) with (ght_entries table_ex). by rewrite (proj2 table_ex_ok).
Qed.

Definition read_ex : rpc_proc_info := mk_rpc_proc_info 6 [0; 0; 0; 1] true.
Definition bad_ex : rpc_proc_info := mk_rpc_proc_info 7 [0; 0] false.
Definition cb1 : callback_info := mk_callback_info (Some 100) 1.
Definition cb2 : callback_info := mk_callback_info (Some 200) 2.
Definition reply1 : list Z := be 4 x1 ++ [1; 2].
Definition reply2 : list Z := be 4 x2 ++ [4].

Lemma reads_cut recs : Forall sendable recs -> cuts None (read_bytes <$> (mark <$> recs)).
Proof.
  induction 1 as [|r recs Hr _ IH]; [done|]. exists None, [r]. split; [|exact IH].
  pose proof (feed_stream [r] (proj2 (Forall_singleton _ _) Hr)) as HF. cbn in HF. by rewrite app_nil_r in HF.
Qed.

Lemma replies_sendable : Forall sendable [reply2; reply1].
Proof. repeat constructor; done. Qed.

(** Two calls; the second is answered first. *)
Lemma rpc_round_trip_witness :
  ends (call_all 0 replymsg4 auth_ex [(read_ex, cb1); (read_ex, cb2)]
          (client_ex [write_taken 10; write_again; write_taken 1000] (read_bytes <$> (mark <$> [reply2; reply1])) 0))
    (fun c1 r => io_ok r (fun _ =>
      (exists ws, Forall2 framed (messages auth_ex 20 mcall_ex [(read_ex, cb1); (read_ex, cb2)]) ws /\
         outgoing c1 = [] ++ mjoin ws) /\
      exists c2, poll 0 replymsg4 2 c1 = (c2, Returns tt) /\
        ght_entries (ct_xid_to_ucb (ct_recv c2)) = [] /\
        ct_called (ct_recv c2) = [mk_invocation 200 2 [4]; mk_invocation 100 1 [1; 2]])).
Proof.
  apply (rpc_round_trip 0 replymsg4 auth_ex replymsg4_word table_memory_ex [(read_ex, cb1); (read_ex, cb2)] 3
    (client_ex [write_taken 10; write_again; write_taken 1000] (read_bytes <$> (mark <$> [reply2; reply1])) 0)
    [] [reply2; reply1] [(x2, [4]); (x1, [1; 2])] (mark <$> [reply2; reply1])); try done.
  - apply client_ex_ok.
  - cbn. set_solver.
  - by repeat constructor.
  - apply reads_cut, replies_sendable.
  - apply replies_sendable.
  - by repeat constructor.
  - vm_compute. apply Permutation_swap.
Defined.

Lemma send_buffers_fifo_witness :
  ends (send_buffers (set_sndlist [mk_frag_buffer [1; 2; 3] 1 2] (client_ex [write_taken 1; write_error] [] 0)) RPC_BLOCKING_WAIT)
    (fun c' r => transmits (set_sndlist [mk_frag_buffer [1; 2; 3] 1 2] (client_ex [write_taken 1; write_error] [] 0)) [] c' /\
       io_ok r (fun n => send_result RPC_BLOCKING_WAIT [write_taken 1; write_error] n c')).
Proof.
  apply (send_buffers_fifo RPC_BLOCKING_WAIT (set_sndlist [mk_frag_buffer [1; 2; 3] 1 2] (client_ex [write_taken 1; write_error] [] 0))).
  split_and!; [done| |cbn; lia]. apply Forall_singleton. unfold buffer_ok. cbn. lia.
Defined.

Lemma xids_distinct_witness :
  mcall_ok mcall_ex /\ (xid_host (after_calls 1 mcall_ex) = xid_host (after_calls 1 mcall_ex) -> 1%nat = 1%nat).
Proof.
  split; [exact mcall_ex_ok|]. apply (xids_distinct mcall_ex 1 1 mcall_ex_ok); lia.
Defined.

Lemma clnttcp_nb_receive_ok_witness :
  exists c' r, clnttcp_nb_receive 0 replymsg4 (Some (client_ex [] [read_bytes (mark reply1)] 1)) RPC_BLOCKING_WAIT = (Some c', r) /\
    receives replymsg4 3 None (client_ex [] [read_bytes (mark reply1)] 1) (mk_session [] []) RPC_BLOCKING_WAIT c' r.
Proof.
  apply (clnttcp_nb_receive_ok 0 replymsg4 replymsg4_word 3 None (client_ex [] [read_bytes (mark reply1)] 1)).
  - apply client_ex_ok.
  - apply (reads_cut [reply1]). by repeat constructor.
Defined.

Lemma clnttcp_nb_call_ok_witness :
  exists c' r, clnttcp_nb_call 0 replymsg4 auth_ex (Some (client_ex [write_taken 100] [read_bytes (mark reply1)] 0)) read_ex cb1
      RPC_DEFAULT_FLAGS = (Some c', r) /\
    io_ok r (fun v => v = RPC_SUCCESS /\
      (exists w, framed (message auth_ex (prepared (client_ex [write_taken 100] [read_bytes (mark reply1)] 0) cb1) read_ex) w /\
         outgoing c' = [] ++ w) /\
      exists used out st', [read_bytes (mark reply1)] = used ++ so_reads (ct_sock c') /\
        Feed None (bytes_of used) st' out /\
        client_ok (3 + length out) st' c' (foldl (reply replymsg4) (mk_session [(x1, cb1)] []) out) /\
        ct_pendingcalls c' = 0 + 1 - Z.of_nat (length out)).
Proof.
  apply (clnttcp_nb_call_ok 0 replymsg4 replymsg4_word auth_ex 3 None (client_ex [write_taken 100] [read_bytes (mark reply1)] 0)
    (mk_session [] []) read_ex cb1 RPC_DEFAULT_FLAGS).
  - apply client_ex_ok.
  - constructor; [done|cbn; set_solver|apply not_elem_of_nil|done|apply insert_ex|done].
  - apply (reads_cut [reply1]). by repeat constructor.
Defined.

Lemma failed_call_corrupts_next_witness :
  exists c1 r, clnttcp_nb_call 0 replymsg4 auth_ex (Some (client_ex [write_taken 100] [] 0)) bad_ex cb1 RPC_NO_RX = (Some c1, r) /\
    io_ok r (fun v => v = RPC_CANTENCODEARGS /\
      ght_entries (ct_xid_to_ucb (ct_recv c1)) = [(x1, cb1)] /\ ct_pendingcalls c1 = 0 /\
      exists out, outgoing c1 = [] ++ out /\
      forall rpc2, inproc_ok rpc2 = true ->
        ends (send_message auth_ex rpc2 c1) (fun c2 r2 => r2 = Returns true ->
          exists w, outgoing c2 = outgoing c1 ++ w /\
            framed (message auth_ex (prepared (client_ex [write_taken 100] [] 0) cb1) bad_ex ++ message auth_ex c1 rpc2) (out ++ w))).
Proof.
  apply (failed_call_corrupts_next 0 replymsg4 auth_ex 3 None (client_ex [write_taken 100] [] 0)
    (mk_session [] []) bad_ex cb1 RPC_NO_RX).
  - apply client_ex_ok.
  - done.
  - cbn. set_solver.
  - cbn. set_solver.
  - done.
  - apply insert_ex.
Defined.

(** A client whose call [x1] waits for its reply. *)
Definition waiting_ex (rs : list read_result) : clnt table (list Z) := prepared (client_ex [] rs 1) cb1.

Lemma waiting_ex_ok rs : client_ok 3 None (waiting_ex rs) (mk_session [(x1, cb1)] []).
Proof.
  assert (x1 = xid_host (decrement_xid (ct_mcall (client_ex [] rs 1)))) as -> by (vm_compute; reflexivity).
  pose proof (client_ex_ok [] rs 1) as Hc. pose proof (insert_ex [] rs 1 cb1) as Hi. cbn zeta in Hi.
  unfold waiting_ex, prepared. set (c := client_ex [] rs 1) in *. set (x := xid_host _) in *. constructor.
  - refine (register_ok 3 None c (mk_session [] []) x cb1 (co_rep _ _ _ _ Hc) _ _ _ Hi _ _ _).
    + apply mcall_word, decrement_ok, mcall_ex_ok.
    + apply not_elem_of_nil.
    + cbn. lia.
    + reflexivity.
    + reflexivity.
  - split_and!; [done|constructor|cbn; lia].
  - done.
  - apply decrement_ok, mcall_ex_ok.
Qed.

(** The call [x1] waits; nobody waits for transaction 5.  Its record is counted
    as the answer, and the reply [reply1], which follows it, stays where it is. *)
Lemma stray_reply_starves_witness :
  exists c', clnttcp_nb_receive 0 replymsg4 (Some (waiting_ex [read_bytes (mark (be 4 5)); read_bytes (mark reply1)]))
      RPC_NO_TX_FLUSH = (Some c', Returns 1) /\
    ght_entries (ct_xid_to_ucb (ct_recv c')) = [(x1, cb1)] /\ ct_called (ct_recv c') = [] /\
    so_reads (ct_sock c') = [read_bytes (mark reply1)] /\ ct_pendingcalls c' = 0 /\
    forall flags, ends (receive_all 0 replymsg4 flags c') (fun c2 r =>
      reception c2 = reception c' /\ io_ok r (Forall (eq 0))).
Proof.
  apply (stray_reply_starves 0 replymsg4 replymsg4_word 3
    (waiting_ex [read_bytes (mark (be 4 5)); read_bytes (mark reply1)]) (mk_session [(x1, cb1)] []) (be 4 5)
    [read_bytes (mark reply1)] (waiting_ex_ok _) eq_refl eq_refl).
  - by split.
  - reflexivity.
  - reflexivity.
Defined.

(** [xdr_callhdr]: the transaction id, CALL, the RPC version, the program, its version. *)
Definition callhdr_ex (xid prog vers : Z) : option (list Z) :=
  Some (be 4 xid ++ be 4 0 ++ be 4 2 ++ be 4 prog ++ be 4 vers).

Lemma callhdr_ex_fits xid prog vers hdr : callhdr_ex xid prog vers = Some hdr ->
  (4 <= length hdr <= Z.to_nat MCALL_MSG_SIZE)%nat /\ bytes_ok hdr.
Proof.
  unfold callhdr_ex. intros <-%(inj Some).
  split; [rewrite !length_app, !length_be; change (Z.to_nat MCALL_MSG_SIZE) with 24%nat; lia|].
  repeat (apply Forall_app; split); apply be_bytes_ok.
Qed.

(** As the C library has it. *)
Example first_random : lrand48 (srand48 0) = 366850414.
Proof. vm_compute. reflexivity. Qed.

Definition system_ex : system := mk_system 2049 4 0 2 (fun _ => 0) 1200000000 250000 (mk_socket [] [] [] []).

(** With memory, a connection; with the third allocation failing, NULL, two
    blocks lost and the socket 4 open; without a table, a connection whose first
    call is undefined. *)
Definition third_fails : heap := mk_heap 0 0 (fun n => negb (Nat.eqb n 2)).

Lemma clnttcp_b_create_spec_witness :
  (exists cr, clnttcp_b_create 0 callhdr_ex system_ex 0 100003 3 (-1) 0 0 (Some table_ex) ([] : list Z)
      (mk_heap 0 0 (fun _ => true)) = Some cr /\
    exists c, cr_handle cr = Some c /\ client_ok 3 None c (mk_session [] []) /\ cr_sock cr = 4 /\ cr_port cr = 2049) /\
  (exists cr, clnttcp_b_create 0 callhdr_ex system_ex 0 100003 3 (-1) 0 0 (Some table_ex) ([] : list Z) third_fails = Some cr /\
    cr_handle cr = None /\ h_live (cr_heap cr) = 2%nat /\ cr_closed cr = false /\ cr_lost cr = None) /\
  (exists cr, clnttcp_b_create 0 (fun _ _ _ => None) system_ex 0 100003 3 (-1) 0 0 (Some table_ex) ([] : list Z)
      (mk_heap 0 0 (fun _ => true)) = Some cr /\
    cr_handle cr = None /\ h_live (cr_heap cr) = 1%nat /\ cr_closed cr = true /\ cr_lost cr = Some table_ex) /\
  (exists cr c, clnttcp_b_create 0 callhdr_ex system_ex 0 100003 3 (-1) 0 0 (None : option table) ([] : list Z)
      (mk_heap 0 0 (fun _ => true)) = Some cr /\ cr_handle cr = Some c /\
    (clnttcp_nb_call 0 replymsg4 auth_ex (Some c) read_ex cb1 RPC_DEFAULT_FLAGS).2 = Undefined).
Proof.
  assert (Ht : forall t, Some table_ex = Some t -> ght_ok t /\ ght_entries t = []).
  { intros t [= <-]. exact table_ex_ok. }
  split_and!.
  - destruct (clnttcp_b_create_spec 0 callhdr_ex callhdr_ex_fits system_ex 0 100003 3 (-1) 0 0 (Some table_ex) ([] : list Z)
      (mk_heap 0 0 (fun _ => true)) Ht) as (cr & E & Hcr & _); [done|done|].
    exists cr. split; [exact E|]. destruct Hcr as (c & Hc & _ & _ & _ & _ & _ & _ & _ & _ & _ & Hp & Hs & _ & Hok).
    exists c. split; [exact Hc|]. by split; [apply Hok|].
  - destruct (clnttcp_b_create_spec 0 callhdr_ex callhdr_ex_fits system_ex 0 100003 3 (-1) 0 0 (Some table_ex) ([] : list Z)
      third_fails Ht) as (cr & E & Hcr & _); [done|done|].
    exists cr. split; [exact E|exact Hcr].
  - destruct (clnttcp_b_create_spec 0 (fun _ _ _ => None) ltac:(done) system_ex 0 100003 3 (-1) 0 0 (Some table_ex) ([] : list Z)
      (mk_heap 0 0 (fun _ => true)) Ht) as (cr & E & Hcr & _); [done|done|].
    exists cr. split; [exact E|exact Hcr].
  - destruct (clnttcp_b_create_spec 0 callhdr_ex callhdr_ex_fits system_ex 0 100003 3 (-1) 0 0 (None : option table) ([] : list Z)
      (mk_heap 0 0 (fun _ => true)) ltac:(done)) as (cr & E & Hcr & Hu); [done|done|].
    destruct Hcr as (c & Hc & _). exists cr, c. split; [exact E|]. split; [exact Hc|].
    by apply (Hu c Hc eq_refl).
Defined.

Lemma clnttcp_nb_destroy_spec_witness :
  exists h, clnttcp_nb_destroy (Some (client_ex [] [] 0)) (mk_heap 3 0 (fun _ => true)) = Some h /\ h_live h = 1%nat.
Proof.
  exact (clnttcp_nb_destroy_spec 1 (client_ex [] [] 0) (mk_session [] []) (client_ex_ok [] [] 0)).
Defined.
