(* ===== verification/Xdr.v ===== *)
(** * The XDR layer the NFS routines rely on

    [nfs3_xdr.c] is written against the XDR primitives of the C library
    (<rpc/xdr.h>: [xdr_u_long], [xdr_bytes], [xdr_pointer], ...), which are not
    part of the repository.  This file states that interface: the state of an
    XDR handle, the result of a routine, the operations ([XdrPrims]) and their
    laws ([XdrLaws]), together with a small program logic for routines built
    from them.  [XdrRfc] gives a concrete implementation of the interface. *)

From S2P Require Import Prelude.

(** ** Handles and results *)

Inductive xdr_op := XDR_ENCODE | XDR_DECODE | XDR_FREE.

(** An XDR handle.  [x_buf] holds the bytes written so far when encoding and
    the bytes still to be read when decoding; [x_handy] is the room left in an
    encoding buffer; [x_public] is the user field of the handle.  The heap is
    carried along because decoding allocates. *)
Record XDR := mk_XDR {
  x_op : xdr_op;
  x_buf : list Z;
  x_handy : nat;
  x_public : Z;
  x_heap : heap
}.

(** A routine returns TRUE with the (updated) object, returns FALSE, has
    undefined behaviour, or exhausts the recursion bound of the model. *)
Inductive xres (A : Type) : Type :=
| XOk (s : XDR) (a : A)
| XFail (s : XDR)
| XUB
| XFuel.
Arguments XOk {A} s a.
Arguments XFail {A} s.
Arguments XUB {A}.
Arguments XFuel {A}.

Definition xbind {A B} (r : xres A) (k : XDR -> A -> xres B) : xres B :=
  match r with
  | XOk s a => k s a
  | XFail s => XFail s
  | XUB => XUB
  | XFuel => XFuel
  end.

(** [if (!r) return FALSE;] followed by the rest of the routine. *)
Notation "'let?' ( s , x ) ':=' r 'in' k" := (xbind r (fun s x => k))
  (at level 10, s name, x name, r at level 100, k at level 200).

(** The routine for a [struct T *] takes the handle and the object. *)
Definition xdrproc (A : Type) : Type := XDR -> A -> xres A.

Definition set_buf (s : XDR) (bs : list Z) : XDR :=
  mk_XDR (x_op s) bs (x_handy s) (x_public s) (x_heap s).
Definition set_heap (s : XDR) (h : heap) : XDR :=
  mk_XDR (x_op s) (x_buf s) (x_handy s) (x_public s) h.

(** The handle after [bs] was written to it. *)
Definition xput (s : XDR) (bs : list Z) : XDR :=
  mk_XDR (x_op s) (x_buf s ++ bs) (x_handy s - length bs) (x_public s) (x_heap s).

(** ** Wire descriptions

    The abstract specification of an XDR type: which bytes stand for an
    object, which objects have a representation, which destinations a decoder
    may be given, when a decoded object agrees with the encoded one, and which
    heap blocks an object owns, and what holds of any object a decoder accepts. *)
Record wire (A : Type) : Type := mk_wire {
  w_enc : A -> list Z;          (* the bytes on the wire *)
  w_wf : A -> Prop;             (* the object can be encoded *)
  w_fresh : A -> Prop;          (* usable as the destination of a decoder *)
  w_sim : A -> A -> Prop;       (* [w_sim a b]: b agrees with a where a is meaningful *)
  w_owned : A -> nat;           (* heap blocks reachable from the object *)
  w_clean : A -> Prop;          (* no indeterminate pointer among them *)
  w_typed : A -> Prop           (* where meaningful, a value of the C type within its bounds *)
}.
Arguments mk_wire {A}.
Arguments w_enc {A} w a.
Arguments w_wf {A} w a.
Arguments w_fresh {A} w a.
Arguments w_sim {A} w a b.
Arguments w_owned {A} w a.
Arguments w_clean {A} w a.
Arguments w_typed {A} w a.

(** Zero bytes up to a multiple of four. *)
Definition pad (n : nat) : list Z := repeat 0 ((4 - n mod 4) mod 4)%nat.

Arguments pad : simpl never.
Arguments be : simpl never.

Definition scalar_w {A} (enc : A -> list Z) (wf : A -> Prop) : wire A :=
  mk_wire enc wf (fun _ => True) eq (fun _ => O) (fun _ => True) wf.

Definition u32_w : wire Z := scalar_w (be 4) (is_u 32).
Definition u64_w : wire Z := scalar_w (be 8) (is_u 64).
Definition is_int32 (v : Z) : Prop := - 2 ^ 31 <= v < 2 ^ 31.
Definition int_w : wire Z := scalar_w (fun v => be 4 v) is_int32.
Definition quad_w : wire Z := scalar_w (be 8) (fun v => - 2 ^ 63 <= v < 2 ^ 63).
Definition enum_w : wire Z := int_w.
Definition bool_w : wire Z := scalar_w (be 4) (fun v => v = 0 \/ v = 1).

(** A boolean that the decoder may take over as it is. *)
Definition raw_bool_w : wire Z :=
  mk_wire (be 4) (fun v => v = 0 \/ v = 1) (fun _ => True) eq (fun _ => O) (fun _ => True) is_int32.

(** opaque data[n] *)
Definition opaque_w (n : nat) : wire (list Z) :=
  mk_wire (fun bs => bs ++ pad n) (fun bs => length bs = n /\ bytes_ok bs)
    (fun _ => True) eq (fun _ => O) (fun _ => True) (fun bs => length bs = n /\ bytes_ok bs).

Definition ptr_owned {A} (p : ptr A) : nat := match p with PTo _ => 1 | _ => 0 end.
Definition ptr_clean {A} (p : ptr A) : Prop := match p with PWild => False | _ => True end.

(** opaque data<max>: rpcgen's [struct { u_int data_len; char *data_val; }]. *)
Record opaque_buf := mk_opaque_buf {
  data_len : Z;
  data_val : ptr (list Z)
}.

Definition bytes_wf (max : Z) (o : opaque_buf) : Prop :=
  match data_val o with
  | PTo bs => data_len o = Z.of_nat (length bs) /\ 0 < data_len o <= max /\ bytes_ok bs
  | PNull => data_len o = 0
  | PWild => False
  end.
Definition ptr_content (p : ptr (list Z)) : list Z := match p with PTo bs => bs | _ => [] end.
Definition bytes_w (max : Z) : wire opaque_buf :=
  mk_wire (fun o => be 4 (data_len o) ++ ptr_content (data_val o)
                      ++ pad (length (ptr_content (data_val o))))
    (bytes_wf max) (fun d => data_val d = PNull) eq
    (fun o => ptr_owned (data_val o)) (fun o => ptr_clean (data_val o)) (bytes_wf max).

(** string data<max>: a NUL-terminated character array; the block holds the
    characters before the NUL.  The length plus one must fit a [u_int]. *)
Definition string_wf (max : Z) (p : ptr (list Z)) : Prop :=
  match p with
  | PTo bs => Z.of_nat (length bs) <= max /\ Z.of_nat (length bs) < 2 ^ 32 - 1 /\
              Forall (fun b => 0 < b < 256) bs
  | _ => False
  end.
(** A decoded string may have a NUL inside. *)
Definition string_typed (max : Z) (p : ptr (list Z)) : Prop :=
  match p with
  | PTo bs => Z.of_nat (length bs) <= max /\ Z.of_nat (length bs) < 2 ^ 32 - 1 /\ bytes_ok bs
  | _ => False
  end.
Definition string_w (max : Z) : wire (ptr (list Z)) :=
  mk_wire (fun p => be 4 (Z.of_nat (length (ptr_content p))) ++ ptr_content p
                      ++ pad (length (ptr_content p)))
    (string_wf max) (fun d => d = PNull) eq ptr_owned ptr_clean (string_typed max).

Definition void_w {A} : wire A :=
  mk_wire (fun _ => []) (fun _ => True) (fun _ => True) (fun _ _ => True)
    (fun _ => O) (fun _ => True) (fun _ => True).

(** A discriminant the type does not have. *)
Definition never_w {A} : wire A :=
  mk_wire (fun _ => []) (fun _ => False) (fun _ => True) (fun _ _ => False)
    (fun _ => O) (fun _ => False) (fun _ => False).

(** An arm that leaves a member with pointers untouched. *)
Definition inactive_w {A} (w : wire A) : wire A :=
  mk_wire (fun _ => []) (fun _ => True) (w_fresh w) (fun _ _ => True) (w_owned w) (w_clean w) (fun _ => True).

Definition prod_w {A B} (w1 : wire A) (w2 : wire B) : wire (A * B) :=
  mk_wire (fun o => w_enc w1 (fst o) ++ w_enc w2 (snd o))
    (fun o => w_wf w1 (fst o) /\ w_wf w2 (snd o))
    (fun o => w_fresh w1 (fst o) /\ w_fresh w2 (snd o))
    (fun o o' => w_sim w1 (fst o) (fst o') /\ w_sim w2 (snd o) (snd o'))
    (fun o => w_owned w1 (fst o) + w_owned w2 (snd o))%nat
    (fun o => w_clean w1 (fst o) /\ w_clean w2 (snd o))
    (fun o => w_typed w1 (fst o) /\ w_typed w2 (snd o)).

(** A description transported along the members of a struct. *)
Definition via {A B} (f : B -> A) (w : wire A) : wire B :=
  mk_wire (fun o => w_enc w (f o)) (fun o => w_wf w (f o)) (fun o => w_fresh w (f o))
    (fun o o' => w_sim w (f o) (f o')) (fun o => w_owned w (f o)) (fun o => w_clean w (f o))
    (fun o => w_typed w (f o)).

(** union switch (tag) { ... }: the discriminant, then the arm it selects. *)
Definition union_w {A} (tag : A -> Z) (tw : wire Z) (arm : Z -> wire A) : wire A :=
  mk_wire (fun o => w_enc tw (tag o) ++ w_enc (arm (tag o)) o)
    (fun o => w_wf tw (tag o) /\ w_wf (arm (tag o)) o)
    (fun o => forall t, w_fresh (arm t) o)
    (fun o o' => w_sim tw (tag o) (tag o') /\ w_sim (arm (tag o)) o o')
    (fun o => w_owned (arm (tag o)) o)
    (fun o => w_clean (arm (tag o)) o)
    (fun o => w_typed tw (tag o) /\ w_typed (arm (tag o)) o).

Declare Scope wire_scope.
Delimit Scope wire_scope with w.
Bind Scope wire_scope with wire.
Infix "**" := prod_w (at level 41, right associativity) : wire_scope.

Arguments u32_w : simpl never.
Arguments u64_w : simpl never.
Arguments int_w : simpl never.
Arguments quad_w : simpl never.
Arguments enum_w : simpl never.
Arguments bool_w : simpl never.
Arguments raw_bool_w : simpl never.
Arguments opaque_w : simpl never.
Arguments bytes_w : simpl never.
Arguments string_w : simpl never.

(** A buffer that is ready for decoding owns nothing. *)
Lemma bytes_fresh max d :
  w_fresh (bytes_w max) d -> w_owned (bytes_w max) d = O /\ w_clean (bytes_w max) d.
Proof. unfold bytes_w. cbn. by intros ->. Qed.

(** ** Judgements on routines *)

(** Encoding writes exactly [bs], leaves the object alone, and fails instead
    of overrunning the buffer. *)
Definition EncOK {A} (pub : Z) (c : XDR -> xres A) (bs : list Z) (a : A) : Prop :=
  forall s, x_op s = XDR_ENCODE -> x_public s = pub ->
    ((length bs <= x_handy s)%nat -> c s = XOk (xput s bs) a) /\
    ((x_handy s < length bs)%nat -> exists s', c s = XFail s').

(** [s'] is [s] after reading up to [rest]. *)
Definition dec_next (s : XDR) (rest : list Z) (s' : XDR) : Prop :=
  x_op s' = x_op s /\ x_public s' = x_public s /\ x_buf s' = rest /\
  h_ok (x_heap s') = h_ok (x_heap s).

(** Decoding [bs] (followed by anything) consumes exactly [bs] and yields an
    object satisfying [P]; a proper prefix of [bs] is rejected.  [n] bounds the
    length of the input. *)
Definition DecOK {A} (pub : Z) (n : nat) (c : XDR -> xres A) (bs : list Z) (P : A -> Prop) : Prop :=
  forall s, x_op s = XDR_DECODE -> x_public s = pub -> mem_ample (x_heap s) ->
    (length (x_buf s) <= n)%nat ->
    (forall rest, x_buf s = bs ++ rest ->
       exists s' a, c s = XOk s' a /\ dec_next s rest s' /\ P a) /\
    (forall more, more <> [] -> x_buf s ++ more = bs -> exists s', c s = XFail s').

(** On arbitrary input of at most [n] bytes, decoding has no undefined
    behaviour; what it returns owns exactly the blocks it allocated, besides
    the [k] blocks the routine allocated before. *)
Definition DecSafe {A} (pub : Z) (n k : nat) (c : XDR -> xres A)
    (own : A -> nat) (Q : A -> Prop) : Prop :=
  forall s, x_op s = XDR_DECODE -> x_public s = pub -> (length (x_buf s) <= n)%nat ->
    match c s with
    | XOk s' a =>
        x_op s' = XDR_DECODE /\ x_public s' = pub /\
        h_ok (x_heap s') = h_ok (x_heap s) /\
        (exists pre, x_buf s = pre ++ x_buf s') /\
        (h_live (x_heap s') + k)%nat = (h_live (x_heap s) + own a)%nat /\ Q a
    | XFail s' =>
        h_ok (x_heap s') = h_ok (x_heap s) /\ (h_live (x_heap s) <= h_live (x_heap s'))%nat
    | XUB | XFuel => False
    end.

(** On any bytes, what a decoder accepts satisfies [Q]. *)
Definition DecTyped {A} (pub : Z) (c : XDR -> xres A) (Q : A -> Prop) : Prop :=
  forall s, x_op s = XDR_DECODE -> x_public s = pub -> bytes_ok (x_buf s) ->
    match c s with
    | XOk s' a => x_op s' = XDR_DECODE /\ x_public s' = pub /\ bytes_ok (x_buf s') /\ Q a
    | _ => True
    end.

(** A routine implements a wire description. *)
Record Codec {A} (pub : Z) (p : xdrproc A) (w : wire A) : Prop := {
  codec_enc a : w_wf w a -> EncOK pub (fun s => p s a) (w_enc w a) a;
  codec_dec a d n : w_wf w a -> w_fresh w d ->
    DecOK pub n (fun s => p s d) (w_enc w a) (fun b => w_sim w a b);
  codec_safe d n : w_fresh w d -> DecSafe pub n 0 (fun s => p s d) (w_owned w) (w_clean w);
  codec_typed d : w_fresh w d -> DecTyped pub (fun s => p s d) (w_typed w)
}.

(** ** Rules *)

Section rules.
Context {A B : Type} (pub : Z).
Implicit Types (c : XDR -> xres A) (K : XDR -> A -> xres B).

Lemma enc_ret (a : A) : EncOK pub (fun s => XOk s a) [] a.
Proof.
  intros s Ho Hp. split; [|cbn; lia]. intros _. unfold xput. cbn.
  rewrite app_nil_r, Nat.sub_0_r. by destruct s.
Qed.

Lemma enc_bind c K bs bs' a b :
  EncOK pub c bs a -> EncOK pub (fun s => K s a) bs' b ->
  EncOK pub (fun s => xbind (c s) K) (bs ++ bs') b.
Proof.
  intros Hc HK s Ho Hp. destruct (Hc s Ho Hp) as [Hc1 Hc2].
  destruct (HK (xput s bs) Ho Hp) as [HK1 HK2]. rewrite length_app. cbn in HK1, HK2.
  split; intros Hl.
  - rewrite Hc1 by lia. cbn. rewrite HK1 by lia. f_equal. unfold xput; cbn.
    rewrite app_assoc, length_app. f_equal. lia.
  - destruct (decide (length bs <= x_handy s)%nat) as [Hle|Hgt].
    + rewrite Hc1 by done. cbn. apply HK2. lia.
    + destruct Hc2 as [s' Hs']; [lia|]. rewrite Hs'. by exists s'.
Qed.

Lemma dec_ret n (a : A) (P : A -> Prop) : P a -> DecOK pub n (fun s => XOk s a) [] P.
Proof.
  intros HP s Ho Hp Hm Hn. split.
  - intros rest Hb. exists s, a. split_and!; try done.
  - intros more Hne Heq. apply app_eq_nil in Heq as [_ ?]. done.
Qed.

(** The continuation need only be right on the states the first routine
    reaches. *)
Lemma dec_bind_gen n c K bs bs' (P : A -> Prop) (Q : B -> Prop) :
  DecOK pub n c bs P ->
  (forall s s1 a, x_op s = XDR_DECODE -> (length (x_buf s) <= n)%nat -> c s = XOk s1 a ->
     (length (x_buf s1) <= length (x_buf s))%nat -> P a ->
     exists m, (length (x_buf s1) <= m)%nat /\ DecOK pub m (fun s => K s a) bs' Q) ->
  DecOK pub n (fun s => xbind (c s) K) (bs ++ bs') Q.
Proof.
  intros Hc HK s Ho Hp Hm Hlen. destruct (Hc s Ho Hp Hm Hlen) as [Hc1 Hc2].
  assert (Hstep : forall tl, x_buf s = bs ++ tl -> exists s' a, c s = XOk s' a /\
    dec_next s tl s' /\ P a) by done.
  assert (Hnext : forall tl s', x_buf s = bs ++ tl -> dec_next s tl s' ->
    x_op s' = XDR_DECODE /\ x_public s' = pub /\ mem_ample (x_heap s') /\
    (length (x_buf s') <= length (x_buf s))%nat).
  { intros tl s' Hb (H1 & H2 & H3 & H4). unfold mem_ample. rewrite H1, H2, H3, H4.
    rewrite Hb, length_app. split_and!; try done; lia. }
  split.
  - intros rest Hb. rewrite <- app_assoc in Hb.
    destruct (Hstep _ Hb) as (s1 & a & Hr & Hn & HP). destruct (Hnext _ _ ltac:(eassumption) Hn) as (Ho1 & Hp1 & Hm1 & Hl1).
    destruct (HK s s1 a Ho Hlen Hr Hl1 HP) as (m & Hlm & HKm). rewrite Hr. cbn.
    destruct (HKm s1 Ho1 Hp1 Hm1 Hlm) as [HK1 _].
    destruct (HK1 rest) as (s2 & b & Hr2 & (? & ? & ? & ?) & HQ); [apply Hn|].
    exists s2, b. destruct Hn as (? & ? & ? & ?).
    unfold dec_next. split_and!; try done; congruence.
  - intros more Hne Heq. apply app_eq_app in Heq as (l & [[H1 H2]|[H1 H2]]).
    + destruct (Hstep l H1) as (s1 & a & Hr & Hn & HP). destruct (Hnext _ _ ltac:(eassumption) Hn) as (Ho1 & Hp1 & Hm1 & Hl1).
      destruct (HK s s1 a Ho Hlen Hr Hl1 HP) as (m & Hlm & HKm). rewrite Hr. cbn.
      destruct (HKm s1 Ho1 Hp1 Hm1 Hlm) as [_ HK2].
      apply (HK2 more Hne). destruct Hn as (_ & _ & -> & _). done.
    + destruct (decide (l = [])) as [->|Hl].
      * rewrite app_nil_r in H1. cbn in H2.
        assert (Hb : x_buf s = bs ++ []) by (by rewrite app_nil_r).
        destruct (Hstep [] Hb) as (s1 & a & Hr & Hn & HP).
        destruct (Hnext _ _ ltac:(eassumption) Hn) as (Ho1 & Hp1 & Hm1 & Hl1).
        destruct (HK s s1 a Ho Hlen Hr Hl1 HP) as (m & Hlm & HKm). rewrite Hr. cbn.
        destruct (HKm s1 Ho1 Hp1 Hm1 Hlm) as [_ HK2].
        apply (HK2 more Hne). destruct Hn as (_ & _ & -> & _). done.
      * destruct (Hc2 l Hl) as [s' Hs']; [done|]. rewrite Hs'. by exists s'.
Qed.

Lemma dec_bind n c K bs bs' (P : A -> Prop) (Q : B -> Prop) :
  DecOK pub n c bs P -> (forall a, P a -> DecOK pub n (fun s => K s a) bs' Q) ->
  DecOK pub n (fun s => xbind (c s) K) (bs ++ bs') Q.
Proof.
  intros Hc HK. eapply dec_bind_gen; [done|]. intros s s1 a _ Hn _ Hl HP.
  exists n. split; [lia|by apply HK].
Qed.

Lemma safe_ret n k (a : A) own (Q : A -> Prop) :
  own a = k -> Q a -> DecSafe pub n k (fun s => XOk s a) own Q.
Proof. intros Hown HQ s Ho Hp Hn. cbn. rewrite Hown. split_and!; try done. by exists []. Qed.

Lemma safe_fail n k own (Q : A -> Prop) : DecSafe pub n k (fun s => XFail s) own Q.
Proof. intros s Ho Hp Hn. done. Qed.

Lemma safe_bind_gen n k c K own (Q : A -> Prop) own' (Q' : B -> Prop) :
  DecSafe pub n 0 c own Q ->
  (forall s s1 a, x_op s = XDR_DECODE -> (length (x_buf s) <= n)%nat -> c s = XOk s1 a ->
     (length (x_buf s1) <= length (x_buf s))%nat -> Q a ->
     exists m, (length (x_buf s1) <= m)%nat /\
       DecSafe pub m (k + own a) (fun s => K s a) own' Q') ->
  DecSafe pub n k (fun s => xbind (c s) K) own' Q'.
Proof.
  intros Hc HK s Ho Hp Hn. specialize (Hc s Ho Hp Hn).
  destruct (c s) as [s1 a|s1| |] eqn:Hr; try done.
  destruct Hc as (Ho1 & Hp1 & Hh1 & [pre Hpre] & Hl1 & HQ). cbn.
  assert (Hn1 : (length (x_buf s1) <= length (x_buf s))%nat) by (rewrite Hpre, length_app; lia).
  destruct (HK s s1 a Ho Hn Hr Hn1 HQ) as (m & Hlm & HKm).
  specialize (HKm s1 Ho1 Hp1 Hlm). cbn in HKm. rename HKm into HK'.
  destruct (K s1 a) as [s2 b|s2| |]; try done.
  - destruct HK' as (? & ? & ? & [pre' Hpre'] & ? & HQ').
    split_and!; try done; [congruence| |lia].
    exists (pre ++ pre'). by rewrite <- app_assoc, <- Hpre'.
  - destruct HK'. split; [congruence|lia].
Qed.

Lemma safe_bind n k c K own (Q : A -> Prop) own' (Q' : B -> Prop) :
  DecSafe pub n 0 c own Q ->
  (forall a, Q a -> DecSafe pub n (k + own a) (fun s => K s a) own' Q') ->
  DecSafe pub n k (fun s => xbind (c s) K) own' Q'.
Proof.
  intros Hc HK. eapply safe_bind_gen; [done|]. intros s s1 a _ Hn _ Hl HQ.
  exists n. split; [lia|by apply HK].
Qed.

Lemma typed_ret (a : A) (Q : A -> Prop) : Q a -> DecTyped pub (fun s => XOk s a) Q.
Proof. by intros HQ s Ho Hp Hb. Qed.

Lemma typed_fail (Q : A -> Prop) : DecTyped pub (fun s => XFail s) Q.
Proof. done. Qed.

Lemma typed_bind c K (Q : A -> Prop) (Q' : B -> Prop) :
  DecTyped pub c Q -> (forall a, Q a -> DecTyped pub (fun s => K s a) Q') ->
  DecTyped pub (fun s => xbind (c s) K) Q'.
Proof.
  intros Hc HK s Ho Hp Hb. specialize (Hc s Ho Hp Hb). destruct (c s) as [s1 a| | |]; try done.
  destruct Hc as (Ho1 & Hp1 & Hb1 & HQ). by apply HK.
Qed.

Lemma enc_bind_last c K bs a b :
  EncOK pub c bs a -> EncOK pub (fun s => K s a) [] b ->
  EncOK pub (fun s => xbind (c s) K) bs b.
Proof. intros Hc HK. rewrite <- (app_nil_r bs). by eapply enc_bind. Qed.

Lemma dec_bind_last n c K bs (P : A -> Prop) (Q : B -> Prop) :
  DecOK pub n c bs P -> (forall a, P a -> DecOK pub n (fun s => K s a) [] Q) ->
  DecOK pub n (fun s => xbind (c s) K) bs Q.
Proof. intros Hc HK. rewrite <- (app_nil_r bs). by eapply dec_bind. Qed.

Lemma dec_conv n (c : XDR -> xres A) bs bs' P :
  DecOK pub n c bs P -> bs = bs' -> DecOK pub n c bs' P.
Proof. by intros ? <-. Qed.
End rules.

(** ** Rules for the direction switch and for allocation *)

(** The allocation a decoder makes. *)
Definition x_alloc (s : XDR) : xres () :=
  let (ok, h) := mem_alloc (x_heap s) in
  if ok then XOk (set_heap s h) () else XFail (set_heap s h).

(** The routine strictly shortens the input. *)
Definition consumes {A} (c : XDR -> xres A) : Prop :=
  forall s s' a, x_op s = XDR_DECODE -> c s = XOk s' a ->
    (length (x_buf s') < length (x_buf s))%nat.

Section op_rules.
Context {A B : Type} (pub : Z).
Implicit Types (ce cd cf : XDR -> xres A).

Lemma enc_op ce cd cf bs a :
  EncOK pub ce bs a ->
  EncOK pub (fun s => match x_op s with
                      | XDR_ENCODE => ce s | XDR_DECODE => cd s | XDR_FREE => cf s end) bs a.
Proof. intros H s Ho. rewrite Ho. by apply H. Qed.

Lemma dec_op n ce cd cf bs P :
  DecOK pub n cd bs P ->
  DecOK pub n (fun s => match x_op s with
                      | XDR_ENCODE => ce s | XDR_DECODE => cd s | XDR_FREE => cf s end) bs P.
Proof. intros H s Ho. rewrite Ho. by apply H. Qed.

Lemma safe_op n k ce cd cf own Q :
  DecSafe pub n k cd own Q ->
  DecSafe pub n k (fun s => match x_op s with
                      | XDR_ENCODE => ce s | XDR_DECODE => cd s | XDR_FREE => cf s end) own Q.
Proof. intros H s Ho. rewrite Ho. by apply H. Qed.

Lemma typed_op ce cd cf Q :
  DecTyped pub cd Q ->
  DecTyped pub (fun s => match x_op s with
                      | XDR_ENCODE => ce s | XDR_DECODE => cd s | XDR_FREE => cf s end) Q.
Proof. intros H s Ho. rewrite Ho. by apply H. Qed.

(** A test on the user field of the handle. *)
Lemma enc_public d ce ce' bs a :
  EncOK pub (fun s => if pub =? d then ce s else ce' s) bs a ->
  EncOK pub (fun s => if x_public s =? d then ce s else ce' s) bs a.
Proof. intros H s Ho Hp. rewrite Hp. by apply H. Qed.

Lemma dec_public n d cd cd' bs P :
  DecOK pub n (fun s => if pub =? d then cd s else cd' s) bs P ->
  DecOK pub n (fun s => if x_public s =? d then cd s else cd' s) bs P.
Proof. intros H s Ho Hp. rewrite Hp. by apply H. Qed.

Lemma safe_public n k d cd cd' own Q :
  DecSafe pub n k (fun s => if pub =? d then cd s else cd' s) own Q ->
  DecSafe pub n k (fun s => if x_public s =? d then cd s else cd' s) own Q.
Proof. intros H s Ho Hp. rewrite Hp. by apply H. Qed.

Lemma typed_public d cd cd' Q :
  DecTyped pub (fun s => if pub =? d then cd s else cd' s) Q ->
  DecTyped pub (fun s => if x_public s =? d then cd s else cd' s) Q.
Proof. intros H s Ho Hp. rewrite Hp. by apply H. Qed.

Lemma x_alloc_typed : DecTyped pub x_alloc (fun _ => True).
Proof. intros s Ho Hp Hb. unfold x_alloc, mem_alloc. by destruct (h_ok _ _). Qed.

Lemma x_alloc_dec n : DecOK pub n x_alloc [] (fun _ => True).
Proof.
  intros s Ho Hp Hm Hl. unfold x_alloc, mem_alloc, dec_next. rewrite Hm. split.
  - intros rest Hb. eexists _, (). by split_and!.
  - intros more Hne Heq. by apply app_nil in Heq as [_ ?].
Qed.

Lemma x_alloc_safe n : DecSafe pub n 0 x_alloc (fun _ => 1%nat) (fun _ => True).
Proof.
  intros s Ho Hp Hl. unfold x_alloc, mem_alloc. destruct (h_ok _ _); cbn.
  - split_and!; try done; try by exists []. all: lia.
  - done.
Qed.

(** Sequencing after a routine that shortens the input. *)
Lemma dec_bind_lt n c (K : XDR -> A -> xres B) bs bs' (P : A -> Prop) (Q : B -> Prop) :
  consumes c -> DecOK pub n c bs P ->
  (forall a m, P a -> (m < n)%nat -> DecOK pub m (fun s => K s a) bs' Q) ->
  DecOK pub n (fun s => xbind (c s) K) (bs ++ bs') Q.
Proof.
  intros Hlt Hc HK. eapply dec_bind_gen; [done|]. intros s s1 a Ho Hn Hr _ HP.
  apply Hlt in Hr; [|done]. exists (length (x_buf s1)). split; [done|]. apply HK; [done|lia].
Qed.

Lemma safe_bind_lt n k c (K : XDR -> A -> xres B) own (Q : A -> Prop) own' (Q' : B -> Prop) :
  consumes c -> DecSafe pub n 0 c own Q ->
  (forall a m, Q a -> (m < n)%nat -> DecSafe pub m (k + own a) (fun s => K s a) own' Q') ->
  DecSafe pub n k (fun s => xbind (c s) K) own' Q'.
Proof.
  intros Hlt Hc HK. eapply safe_bind_gen; [done|]. intros s s1 a Ho Hn Hr _ HP.
  apply Hlt in Hr; [|done]. exists (length (x_buf s1)). split; [done|]. apply HK; [done|lia].
Qed.
End op_rules.

(** ** The operations of the XDR library

    [xdr_bytes max] stands for the C call [xdr_bytes(xdrs, &val, &len, max)],
    and so on: parameters that are constants in the C calls come first.
    [xdr_pointer zero f] allocates a zeroed object ([zero]) when it decodes
    into a NULL pointer. *)
Class XdrPrims := {
  xdr_u_long : xdrproc Z;
  xdr_long : xdrproc Z;
  xdr_u_quad_t : xdrproc Z;
  xdr_quad_t : xdrproc Z;
  xdr_int : xdrproc Z;
  xdr_enum : xdrproc Z;
  xdr_bool : xdrproc Z;
  xdr_opaque : nat -> xdrproc (list Z);
  xdr_string : Z -> xdrproc (ptr (list Z));
  xdr_bytes : Z -> xdrproc opaque_buf;
  xdr_pointer : forall A, A -> xdrproc A -> xdrproc (ptr A);
  xdr_array : Z -> xdrproc Z -> xdrproc (Z * ptr (list Z));
  (* XDR_INLINE: a window on the next n bytes, or NULL *)
  xdr_inline_get : nat -> XDR -> option (list Z * XDR);
  xdr_inline_put : nat -> XDR -> option (list Z -> XDR)
}.
Arguments xdr_pointer {XdrPrims A} zero f s p.

(** What [xdr_pointer] does, in terms of [xdr_bool]: a boolean that tells
    whether an object follows, then the object ("optional data", RFC 4506
    section 4.19); [xdr_reference] allocates when decoding into NULL. *)
Definition pointer_spec {A} (xbool : xdrproc Z) (zero : A) (f : xdrproc A) : xdrproc (ptr A) :=
  fun s p =>
  match p with
  | PWild => XUB
  | _ =>
      let? (s, more) := xbool s (match p with PTo _ => 1 | _ => 0 end) in
      if more =? 0 then XOk s PNull
      else match p with
           | PTo o => let? (s, o) := f s o in XOk s (PTo o)
           | _ =>
               match x_op s with
               | XDR_ENCODE => XOk s PNull
               | XDR_DECODE =>
                   let? (s, _u) := x_alloc s in let? (s, o) := f s zero in XOk s (PTo o)
               | XDR_FREE => XOk s PNull
               end
           end
  end.

(** [int flavors<max>]: a counted array of 32-bit integers. *)
Definition ints_wf (max : Z) (o : Z * ptr (list Z)) : Prop :=
  match snd o with
  | PTo vs => fst o = Z.of_nat (length vs) /\ 0 < fst o <= max /\ Forall is_int32 vs
  | PNull => fst o = 0
  | PWild => False
  end.
Definition ints_w (max : Z) : wire (Z * ptr (list Z)) :=
  mk_wire (fun o => be 4 (fst o) ++ (ptr_content (snd o) ≫= be 4))
    (ints_wf max) (fun d => snd d = PNull) eq
    (fun o => ptr_owned (snd o)) (fun o => ptr_clean (snd o)) (ints_wf max).
Arguments ints_w : simpl never.

(** ** The laws of the XDR library (RFC 4506 and xdr(3)) *)
Class XdrLaws {P : XdrPrims} : Prop := {
  xdr_u_long_codec pub : Codec pub xdr_u_long u32_w;
  xdr_long_codec pub : Codec pub xdr_long int_w;
  xdr_u_quad_t_codec pub : Codec pub xdr_u_quad_t u64_w;
  xdr_quad_t_codec pub : Codec pub xdr_quad_t quad_w;
  xdr_int_codec pub : Codec pub xdr_int int_w;
  xdr_enum_codec pub : Codec pub xdr_enum enum_w;
  xdr_bool_codec pub : Codec pub xdr_bool bool_w;
  xdr_opaque_codec pub n : Codec pub (xdr_opaque n) (opaque_w n);
  xdr_string_codec pub max : 0 <= max < 2 ^ 32 -> Codec pub (xdr_string max) (string_w max);
  xdr_bytes_codec pub max : 0 <= max < 2 ^ 32 -> Codec pub (xdr_bytes max) (bytes_w max);
  xdr_ints_codec pub max : 0 <= max < 2 ^ 32 -> Codec pub (xdr_array max xdr_int) (ints_w max);
  (* a decoded boolean took at least one byte of the input *)
  xdr_bool_consumes v : consumes (fun s => xdr_bool s v);
  xdr_pointer_eq A (zero : A) f s p :
    xdr_pointer zero f s p = pointer_spec xdr_bool zero f s p;
  xdr_inline_get_ok n s bs s' :
    x_op s = XDR_DECODE -> xdr_inline_get n s = Some (bs, s') ->
    length bs = n /\ x_buf s = bs ++ x_buf s' /\ s' = set_buf s (x_buf s');
  xdr_inline_put_ok n s k bs :
    x_op s = XDR_ENCODE -> xdr_inline_put n s = Some k -> length bs = n ->
    (n <= x_handy s)%nat /\ k bs = xput s bs
}.
Arguments XdrLaws P : clear implicits.

Create HintDb xdr discriminated.
#[export] Hint Constants Opaque : xdr.
#[export] Hint Resolve xdr_u_long_codec xdr_long_codec xdr_u_quad_t_codec xdr_quad_t_codec xdr_int_codec
  xdr_enum_codec xdr_bool_codec xdr_opaque_codec : xdr.
#[export] Hint Extern 1 (Codec _ (xdr_string _) _) => apply xdr_string_codec; first [lia | by vm_compute] : xdr.
#[export] Hint Extern 1 (Codec _ (xdr_bytes _) _) => apply xdr_bytes_codec; first [lia | by vm_compute] : xdr.
#[export] Hint Extern 1 (Codec _ (xdr_array _ xdr_int) _) => apply xdr_ints_codec; first [lia | by vm_compute] : xdr.

(** ** Proving a routine against its description *)

Lemma bool_sim a b : w_sim bool_w a b -> a = b. Proof. done. Qed.

(** A decoded scalar is equal to the encoded one: where [w_sim] is an equality
    by definition, put the encoded value for the decoded one. *)
Ltac xdr_subst_tag H :=
  lazymatch type of H with
  | w_sim _ ?a ?b =>
      try (let E := fresh "E" in assert (E : a = b) by exact H;
           first [subst b | subst a])
  | _ => idtac
  end.

Ltac xdr_field := solve [eauto with xdr].

(** Blocks of a description that has none. *)
Ltac xdr_owned :=
  repeat match goal with
  | |- context [@w_owned ?A ?w ?x] => change (@w_owned A w x) with O
  end.

(** Follows the tests already decided. *)
Ltac xdr_if :=
  repeat match goal with
  | E : ?b = ?v |- context [if ?b then _ else _] => rewrite E
  end.

Ltac xdr_side :=
  cbn in *; xdr_if; cbn; destruct_and?; split_and?; xdr_owned;
  solve [done | eauto | lia].

Ltac xdr_case :=
  match goal with
  | |- context [if ?b then _ else _] =>
      let E := fresh "E" in
      destruct b eqn:E;
      repeat match goal with
             | H : context [b] |- _ =>
                 lazymatch H with E => fail | _ => rewrite E in H end
             end; cbn in *; destruct_and?
  end.

(** What a fresh union says about each arm. *)
Ltac xdr_fresh_arms :=
  repeat match goal with
  | H : forall t : Z, _ |- _ =>
      pose proof (H 0); pose proof (H 1); pose proof (H 2); pose proof (H 3);
      pose proof (H 4); pose proof (H 5); pose proof (H 6); pose proof (H 7);
      pose proof (H 8); clear H; cbn in *; destruct_and?
  end.

Ltac xdr_enc_step :=
  match goal with
  | |- EncOK _ (fun _ => XOk _ _) [] _ => apply enc_ret
  | |- EncOK _ (fun s => xbind _ _) (_ ++ _) _ =>
      eapply enc_bind; [eapply codec_enc; [xdr_field | xdr_side] | cbn]
  | |- EncOK _ (fun s => xbind _ _) _ _ =>
      eapply enc_bind_last; [eapply codec_enc; [xdr_field | xdr_side] | cbn]
  | |- EncOK _ (fun s => if x_public s =? _ then _ else _) _ _ => apply enc_public
  | H : False |- _ => destruct H
  | _ => xdr_case
  end.

Ltac xdr_dec_step :=
  match goal with
  | |- DecOK _ _ (fun _ => XOk _ _) [] _ => apply dec_ret; xdr_side
  | |- DecOK _ _ (fun s => xbind _ _) (_ ++ _) _ =>
      eapply dec_bind; [eapply codec_dec; [xdr_field | xdr_side | xdr_side]
                       | let x := fresh "x" in let Hx := fresh "Hx" in
                         intros x Hx; cbn in Hx |- *; xdr_subst_tag Hx]
  | |- DecOK _ _ (fun s => xbind _ _) _ _ =>
      eapply dec_bind_last; [eapply codec_dec; [xdr_field | xdr_side | xdr_side]
                       | let x := fresh "x" in let Hx := fresh "Hx" in
                         intros x Hx; cbn in Hx |- *; xdr_subst_tag Hx]
  | |- DecOK _ _ (fun s => if x_public s =? _ then _ else _) _ _ => apply dec_public
  | H : False |- _ => destruct H
  | _ => xdr_case
  end.

Ltac xdr_safe_step :=
  match goal with
  | |- DecSafe _ _ _ (fun _ => XOk _ _) _ _ => apply safe_ret; xdr_side
  | |- DecSafe _ _ _ (fun _ => XFail _) _ _ => apply safe_fail
  | |- DecSafe _ _ _ (fun s => if x_public s =? _ then _ else _) _ _ => apply safe_public
  | |- DecSafe _ _ _ (fun s => xbind _ _) _ _ =>
      eapply safe_bind; [eapply codec_safe; [xdr_field | xdr_side]
                        | let x := fresh "x" in let Hx := fresh "Hx" in
                          intros x Hx; cbn in Hx |- *]
  | _ => xdr_case
  end.

Ltac xdr_typed_step :=
  match goal with
  | |- DecTyped _ (fun _ => XOk _ _) _ => apply typed_ret; xdr_side
  | |- DecTyped _ (fun _ => XFail _) _ => apply typed_fail
  | |- DecTyped _ (fun s => if x_public s =? _ then _ else _) _ => apply typed_public
  | |- DecTyped _ (fun s => xbind _ _) _ =>
      eapply typed_bind; [eapply codec_typed; [xdr_field | xdr_side]
                        | let x := fresh "x" in let Hx := fresh "Hx" in
                          intros x Hx; cbn in Hx |- *]
  | _ => xdr_case
  end.

(** A routine that calls one other routine per member, in order. *)
Ltac xdr_codec :=
  split;
  [ intros a Hwf; cbn in *; destruct_and?; repeat xdr_enc_step
  | intros a d n Hwf Hfresh; cbn in *; destruct_and?; xdr_fresh_arms; repeat xdr_dec_step
  | intros d n Hfresh; cbn in *; destruct_and?; xdr_fresh_arms; repeat xdr_safe_step
  | intros d Hfresh; cbn in *; destruct_and?; xdr_fresh_arms; repeat xdr_typed_step ].

(** if (!p(xdrs, objp)) return FALSE; return TRUE; *)
Lemma codec_wrap {A} pub (p : xdrproc A) w :
  Codec pub p w -> Codec pub (fun s o => let? (s, v) := p s o in XOk s v) w.
Proof.
  intros [He Hd Hs Ht]. split.
  - intros a Ha. eapply enc_bind_last; [by apply He|apply enc_ret].
  - intros a d n Ha Hf. eapply dec_bind_last; [by apply Hd|]. intros b Hb. by apply dec_ret.
  - intros d n Hf. eapply safe_bind; [by apply Hs|]. intros b Hb. by apply safe_ret.
  - intros d Hf. eapply typed_bind; [by apply Ht|]. intros b Hb. by apply typed_ret.
Qed.
