(* ===== verification/XdrRfc.v ===== *)
(** * A concrete XDR library (RFC 4506)

    An executable implementation of the interface [XdrPrims] of [Xdr], with
    its laws.  It shows that the laws can hold, and lets the examples of the
    development run. *)

From S2P Require Import Prelude Xdr.

(** ** The byte stream *)

(** [XDR_PUTBYTES] and [XDR_GETBYTES] on a memory stream. *)
Definition rfc_put (bs : list Z) (s : XDR) : xres () :=
  if decide (length bs <= x_handy s)%nat then XOk (xput s bs) () else XFail s.

Definition rfc_get (n : Z) (s : XDR) : xres (list Z) :=
  if (n <=? Z.of_nat (length (x_buf s)))
  then XOk (set_buf s (drop (Z.to_nat n) (x_buf s))) (take (Z.to_nat n) (x_buf s))
  else XFail s.

Definition padlen (n : Z) : Z := (4 - n mod 4) mod 4.
Definition int32_of (u : Z) : Z := if u <? 2 ^ 31 then u else u - 2 ^ 32.
Definition int64_of (u : Z) : Z := if u <? 2 ^ 63 then u else u - 2 ^ 64.

(** ** The primitives *)

Definition rfc_scalar (n : nat) (inrange : Z -> bool) (norm : Z -> Z) (of_u : Z -> Z) : xdrproc Z :=
  fun s v => match x_op s with
  | XDR_ENCODE =>
      if inrange v then let? (s, _u) := rfc_put (be n (norm v)) s in XOk s v else XFail s
  | XDR_DECODE => let? (s, bs) := rfc_get (Z.of_nat n) s in XOk s (of_u (unbe bs))
  | XDR_FREE => XOk s v
  end.

Definition in_signed (w v : Z) : bool := (- 2 ^ (w - 1) <=? v) && (v <? 2 ^ (w - 1)).
Definition in_unsigned (w v : Z) : bool := (0 <=? v) && (v <? 2 ^ w).

Definition rfc_bool : xdrproc Z :=
  let norm v := if v =? 0 then 0 else 1 in rfc_scalar 4 (fun _ => true) norm norm.

Definition rfc_opaque (n : nat) : xdrproc (list Z) :=
  fun s bs => match x_op s with
  | XDR_ENCODE => let? (s, _u) := rfc_put (bs ++ pad n) s in XOk s bs
  | XDR_DECODE =>
      let? (s, b) := rfc_get (Z.of_nat n + padlen (Z.of_nat n)) s in XOk s (take n b)
  | XDR_FREE => XOk s bs
  end.

(** Reading [n] bytes and the padding into a block: a new one when the
    destination is NULL, the existing one when it is large enough. *)
Definition rfc_read_block (n : Z) (dst : ptr (list Z)) (s : XDR) : xres (ptr (list Z)) :=
  match dst with
  | PNull =>
      let? (s, _u) := x_alloc s in
      let? (s, b) := rfc_get (n + padlen n) s in XOk s (PTo (take (Z.to_nat n) b))
  | PTo old =>
      if n <=? Z.of_nat (length old) then
        let? (s, b) := rfc_get (n + padlen n) s in
        XOk s (PTo (take (Z.to_nat n) b ++ drop (Z.to_nat n) old))
      else XUB
  | PWild => XUB
  end.

Definition rfc_bytes (max : Z) : xdrproc opaque_buf :=
  fun s o => match x_op s with
  | XDR_ENCODE =>
      if data_len o <=? max then
        match data_val o with
        | PTo bs => let? (s, _u) := rfc_put (be 4 (data_len o)) s in
                    let? (s, _u) := rfc_put (bs ++ pad (length bs)) s in XOk s o
        | PNull => if data_len o =? 0 then let? (s, _u) := rfc_put (be 4 0) s in XOk s o else XUB
        | PWild => XUB
        end
      else XFail s
  | XDR_DECODE =>
      let? (s, b) := rfc_get 4 s in
      let n := unbe b in
      if max <? n then XFail s
      else if n =? 0 then XOk s (mk_opaque_buf 0 (data_val o))
      else let? (s, p) := rfc_read_block n (data_val o) s in XOk s (mk_opaque_buf n p)
  | XDR_FREE => XOk s o
  end.

Definition rfc_string (max : Z) : xdrproc (ptr (list Z)) :=
  fun s p => match x_op s with
  | XDR_ENCODE =>
      match p with
      | PTo bs => if (Z.of_nat (length bs) <=? max) && (Z.of_nat (length bs) <? 2 ^ 32 - 1) then
                    let? (s, _u) := rfc_put (be 4 (Z.of_nat (length bs))) s in
                    let? (s, _u) := rfc_put (bs ++ pad (length bs)) s in XOk s p
                  else XFail s
      | _ => XUB
      end
  | XDR_DECODE =>
      let? (s, b) := rfc_get 4 s in
      let n := unbe b in
      if (max <? n) || (2 ^ 32 - 1 <=? n) then XFail s else rfc_read_block n p s
  | XDR_FREE => XOk s p
  end.

Fixpoint rfc_ints (n : nat) (f : xdrproc Z) (s : XDR) : xres (list Z) :=
  match n with
  | O => XOk s []
  | S n => let? (s, v) := f s 0 in let? (s, vs) := rfc_ints n f s in XOk s (v :: vs)
  end.

Fixpoint rfc_put_ints (vs : list Z) (f : xdrproc Z) (s : XDR) : xres () :=
  match vs with
  | [] => XOk s ()
  | v :: vs => let? (s, _v) := f s v in rfc_put_ints vs f s
  end.

Definition rfc_array (max : Z) (f : xdrproc Z) : xdrproc (Z * ptr (list Z)) :=
  fun s o => match x_op s with
  | XDR_ENCODE =>
      if fst o <=? max then
        match snd o with
        | PTo vs => let? (s, _u) := rfc_put (be 4 (fst o)) s in
                    let? (s, _u) := rfc_put_ints vs f s in XOk s o
        | PNull => if fst o =? 0 then let? (s, _u) := rfc_put (be 4 0) s in XOk s o else XUB
        | PWild => XUB
        end
      else XFail s
  | XDR_DECODE =>
      let? (s, b) := rfc_get 4 s in
      let n := unbe b in
      if max <? n then XFail s
      else if n =? 0 then XOk s (0, snd o)
      else match snd o with
           | PNull => let? (s, _u) := x_alloc s in
                      let? (s, vs) := rfc_ints (Z.to_nat n) f s in XOk s (n, PTo vs)
           | _ => XUB
           end
  | XDR_FREE => XOk s o
  end.

#[export] Instance rfc_prims : XdrPrims := {|
  xdr_u_long := rfc_scalar 4 (in_unsigned 32) id id;
  xdr_long := rfc_scalar 4 (in_signed 32) id int32_of;
  xdr_u_quad_t := rfc_scalar 8 (in_unsigned 64) id id;
  xdr_quad_t := rfc_scalar 8 (in_signed 64) id int64_of;
  xdr_int := rfc_scalar 4 (in_signed 32) id int32_of;
  xdr_enum := rfc_scalar 4 (in_signed 32) id int32_of;
  xdr_bool := rfc_bool;
  xdr_opaque := rfc_opaque;
  xdr_string := rfc_string;
  xdr_bytes := rfc_bytes;
  xdr_pointer := fun A zero f => pointer_spec rfc_bool zero f;
  xdr_array := rfc_array;
  xdr_inline_get := fun n s =>
    match rfc_get (Z.of_nat n) s with XOk s' bs => Some (bs, s') | _ => None end;
  xdr_inline_put := fun n s =>
    if decide (n <= x_handy s)%nat then Some (xput s) else None
|}.

(** ** Laws of the byte stream *)

Section stream.
Context (pub : Z).

Lemma put_enc bs : EncOK pub (rfc_put bs) bs ().
Proof.
  intros s Ho Hp. unfold rfc_put. split; intros Hl.
  - by rewrite decide_True.
  - rewrite decide_False by lia. by eexists.
Qed.

Lemma get_dec m n bs :
  n = Z.of_nat (length bs) -> DecOK pub m (rfc_get n) bs (fun b => b = bs).
Proof.
  intros -> s Ho Hp Hm Hl. unfold rfc_get, dec_next. rewrite Nat2Z.id. split.
  - intros rest Hb. rewrite Hb, length_app. rewrite (proj2 (Z.leb_le (Z.of_nat (length bs)) _)) by lia.
    eexists _, _. split_and!; [reflexivity|done|done| |done|].
    + cbn. by rewrite drop_app_length.
    + by rewrite take_app_length.
  - intros more Hne Heq. apply (f_equal length) in Heq. rewrite length_app in Heq.
    destruct more; [done|]. cbn in Heq. rewrite (proj2 (Z.leb_gt _ _)) by lia. by eexists.
Qed.

Lemma get_safe n n' : DecSafe pub n' 0 (rfc_get n) (fun _ => O) (fun _ => True).
Proof.
  intros s Ho Hp Hl. unfold rfc_get. destruct (n <=? _); [|done]. cbn.
  split_and!; try done. exists (take (Z.to_nat n) (x_buf s)). by rewrite take_drop.
Qed.

Lemma get_typed n : 0 <= n -> DecTyped pub (rfc_get n) (fun b => Z.of_nat (length b) = n /\ bytes_ok b).
Proof.
  intros Hn s Ho Hp Hb. unfold rfc_get. destruct (Z.leb_spec n (Z.of_nat (length (x_buf s)))); [|done]. cbn.
  split_and!; [done..|by apply Forall_drop|rewrite length_take; lia|by apply Forall_take].
Qed.

Lemma scalar_codec n inr norm of_u (enc : Z -> list Z) (wf : Z -> Prop) :
  (forall v, wf v -> inr v = true /\ be n (norm v) = enc v /\ of_u (unbe (enc v)) = v) ->
  (forall u, 0 <= u < 256 ^ Z.of_nat n -> wf (of_u u)) ->
  Codec pub (rfc_scalar n inr norm of_u) (scalar_w enc wf).
Proof.
  intros Hn Hu. unfold rfc_scalar. split; cbn.
  - intros v Hv. destruct (Hn v Hv) as (H1 & H2 & H3). apply enc_op. rewrite H1.
    eapply enc_bind_last; [|apply enc_ret]. rewrite H2. apply put_enc.
  - intros v d m Hv _. destruct (Hn v Hv) as (H1 & H2 & H3). apply dec_op.
    eapply dec_bind_last; [apply get_dec; rewrite <- H2; by rewrite length_be|].
    intros bs ->. by apply dec_ret.
  - intros d n' _. apply safe_op. eapply safe_bind; [apply get_safe|]. intros bs _. by apply safe_ret.
  - intros d _. apply typed_op. eapply typed_bind; [apply get_typed; lia|]. intros bs [Hl Hb]. apply typed_ret, Hu.
    rewrite <- Hl. by apply unbe_range.
Qed.
End stream.

Lemma unbe_be_small n v : 0 <= v < 256 ^ Z.of_nat n -> unbe (be n v) = v.
Proof. intros H. by rewrite unbe_be, Z.mod_small. Qed.

Lemma rfc_unsigned_codec pub n :
  Codec pub (rfc_scalar n (in_unsigned (8 * Z.of_nat n)) id id)
    (scalar_w (be n) (is_u (8 * Z.of_nat n))).
Proof.
  apply scalar_codec.
  - intros v Hv. unfold in_unsigned, is_u, id in *. split_and!; [|done|].
    + apply andb_true_intro. split; [apply Z.leb_le|apply Z.ltb_lt]; lia.
    + apply unbe_be_small. by rewrite <- (Z.pow_mul_r 2 8) by lia.
  - intros u Hu. unfold is_u, id. by rewrite (Z.pow_mul_r 2 8) by lia.
Qed.

Lemma rfc_signed_codec pub (n : nat) (of_u : Z -> Z) :
  (0 < n)%nat ->
  (forall v, - 2 ^ (8 * Z.of_nat n - 1) <= v < 2 ^ (8 * Z.of_nat n - 1) ->
     of_u (v mod 2 ^ (8 * Z.of_nat n)) = v) ->
  (forall u, 0 <= u < 256 ^ Z.of_nat n -> - 2 ^ (8 * Z.of_nat n - 1) <= of_u u < 2 ^ (8 * Z.of_nat n - 1)) ->
  Codec pub (rfc_scalar n (in_signed (8 * Z.of_nat n)) id of_u)
    (scalar_w (be n) (fun v => - 2 ^ (8 * Z.of_nat n - 1) <= v < 2 ^ (8 * Z.of_nat n - 1))).
Proof.
  intros Hn Hof Hu. apply scalar_codec; [|exact Hu]. intros v Hv. unfold in_signed, id. split_and!; [|done|].
  - apply andb_true_intro. split; [apply Z.leb_le|apply Z.ltb_lt]; lia.
  - rewrite unbe_be, <- (Z.pow_mul_r 2 8) by lia. by apply Hof.
Qed.

Lemma signed_of_mod (m v : Z) : 0 < m -> - m <= v < m ->
  (if v mod (2 * m) <? m then v mod (2 * m) else v mod (2 * m) - 2 * m) = v.
Proof.
  intros Hm Hv. destruct (Z.ltb_spec v 0).
  - replace (v mod (2 * m)) with (v + 2 * m).
    + rewrite (proj2 (Z.ltb_ge _ _)); lia.
    + apply (Z.mod_unique v (2 * m) (-1)); lia.
  - rewrite Z.mod_small by lia. rewrite (proj2 (Z.ltb_lt _ _)); lia.
Qed.

Lemma int32_of_mod v : - 2 ^ 31 <= v < 2 ^ 31 -> int32_of (v mod 2 ^ 32) = v.
Proof. apply (signed_of_mod (2 ^ 31)). lia. Qed.

Lemma int64_of_mod v : - 2 ^ 63 <= v < 2 ^ 63 -> int64_of (v mod 2 ^ 64) = v.
Proof. apply (signed_of_mod (2 ^ 63)). lia. Qed.

Lemma int32_of_range u : 0 <= u < 256 ^ Z.of_nat 4 -> - 2 ^ 31 <= int32_of u < 2 ^ 31.
Proof. change (256 ^ Z.of_nat 4) with (2 ^ 31 + 2 ^ 31). unfold int32_of. destruct (Z.ltb_spec u (2 ^ 31)); lia. Qed.

Lemma int64_of_range u : 0 <= u < 256 ^ Z.of_nat 8 -> - 2 ^ 63 <= int64_of u < 2 ^ 63.
Proof. change (256 ^ Z.of_nat 8) with (2 ^ 63 + 2 ^ 63). unfold int64_of. destruct (Z.ltb_spec u (2 ^ 63)); lia. Qed.

Lemma rfc_int_codec pub : Codec pub (rfc_scalar 4 (in_signed 32) id int32_of) int_w.
Proof. apply (rfc_signed_codec pub 4); [lia|exact int32_of_mod|exact int32_of_range]. Qed.

Lemma rfc_bool_codec pub : Codec pub rfc_bool bool_w.
Proof.
  apply scalar_codec; [by intros v [-> | ->]; vm_compute|]. intros u _. destruct (u =? 0); [by left|by right].
Qed.

Lemma length_pad n : Z.of_nat (length (pad n)) = padlen (Z.of_nat n).
Proof.
  unfold pad, padlen. rewrite repeat_length, Nat2Z.inj_mod, Nat2Z.inj_sub, Nat2Z.inj_mod.
  - done.
  - pose proof (Nat.mod_upper_bound n 4). lia.
Qed.

Lemma padlen_range n : 0 <= padlen n < 4.
Proof. unfold padlen. apply Z.mod_pos_bound. lia. Qed.

Lemma rfc_opaque_codec pub n : Codec pub (rfc_opaque n) (opaque_w n).
Proof.
  unfold rfc_opaque, opaque_w. split; cbn.
  - intros bs [Hl Hb]. apply enc_op. eapply enc_bind_last; [apply put_enc|apply enc_ret].
  - intros bs d m [Hl Hb] _. apply dec_op. eapply dec_bind_last.
    + apply get_dec. rewrite length_app, Nat2Z.inj_add, length_pad, Hl. done.
    + intros ? ->. apply dec_ret. by rewrite take_app_length'.
  - intros d n' _. apply safe_op. eapply safe_bind; [apply get_safe|]. intros ? _. by apply safe_ret.
  - intros d _. apply typed_op. pose proof (padlen_range (Z.of_nat n)).
    eapply typed_bind; [apply get_typed; lia|]. intros b [Hl Hb]. apply typed_ret.
    split; [rewrite length_take; lia|by apply Forall_take].
Qed.

Lemma read_block_dec pub n bs :
  DecOK pub n (rfc_read_block (Z.of_nat (length bs)) PNull) (bs ++ pad (length bs))
    (fun p => p = PTo bs).
Proof.
  unfold rfc_read_block. eapply (dec_conv _ _ _ ([] ++ _)); [|done].
  eapply dec_bind; [apply x_alloc_dec|]. intros _ _. eapply dec_bind_last.
  - apply get_dec. by rewrite length_app, Nat2Z.inj_add, length_pad.
  - intros ? ->. apply dec_ret. by rewrite Nat2Z.id, take_app_length.
Qed.

Lemma read_block_safe pub m n :
  DecSafe pub m 0 (rfc_read_block n PNull) ptr_owned ptr_clean.
Proof.
  unfold rfc_read_block. eapply safe_bind; [apply x_alloc_safe|]. intros ? _.
  eapply safe_bind; [apply get_safe|]. intros b _. by apply safe_ret.
Qed.

Lemma read_block_typed pub n : 0 <= n ->
  DecTyped pub (rfc_read_block n PNull) (fun p => exists bs, p = PTo bs /\ Z.of_nat (length bs) = n /\ bytes_ok bs).
Proof.
  intros Hn. unfold rfc_read_block. pose proof (padlen_range n). eapply typed_bind; [apply x_alloc_typed|]. intros ? _.
  eapply typed_bind; [apply get_typed; lia|]. intros b [Hl Hb]. apply typed_ret.
  eexists. split; [done|]. split; [rewrite length_take; lia|by apply Forall_take].
Qed.

(** The length before a sequence of bytes. *)
Lemma length_typed {A} pub (K : XDR -> list Z -> xres A) Q :
  (forall b, 0 <= unbe b < 2 ^ 32 -> DecTyped pub (fun s => K s b) Q) ->
  DecTyped pub (fun s => xbind (rfc_get 4 s) K) Q.
Proof.
  intros HK. eapply typed_bind; [apply get_typed; lia|]. intros b [Hl Hb]. apply HK.
  pose proof (unbe_range b Hb) as Hr. rewrite Hl in Hr. exact Hr.
Qed.

Lemma unbe_be4 v : 0 <= v < 2 ^ 32 -> unbe (be 4 v) = v.
Proof. intros H. apply unbe_be_small. exact H. Qed.

Lemma rfc_bytes_codec pub max : 0 <= max < 2 ^ 32 -> Codec pub (rfc_bytes max) (bytes_w max).
Proof.
  intros Hmax. unfold rfc_bytes, bytes_w. split; cbn [w_enc w_wf w_fresh w_sim w_owned w_clean bytes_w].
  - intros [n [|bs|]] Hwf; unfold bytes_wf in Hwf; cbn in *; [| |done]; apply enc_op; cbn.
    + subst n. rewrite (proj2 (Z.leb_le 0 max)) by lia. cbn.
      eapply enc_bind; [apply put_enc|apply enc_ret].
    + destruct Hwf as (-> & Hn & _). rewrite (proj2 (Z.leb_le _ max)) by lia.
      eapply enc_bind; [apply put_enc|]. eapply enc_bind_last; [apply put_enc|apply enc_ret].
  - intros [n [|bs|]] [n' d] m Hwf Hd; unfold bytes_wf in Hwf; cbn in *; [| |done]; subst d;
      apply dec_op; cbn.
    + subst n. eapply dec_bind; [by apply get_dec|]. intros ? ->. rewrite unbe_be4 by lia.
      rewrite (proj2 (Z.ltb_ge max 0)) by lia. by apply dec_ret.
    + destruct Hwf as (-> & Hn & _). eapply dec_bind; [by apply get_dec|]. intros ? ->.
      rewrite unbe_be4 by lia. rewrite (proj2 (Z.ltb_ge max _)), (proj2 (Z.eqb_neq _ 0)) by lia.
      eapply dec_bind_last; [apply read_block_dec|]. intros ? ->. by apply dec_ret.
  - intros [n' d] m Hd. cbn in Hd. subst d. apply safe_op. eapply safe_bind; [apply get_safe|].
    intros b _. case_match; [apply safe_fail|]. case_match; [by apply safe_ret|]. cbn.
    eapply safe_bind; [apply read_block_safe|]. intros p Hp. by apply safe_ret.
  - intros [n' d] Hd. cbn in Hd. subst d. apply typed_op, length_typed. intros b Hb.
    destruct (Z.ltb_spec max (unbe b)); [apply typed_fail|]. destruct (Z.eqb_spec (unbe b) 0); [by apply typed_ret|]. cbn.
    eapply typed_bind; [apply read_block_typed; lia|]. intros p (bs & -> & Hl & Hbs). apply typed_ret.
    unfold bytes_wf. cbn. split_and!; [done|lia|lia|done].
Qed.

Lemma rfc_string_codec pub max :
  0 <= max < 2 ^ 32 -> Codec pub (rfc_string max) (string_w max).
Proof.
  intros Hmax. unfold rfc_string, string_w. split; cbn [w_enc w_wf w_fresh w_sim w_owned w_clean string_w].
  - intros [|bs|] Hwf; cbn in *; try done. destruct Hwf as (Hl & Hl' & _). apply enc_op. cbn.
    rewrite (proj2 (Z.leb_le _ max)), (proj2 (Z.ltb_lt _ (2 ^ 32 - 1))) by lia. cbn.
    eapply enc_bind; [apply put_enc|]. eapply enc_bind_last; [apply put_enc|apply enc_ret].
  - intros [|bs|] d n Hwf ->; cbn in *; try done. destruct Hwf as (Hl & Hl' & _). apply dec_op.
    eapply dec_bind; [by apply get_dec|]. intros ? ->. rewrite unbe_be4 by lia.
    rewrite (proj2 (Z.ltb_ge max _)), (proj2 (Z.leb_gt (2 ^ 32 - 1) _)) by lia. cbn.
    intros s Ho Hp Hm Hlen. destruct (read_block_dec pub n bs s Ho Hp Hm Hlen) as [H1 H2]. split; [|done].
    intros rest Hb. destruct (H1 rest Hb) as (s' & a & ? & ? & ->). eauto 10.
  - intros d m ->. apply safe_op. eapply safe_bind; [apply get_safe|].
    intros b _. case_match; [apply safe_fail|]. apply read_block_safe.
  - intros d ->. apply typed_op, length_typed. intros b Hb.
    destruct (Z.ltb_spec max (unbe b)); [apply typed_fail|]. destruct (Z.leb_spec (2 ^ 32 - 1) (unbe b)); [apply typed_fail|]. cbn [orb].
    intros s Ho Hp Hs. pose proof (read_block_typed pub (unbe b) ltac:(lia) s Ho Hp Hs) as HR.
    destruct (rfc_read_block _ _ s) as [s' p| | |]; try done. destruct HR as (? & ? & ? & bs & -> & Hl & Hbs).
    split_and!; try done. cbn. split_and!; [lia|lia|done].
Qed.

Section ints.
Context (pub : Z) (f : xdrproc Z) (Hf : Codec pub f int_w).

Lemma put_ints_enc vs : Forall is_int32 vs -> EncOK pub (rfc_put_ints vs f) (vs ≫= be 4) ().
Proof.
  induction 1 as [|v vs Hv _ IH]; cbn; [apply enc_ret|].
  eapply enc_bind; [|apply IH]. by apply (codec_enc _ _ _ Hf).
Qed.

Lemma get_ints_dec m vs :
  Forall is_int32 vs -> DecOK pub m (rfc_ints (length vs) f) (vs ≫= be 4) (fun b => b = vs).
Proof.
  induction 1 as [|v vs Hv _ IH]; cbn [rfc_ints length mbind list_bind]; [by apply dec_ret|].
  eapply dec_bind; [by apply (codec_dec _ _ _ Hf v 0 m)|]. intros w Hw. change (v = w) in Hw. subst w.
  eapply dec_bind_last; [apply IH|]. intros ? ->. by apply dec_ret.
Qed.

Lemma get_ints_safe m n : DecSafe pub m 0 (rfc_ints n f) (fun _ => O) (fun _ => True).
Proof.
  induction n as [|n IH]; cbn; [by apply safe_ret|].
  eapply safe_bind; [by apply (codec_safe _ _ _ Hf 0)|]. intros v _. cbn.
  eapply safe_bind; [apply IH|]. intros vs _. by apply safe_ret.
Qed.
Lemma get_ints_typed n : DecTyped pub (rfc_ints n f) (fun vs => length vs = n /\ Forall is_int32 vs).
Proof.
  induction n as [|n IH]; cbn; [by apply typed_ret|].
  eapply typed_bind; [by apply (codec_typed _ _ _ Hf 0)|]. intros v Hv. cbn.
  eapply typed_bind; [apply IH|]. intros vs [Hl Hvs]. apply typed_ret. split; [by cbn; rewrite Hl|by constructor].
Qed.
End ints.

Lemma rfc_ints_codec pub max :
  0 <= max < 2 ^ 32 -> Codec pub (rfc_array max (rfc_scalar 4 (in_signed 32) id int32_of)) (ints_w max).
Proof.
  intros Hmax. pose proof (rfc_int_codec pub) as Hf. set (f := rfc_scalar _ _ _ _) in *. clearbody f.
  unfold rfc_array, ints_w. split; cbn [w_enc w_wf w_fresh w_sim w_owned w_clean ints_w].
  - intros [n [|vs|]] Hwf; unfold ints_wf in Hwf; cbn in *; [| |done]; apply enc_op; cbn.
    + subst n. rewrite (proj2 (Z.leb_le 0 max)) by lia. cbn.
      eapply enc_bind; [apply put_enc|apply enc_ret].
    + destruct Hwf as (-> & Hn & Hvs). rewrite (proj2 (Z.leb_le _ max)) by lia.
      eapply enc_bind; [apply put_enc|].
      eapply enc_bind_last; [by apply (put_ints_enc pub f Hf)|apply enc_ret].
  - intros [n [|vs|]] [n' d] m Hwf Hd; unfold ints_wf in Hwf; cbn in *; [| |done]; subst d;
      apply dec_op; cbn.
    + subst n. eapply dec_bind; [by apply get_dec|]. intros ? ->. rewrite unbe_be4 by lia.
      rewrite (proj2 (Z.ltb_ge max 0)) by lia. by apply dec_ret.
    + destruct Hwf as (-> & Hn & Hvs). eapply dec_bind; [by apply get_dec|]. intros ? ->.
      rewrite unbe_be4 by lia. rewrite (proj2 (Z.ltb_ge max _)), (proj2 (Z.eqb_neq _ 0)) by lia.
      eapply (dec_conv _ _ _ ([] ++ _)); [|done]. eapply dec_bind; [apply x_alloc_dec|]. intros _ _.
      rewrite Nat2Z.id. eapply dec_bind_last; [by apply (get_ints_dec pub f Hf)|].
      intros ? ->. by apply dec_ret.
  - intros [n' d] m Hd. cbn in Hd. subst d. apply safe_op. eapply safe_bind; [apply get_safe|].
    intros b _. case_match; [apply safe_fail|]. case_match; [by apply safe_ret|]. cbn.
    eapply safe_bind; [apply x_alloc_safe|]. intros ? _.
    eapply safe_bind; [by apply get_ints_safe|]. intros vs _. by apply safe_ret.
  - intros [n' d] Hd. cbn in Hd. subst d. apply typed_op, length_typed. intros b Hb.
    destruct (Z.ltb_spec max (unbe b)); [apply typed_fail|]. destruct (Z.eqb_spec (unbe b) 0); [by apply typed_ret|]. cbn.
    eapply typed_bind; [apply x_alloc_typed|]. intros ? _.
    eapply typed_bind; [by apply get_ints_typed|]. intros vs [Hl Hvs]. apply typed_ret.
    unfold ints_wf. cbn. split_and!; [lia|lia|lia|done].
Qed.

#[export] Instance rfc_laws : XdrLaws rfc_prims.
Proof.
  split.
  - intros pub. apply (rfc_unsigned_codec pub 4).
  - apply rfc_int_codec.
  - intros pub. apply (rfc_unsigned_codec pub 8).
  - intros pub. apply (rfc_signed_codec pub 8); [lia|exact int64_of_mod|exact int64_of_range].
  - apply rfc_int_codec.
  - apply rfc_int_codec.
  - apply rfc_bool_codec.
  - apply rfc_opaque_codec.
  - apply rfc_string_codec.
  - apply rfc_bytes_codec.
  - apply rfc_ints_codec.
  - intros s v s' b Ho. cbn. unfold rfc_bool, rfc_scalar, rfc_get. rewrite Ho.
    destruct (_ <=? _) eqn:E; [|done]. cbn. intros [= <- _]. cbn. rewrite length_drop.
    apply Z.leb_le in E. lia.
  - done.
  - intros n s bs s' Ho. cbn. unfold rfc_get. destruct (_ <=? _) eqn:E; [|done]. intros [= <- <-].
    apply Z.leb_le in E. rewrite length_take, Nat2Z.id. split_and!; [lia| |done].
    cbn. by rewrite take_drop.
  - intros n s k bs Ho. cbn. case_decide; [|done]. by intros [= <-] _.
Qed.
