(* ===== verification/XdrList.v ===== *)
(** * Linked lists on the wire

    Directory entries, mount lists, export lists and group lists are NULL
    terminated linked lists whose XDR routine calls itself through
    [xdr_pointer].  This file gives their common shape, their wire
    description and the rules that lift a routine for one node to the list. *)

From S2P Require Import Prelude Xdr.

(** A list node: the members of the struct, and its link. *)
Inductive node (A : Type) : Type :=
| Node (body : A) (next : ptr (node A)).
Arguments Node {A} body next.

Definition node_body {A} (n : node A) : A := match n with Node a _ => a end.
Definition node_next {A} (n : node A) : ptr (node A) := match n with Node _ nx => nx end.

Section chain.
Context {A : Type} (w : wire A).

(** The wire form of a link: a boolean, then the node if there is one. *)
Definition chain_enc_with (f : node A -> list Z) (p : ptr (node A)) : list Z :=
  match p with
  | PTo n => w_enc bool_w 1 ++ f n
  | _ => w_enc bool_w 0
  end.
Fixpoint node_enc (n : node A) : list Z :=
  match n with Node a nx => w_enc w a ++ chain_enc_with node_enc nx end.
Definition chain_enc : ptr (node A) -> list Z := chain_enc_with node_enc.

Definition chain_wf_with (f : node A -> Prop) (p : ptr (node A)) : Prop :=
  match p with PNull => True | PTo n => f n | PWild => False end.
Fixpoint node_wf (n : node A) : Prop :=
  match n with Node a nx => w_wf w a /\ chain_wf_with node_wf nx end.
Definition chain_wf : ptr (node A) -> Prop := chain_wf_with node_wf.

Definition chain_sim_with (f : node A -> node A -> Prop) (p q : ptr (node A)) : Prop :=
  match p, q with
  | PNull, PNull => True
  | PTo n, PTo m => f n m
  | _, _ => False
  end.
Fixpoint node_sim (n m : node A) : Prop :=
  match n, m with
  | Node a nx, Node b ny => w_sim w a b /\ chain_sim_with node_sim nx ny
  end.
Definition chain_sim : ptr (node A) -> ptr (node A) -> Prop := chain_sim_with node_sim.

(** The node's own block, and what its members own. *)
Definition chain_owned_with (f : node A -> nat) (p : ptr (node A)) : nat :=
  match p with PTo n => S (f n) | _ => O end.
Fixpoint node_owned (n : node A) : nat :=
  match n with Node a nx => w_owned w a + chain_owned_with node_owned nx end.
Definition chain_owned : ptr (node A) -> nat := chain_owned_with node_owned.

Definition chain_clean_with (f : node A -> Prop) (p : ptr (node A)) : Prop :=
  match p with PNull => True | PTo n => f n | PWild => False end.
Fixpoint node_clean (n : node A) : Prop :=
  match n with Node a nx => w_clean w a /\ chain_clean_with node_clean nx end.
Definition chain_clean : ptr (node A) -> Prop := chain_clean_with node_clean.

Definition chain_typed_with (f : node A -> Prop) (p : ptr (node A)) : Prop :=
  match p with PNull => True | PTo n => f n | PWild => False end.
Fixpoint node_typed (n : node A) : Prop :=
  match n with Node a nx => w_typed w a /\ chain_typed_with node_typed nx end.
Definition chain_typed : ptr (node A) -> Prop := chain_typed_with node_typed.

Definition chain_depth_with (f : node A -> nat) (p : ptr (node A)) : nat :=
  match p with PTo n => f n | _ => O end.
Fixpoint node_depth (n : node A) : nat :=
  match n with Node _ nx => S (chain_depth_with node_depth nx) end.
Definition chain_depth : ptr (node A) -> nat := chain_depth_with node_depth.

Definition chain_w : wire (ptr (node A)) :=
  mk_wire chain_enc chain_wf (fun p => p = PNull) chain_sim chain_owned chain_clean chain_typed.
End chain.

Arguments chain_w : simpl never.

(** ** Rules for [xdr_pointer] *)

Section pointer.
Context `{HL : XdrLaws} {A : Type} (w : wire A) (pub : Z) (zero : node A).
Implicit Types f : xdrproc (node A).

Lemma pointer_enc f p :
  chain_wf w p ->
  (forall n, p = PTo n -> EncOK pub (fun s => f s n) (node_enc w n) n) ->
  EncOK pub (fun s => xdr_pointer zero f s p) (chain_enc w p) p.
Proof.
  intros Hwf Hf s Ho Hp. rewrite xdr_pointer_eq. revert s Ho Hp.
  change (EncOK pub (fun s => pointer_spec xdr_bool zero f s p) (chain_enc w p) p).
  destruct p as [|n|]; cbn in *; [| |done].
  - eapply enc_bind_last; [eapply codec_enc; [apply xdr_bool_codec|by left]|]. apply enc_ret.
  - eapply enc_bind; [eapply codec_enc; [apply xdr_bool_codec|by right]|]. cbn.
    eapply enc_bind_last; [by apply Hf|apply enc_ret].
Qed.

(** The recursive call decodes from a strictly shorter input. *)
Lemma pointer_dec n f p :
  chain_wf w p ->
  (forall m q, (m < n)%nat -> p = PTo q ->
     DecOK pub m (fun s => f s zero) (node_enc w q) (node_sim w q)) ->
  DecOK pub n (fun s => xdr_pointer zero f s PNull) (chain_enc w p) (chain_sim w p).
Proof.
  intros Hwf Hf s Ho Hp Hm Hn. rewrite xdr_pointer_eq. revert s Ho Hp Hm Hn.
  change (DecOK pub n (fun s => pointer_spec xdr_bool zero f s PNull)
            (chain_enc w p) (chain_sim w p)).
  unfold pointer_spec. destruct p as [|q|]; cbn in *; [| |done].
  - eapply dec_bind_last; [eapply codec_dec; [apply xdr_bool_codec|by left|done]|].
    intros b Hb. apply bool_sim in Hb. subst b. by apply dec_ret.
  - eapply dec_bind_lt;
      [apply xdr_bool_consumes | eapply codec_dec; [apply xdr_bool_codec|by right|done] |].
    intros b m Hb Hlt. apply bool_sim in Hb. subst b. cbn. apply dec_op.
    rewrite <- (app_nil_l (node_enc w q)). eapply dec_bind; [apply x_alloc_dec|]. intros _ _.
    eapply dec_bind_last; [by apply Hf|]. intros o Ho. by apply dec_ret.
Qed.

Lemma pointer_safe n f :
  (forall m, (m < n)%nat ->
     DecSafe pub m 0 (fun s => f s zero) (node_owned w) (node_clean w)) ->
  DecSafe pub n 0 (fun s => xdr_pointer zero f s PNull) (chain_owned w) (chain_clean w).
Proof.
  intros Hf s Ho Hp Hn. rewrite xdr_pointer_eq. revert s Ho Hp Hn.
  change (DecSafe pub n 0 (fun s => pointer_spec xdr_bool zero f s PNull)
            (chain_owned w) (chain_clean w)).
  unfold pointer_spec.
  eapply safe_bind_lt; [apply xdr_bool_consumes|eapply codec_safe; [apply xdr_bool_codec|done]|].
  intros b m _ Hlt. cbn. destruct (b =? 0); [by apply safe_ret|]. apply safe_op.
  eapply safe_bind; [apply x_alloc_safe|]. intros ? _.
  eapply safe_bind; [by apply Hf|]. intros o Ho. by apply safe_ret.
Qed.

Lemma pointer_typed f :
  DecTyped pub (fun s => f s zero) (node_typed w) ->
  DecTyped pub (fun s => xdr_pointer zero f s PNull) (chain_typed w).
Proof.
  intros Hf s Ho Hp Hb. rewrite xdr_pointer_eq. revert s Ho Hp Hb.
  change (DecTyped pub (fun s => pointer_spec xdr_bool zero f s PNull) (chain_typed w)).
  unfold pointer_spec. eapply typed_bind; [eapply codec_typed; [apply xdr_bool_codec|done]|].
  intros b _. cbn. destruct (b =? 0); [by apply typed_ret|]. apply typed_op.
  eapply typed_bind; [apply x_alloc_typed|]. intros ? _.
  eapply typed_bind; [by apply Hf|]. intros o Ho. by apply typed_ret.
Qed.

(** Decoding into a node the caller allocated: only what follows is new, and
    an empty list drops the node. *)
Lemma pointer_safe_prealloc n f z :
  (forall m, (m < n)%nat -> DecSafe pub m 0 (fun s => f s z) (node_owned w) (node_clean w)) ->
  DecSafe pub n 0 (fun s => xdr_pointer zero f s (PTo z))
    (fun q => pred (chain_owned w q)) (chain_clean w).
Proof.
  intros Hf s Ho Hp Hn. rewrite xdr_pointer_eq. revert s Ho Hp Hn.
  change (DecSafe pub n 0 (fun s => pointer_spec xdr_bool zero f s (PTo z))
            (fun q => pred (chain_owned w q)) (chain_clean w)).
  unfold pointer_spec.
  eapply safe_bind_lt; [apply xdr_bool_consumes|eapply codec_safe; [apply xdr_bool_codec|done]|].
  intros b m _ Hlt. cbn. destruct (b =? 0); [by apply safe_ret|].
  eapply safe_bind; [by apply Hf|]. intros o Ho. by apply safe_ret.
Qed.

(** Decoding a list into such a node. *)
Lemma pointer_dec_prealloc n f z p :
  chain_wf w p ->
  (forall m q, (m < n)%nat -> p = PTo q -> DecOK pub m (fun s => f s z) (node_enc w q) (node_sim w q)) ->
  DecOK pub n (fun s => xdr_pointer zero f s (PTo z)) (chain_enc w p) (chain_sim w p).
Proof.
  intros Hwf Hf s Ho Hp Hm Hn. rewrite xdr_pointer_eq. revert s Ho Hp Hm Hn.
  change (DecOK pub n (fun s => pointer_spec xdr_bool zero f s (PTo z)) (chain_enc w p) (chain_sim w p)).
  unfold pointer_spec. destruct p as [|q|]; cbn in *; [| |done].
  - eapply dec_bind_last; [eapply codec_dec; [apply xdr_bool_codec|by left|done]|].
    intros b Hb. apply bool_sim in Hb. subst b. by apply dec_ret.
  - eapply dec_bind_lt;
      [apply xdr_bool_consumes | eapply codec_dec; [apply xdr_bool_codec|by right|done] |].
    intros b m Hb Hlt. apply bool_sim in Hb. subst b. cbn.
    eapply dec_bind_last; [by apply Hf|]. intros o Ho. by apply dec_ret.
Qed.

Lemma pointer_dec_empty n f z :
  DecOK pub n (fun s => xdr_pointer zero f s (PTo z)) (chain_enc w PNull) (fun q => q = PNull).
Proof.
  intros s Ho Hp Hm Hn. rewrite xdr_pointer_eq. revert s Ho Hp Hm Hn.
  change (DecOK pub n (fun s => pointer_spec xdr_bool zero f s (PTo z))
            (w_enc bool_w 0) (fun q => q = PNull)).
  unfold pointer_spec.
  eapply dec_bind_last; [eapply codec_dec; [apply xdr_bool_codec|by left|done]|].
  intros b Hb. apply bool_sim in Hb. subst b. by apply dec_ret.
Qed.
End pointer.

(** ** Recursive routines

    [f k] is the routine with recursion bound [k].  [ChainCodec] says that it
    implements the description of one node: encoding needs a bound no smaller
    than the length of the list, decoding a bound greater than the length of
    the input. *)
Record ChainCodec {A} (pub : Z) (f : nat -> xdrproc (node A)) (w : wire A) (zero : node A) : Prop := {
  chain_codec_enc k n : node_wf w n -> (node_depth n <= k)%nat ->
    EncOK pub (fun s => f k s n) (node_enc w n) n;
  chain_codec_dec k m n : node_wf w n -> (m < k)%nat ->
    DecOK pub m (fun s => f k s zero) (node_enc w n) (node_sim w n);
  chain_codec_safe k m : (m < k)%nat ->
    DecSafe pub m 0 (fun s => f k s zero) (node_owned w) (node_clean w);
  chain_codec_typed k : DecTyped pub (fun s => f k s zero) (node_typed w)
}.

(** The bound used for a list: one more than the bytes at hand, plus the
    length of the list itself. *)
Definition chain_fuel {A} (s : XDR) (p : ptr (node A)) : nat :=
  (S (length (x_buf s)) + chain_depth p)%nat.

Lemma chain_codec `{HL : XdrLaws} {A} pub (f : nat -> xdrproc (node A)) w zero :
  ChainCodec pub f w zero ->
  Codec pub (fun s p => xdr_pointer zero (f (chain_fuel s p)) s p) (chain_w w).
Proof.
  intros [He Hd Hs Ht]. unfold chain_w, chain_fuel. split; cbn.
  - intros p Hwf s Ho Hp.
    apply (pointer_enc w pub zero (f (S (length (x_buf s)) + chain_depth p)%nat) p Hwf); try done.
    intros n ->. apply He; [done|]. cbn. lia.
  - intros p d n Hwf -> s Ho Hp Hm Hn.
    apply (pointer_dec w pub zero (length (x_buf s)) (f (S (length (x_buf s)) + 0)%nat) p Hwf);
      try done.
    intros m q Hlt ->. apply Hd; [done|]. cbn. lia.
  - intros d n -> s Ho Hp Hn.
    apply (pointer_safe w pub zero (length (x_buf s)) (f (S (length (x_buf s)) + 0)%nat)); try done.
    intros m Hlt. apply Hs. lia.
  - intros d -> s Ho Hp Hb. by apply (pointer_typed w pub zero (f (S (length (x_buf s)) + 0)%nat)).
Qed.

(** ** Building the recursive routine

    A routine that handles the members of a node and then its link through
    [xdr_pointer] implements the node, whatever the routine for the members. *)
Section ext.
Context {A : Type} (pub : Z) (c c' : XDR -> xres A) (Heq : forall s, c s = c' s).

Lemma enc_ext bs a : EncOK pub c' bs a -> EncOK pub c bs a.
Proof. intros H s Ho Hp. rewrite Heq. by apply H. Qed.
Lemma dec_ext n bs P : DecOK pub n c' bs P -> DecOK pub n c bs P.
Proof. intros H s Ho Hp Hm Hn. rewrite Heq. by apply H. Qed.
Lemma safe_ext n k own Q : DecSafe pub n k c' own Q -> DecSafe pub n k c own Q.
Proof. intros H s Ho Hp Hn. rewrite Heq. by apply H. Qed.
Lemma typed_ext Q : DecTyped pub c' Q -> DecTyped pub c Q.
Proof. intros H s Ho Hp Hb. rewrite Heq. by apply H. Qed.
End ext.

Section chain_rec.
Context `{HL : XdrLaws} {A : Type} (w : wire A) (pub : Z) (za : A).
Context (f : nat -> xdrproc (node A)) (body : xdrproc A).
Hypothesis Hbody : Codec pub body w.
Hypothesis Hza : w_fresh w za.
Hypothesis Hf0 : forall s n, f O s n = XFuel.
Hypothesis Hf : forall k s a nx, f (S k) s (Node a nx) =
  let? (s, a) := body s a in
  let? (s, nx) := xdr_pointer (Node za PNull) (f k) s nx in XOk s (Node a nx).

Lemma chain_rec_codec : ChainCodec pub f w (Node za PNull).
Proof.
  split.
  - induction k as [|k IH]; intros [a nx] [Hwf Hnx] Hd; cbn in Hd; [lia|].
    eapply enc_ext; [by intros s; apply Hf|]. cbn.
    eapply enc_bind; [by apply Hbody|]. cbn.
    eapply enc_bind_last; [|apply enc_ret].
    apply (pointer_enc w pub); [done|]. intros n ->. apply IH; [done|]. cbn in Hd. lia.
  - induction k as [|k IH]; intros m [a nx] [Hwf Hnx] Hm; [lia|].
    eapply dec_ext; [by intros s; apply Hf|]. cbn.
    eapply dec_bind; [by apply Hbody|]. intros b Hb. cbn.
    eapply dec_bind_last.
    + apply (pointer_dec w pub); [done|]. intros m' q Hlt ->. apply IH; [done|lia].
    + intros ny Hny. by apply dec_ret.
  - induction k as [|k IH]; intros m Hm; [lia|].
    eapply safe_ext; [by intros s; apply Hf|]. cbn.
    eapply safe_bind; [by apply Hbody|]. intros b Hb. cbn.
    eapply safe_bind.
    + apply (pointer_safe w pub). intros m' Hlt. apply IH. lia.
    + intros ny Hny. by apply safe_ret.
  - induction k as [|k IH]; [by intros s Ho Hp Hb; rewrite Hf0|].
    eapply typed_ext; [by intros s; apply Hf|]. cbn.
    eapply typed_bind; [by apply Hbody|]. intros b Hb. cbn.
    eapply typed_bind; [by apply (pointer_typed w pub)|]. intros ny Hny. by apply typed_ret.
Qed.
End chain_rec.

Lemma xbind_ret {A} (r : xres A) : xbind r (fun s a => XOk s a) = r.
Proof. by destruct r. Qed.

(** Equality of two sequences of binds, up to their nesting. *)
Ltac xbind_eq :=
  intros; cbn;
  repeat first
    [ reflexivity
    | match goal with |- xbind (xbind _ _) _ = _ => rewrite xbind_ret end
    | match goal with |- context [xbind ?r _] => destruct r; cbn end ].
