(* ===== verification/NfsTypes.v ===== *)
(** * The NFSv3 and MOUNT data types

    The types of [src/include/nfs3.h], with the names of the source; a member
    [m] of struct [T] is the field [T_m].

    - [uint32] is [u_long] and [uint64] is [u_quad_t]; both are [Z] here, and the
      wire descriptions state which values have a representation.
    - C enums are [Z]: [xdr_enum] stores whatever number it reads.
    - A [char *] string is a pointer to the characters before the NUL, and
      [struct { u_int data_len; char *data_val; }] is [opaque_buf].
    - The members of a C union are separate fields.  The code reads the member
      the discriminant selects and no other.
    - A struct with a link to its own type is a [node]: the record of its other
      members (the type [T_body]) and the link. *)

From S2P Require Import Prelude Xdr XdrList.

Set Primitive Projections.

(** ** Constants *)

Definition NFS3_FHSIZE : Z := 64.
Definition NFS3_COOKIEVERFSIZE : nat := 8.
Definition NFS3_CREATEVERFSIZE : nat := 8.
Definition NFS3_WRITEVERFSIZE : nat := 8.
Definition MNTPATHLEN : Z := 1024.
Definition ACCESS3_READ : Z := 0x0001.
Definition ACCESS3_LOOKUP : Z := 0x0002.
Definition ACCESS3_MODIFY : Z := 0x0004.
Definition ACCESS3_EXTEND : Z := 0x0008.
Definition ACCESS3_DELETE : Z := 0x0010.
Definition ACCESS3_EXECUTE : Z := 0x0020.
Definition FSF3_LINK : Z := 0x0001.
Definition FSF3_SYMLINK : Z := 0x0002.
Definition FSF3_HOMOGENEOUS : Z := 0x0008.
Definition FSF3_CANSETTIME : Z := 0x0010.
Definition MNTNAMLEN : Z := 255.
Definition FHSIZE3 : Z := 64.

(** [~0] as a [u_int]: no limit. *)
Definition MAXLEN : Z := 2 ^ 32 - 1.

(** (caddr_t)-1 and (caddr_t)0: the user field of a handle tells
    [xdr_READ3resok] and [xdr_WRITE3args] to leave the payload out. *)
Definition DISABLE_DATA_DEXDR_INTERNAL : Z := -1.
Definition ENABLE_DATA_DEXDR_INTERNAL : Z := 0.
Definition NFS3_DATA_DEXDR : Z := 1.
Definition NFS3_DATA_NO_DEXDR : Z := 0.

Definition bool_t := Z.
Abbreviation TRUE := 1 (only parsing).
Abbreviation FALSE := 0 (only parsing).

(** ** Scalars *)

Definition uint64 := Z.
Definition int64 := Z.
Definition uint32 := Z.
Definition int32 := Z.
Definition filename3 := ptr (list Z).
Definition nfspath3 := ptr (list Z).
Definition fileid3 := uint64.
Definition cookie3 := uint64.
Definition cookieverf3 := list Z.
Definition createverf3 := list Z.
Definition writeverf3 := list Z.
Definition uid3 := uint32.
Definition gid3 := uint32.
Definition size3 := uint64.
Definition offset3 := uint64.
Definition mode3 := uint32.
Definition count3 := uint32.
Definition dirpath := ptr (list Z).
Definition name := ptr (list Z).

(** ** Enumerations *)

Definition nfsstat3 := Z.
Definition NFS3_OK : nfsstat3 := 0.
Definition NFS3ERR_PERM : nfsstat3 := 1.
Definition NFS3ERR_NOENT : nfsstat3 := 2.
Definition NFS3ERR_IO : nfsstat3 := 5.
Definition NFS3ERR_NXIO : nfsstat3 := 6.
Definition NFS3ERR_ACCES : nfsstat3 := 13.
Definition NFS3ERR_EXIST : nfsstat3 := 17.
Definition NFS3ERR_XDEV : nfsstat3 := 18.
Definition NFS3ERR_NODEV : nfsstat3 := 19.
Definition NFS3ERR_NOTDIR : nfsstat3 := 20.
Definition NFS3ERR_ISDIR : nfsstat3 := 21.
Definition NFS3ERR_INVAL : nfsstat3 := 22.
Definition NFS3ERR_FBIG : nfsstat3 := 27.
Definition NFS3ERR_NOSPC : nfsstat3 := 28.
Definition NFS3ERR_ROFS : nfsstat3 := 30.
Definition NFS3ERR_MLINK : nfsstat3 := 31.
Definition NFS3ERR_NAMETOOLONG : nfsstat3 := 63.
Definition NFS3ERR_NOTEMPTY : nfsstat3 := 66.
Definition NFS3ERR_DQUOT : nfsstat3 := 69.
Definition NFS3ERR_STALE : nfsstat3 := 70.
Definition NFS3ERR_REMOTE : nfsstat3 := 71.
Definition NFS3ERR_BADHANDLE : nfsstat3 := 10001.
Definition NFS3ERR_NOT_SYNC : nfsstat3 := 10002.
Definition NFS3ERR_BAD_COOKIE : nfsstat3 := 10003.
Definition NFS3ERR_NOTSUPP : nfsstat3 := 10004.
Definition NFS3ERR_TOOSMALL : nfsstat3 := 10005.
Definition NFS3ERR_SERVERFAULT : nfsstat3 := 10006.
Definition NFS3ERR_BADTYPE : nfsstat3 := 10007.
Definition NFS3ERR_JUKEBOX : nfsstat3 := 10008.

Definition ftype3 := Z.
Definition NF3REG : ftype3 := 1.
Definition NF3DIR : ftype3 := 2.
Definition NF3BLK : ftype3 := 3.
Definition NF3CHR : ftype3 := 4.
Definition NF3LNK : ftype3 := 5.
Definition NF3SOCK : ftype3 := 6.
Definition NF3FIFO : ftype3 := 7.

Definition time_how := Z.
Definition DONT_CHANGE : time_how := 0.
Definition SET_TO_SERVER_TIME : time_how := 1.
Definition SET_TO_CLIENT_TIME : time_how := 2.

Definition stable_how := Z.
Definition UNSTABLE : stable_how := 0.
Definition DATA_SYNC : stable_how := 1.
Definition FILE_SYNC : stable_how := 2.

Definition createmode3 := Z.
Definition UNCHECKED : createmode3 := 0.
Definition GUARDED : createmode3 := 1.
Definition EXCLUSIVE : createmode3 := 2.

Definition mountstat3 := Z.
Definition MNT3_OK : mountstat3 := 0.
Definition MNT3ERR_PERM : mountstat3 := 1.
Definition MNT3ERR_NOENT : mountstat3 := 2.
Definition MNT3ERR_IO : mountstat3 := 5.
Definition MNT3ERR_ACCES : mountstat3 := 13.
Definition MNT3ERR_NOTDIR : mountstat3 := 20.
Definition MNT3ERR_INVAL : mountstat3 := 22.
Definition MNT3ERR_NAMETOOLONG : mountstat3 := 63.
Definition MNT3ERR_NOTSUPP : mountstat3 := 10004.
Definition MNT3ERR_SERVERFAULT : mountstat3 := 10006.

(** Typedefs are transparent to the [xdr] hints. *)
#[export] Hint Transparent bool_t uint64 int64 uint32 int32 filename3 nfspath3 fileid3 cookie3
  cookieverf3 createverf3 writeverf3 uid3 gid3 size3 offset3 mode3 count3 dirpath name
  nfsstat3 ftype3 time_how stable_how createmode3 mountstat3 : xdr.

(** ** Structures *)

Record specdata3 := mk_specdata3 {
  specdata3_specdata1 : uint32;
  specdata3_specdata2 : uint32
}.

Record nfs_fh3 := mk_nfs_fh3 {
  nfs_fh3_data : opaque_buf
}.

Record nfstime3 := mk_nfstime3 {
  nfstime3_seconds : uint32;
  nfstime3_nseconds : uint32
}.

Record fattr3 := mk_fattr3 {
  fattr3_type : ftype3;
  fattr3_mode : mode3;
  fattr3_nlink : uint32;
  fattr3_uid : uid3;
  fattr3_gid : gid3;
  fattr3_size : size3;
  fattr3_used : size3;
  fattr3_rdev : specdata3;
  fattr3_fsid : uint64;
  fattr3_fileid : fileid3;
  fattr3_atime : nfstime3;
  fattr3_mtime : nfstime3;
  fattr3_ctime : nfstime3
}.

Record post_op_attr := mk_post_op_attr {
  post_op_attr_attributes_follow : bool_t;
  post_op_attr_attributes : fattr3
}.

Record wcc_attr := mk_wcc_attr {
  wcc_attr_size : size3;
  wcc_attr_mtime : nfstime3;
  wcc_attr_ctime : nfstime3
}.

Record pre_op_attr := mk_pre_op_attr {
  pre_op_attr_attributes_follow : bool_t;
  pre_op_attr_attributes : wcc_attr
}.

Record wcc_data := mk_wcc_data {
  wcc_data_before : pre_op_attr;
  wcc_data_after : post_op_attr
}.

Record post_op_fh3 := mk_post_op_fh3 {
  post_op_fh3_handle_follows : bool_t;
  post_op_fh3_handle : nfs_fh3
}.

Record set_mode3 := mk_set_mode3 {
  set_mode3_set_it : bool_t;
  set_mode3_mode : mode3
}.

Record set_uid3 := mk_set_uid3 {
  set_uid3_set_it : bool_t;
  set_uid3_uid : uid3
}.

Record set_gid3 := mk_set_gid3 {
  set_gid3_set_it : bool_t;
  set_gid3_gid : gid3
}.

Record set_size3 := mk_set_size3 {
  set_size3_set_it : bool_t;
  set_size3_size : size3
}.

Record set_atime := mk_set_atime {
  set_atime_set_it : time_how;
  set_atime_atime : nfstime3
}.

Record set_mtime := mk_set_mtime {
  set_mtime_set_it : time_how;
  set_mtime_mtime : nfstime3
}.

Record sattr3 := mk_sattr3 {
  sattr3_mode : set_mode3;
  sattr3_uid : set_uid3;
  sattr3_gid : set_gid3;
  sattr3_size : set_size3;
  sattr3_atime : set_atime;
  sattr3_mtime : set_mtime
}.

Record diropargs3 := mk_diropargs3 {
  diropargs3_dir : nfs_fh3;
  diropargs3_name : filename3
}.

Record GETATTR3args := mk_GETATTR3args {
  GETATTR3args_object : nfs_fh3
}.

Record GETATTR3resok := mk_GETATTR3resok {
  GETATTR3resok_obj_attributes : fattr3
}.

Record GETATTR3res := mk_GETATTR3res {
  GETATTR3res_status : nfsstat3;
  GETATTR3res_resok : GETATTR3resok
}.

Record sattrguard3 := mk_sattrguard3 {
  sattrguard3_check : bool_t;
  sattrguard3_obj_ctime : nfstime3
}.

Record SETATTR3args := mk_SETATTR3args {
  SETATTR3args_object : nfs_fh3;
  SETATTR3args_new_attributes : sattr3;
  SETATTR3args_guard : sattrguard3
}.

Record SETATTR3resok := mk_SETATTR3resok {
  SETATTR3resok_obj_wcc : wcc_data
}.

Record SETATTR3resfail := mk_SETATTR3resfail {
  SETATTR3resfail_obj_wcc : wcc_data
}.

Record SETATTR3res := mk_SETATTR3res {
  SETATTR3res_status : nfsstat3;
  SETATTR3res_resok : SETATTR3resok;
  SETATTR3res_resfail : SETATTR3resfail
}.

Record LOOKUP3args := mk_LOOKUP3args {
  LOOKUP3args_what : diropargs3
}.

Record LOOKUP3resok := mk_LOOKUP3resok {
  LOOKUP3resok_object : nfs_fh3;
  LOOKUP3resok_obj_attributes : post_op_attr;
  LOOKUP3resok_dir_attributes : post_op_attr
}.

Record LOOKUP3resfail := mk_LOOKUP3resfail {
  LOOKUP3resfail_dir_attributes : post_op_attr
}.

Record LOOKUP3res := mk_LOOKUP3res {
  LOOKUP3res_status : nfsstat3;
  LOOKUP3res_resok : LOOKUP3resok;
  LOOKUP3res_resfail : LOOKUP3resfail
}.

Record ACCESS3args := mk_ACCESS3args {
  ACCESS3args_object : nfs_fh3;
  ACCESS3args_access : uint32
}.

Record ACCESS3resok := mk_ACCESS3resok {
  ACCESS3resok_obj_attributes : post_op_attr;
  ACCESS3resok_access : uint32
}.

Record ACCESS3resfail := mk_ACCESS3resfail {
  ACCESS3resfail_obj_attributes : post_op_attr
}.

Record ACCESS3res := mk_ACCESS3res {
  ACCESS3res_status : nfsstat3;
  ACCESS3res_resok : ACCESS3resok;
  ACCESS3res_resfail : ACCESS3resfail
}.

Record READLINK3args := mk_READLINK3args {
  READLINK3args_symlink : nfs_fh3
}.

Record READLINK3resok := mk_READLINK3resok {
  READLINK3resok_symlink_attributes : post_op_attr;
  READLINK3resok_data : nfspath3
}.

Record READLINK3resfail := mk_READLINK3resfail {
  READLINK3resfail_symlink_attributes : post_op_attr
}.

Record READLINK3res := mk_READLINK3res {
  READLINK3res_status : nfsstat3;
  READLINK3res_resok : READLINK3resok;
  READLINK3res_resfail : READLINK3resfail
}.

Record READ3args := mk_READ3args {
  READ3args_file : nfs_fh3;
  READ3args_offset : offset3;
  READ3args_count : count3
}.

Record READ3resok := mk_READ3resok {
  READ3resok_file_attributes : post_op_attr;
  READ3resok_count : count3;
  READ3resok_eof : bool_t;
  READ3resok_data : opaque_buf
}.

Record READ3resfail := mk_READ3resfail {
  READ3resfail_file_attributes : post_op_attr
}.

Record READ3res := mk_READ3res {
  READ3res_status : nfsstat3;
  READ3res_resok : READ3resok;
  READ3res_resfail : READ3resfail
}.

Record WRITE3args := mk_WRITE3args {
  WRITE3args_file : nfs_fh3;
  WRITE3args_offset : offset3;
  WRITE3args_count : count3;
  WRITE3args_stable : stable_how;
  WRITE3args_data : opaque_buf
}.

Record WRITE3resok := mk_WRITE3resok {
  WRITE3resok_file_wcc : wcc_data;
  WRITE3resok_count : count3;
  WRITE3resok_committed : stable_how;
  WRITE3resok_verf : writeverf3
}.

Record WRITE3resfail := mk_WRITE3resfail {
  WRITE3resfail_file_wcc : wcc_data
}.

Record WRITE3res := mk_WRITE3res {
  WRITE3res_status : nfsstat3;
  WRITE3res_resok : WRITE3resok;
  WRITE3res_resfail : WRITE3resfail
}.

Record createhow3 := mk_createhow3 {
  createhow3_mode : createmode3;
  createhow3_obj_attributes : sattr3;
  createhow3_verf : createverf3
}.

Record CREATE3args := mk_CREATE3args {
  CREATE3args_where : diropargs3;
  CREATE3args_how : createhow3
}.

Record CREATE3resok := mk_CREATE3resok {
  CREATE3resok_obj : post_op_fh3;
  CREATE3resok_obj_attributes : post_op_attr;
  CREATE3resok_dir_wcc : wcc_data
}.

Record CREATE3resfail := mk_CREATE3resfail {
  CREATE3resfail_dir_wcc : wcc_data
}.

Record CREATE3res := mk_CREATE3res {
  CREATE3res_status : nfsstat3;
  CREATE3res_resok : CREATE3resok;
  CREATE3res_resfail : CREATE3resfail
}.

Record MKDIR3args := mk_MKDIR3args {
  MKDIR3args_where : diropargs3;
  MKDIR3args_attributes : sattr3
}.

Record MKDIR3resok := mk_MKDIR3resok {
  MKDIR3resok_obj : post_op_fh3;
  MKDIR3resok_obj_attributes : post_op_attr;
  MKDIR3resok_dir_wcc : wcc_data
}.

Record MKDIR3resfail := mk_MKDIR3resfail {
  MKDIR3resfail_dir_wcc : wcc_data
}.

Record MKDIR3res := mk_MKDIR3res {
  MKDIR3res_status : nfsstat3;
  MKDIR3res_resok : MKDIR3resok;
  MKDIR3res_resfail : MKDIR3resfail
}.

Record symlinkdata3 := mk_symlinkdata3 {
  symlinkdata3_symlink_attributes : sattr3;
  symlinkdata3_symlink_data : nfspath3
}.

Record SYMLINK3args := mk_SYMLINK3args {
  SYMLINK3args_where : diropargs3;
  SYMLINK3args_symlink : symlinkdata3
}.

Record SYMLINK3resok := mk_SYMLINK3resok {
  SYMLINK3resok_obj : post_op_fh3;
  SYMLINK3resok_obj_attributes : post_op_attr;
  SYMLINK3resok_dir_wcc : wcc_data
}.

Record SYMLINK3resfail := mk_SYMLINK3resfail {
  SYMLINK3resfail_dir_wcc : wcc_data
}.

Record SYMLINK3res := mk_SYMLINK3res {
  SYMLINK3res_status : nfsstat3;
  SYMLINK3res_resok : SYMLINK3resok;
  SYMLINK3res_resfail : SYMLINK3resfail
}.

Record devicedata3 := mk_devicedata3 {
  devicedata3_dev_attributes : sattr3;
  devicedata3_spec : specdata3
}.

Record mknoddata3 := mk_mknoddata3 {
  mknoddata3_type : ftype3;
  mknoddata3_device : devicedata3;
  mknoddata3_pipe_attributes : sattr3
}.

Record MKNOD3args := mk_MKNOD3args {
  MKNOD3args_where : diropargs3;
  MKNOD3args_what : mknoddata3
}.

Record MKNOD3resok := mk_MKNOD3resok {
  MKNOD3resok_obj : post_op_fh3;
  MKNOD3resok_obj_attributes : post_op_attr;
  MKNOD3resok_dir_wcc : wcc_data
}.

Record MKNOD3resfail := mk_MKNOD3resfail {
  MKNOD3resfail_dir_wcc : wcc_data
}.

Record MKNOD3res := mk_MKNOD3res {
  MKNOD3res_status : nfsstat3;
  MKNOD3res_resok : MKNOD3resok;
  MKNOD3res_resfail : MKNOD3resfail
}.

Record REMOVE3args := mk_REMOVE3args {
  REMOVE3args_object : diropargs3
}.

Record REMOVE3resok := mk_REMOVE3resok {
  REMOVE3resok_dir_wcc : wcc_data
}.

Record REMOVE3resfail := mk_REMOVE3resfail {
  REMOVE3resfail_dir_wcc : wcc_data
}.

Record REMOVE3res := mk_REMOVE3res {
  REMOVE3res_status : nfsstat3;
  REMOVE3res_resok : REMOVE3resok;
  REMOVE3res_resfail : REMOVE3resfail
}.

Record RMDIR3args := mk_RMDIR3args {
  RMDIR3args_object : diropargs3
}.

Record RMDIR3resok := mk_RMDIR3resok {
  RMDIR3resok_dir_wcc : wcc_data
}.

Record RMDIR3resfail := mk_RMDIR3resfail {
  RMDIR3resfail_dir_wcc : wcc_data
}.

Record RMDIR3res := mk_RMDIR3res {
  RMDIR3res_status : nfsstat3;
  RMDIR3res_resok : RMDIR3resok;
  RMDIR3res_resfail : RMDIR3resfail
}.

Record RENAME3args := mk_RENAME3args {
  RENAME3args_from : diropargs3;
  RENAME3args_to : diropargs3
}.

Record RENAME3resok := mk_RENAME3resok {
  RENAME3resok_fromdir_wcc : wcc_data;
  RENAME3resok_todir_wcc : wcc_data
}.

Record RENAME3resfail := mk_RENAME3resfail {
  RENAME3resfail_fromdir_wcc : wcc_data;
  RENAME3resfail_todir_wcc : wcc_data
}.

Record RENAME3res := mk_RENAME3res {
  RENAME3res_status : nfsstat3;
  RENAME3res_resok : RENAME3resok;
  RENAME3res_resfail : RENAME3resfail
}.

Record LINK3args := mk_LINK3args {
  LINK3args_file : nfs_fh3;
  LINK3args_link : diropargs3
}.

Record LINK3resok := mk_LINK3resok {
  LINK3resok_file_attributes : post_op_attr;
  LINK3resok_linkdir_wcc : wcc_data
}.

Record LINK3resfail := mk_LINK3resfail {
  LINK3resfail_file_attributes : post_op_attr;
  LINK3resfail_linkdir_wcc : wcc_data
}.

Record LINK3res := mk_LINK3res {
  LINK3res_status : nfsstat3;
  LINK3res_resok : LINK3resok;
  LINK3res_resfail : LINK3resfail
}.

Record READDIR3args := mk_READDIR3args {
  READDIR3args_dir : nfs_fh3;
  READDIR3args_cookie : cookie3;
  READDIR3args_cookieverf : cookieverf3;
  READDIR3args_count : count3
}.

Record entry3_body := mk_entry3_body {
  entry3_body_fileid : fileid3;
  entry3_body_name : filename3;
  entry3_body_cookie : cookie3
}.
Definition entry3 := node entry3_body.

Record dirlist3 := mk_dirlist3 {
  dirlist3_entries : ptr entry3;
  dirlist3_eof : bool_t
}.

Record READDIR3resok := mk_READDIR3resok {
  READDIR3resok_dir_attributes : post_op_attr;
  READDIR3resok_cookieverf : cookieverf3;
  READDIR3resok_reply : dirlist3
}.

Record READDIR3resfail := mk_READDIR3resfail {
  READDIR3resfail_dir_attributes : post_op_attr
}.

Record READDIR3res := mk_READDIR3res {
  READDIR3res_status : nfsstat3;
  READDIR3res_resok : READDIR3resok;
  READDIR3res_resfail : READDIR3resfail
}.

Record READDIRPLUS3args := mk_READDIRPLUS3args {
  READDIRPLUS3args_dir : nfs_fh3;
  READDIRPLUS3args_cookie : cookie3;
  READDIRPLUS3args_cookieverf : cookieverf3;
  READDIRPLUS3args_dircount : count3;
  READDIRPLUS3args_maxcount : count3
}.

Record entryplus3_body := mk_entryplus3_body {
  entryplus3_body_fileid : fileid3;
  entryplus3_body_name : filename3;
  entryplus3_body_cookie : cookie3;
  entryplus3_body_name_attributes : post_op_attr;
  entryplus3_body_name_handle : post_op_fh3
}.
Definition entryplus3 := node entryplus3_body.

Record dirlistplus3 := mk_dirlistplus3 {
  dirlistplus3_entries : ptr entryplus3;
  dirlistplus3_eof : bool_t
}.

Record READDIRPLUS3resok := mk_READDIRPLUS3resok {
  READDIRPLUS3resok_dir_attributes : post_op_attr;
  READDIRPLUS3resok_cookieverf : cookieverf3;
  READDIRPLUS3resok_reply : dirlistplus3
}.

Record READDIRPLUS3resfail := mk_READDIRPLUS3resfail {
  READDIRPLUS3resfail_dir_attributes : post_op_attr
}.

Record READDIRPLUS3res := mk_READDIRPLUS3res {
  READDIRPLUS3res_status : nfsstat3;
  READDIRPLUS3res_resok : READDIRPLUS3resok;
  READDIRPLUS3res_resfail : READDIRPLUS3resfail
}.

Record FSSTAT3args := mk_FSSTAT3args {
  FSSTAT3args_fsroot : nfs_fh3
}.

Record FSSTAT3resok := mk_FSSTAT3resok {
  FSSTAT3resok_obj_attributes : post_op_attr;
  FSSTAT3resok_tbytes : size3;
  FSSTAT3resok_fbytes : size3;
  FSSTAT3resok_abytes : size3;
  FSSTAT3resok_tfiles : size3;
  FSSTAT3resok_ffiles : size3;
  FSSTAT3resok_afiles : size3;
  FSSTAT3resok_invarsec : uint32
}.

Record FSSTAT3resfail := mk_FSSTAT3resfail {
  FSSTAT3resfail_obj_attributes : post_op_attr
}.

Record FSSTAT3res := mk_FSSTAT3res {
  FSSTAT3res_status : nfsstat3;
  FSSTAT3res_resok : FSSTAT3resok;
  FSSTAT3res_resfail : FSSTAT3resfail
}.

Record FSINFOargs := mk_FSINFOargs {
  FSINFOargs_fsroot : nfs_fh3
}.

Record FSINFO3resok := mk_FSINFO3resok {
  FSINFO3resok_obj_attributes : post_op_attr;
  FSINFO3resok_rtmax : uint32;
  FSINFO3resok_rtpref : uint32;
  FSINFO3resok_rtmult : uint32;
  FSINFO3resok_wtmax : uint32;
  FSINFO3resok_wtpref : uint32;
  FSINFO3resok_wtmult : uint32;
  FSINFO3resok_dtpref : uint32;
  FSINFO3resok_maxfilesize : size3;
  FSINFO3resok_time_delta : nfstime3;
  FSINFO3resok_properties : uint32
}.

Record FSINFO3resfail := mk_FSINFO3resfail {
  FSINFO3resfail_obj_attributes : post_op_attr
}.

Record FSINFO3res := mk_FSINFO3res {
  FSINFO3res_status : nfsstat3;
  FSINFO3res_resok : FSINFO3resok;
  FSINFO3res_resfail : FSINFO3resfail
}.

Record PATHCONF3args := mk_PATHCONF3args {
  PATHCONF3args_object : nfs_fh3
}.

Record PATHCONF3resok := mk_PATHCONF3resok {
  PATHCONF3resok_obj_attributes : post_op_attr;
  PATHCONF3resok_linkmax : uint32;
  PATHCONF3resok_name_max : uint32;
  PATHCONF3resok_no_trunc : bool_t;
  PATHCONF3resok_chown_restricted : bool_t;
  PATHCONF3resok_case_insensitive : bool_t;
  PATHCONF3resok_case_preserving : bool_t
}.

Record PATHCONF3resfail := mk_PATHCONF3resfail {
  PATHCONF3resfail_obj_attributes : post_op_attr
}.

Record PATHCONF3res := mk_PATHCONF3res {
  PATHCONF3res_status : nfsstat3;
  PATHCONF3res_resok : PATHCONF3resok;
  PATHCONF3res_resfail : PATHCONF3resfail
}.

Record COMMIT3args := mk_COMMIT3args {
  COMMIT3args_file : nfs_fh3;
  COMMIT3args_offset : offset3;
  COMMIT3args_count : count3
}.

Record COMMIT3resok := mk_COMMIT3resok {
  COMMIT3resok_file_wcc : wcc_data;
  COMMIT3resok_verf : writeverf3
}.

Record COMMIT3resfail := mk_COMMIT3resfail {
  COMMIT3resfail_file_wcc : wcc_data
}.

Record COMMIT3res := mk_COMMIT3res {
  COMMIT3res_status : nfsstat3;
  COMMIT3res_resok : COMMIT3resok;
  COMMIT3res_resfail : COMMIT3resfail
}.

Definition fhandle3 := opaque_buf.
#[export] Hint Transparent fhandle3 : xdr.

Record mountres3_ok := mk_mountres3_ok {
  mountres3_ok_fhandle : fhandle3;
  mountres3_ok_auth_flavors : Z * ptr (list Z)
}.

Record mountres3 := mk_mountres3 {
  mountres3_fhs_status : mountstat3;
  mountres3_mountinfo : mountres3_ok
}.

Record mountbody_body := mk_mountbody_body {
  mountbody_body_ml_hostname : name;
  mountbody_body_ml_directory : dirpath
}.
Definition mountbody := node mountbody_body.
Definition mountlist := ptr mountbody.

Record groupnode_body := mk_groupnode_body {
  groupnode_body_gr_name : name
}.
Definition groupnode := node groupnode_body.
Definition groups := ptr groupnode.

Record exportnode_body := mk_exportnode_body {
  exportnode_body_ex_dir : dirpath;
  exportnode_body_ex_groups : groups
}.
Definition exportnode := node exportnode_body.
Definition exports := ptr exportnode.

Record nfsreply := mk_nfsreply {
  nfsreply_status : nfsstat3
}.
