(* ===== verification/NfsStatus.v ===== *)
(** * NFS status codes: the tables of [src/src/nfsv3/nfs3.c]

    [nfsstat3_strerror] and [nfsstat3_to_errno] walk tables that end in an
    entry whose status is -1.  The enum [nfsstat3] has no negative member, so
    the compiler gives it the unsigned type: -1 is stored as 2^32 - 1 and the
    argument, an [int], is converted before it is compared. *)

From S2P Require Import Prelude NfsTypes.
From Stdlib Require Import String.

(** ** The error numbers of Linux's [errno.h] *)

Definition EPERM : Z := 1.
Definition ENOENT : Z := 2.
Definition EIO : Z := 5.
Definition ENXIO : Z := 6.
Definition EACCES : Z := 13.
Definition EEXIST : Z := 17.
Definition EXDEV : Z := 18.
Definition ENODEV : Z := 19.
Definition ENOTDIR : Z := 20.
Definition EISDIR : Z := 21.
Definition EINVAL : Z := 22.
Definition EFBIG : Z := 27.
Definition ENOSPC : Z := 28.
Definition EROFS : Z := 30.
Definition EMLINK : Z := 31.
Definition ENAMETOOLONG : Z := 36.
Definition ENOTEMPTY : Z := 39.
Definition ESTALE : Z := 116.
Definition EDQUOT : Z := 122.

(** ** The tables *)

(** The entries; a text has room for 99 characters. *)
Definition nfs3stat_to_str : Type := nfsstat3 * string.
Definition nfs3_errtbl : Type := nfsstat3 * Z.

Definition nfs3stat_str_tbl : list nfs3stat_to_str :=
  [(NFS3_OK, "Call completed successfully.");
   (NFS3ERR_PERM, "Not owner");
   (NFS3ERR_NOENT, "No such file or directory");
   (NFS3ERR_IO, "I/O error");
   (NFS3ERR_NXIO, "I/O error");
   (NFS3ERR_ACCES, "Permission denied");
   (NFS3ERR_EXIST, "File exists");
   (NFS3ERR_XDEV, "Attempt to do a cross-device hard link");
   (NFS3ERR_NODEV, "No such device");
   (NFS3ERR_NOTDIR, "Not a directory");
   (NFS3ERR_ISDIR, "Not a directory");
   (NFS3ERR_INVAL, "Invalid argument for operation");
   (NFS3ERR_FBIG, "File too large");
   (NFS3ERR_NOSPC, "No space left on device");
   (NFS3ERR_ROFS, "Read-only file system");
   (NFS3ERR_MLINK, "Too many hard links");
   (NFS3ERR_NAMETOOLONG, "Filename in operation was too long");
   (NFS3ERR_NOTEMPTY, "Directory not empty");
   (NFS3ERR_DQUOT, "Resource (quota) hard limit exceeded");
   (NFS3ERR_STALE, "Invalid file handle");
   (NFS3ERR_REMOTE, "Too many levels of remote in path");
   (NFS3ERR_BADHANDLE, "Illegal NFS file handle");
   (NFS3ERR_NOT_SYNC, "Update synchronization mismatch detected");
   (NFS3ERR_BAD_COOKIE, "READDIR or READDIRPLUS cookie is stale");
   (NFS3ERR_NOTSUPP, "Operation is not supported");
   (NFS3ERR_TOOSMALL, "Buffer or request is too small");
   (NFS3ERR_SERVERFAULT, "Error occurred on the server or IO Error");
   (NFS3ERR_BADTYPE, "Type not supported by the server");
   (NFS3ERR_JUKEBOX, "Cannot complete server initiated request");
   (u32 (-1), "IO Error")]%string.

Definition nfs3errtbl : list nfs3_errtbl :=
  [(NFS3_OK, 0);
   (NFS3ERR_PERM, EPERM);
   (NFS3ERR_NOENT, ENOENT);
   (NFS3ERR_IO, EIO);
   (NFS3ERR_NXIO, ENXIO);
   (NFS3ERR_ACCES, EACCES);
   (NFS3ERR_EXIST, EEXIST);
   (NFS3ERR_XDEV, EXDEV);
   (NFS3ERR_NODEV, ENODEV);
   (NFS3ERR_NOTDIR, ENOTDIR);
   (NFS3ERR_ISDIR, EISDIR);
   (NFS3ERR_INVAL, EINVAL);
   (NFS3ERR_FBIG, EFBIG);
   (NFS3ERR_NOSPC, ENOSPC);
   (NFS3ERR_ROFS, EROFS);
   (NFS3ERR_MLINK, EMLINK);
   (NFS3ERR_NAMETOOLONG, ENAMETOOLONG);
   (NFS3ERR_NOTEMPTY, ENOTEMPTY);
   (NFS3ERR_DQUOT, EDQUOT);
   (NFS3ERR_STALE, ESTALE);
   (u32 (-1), EIO)].

(** ** The lookups

    Both are the same loop: [i] runs until the sentinel or a match; [None] if
    it leaves the table.  The result is the entry the loop stops at, and
    whether that is a match. *)
Fixpoint scan {A} (tbl : list (nfsstat3 * A)) (stat : Z) : option (bool * A) :=
  match tbl with
  | [] => None
  | (s, a) :: tbl =>
      if negb (s =? u32 (-1))
      then if s =? u32 stat then Some (true, a) else scan tbl stat
      else Some (false, a)
  end.

(** A match and the sentinel return the string at [i] alike. *)
Definition nfsstat3_strerror (stat : Z) : option string :=
  match scan nfs3stat_str_tbl stat with
  | Some (_, errstr) => Some errstr
  | None => None
  end.

(** The sentinel's own number is not looked at. *)
Definition nfsstat3_to_errno (stat : Z) : option Z :=
  match scan nfs3errtbl stat with
  | Some (true, syserr) => Some syserr
  | Some (false, _) => Some EIO
  | None => None
  end.

(** ** What the tables promise *)

(** The entry for a status, as a partial function. *)
Fixpoint assoc {A} (tbl : list (nfsstat3 * A)) (stat : Z) : option A :=
  match tbl with
  | [] => None
  | (s, a) :: tbl => if s =? stat then Some a else assoc tbl stat
  end.

(** A table is well formed if the sentinel is its last entry and no other. *)
Definition sentinel {A} (tbl : list (nfsstat3 * A)) (d : A) : Prop :=
  exists body, tbl = body ++ [(u32 (-1), d)] /\ Forall (fun e => (e.1 =? u32 (-1)) = false) body.

Lemma scan_assoc {A} (tbl : list (nfsstat3 * A)) d stat :
  sentinel tbl d -> u32 stat <> u32 (-1) ->
  scan tbl stat = Some (match assoc tbl (u32 stat) with Some a => (true, a) | None => (false, d) end).
Proof.
  intros (body & -> & Hb) Hs. induction Hb as [|[s a] body Hsa _ IH]; cbn [app scan assoc].
  - rewrite Z.eqb_refl. cbn. by rewrite (proj2 (Z.eqb_neq _ _)) by congruence.
  - cbn in Hsa. rewrite Hsa. cbn. by destruct (s =? u32 stat).
Qed.

Lemma scan_total {A} (tbl : list (nfsstat3 * A)) d stat : sentinel tbl d -> is_Some (scan tbl stat).
Proof.
  intros (body & -> & Hb). induction Hb as [|[s a] body Hsa _ IH]; cbn [app scan].
  - rewrite Z.eqb_refl. by eexists.
  - cbn in Hsa. rewrite Hsa. cbn. destruct (s =? u32 stat); [by eexists|done].
Qed.

Ltac solve_sentinel tbl :=
  let body := eval cbv delta [tbl] in tbl in
  let n := eval vm_compute in (Datatypes.length body - 1)%nat in
  exists (take n body); split; [reflexivity|repeat constructor].

Lemma texts_fit : Forall (fun e => (String.length (snd e) < 100)%nat) nfs3stat_str_tbl.
Proof. repeat constructor. Qed.

Lemma str_sentinel : sentinel nfs3stat_str_tbl "IO Error"%string.
Proof. solve_sentinel nfs3stat_str_tbl. Qed.

Lemma err_sentinel : sentinel nfs3errtbl EIO.
Proof. solve_sentinel nfs3errtbl. Qed.

(** The lookup only sees the status as an unsigned word. *)
Lemma scan_u32 {A} (tbl : list (nfsstat3 * A)) stat : scan tbl (u32 stat) = scan tbl stat.
Proof.
  assert (E : u32 (u32 stat) = u32 stat) by (apply wrap_small, wrap_is_u; lia).
  induction tbl as [|[s a] tbl IH]; cbn [scan]; [done|]. by rewrite E, IH.
Qed.

Lemma assoc_elem {A} (tbl : list (nfsstat3 * A)) stat a : assoc tbl stat = Some a -> (stat, a) ∈ tbl.
Proof.
  induction tbl as [|[s b] tbl IH]; cbn; [done|].
  destruct (Z.eqb_spec s stat) as [->|]; [intros [= ->]; by left|]. intros Ha. right. by apply IH.
Qed.

Lemma assoc_none {A} (tbl : list (nfsstat3 * A)) stat : stat ∉ tbl.*1 -> assoc tbl stat = None.
Proof.
  intros Hn. destruct (assoc tbl stat) as [a|] eqn:E; [|done]. apply assoc_elem in E.
  destruct Hn. apply list_elem_of_fmap. by exists (stat, a).
Qed.

Lemma assoc_some {A} (tbl : list (nfsstat3 * A)) stat : stat ∈ tbl.*1 -> exists a, assoc tbl stat = Some a.
Proof.
  induction tbl as [|[s b] tbl IH]; cbn; [by intros ?%elem_of_nil|].
  rewrite elem_of_cons. destruct (Z.eqb_spec s stat) as [->|]; [by eexists|]. intros [?|?]; [done|by apply IH].
Qed.

(** A C [int]. *)
Definition is_int (z : Z) : Prop := - 2 ^ 31 <= z < 2 ^ 31.

Lemma u32_int_pos z s : is_int z -> 0 <= s < 2 ^ 31 -> u32 z = s <-> z = s.
Proof.
  unfold is_int, wrap. intros Hz Hs. split; [|intros ->; apply Z.mod_small; lia].
  destruct (decide (0 <= z)).
  - rewrite Z.mod_small by lia. done.
  - rewrite <- (Z.mod_add z 1), Z.mod_small by lia. lia.
Qed.

(** The statuses that have an error number of their own. *)
Definition errno_statuses : list nfsstat3 := (take 20 nfs3errtbl).*1.

Lemma errno_of_status stat :
  is_int stat ->
  exists e, nfsstat3_to_errno stat = Some e /\
    (e = 0 <-> stat = NFS3_OK) /\
    (if decide (stat ∈ errno_statuses) then (stat, e) ∈ nfs3errtbl else e = EIO) /\
    (stat ∈ errno_statuses -> stat < 32 -> e = stat).
Proof.
  intros Hs. assert (Hall : Forall (fun s => exists e, nfsstat3_to_errno s = Some e /\ (e = 0 <-> s = NFS3_OK) /\
    (s, e) ∈ nfs3errtbl /\ (s < 32 -> e = s)) errno_statuses).
  { repeat (apply Forall_cons; split; [eexists; split; [vm_compute; reflexivity|];
      split; [by split|]; split; [apply (bool_decide_unpack _); vm_compute; exact I|vm_compute; congruence]|]).
    constructor. }
  case_decide as Hin.
  - rewrite Forall_forall in Hall. destruct (Hall stat Hin) as (e & H1 & H2 & H3 & H4).
    exists e. by split_and!.
  - exists EIO. split; [|split; [split; [done|intros ->; destruct Hin; by left]|done]].
    unfold nfsstat3_to_errno. rewrite <- scan_u32.
    destruct (decide (u32 stat = u32 (-1))) as [->|Hne]; [done|].
    rewrite scan_u32, (scan_assoc _ EIO) by (done || apply err_sentinel).
    rewrite assoc_none; [done|]. change (nfs3errtbl.*1) with (errno_statuses ++ [u32 (-1)]).
    rewrite elem_of_app, list_elem_of_singleton. intros [Hu|Hu]; [|done]. apply Hin.
    assert (Hsmall : Forall (fun s => 0 <= s < 2 ^ 31) errno_statuses) by (repeat constructor; done).
    rewrite Forall_forall in Hsmall. by rewrite <- (proj1 (u32_int_pos _ _ Hs (Hsmall _ Hu)) eq_refl) in Hu.
Qed.

(** [nfsstat3_to_errno] never leaves its table; it gives 0 for success and
    for nothing else, the error number of the same name for the statuses that
    have one (for the oldest of them the two numbers are equal), and [EIO] for
    every other [int]: the statuses NFSv3 added, unknown ones, negative ones. *)
Theorem nfsstat3_to_errno_spec stat :
  is_int stat ->
  exists e, nfsstat3_to_errno stat = Some e /\
    (e = 0 <-> stat = NFS3_OK) /\
    (if decide (stat ∈ errno_statuses) then (stat, e) ∈ nfs3errtbl else e = EIO) /\
    (stat ∈ errno_statuses -> stat < 32 -> e = stat).
Proof. apply errno_of_status. Qed.

(** The statuses with a text of their own. *)
Definition str_statuses : list nfsstat3 := (take 29 nfs3stat_str_tbl).*1.

(** [nfsstat3_strerror] returns a text that fits its 100-byte slot, for
    every [int]; it tells known statuses apart, with two exceptions: an I/O
    error reads like [NFS3ERR_NXIO], and [NFS3ERR_ISDIR], where a directory was
    given, reads like [NFS3ERR_NOTDIR], where one was missing. *)
Theorem nfsstat3_strerror_spec stat :
  exists str, nfsstat3_strerror stat = Some str /\ (String.length str < 100)%nat /\
    (stat ∈ str_statuses -> forall stat', stat' ∈ str_statuses -> nfsstat3_strerror stat' = Some str ->
      stat = stat' \/ {[stat; stat']} = {[NFS3ERR_IO; NFS3ERR_NXIO]} :> gset Z \/
      {[stat; stat']} = {[NFS3ERR_NOTDIR; NFS3ERR_ISDIR]} :> gset Z).
Proof.
  destruct (scan_total nfs3stat_str_tbl _ stat str_sentinel) as [[b str] E].
  exists str. unfold nfsstat3_strerror at 1. rewrite E. split; [done|]. split.
  - assert (Hlen : Forall (fun p => (String.length p.2 < 100)%nat) nfs3stat_str_tbl).
    { apply (bool_decide_unpack _). vm_compute. exact I. }
    rewrite Forall_forall in Hlen. clear -E Hlen. change str with (((u32 stat, str)).2).
    revert E Hlen. induction nfs3stat_str_tbl as [|[s a] tbl IH]; cbn [scan]; [done|]. intros E Hlen.
    destruct (negb _); [destruct (s =? u32 stat)|].
    + injection E as _ <-. apply (Hlen (s, a)). by left.
    + apply IH; [done|]. intros p Hp. apply Hlen. by right.
    + injection E as _ <-. apply (Hlen (s, a)). by left.
  - intros Hin stat' Hin' E'.
    assert (Hall : Forall (fun s => Forall (fun s' => nfsstat3_strerror s = nfsstat3_strerror s' ->
      s = s' \/ {[s; s']} = {[NFS3ERR_IO; NFS3ERR_NXIO]} :> gset Z \/
      {[s; s']} = {[NFS3ERR_NOTDIR; NFS3ERR_ISDIR]} :> gset Z) str_statuses) str_statuses).
    { apply (bool_decide_unpack _). vm_compute. exact I. }
    rewrite Forall_forall in Hall. specialize (Hall stat Hin). rewrite Forall_forall in Hall.
    apply Hall; [done|]. rewrite E'. unfold nfsstat3_strerror. by rewrite E.
Qed.

(** ** Examples *)

Lemma nfsstat3_to_errno_spec_witness :
  exists e, nfsstat3_to_errno NFS3ERR_DQUOT = Some e /\
    (e = 0 <-> NFS3ERR_DQUOT = NFS3_OK) /\
    (if decide (NFS3ERR_DQUOT ∈ errno_statuses) then (NFS3ERR_DQUOT, e) ∈ nfs3errtbl else e = EIO) /\
    (NFS3ERR_DQUOT ∈ errno_statuses -> NFS3ERR_DQUOT < 32 -> e = NFS3ERR_DQUOT).
Proof. apply (nfsstat3_to_errno_spec NFS3ERR_DQUOT). unfold is_int, NFS3ERR_DQUOT. lia. Defined.
