(* ===== verification/NfsSpec.v ===== *)
(** * The protocol: [src/src/nfsv3/nfs3.x]

    The XDR language description of NFS version 3 and of the MOUNT protocol,
    as wire descriptions: one [T_w] per type of the grammar, written from the
    grammar and not from the C routines.  Every [void] arm of a union is
    [void_w]; a discriminant the union does not list is [never_w].

    [pub] is the user field of the handle: with
    [DISABLE_DATA_DEXDR_INTERNAL] the payload of READ replies and WRITE
    requests is left out, which is unfsclient's own extension. *)

From S2P Require Import Prelude Xdr XdrList NfsTypes.

#[local] Open Scope wire_scope.

(** ** Scalars and strings *)

Definition uint64_w : wire uint64 := u64_w.
Definition int64_w : wire int64 := quad_w.
Definition uint32_w : wire uint32 := u32_w.
Definition int32_w : wire int32 := int_w.
Definition filename3_w : wire filename3 := string_w MAXLEN.
Definition nfspath3_w : wire nfspath3 := string_w MAXLEN.
Definition fileid3_w : wire fileid3 := uint64_w.
Definition cookie3_w : wire cookie3 := uint64_w.
Definition cookieverf3_w : wire cookieverf3 := opaque_w NFS3_COOKIEVERFSIZE.
Definition createverf3_w : wire createverf3 := opaque_w NFS3_CREATEVERFSIZE.
Definition writeverf3_w : wire writeverf3 := opaque_w NFS3_WRITEVERFSIZE.
Definition uid3_w : wire uid3 := uint32_w.
Definition gid3_w : wire gid3 := uint32_w.
Definition size3_w : wire size3 := uint64_w.
Definition offset3_w : wire offset3 := uint64_w.
Definition mode3_w : wire mode3 := uint32_w.
Definition count3_w : wire count3 := uint32_w.
Definition nfsstat3_w : wire nfsstat3 := enum_w.
Definition ftype3_w : wire ftype3 := enum_w.
Definition time_how_w : wire time_how := enum_w.
Definition stable_how_w : wire stable_how := enum_w.
Definition createmode3_w : wire createmode3 := enum_w.
Definition mountstat3_w : wire mountstat3 := enum_w.
Definition dirpath_w : wire dirpath := string_w MNTPATHLEN.
Definition name_w : wire name := string_w MNTNAMLEN.
Definition fhandle3_w : wire fhandle3 := bytes_w FHSIZE3.

Arguments uint64_w : simpl never.
Arguments int64_w : simpl never.
Arguments uint32_w : simpl never.
Arguments int32_w : simpl never.
Arguments filename3_w : simpl never.
Arguments nfspath3_w : simpl never.
Arguments fileid3_w : simpl never.
Arguments cookie3_w : simpl never.
Arguments cookieverf3_w : simpl never.
Arguments createverf3_w : simpl never.
Arguments writeverf3_w : simpl never.
Arguments uid3_w : simpl never.
Arguments gid3_w : simpl never.
Arguments size3_w : simpl never.
Arguments offset3_w : simpl never.
Arguments mode3_w : simpl never.
Arguments count3_w : simpl never.
Arguments nfsstat3_w : simpl never.
Arguments ftype3_w : simpl never.
Arguments time_how_w : simpl never.
Arguments stable_how_w : simpl never.
Arguments createmode3_w : simpl never.
Arguments mountstat3_w : simpl never.
Arguments dirpath_w : simpl never.
Arguments name_w : simpl never.
Arguments fhandle3_w : simpl never.

(** ** Structures and unions *)

(** The payload of a READ reply or of a WRITE request. *)
Definition payload_w (pub : Z) : wire opaque_buf :=
  if pub =? DISABLE_DATA_DEXDR_INTERNAL then void_w else bytes_w MAXLEN.

Definition specdata3_w : wire specdata3 :=
  via (fun o => (specdata3_specdata1 o, specdata3_specdata2 o))
    (uint32_w ** uint32_w).
Arguments specdata3_w : simpl never.

Definition nfs_fh3_w : wire nfs_fh3 :=
  via nfs_fh3_data (bytes_w NFS3_FHSIZE).
Arguments nfs_fh3_w : simpl never.

Definition nfstime3_w : wire nfstime3 :=
  via (fun o => (nfstime3_seconds o, nfstime3_nseconds o))
    (uint32_w ** uint32_w).
Arguments nfstime3_w : simpl never.

Definition fattr3_w : wire fattr3 :=
  via (fun o =>
      (fattr3_type o,
      (fattr3_mode o,
      (fattr3_nlink o,
      (fattr3_uid o,
      (fattr3_gid o,
      (fattr3_size o,
      (fattr3_used o,
      (fattr3_rdev o,
      (fattr3_fsid o,
      (fattr3_fileid o,
      (fattr3_atime o,
      (fattr3_mtime o,
      fattr3_ctime o)))))))))))))
        (ftype3_w ** mode3_w ** uint32_w ** uid3_w ** gid3_w ** size3_w ** size3_w **
     specdata3_w ** uint64_w ** fileid3_w ** nfstime3_w ** nfstime3_w ** nfstime3_w).
Arguments fattr3_w : simpl never.

Definition post_op_attr_w : wire post_op_attr :=
  union_w post_op_attr_attributes_follow bool_w (fun t =>
    if t =? TRUE then via post_op_attr_attributes fattr3_w
    else if t =? FALSE then void_w
    else never_w).
Arguments post_op_attr_w : simpl never.

Definition wcc_attr_w : wire wcc_attr :=
  via (fun o => (wcc_attr_size o, (wcc_attr_mtime o, wcc_attr_ctime o)))
    (size3_w ** nfstime3_w ** nfstime3_w).
Arguments wcc_attr_w : simpl never.

Definition pre_op_attr_w : wire pre_op_attr :=
  union_w pre_op_attr_attributes_follow bool_w (fun t =>
    if t =? TRUE then via pre_op_attr_attributes wcc_attr_w
    else if t =? FALSE then void_w
    else never_w).
Arguments pre_op_attr_w : simpl never.

Definition wcc_data_w : wire wcc_data :=
  via (fun o => (wcc_data_before o, wcc_data_after o))
    (pre_op_attr_w ** post_op_attr_w).
Arguments wcc_data_w : simpl never.

Definition post_op_fh3_w : wire post_op_fh3 :=
  union_w post_op_fh3_handle_follows bool_w (fun t =>
    if t =? TRUE then via post_op_fh3_handle nfs_fh3_w
    else if t =? FALSE then inactive_w (via post_op_fh3_handle nfs_fh3_w)
    else never_w).
Arguments post_op_fh3_w : simpl never.

Definition set_mode3_w : wire set_mode3 :=
  union_w set_mode3_set_it bool_w (fun t =>
    if t =? TRUE then via set_mode3_mode mode3_w
    else void_w).
Arguments set_mode3_w : simpl never.

Definition set_uid3_w : wire set_uid3 :=
  union_w set_uid3_set_it bool_w (fun t =>
    if t =? TRUE then via set_uid3_uid uid3_w
    else void_w).
Arguments set_uid3_w : simpl never.

Definition set_gid3_w : wire set_gid3 :=
  union_w set_gid3_set_it bool_w (fun t =>
    if t =? TRUE then via set_gid3_gid gid3_w
    else void_w).
Arguments set_gid3_w : simpl never.

Definition set_size3_w : wire set_size3 :=
  union_w set_size3_set_it bool_w (fun t =>
    if t =? TRUE then via set_size3_size size3_w
    else void_w).
Arguments set_size3_w : simpl never.

Definition set_atime_w : wire set_atime :=
  union_w set_atime_set_it time_how_w (fun t =>
    if t =? SET_TO_CLIENT_TIME then via set_atime_atime nfstime3_w
    else void_w).
Arguments set_atime_w : simpl never.

Definition set_mtime_w : wire set_mtime :=
  union_w set_mtime_set_it time_how_w (fun t =>
    if t =? SET_TO_CLIENT_TIME then via set_mtime_mtime nfstime3_w
    else void_w).
Arguments set_mtime_w : simpl never.

Definition sattr3_w : wire sattr3 :=
  via (fun o =>
      (sattr3_mode o,
      (sattr3_uid o,
      (sattr3_gid o,
      (sattr3_size o,
      (sattr3_atime o,
      sattr3_mtime o))))))
    (set_mode3_w ** set_uid3_w ** set_gid3_w ** set_size3_w ** set_atime_w ** set_mtime_w).
Arguments sattr3_w : simpl never.

Definition diropargs3_w : wire diropargs3 :=
  via (fun o => (diropargs3_dir o, diropargs3_name o))
    (nfs_fh3_w ** filename3_w).
Arguments diropargs3_w : simpl never.

Definition GETATTR3args_w : wire GETATTR3args :=
  via GETATTR3args_object nfs_fh3_w.
Arguments GETATTR3args_w : simpl never.

Definition GETATTR3resok_w : wire GETATTR3resok :=
  via GETATTR3resok_obj_attributes fattr3_w.
Arguments GETATTR3resok_w : simpl never.

Definition GETATTR3res_w : wire GETATTR3res :=
  union_w GETATTR3res_status nfsstat3_w (fun t =>
    if t =? NFS3_OK then via GETATTR3res_resok GETATTR3resok_w
    else void_w).
Arguments GETATTR3res_w : simpl never.

Definition sattrguard3_w : wire sattrguard3 :=
  union_w sattrguard3_check bool_w (fun t =>
    if t =? TRUE then via sattrguard3_obj_ctime nfstime3_w
    else if t =? FALSE then void_w
    else never_w).
Arguments sattrguard3_w : simpl never.

Definition SETATTR3args_w : wire SETATTR3args :=
  via (fun o =>
      (SETATTR3args_object o,
      (SETATTR3args_new_attributes o,
      SETATTR3args_guard o)))
    (nfs_fh3_w ** sattr3_w ** sattrguard3_w).
Arguments SETATTR3args_w : simpl never.

Definition SETATTR3resok_w : wire SETATTR3resok :=
  via SETATTR3resok_obj_wcc wcc_data_w.
Arguments SETATTR3resok_w : simpl never.

Definition SETATTR3resfail_w : wire SETATTR3resfail :=
  via SETATTR3resfail_obj_wcc wcc_data_w.
Arguments SETATTR3resfail_w : simpl never.

Definition SETATTR3res_w : wire SETATTR3res :=
  union_w SETATTR3res_status nfsstat3_w (fun t =>
    if t =? NFS3_OK then via SETATTR3res_resok SETATTR3resok_w
    else via SETATTR3res_resfail SETATTR3resfail_w).
Arguments SETATTR3res_w : simpl never.

Definition LOOKUP3args_w : wire LOOKUP3args :=
  via LOOKUP3args_what diropargs3_w.
Arguments LOOKUP3args_w : simpl never.

Definition LOOKUP3resok_w : wire LOOKUP3resok :=
  via (fun o =>
      (LOOKUP3resok_object o,
      (LOOKUP3resok_obj_attributes o,
      LOOKUP3resok_dir_attributes o)))
    (nfs_fh3_w ** post_op_attr_w ** post_op_attr_w).
Arguments LOOKUP3resok_w : simpl never.

Definition LOOKUP3resfail_w : wire LOOKUP3resfail :=
  via LOOKUP3resfail_dir_attributes post_op_attr_w.
Arguments LOOKUP3resfail_w : simpl never.

Definition LOOKUP3res_w : wire LOOKUP3res :=
  union_w LOOKUP3res_status nfsstat3_w (fun t =>
    if t =? NFS3_OK then via LOOKUP3res_resok LOOKUP3resok_w
    else via LOOKUP3res_resfail LOOKUP3resfail_w).
Arguments LOOKUP3res_w : simpl never.

Definition ACCESS3args_w : wire ACCESS3args :=
  via (fun o => (ACCESS3args_object o, ACCESS3args_access o))
    (nfs_fh3_w ** uint32_w).
Arguments ACCESS3args_w : simpl never.

Definition ACCESS3resok_w : wire ACCESS3resok :=
  via (fun o => (ACCESS3resok_obj_attributes o, ACCESS3resok_access o))
    (post_op_attr_w ** uint32_w).
Arguments ACCESS3resok_w : simpl never.

Definition ACCESS3resfail_w : wire ACCESS3resfail :=
  via ACCESS3resfail_obj_attributes post_op_attr_w.
Arguments ACCESS3resfail_w : simpl never.

Definition ACCESS3res_w : wire ACCESS3res :=
  union_w ACCESS3res_status nfsstat3_w (fun t =>
    if t =? NFS3_OK then via ACCESS3res_resok ACCESS3resok_w
    else via ACCESS3res_resfail ACCESS3resfail_w).
Arguments ACCESS3res_w : simpl never.

Definition READLINK3args_w : wire READLINK3args :=
  via READLINK3args_symlink nfs_fh3_w.
Arguments READLINK3args_w : simpl never.

Definition READLINK3resok_w : wire READLINK3resok :=
  via (fun o => (READLINK3resok_symlink_attributes o, READLINK3resok_data o))
    (post_op_attr_w ** nfspath3_w).
Arguments READLINK3resok_w : simpl never.

Definition READLINK3resfail_w : wire READLINK3resfail :=
  via READLINK3resfail_symlink_attributes post_op_attr_w.
Arguments READLINK3resfail_w : simpl never.

Definition READLINK3res_w : wire READLINK3res :=
  union_w READLINK3res_status nfsstat3_w (fun t =>
    if t =? NFS3_OK then via READLINK3res_resok READLINK3resok_w
    else via READLINK3res_resfail READLINK3resfail_w).
Arguments READLINK3res_w : simpl never.

Definition READ3args_w : wire READ3args :=
  via (fun o => (READ3args_file o, (READ3args_offset o, READ3args_count o)))
    (nfs_fh3_w ** offset3_w ** count3_w).
Arguments READ3args_w : simpl never.

Definition READ3resok_w (pub : Z) : wire READ3resok :=
  via (fun o =>
      (READ3resok_file_attributes o,
      (READ3resok_count o,
      (READ3resok_eof o,
      READ3resok_data o))))
    (post_op_attr_w ** count3_w ** bool_w ** payload_w pub).
Arguments READ3resok_w : simpl never.

Definition READ3resfail_w : wire READ3resfail :=
  via READ3resfail_file_attributes post_op_attr_w.
Arguments READ3resfail_w : simpl never.

Definition READ3res_w (pub : Z) : wire READ3res :=
  union_w READ3res_status nfsstat3_w (fun t =>
    if t =? NFS3_OK then via READ3res_resok (READ3resok_w pub)
    else via READ3res_resfail READ3resfail_w).
Arguments READ3res_w : simpl never.

Definition WRITE3args_w (pub : Z) : wire WRITE3args :=
  via (fun o =>
      (WRITE3args_file o,
      (WRITE3args_offset o,
      (WRITE3args_count o,
      (WRITE3args_stable o,
      WRITE3args_data o)))))
    (nfs_fh3_w ** offset3_w ** count3_w ** stable_how_w ** payload_w pub).
Arguments WRITE3args_w : simpl never.

Definition WRITE3resok_w : wire WRITE3resok :=
  via (fun o =>
      (WRITE3resok_file_wcc o,
      (WRITE3resok_count o,
      (WRITE3resok_committed o,
      WRITE3resok_verf o))))
    (wcc_data_w ** count3_w ** stable_how_w ** writeverf3_w).
Arguments WRITE3resok_w : simpl never.

Definition WRITE3resfail_w : wire WRITE3resfail :=
  via WRITE3resfail_file_wcc wcc_data_w.
Arguments WRITE3resfail_w : simpl never.

Definition WRITE3res_w : wire WRITE3res :=
  union_w WRITE3res_status nfsstat3_w (fun t =>
    if t =? NFS3_OK then via WRITE3res_resok WRITE3resok_w
    else via WRITE3res_resfail WRITE3resfail_w).
Arguments WRITE3res_w : simpl never.

Definition createhow3_w : wire createhow3 :=
  union_w createhow3_mode createmode3_w (fun t =>
    if (t =? UNCHECKED) || (t =? GUARDED) then via createhow3_obj_attributes sattr3_w
    else if t =? EXCLUSIVE then via createhow3_verf createverf3_w
    else never_w).
Arguments createhow3_w : simpl never.

Definition CREATE3args_w : wire CREATE3args :=
  via (fun o => (CREATE3args_where o, CREATE3args_how o))
    (diropargs3_w ** createhow3_w).
Arguments CREATE3args_w : simpl never.

Definition CREATE3resok_w : wire CREATE3resok :=
  via (fun o =>
      (CREATE3resok_obj o,
      (CREATE3resok_obj_attributes o,
      CREATE3resok_dir_wcc o)))
    (post_op_fh3_w ** post_op_attr_w ** wcc_data_w).
Arguments CREATE3resok_w : simpl never.

Definition CREATE3resfail_w : wire CREATE3resfail :=
  via CREATE3resfail_dir_wcc wcc_data_w.
Arguments CREATE3resfail_w : simpl never.

Definition CREATE3res_w : wire CREATE3res :=
  union_w CREATE3res_status nfsstat3_w (fun t =>
    if t =? NFS3_OK then via CREATE3res_resok CREATE3resok_w
    else via CREATE3res_resfail CREATE3resfail_w).
Arguments CREATE3res_w : simpl never.

Definition MKDIR3args_w : wire MKDIR3args :=
  via (fun o => (MKDIR3args_where o, MKDIR3args_attributes o))
    (diropargs3_w ** sattr3_w).
Arguments MKDIR3args_w : simpl never.

Definition MKDIR3resok_w : wire MKDIR3resok :=
  via (fun o =>
      (MKDIR3resok_obj o,
      (MKDIR3resok_obj_attributes o,
      MKDIR3resok_dir_wcc o)))
    (post_op_fh3_w ** post_op_attr_w ** wcc_data_w).
Arguments MKDIR3resok_w : simpl never.

Definition MKDIR3resfail_w : wire MKDIR3resfail :=
  via MKDIR3resfail_dir_wcc wcc_data_w.
Arguments MKDIR3resfail_w : simpl never.

Definition MKDIR3res_w : wire MKDIR3res :=
  union_w MKDIR3res_status nfsstat3_w (fun t =>
    if t =? NFS3_OK then via MKDIR3res_resok MKDIR3resok_w
    else via MKDIR3res_resfail MKDIR3resfail_w).
Arguments MKDIR3res_w : simpl never.

Definition symlinkdata3_w : wire symlinkdata3 :=
  via (fun o => (symlinkdata3_symlink_attributes o, symlinkdata3_symlink_data o))
    (sattr3_w ** nfspath3_w).
Arguments symlinkdata3_w : simpl never.

Definition SYMLINK3args_w : wire SYMLINK3args :=
  via (fun o => (SYMLINK3args_where o, SYMLINK3args_symlink o))
    (diropargs3_w ** symlinkdata3_w).
Arguments SYMLINK3args_w : simpl never.

Definition SYMLINK3resok_w : wire SYMLINK3resok :=
  via (fun o =>
      (SYMLINK3resok_obj o,
      (SYMLINK3resok_obj_attributes o,
      SYMLINK3resok_dir_wcc o)))
    (post_op_fh3_w ** post_op_attr_w ** wcc_data_w).
Arguments SYMLINK3resok_w : simpl never.

Definition SYMLINK3resfail_w : wire SYMLINK3resfail :=
  via SYMLINK3resfail_dir_wcc wcc_data_w.
Arguments SYMLINK3resfail_w : simpl never.

Definition SYMLINK3res_w : wire SYMLINK3res :=
  union_w SYMLINK3res_status nfsstat3_w (fun t =>
    if t =? NFS3_OK then via SYMLINK3res_resok SYMLINK3resok_w
    else via SYMLINK3res_resfail SYMLINK3resfail_w).
Arguments SYMLINK3res_w : simpl never.

Definition devicedata3_w : wire devicedata3 :=
  via (fun o => (devicedata3_dev_attributes o, devicedata3_spec o))
    (sattr3_w ** specdata3_w).
Arguments devicedata3_w : simpl never.

Definition mknoddata3_w : wire mknoddata3 :=
  union_w mknoddata3_type ftype3_w (fun t =>
    if (t =? NF3CHR) || (t =? NF3BLK) then via mknoddata3_device devicedata3_w
    else if (t =? NF3SOCK) || (t =? NF3FIFO) then via mknoddata3_pipe_attributes sattr3_w
    else void_w).
Arguments mknoddata3_w : simpl never.

Definition MKNOD3args_w : wire MKNOD3args :=
  via (fun o => (MKNOD3args_where o, MKNOD3args_what o))
    (diropargs3_w ** mknoddata3_w).
Arguments MKNOD3args_w : simpl never.

Definition MKNOD3resok_w : wire MKNOD3resok :=
  via (fun o =>
      (MKNOD3resok_obj o,
      (MKNOD3resok_obj_attributes o,
      MKNOD3resok_dir_wcc o)))
    (post_op_fh3_w ** post_op_attr_w ** wcc_data_w).
Arguments MKNOD3resok_w : simpl never.

Definition MKNOD3resfail_w : wire MKNOD3resfail :=
  via MKNOD3resfail_dir_wcc wcc_data_w.
Arguments MKNOD3resfail_w : simpl never.

Definition MKNOD3res_w : wire MKNOD3res :=
  union_w MKNOD3res_status nfsstat3_w (fun t =>
    if t =? NFS3_OK then via MKNOD3res_resok MKNOD3resok_w
    else via MKNOD3res_resfail MKNOD3resfail_w).
Arguments MKNOD3res_w : simpl never.

Definition REMOVE3args_w : wire REMOVE3args :=
  via REMOVE3args_object diropargs3_w.
Arguments REMOVE3args_w : simpl never.

Definition REMOVE3resok_w : wire REMOVE3resok :=
  via REMOVE3resok_dir_wcc wcc_data_w.
Arguments REMOVE3resok_w : simpl never.

Definition REMOVE3resfail_w : wire REMOVE3resfail :=
  via REMOVE3resfail_dir_wcc wcc_data_w.
Arguments REMOVE3resfail_w : simpl never.

Definition REMOVE3res_w : wire REMOVE3res :=
  union_w REMOVE3res_status nfsstat3_w (fun t =>
    if t =? NFS3_OK then via REMOVE3res_resok REMOVE3resok_w
    else via REMOVE3res_resfail REMOVE3resfail_w).
Arguments REMOVE3res_w : simpl never.

Definition RMDIR3args_w : wire RMDIR3args :=
  via RMDIR3args_object diropargs3_w.
Arguments RMDIR3args_w : simpl never.

Definition RMDIR3resok_w : wire RMDIR3resok :=
  via RMDIR3resok_dir_wcc wcc_data_w.
Arguments RMDIR3resok_w : simpl never.

Definition RMDIR3resfail_w : wire RMDIR3resfail :=
  via RMDIR3resfail_dir_wcc wcc_data_w.
Arguments RMDIR3resfail_w : simpl never.

Definition RMDIR3res_w : wire RMDIR3res :=
  union_w RMDIR3res_status nfsstat3_w (fun t =>
    if t =? NFS3_OK then via RMDIR3res_resok RMDIR3resok_w
    else via RMDIR3res_resfail RMDIR3resfail_w).
Arguments RMDIR3res_w : simpl never.

Definition RENAME3args_w : wire RENAME3args :=
  via (fun o => (RENAME3args_from o, RENAME3args_to o))
    (diropargs3_w ** diropargs3_w).
Arguments RENAME3args_w : simpl never.

Definition RENAME3resok_w : wire RENAME3resok :=
  via (fun o => (RENAME3resok_fromdir_wcc o, RENAME3resok_todir_wcc o))
    (wcc_data_w ** wcc_data_w).
Arguments RENAME3resok_w : simpl never.

Definition RENAME3resfail_w : wire RENAME3resfail :=
  via (fun o => (RENAME3resfail_fromdir_wcc o, RENAME3resfail_todir_wcc o))
    (wcc_data_w ** wcc_data_w).
Arguments RENAME3resfail_w : simpl never.

Definition RENAME3res_w : wire RENAME3res :=
  union_w RENAME3res_status nfsstat3_w (fun t =>
    if t =? NFS3_OK then via RENAME3res_resok RENAME3resok_w
    else via RENAME3res_resfail RENAME3resfail_w).
Arguments RENAME3res_w : simpl never.

Definition LINK3args_w : wire LINK3args :=
  via (fun o => (LINK3args_file o, LINK3args_link o))
    (nfs_fh3_w ** diropargs3_w).
Arguments LINK3args_w : simpl never.

Definition LINK3resok_w : wire LINK3resok :=
  via (fun o => (LINK3resok_file_attributes o, LINK3resok_linkdir_wcc o))
    (post_op_attr_w ** wcc_data_w).
Arguments LINK3resok_w : simpl never.

Definition LINK3resfail_w : wire LINK3resfail :=
  via (fun o => (LINK3resfail_file_attributes o, LINK3resfail_linkdir_wcc o))
    (post_op_attr_w ** wcc_data_w).
Arguments LINK3resfail_w : simpl never.

Definition LINK3res_w : wire LINK3res :=
  union_w LINK3res_status nfsstat3_w (fun t =>
    if t =? NFS3_OK then via LINK3res_resok LINK3resok_w
    else via LINK3res_resfail LINK3resfail_w).
Arguments LINK3res_w : simpl never.

Definition READDIR3args_w : wire READDIR3args :=
  via (fun o =>
      (READDIR3args_dir o,
      (READDIR3args_cookie o,
      (READDIR3args_cookieverf o,
      READDIR3args_count o))))
    (nfs_fh3_w ** cookie3_w ** cookieverf3_w ** count3_w).
Arguments READDIR3args_w : simpl never.

Definition entry3_body_w : wire entry3_body :=
  via (fun o => (entry3_body_fileid o, (entry3_body_name o, entry3_body_cookie o)))
    (fileid3_w ** filename3_w ** cookie3_w).
Arguments entry3_body_w : simpl never.

Definition dirlist3_w : wire dirlist3 :=
  via (fun o => (dirlist3_entries o, dirlist3_eof o))
    (chain_w entry3_body_w ** bool_w).
Arguments dirlist3_w : simpl never.

Definition READDIR3resok_w : wire READDIR3resok :=
  via (fun o =>
      (READDIR3resok_dir_attributes o,
      (READDIR3resok_cookieverf o,
      READDIR3resok_reply o)))
    (post_op_attr_w ** cookieverf3_w ** dirlist3_w).
Arguments READDIR3resok_w : simpl never.

Definition READDIR3resfail_w : wire READDIR3resfail :=
  via READDIR3resfail_dir_attributes post_op_attr_w.
Arguments READDIR3resfail_w : simpl never.

Definition READDIR3res_w : wire READDIR3res :=
  union_w READDIR3res_status nfsstat3_w (fun t =>
    if t =? NFS3_OK then via READDIR3res_resok READDIR3resok_w
    else via READDIR3res_resfail READDIR3resfail_w).
Arguments READDIR3res_w : simpl never.

Definition READDIRPLUS3args_w : wire READDIRPLUS3args :=
  via (fun o =>
      (READDIRPLUS3args_dir o,
      (READDIRPLUS3args_cookie o,
      (READDIRPLUS3args_cookieverf o,
      (READDIRPLUS3args_dircount o,
      READDIRPLUS3args_maxcount o)))))
    (nfs_fh3_w ** cookie3_w ** cookieverf3_w ** count3_w ** count3_w).
Arguments READDIRPLUS3args_w : simpl never.

Definition entryplus3_body_w : wire entryplus3_body :=
  via (fun o =>
      (entryplus3_body_fileid o,
      (entryplus3_body_name o,
      (entryplus3_body_cookie o,
      (entryplus3_body_name_attributes o,
      entryplus3_body_name_handle o)))))
    (fileid3_w ** filename3_w ** cookie3_w ** post_op_attr_w ** post_op_fh3_w).
Arguments entryplus3_body_w : simpl never.

Definition dirlistplus3_w : wire dirlistplus3 :=
  via (fun o => (dirlistplus3_entries o, dirlistplus3_eof o))
    (chain_w entryplus3_body_w ** bool_w).
Arguments dirlistplus3_w : simpl never.

Definition READDIRPLUS3resok_w : wire READDIRPLUS3resok :=
  via (fun o =>
      (READDIRPLUS3resok_dir_attributes o,
      (READDIRPLUS3resok_cookieverf o,
      READDIRPLUS3resok_reply o)))
    (post_op_attr_w ** cookieverf3_w ** dirlistplus3_w).
Arguments READDIRPLUS3resok_w : simpl never.

Definition READDIRPLUS3resfail_w : wire READDIRPLUS3resfail :=
  via READDIRPLUS3resfail_dir_attributes post_op_attr_w.
Arguments READDIRPLUS3resfail_w : simpl never.

Definition READDIRPLUS3res_w : wire READDIRPLUS3res :=
  union_w READDIRPLUS3res_status nfsstat3_w (fun t =>
    if t =? NFS3_OK then via READDIRPLUS3res_resok READDIRPLUS3resok_w
    else via READDIRPLUS3res_resfail READDIRPLUS3resfail_w).
Arguments READDIRPLUS3res_w : simpl never.

Definition FSSTAT3args_w : wire FSSTAT3args :=
  via FSSTAT3args_fsroot nfs_fh3_w.
Arguments FSSTAT3args_w : simpl never.

Definition FSSTAT3resok_w : wire FSSTAT3resok :=
  via (fun o =>
      (FSSTAT3resok_obj_attributes o,
      (FSSTAT3resok_tbytes o,
      (FSSTAT3resok_fbytes o,
      (FSSTAT3resok_abytes o,
      (FSSTAT3resok_tfiles o,
      (FSSTAT3resok_ffiles o,
      (FSSTAT3resok_afiles o,
      FSSTAT3resok_invarsec o))))))))
        (post_op_attr_w ** size3_w ** size3_w ** size3_w ** size3_w ** size3_w ** size3_w **
     uint32_w).
Arguments FSSTAT3resok_w : simpl never.

Definition FSSTAT3resfail_w : wire FSSTAT3resfail :=
  via FSSTAT3resfail_obj_attributes post_op_attr_w.
Arguments FSSTAT3resfail_w : simpl never.

Definition FSSTAT3res_w : wire FSSTAT3res :=
  union_w FSSTAT3res_status nfsstat3_w (fun t =>
    if t =? NFS3_OK then via FSSTAT3res_resok FSSTAT3resok_w
    else via FSSTAT3res_resfail FSSTAT3resfail_w).
Arguments FSSTAT3res_w : simpl never.

Definition FSINFOargs_w : wire FSINFOargs :=
  via FSINFOargs_fsroot nfs_fh3_w.
Arguments FSINFOargs_w : simpl never.

Definition FSINFO3resok_w : wire FSINFO3resok :=
  via (fun o =>
      (FSINFO3resok_obj_attributes o,
      (FSINFO3resok_rtmax o,
      (FSINFO3resok_rtpref o,
      (FSINFO3resok_rtmult o,
      (FSINFO3resok_wtmax o,
      (FSINFO3resok_wtpref o,
      (FSINFO3resok_wtmult o,
      (FSINFO3resok_dtpref o,
      (FSINFO3resok_maxfilesize o,
      (FSINFO3resok_time_delta o,
      FSINFO3resok_properties o)))))))))))
        (post_op_attr_w ** uint32_w ** uint32_w ** uint32_w ** uint32_w ** uint32_w **
     uint32_w ** uint32_w ** size3_w ** nfstime3_w ** uint32_w).
Arguments FSINFO3resok_w : simpl never.

Definition FSINFO3resfail_w : wire FSINFO3resfail :=
  via FSINFO3resfail_obj_attributes post_op_attr_w.
Arguments FSINFO3resfail_w : simpl never.

Definition FSINFO3res_w : wire FSINFO3res :=
  union_w FSINFO3res_status nfsstat3_w (fun t =>
    if t =? NFS3_OK then via FSINFO3res_resok FSINFO3resok_w
    else via FSINFO3res_resfail FSINFO3resfail_w).
Arguments FSINFO3res_w : simpl never.

Definition PATHCONF3args_w : wire PATHCONF3args :=
  via PATHCONF3args_object nfs_fh3_w.
Arguments PATHCONF3args_w : simpl never.

Definition PATHCONF3resok_w : wire PATHCONF3resok :=
  via (fun o =>
      (PATHCONF3resok_obj_attributes o,
      (PATHCONF3resok_linkmax o,
      (PATHCONF3resok_name_max o,
      (PATHCONF3resok_no_trunc o,
      (PATHCONF3resok_chown_restricted o,
      (PATHCONF3resok_case_insensitive o,
      PATHCONF3resok_case_preserving o)))))))
    (post_op_attr_w ** uint32_w ** uint32_w ** raw_bool_w ** raw_bool_w ** raw_bool_w ** raw_bool_w).
Arguments PATHCONF3resok_w : simpl never.

Definition PATHCONF3resfail_w : wire PATHCONF3resfail :=
  via PATHCONF3resfail_obj_attributes post_op_attr_w.
Arguments PATHCONF3resfail_w : simpl never.

Definition PATHCONF3res_w : wire PATHCONF3res :=
  union_w PATHCONF3res_status nfsstat3_w (fun t =>
    if t =? NFS3_OK then via PATHCONF3res_resok PATHCONF3resok_w
    else via PATHCONF3res_resfail PATHCONF3resfail_w).
Arguments PATHCONF3res_w : simpl never.

Definition COMMIT3args_w : wire COMMIT3args :=
  via (fun o => (COMMIT3args_file o, (COMMIT3args_offset o, COMMIT3args_count o)))
    (nfs_fh3_w ** offset3_w ** count3_w).
Arguments COMMIT3args_w : simpl never.

Definition COMMIT3resok_w : wire COMMIT3resok :=
  via (fun o => (COMMIT3resok_file_wcc o, COMMIT3resok_verf o))
    (wcc_data_w ** writeverf3_w).
Arguments COMMIT3resok_w : simpl never.

Definition COMMIT3resfail_w : wire COMMIT3resfail :=
  via COMMIT3resfail_file_wcc wcc_data_w.
Arguments COMMIT3resfail_w : simpl never.

Definition COMMIT3res_w : wire COMMIT3res :=
  union_w COMMIT3res_status nfsstat3_w (fun t =>
    if t =? NFS3_OK then via COMMIT3res_resok COMMIT3resok_w
    else via COMMIT3res_resfail COMMIT3resfail_w).
Arguments COMMIT3res_w : simpl never.

Definition mountres3_ok_w : wire mountres3_ok :=
  via (fun o => (mountres3_ok_fhandle o, mountres3_ok_auth_flavors o))
    (fhandle3_w ** ints_w MAXLEN).
Arguments mountres3_ok_w : simpl never.

Definition mountres3_w : wire mountres3 :=
  union_w mountres3_fhs_status mountstat3_w (fun t =>
    if t =? MNT3_OK then via mountres3_mountinfo mountres3_ok_w
    else void_w).
Arguments mountres3_w : simpl never.

Definition mountbody_body_w : wire mountbody_body :=
  via (fun o => (mountbody_body_ml_hostname o, mountbody_body_ml_directory o))
    (name_w ** dirpath_w).
Definition mountlist_w : wire mountlist := chain_w mountbody_body_w.
Arguments mountlist_w : simpl never.
Arguments mountbody_body_w : simpl never.

Definition groupnode_body_w : wire groupnode_body :=
  via groupnode_body_gr_name name_w.
Definition groups_w : wire groups := chain_w groupnode_body_w.
Arguments groups_w : simpl never.
Arguments groupnode_body_w : simpl never.

Definition exportnode_body_w : wire exportnode_body :=
  via (fun o => (exportnode_body_ex_dir o, exportnode_body_ex_groups o))
    (dirpath_w ** groups_w).
Definition exports_w : wire exports := chain_w exportnode_body_w.
Arguments exports_w : simpl never.
Arguments exportnode_body_w : simpl never.
