(* ===== verification/NfsXdr.v ===== *)
(** * The NFSv3 XDR routines: [src/src/nfsv3/nfs3_xdr.c]

    One definition per routine, with its name.  A routine takes the handle and
    the object; where C returns FALSE the result is [XFail], and [let?] is

<<
    if (!xdr_T (xdrs, &objp->m))
        return FALSE;
>>

    the value bound being the member after the call.  The object is put
    together when the routine returns TRUE.

    [xdr_entry3], [xdr_entryplus3] and the three list routines of the MOUNT
    protocol call themselves through [xdr_pointer]; their first argument bounds
    the depth of that recursion, and [chain_fuel] is the bound their callers
    pass.  It is enough: see [NfsXdrCorrect]. *)

From S2P Require Import Prelude Xdr XdrList NfsTypes.

Section nfs3_xdr.
Context {P : XdrPrims}.

Definition xdr_uint64 : xdrproc uint64 := fun xdrs objp =>
  let? (xdrs, v) := xdr_u_quad_t xdrs objp in XOk xdrs v.

Definition xdr_int64 : xdrproc int64 := fun xdrs objp =>
  let? (xdrs, v) := xdr_quad_t xdrs objp in XOk xdrs v.

Definition xdr_uint32 : xdrproc uint32 := fun xdrs objp =>
  let? (xdrs, v) := xdr_u_long xdrs objp in XOk xdrs v.

Definition xdr_int32 : xdrproc int32 := fun xdrs objp =>
  let? (xdrs, v) := xdr_long xdrs objp in XOk xdrs v.

Definition xdr_filename3 : xdrproc filename3 := fun xdrs objp =>
  let? (xdrs, v) := xdr_string MAXLEN xdrs objp in XOk xdrs v.

Definition xdr_nfspath3 : xdrproc nfspath3 := fun xdrs objp =>
  let? (xdrs, v) := xdr_string MAXLEN xdrs objp in XOk xdrs v.

Definition xdr_fileid3 : xdrproc fileid3 := fun xdrs objp =>
  let? (xdrs, v) := xdr_uint64 xdrs objp in XOk xdrs v.

Definition xdr_cookie3 : xdrproc cookie3 := fun xdrs objp =>
  let? (xdrs, v) := xdr_uint64 xdrs objp in XOk xdrs v.

Definition xdr_cookieverf3 : xdrproc cookieverf3 := fun xdrs objp =>
  let? (xdrs, v) := xdr_opaque NFS3_COOKIEVERFSIZE xdrs objp in XOk xdrs v.

Definition xdr_createverf3 : xdrproc createverf3 := fun xdrs objp =>
  let? (xdrs, v) := xdr_opaque NFS3_CREATEVERFSIZE xdrs objp in XOk xdrs v.

Definition xdr_writeverf3 : xdrproc writeverf3 := fun xdrs objp =>
  let? (xdrs, v) := xdr_opaque NFS3_WRITEVERFSIZE xdrs objp in XOk xdrs v.

Definition xdr_uid3 : xdrproc uid3 := fun xdrs objp =>
  let? (xdrs, v) := xdr_uint32 xdrs objp in XOk xdrs v.

Definition xdr_gid3 : xdrproc gid3 := fun xdrs objp =>
  let? (xdrs, v) := xdr_uint32 xdrs objp in XOk xdrs v.

Definition xdr_size3 : xdrproc size3 := fun xdrs objp =>
  let? (xdrs, v) := xdr_uint64 xdrs objp in XOk xdrs v.

Definition xdr_offset3 : xdrproc offset3 := fun xdrs objp =>
  let? (xdrs, v) := xdr_uint64 xdrs objp in XOk xdrs v.

Definition xdr_mode3 : xdrproc mode3 := fun xdrs objp =>
  let? (xdrs, v) := xdr_uint32 xdrs objp in XOk xdrs v.

Definition xdr_count3 : xdrproc count3 := fun xdrs objp =>
  let? (xdrs, v) := xdr_uint32 xdrs objp in XOk xdrs v.

Definition xdr_nfsstat3 : xdrproc nfsstat3 := fun xdrs objp =>
  let? (xdrs, v) := xdr_enum xdrs objp in XOk xdrs v.

Definition xdr_ftype3 : xdrproc ftype3 := fun xdrs objp =>
  let? (xdrs, v) := xdr_enum xdrs objp in XOk xdrs v.

Definition xdr_specdata3 : xdrproc specdata3 := fun xdrs objp =>
  let? (xdrs, specdata1) := xdr_uint32 xdrs (specdata3_specdata1 objp) in
  let? (xdrs, specdata2) := xdr_uint32 xdrs (specdata3_specdata2 objp) in
  XOk xdrs {| specdata3_specdata1 := specdata1; specdata3_specdata2 := specdata2 |}.

Definition xdr_nfs_fh3 : xdrproc nfs_fh3 := fun xdrs objp =>
  let? (xdrs, data) := xdr_bytes NFS3_FHSIZE xdrs (nfs_fh3_data objp) in
  XOk xdrs {| nfs_fh3_data := data |}.

Definition xdr_nfstime3 : xdrproc nfstime3 := fun xdrs objp =>
  let? (xdrs, seconds) := xdr_uint32 xdrs (nfstime3_seconds objp) in
  let? (xdrs, nseconds) := xdr_uint32 xdrs (nfstime3_nseconds objp) in
  XOk xdrs {| nfstime3_seconds := seconds; nfstime3_nseconds := nseconds |}.

Definition xdr_fattr3 : xdrproc fattr3 := fun xdrs objp =>
  let? (xdrs, type) := xdr_ftype3 xdrs (fattr3_type objp) in
  let? (xdrs, mode) := xdr_mode3 xdrs (fattr3_mode objp) in
  let? (xdrs, nlink) := xdr_uint32 xdrs (fattr3_nlink objp) in
  let? (xdrs, uid) := xdr_uid3 xdrs (fattr3_uid objp) in
  let? (xdrs, gid) := xdr_gid3 xdrs (fattr3_gid objp) in
  let? (xdrs, size) := xdr_size3 xdrs (fattr3_size objp) in
  let? (xdrs, used) := xdr_size3 xdrs (fattr3_used objp) in
  let? (xdrs, rdev) := xdr_specdata3 xdrs (fattr3_rdev objp) in
  let? (xdrs, fsid) := xdr_uint64 xdrs (fattr3_fsid objp) in
  let? (xdrs, fileid) := xdr_fileid3 xdrs (fattr3_fileid objp) in
  let? (xdrs, atime) := xdr_nfstime3 xdrs (fattr3_atime objp) in
  let? (xdrs, mtime) := xdr_nfstime3 xdrs (fattr3_mtime objp) in
  let? (xdrs, ctime) := xdr_nfstime3 xdrs (fattr3_ctime objp) in
  XOk xdrs {| fattr3_type := type;
              fattr3_mode := mode;
              fattr3_nlink := nlink;
              fattr3_uid := uid;
              fattr3_gid := gid;
              fattr3_size := size;
              fattr3_used := used;
              fattr3_rdev := rdev;
              fattr3_fsid := fsid;
              fattr3_fileid := fileid;
              fattr3_atime := atime;
              fattr3_mtime := mtime;
              fattr3_ctime := ctime |}.

Definition xdr_post_op_attr : xdrproc post_op_attr := fun xdrs objp =>
  let? (xdrs, attributes_follow) := xdr_bool xdrs (post_op_attr_attributes_follow objp) in
  if attributes_follow =? TRUE then
    let? (xdrs, attributes) := xdr_fattr3 xdrs (post_op_attr_attributes objp) in
    XOk xdrs {| post_op_attr_attributes_follow := attributes_follow;
                post_op_attr_attributes := attributes |}
  else if attributes_follow =? FALSE then
    XOk xdrs {| post_op_attr_attributes_follow := attributes_follow;
                post_op_attr_attributes := post_op_attr_attributes objp |}
  else
    XFail xdrs.

Definition xdr_wcc_attr : xdrproc wcc_attr := fun xdrs objp =>
  let? (xdrs, size) := xdr_size3 xdrs (wcc_attr_size objp) in
  let? (xdrs, mtime) := xdr_nfstime3 xdrs (wcc_attr_mtime objp) in
  let? (xdrs, ctime) := xdr_nfstime3 xdrs (wcc_attr_ctime objp) in
  XOk xdrs {| wcc_attr_size := size; wcc_attr_mtime := mtime; wcc_attr_ctime := ctime |}.

Definition xdr_pre_op_attr : xdrproc pre_op_attr := fun xdrs objp =>
  let? (xdrs, attributes_follow) := xdr_bool xdrs (pre_op_attr_attributes_follow objp) in
  if attributes_follow =? TRUE then
    let? (xdrs, attributes) := xdr_wcc_attr xdrs (pre_op_attr_attributes objp) in
    XOk xdrs {| pre_op_attr_attributes_follow := attributes_follow;
                pre_op_attr_attributes := attributes |}
  else if attributes_follow =? FALSE then
    XOk xdrs {| pre_op_attr_attributes_follow := attributes_follow;
                pre_op_attr_attributes := pre_op_attr_attributes objp |}
  else
    XFail xdrs.

Definition xdr_wcc_data : xdrproc wcc_data := fun xdrs objp =>
  let? (xdrs, before) := xdr_pre_op_attr xdrs (wcc_data_before objp) in
  let? (xdrs, after) := xdr_post_op_attr xdrs (wcc_data_after objp) in
  XOk xdrs {| wcc_data_before := before; wcc_data_after := after |}.

Definition xdr_post_op_fh3 : xdrproc post_op_fh3 := fun xdrs objp =>
  let? (xdrs, handle_follows) := xdr_bool xdrs (post_op_fh3_handle_follows objp) in
  if handle_follows =? TRUE then
    let? (xdrs, handle) := xdr_nfs_fh3 xdrs (post_op_fh3_handle objp) in
    XOk xdrs {| post_op_fh3_handle_follows := handle_follows;
                post_op_fh3_handle := handle |}
  else if handle_follows =? FALSE then
    XOk xdrs {| post_op_fh3_handle_follows := handle_follows;
                post_op_fh3_handle := post_op_fh3_handle objp |}
  else
    XFail xdrs.

Definition xdr_time_how : xdrproc time_how := fun xdrs objp =>
  let? (xdrs, v) := xdr_enum xdrs objp in XOk xdrs v.

Definition xdr_set_mode3 : xdrproc set_mode3 := fun xdrs objp =>
  let? (xdrs, set_it) := xdr_bool xdrs (set_mode3_set_it objp) in
  if set_it =? TRUE then
    let? (xdrs, mode) := xdr_mode3 xdrs (set_mode3_mode objp) in
    XOk xdrs {| set_mode3_set_it := set_it; set_mode3_mode := mode |}
  else
    XOk xdrs {| set_mode3_set_it := set_it; set_mode3_mode := set_mode3_mode objp |}.

Definition xdr_set_uid3 : xdrproc set_uid3 := fun xdrs objp =>
  let? (xdrs, set_it) := xdr_bool xdrs (set_uid3_set_it objp) in
  if set_it =? TRUE then
    let? (xdrs, uid) := xdr_uid3 xdrs (set_uid3_uid objp) in
    XOk xdrs {| set_uid3_set_it := set_it; set_uid3_uid := uid |}
  else
    XOk xdrs {| set_uid3_set_it := set_it; set_uid3_uid := set_uid3_uid objp |}.

Definition xdr_set_gid3 : xdrproc set_gid3 := fun xdrs objp =>
  let? (xdrs, set_it) := xdr_bool xdrs (set_gid3_set_it objp) in
  if set_it =? TRUE then
    let? (xdrs, gid) := xdr_gid3 xdrs (set_gid3_gid objp) in
    XOk xdrs {| set_gid3_set_it := set_it; set_gid3_gid := gid |}
  else
    XOk xdrs {| set_gid3_set_it := set_it; set_gid3_gid := set_gid3_gid objp |}.

Definition xdr_set_size3 : xdrproc set_size3 := fun xdrs objp =>
  let? (xdrs, set_it) := xdr_bool xdrs (set_size3_set_it objp) in
  if set_it =? TRUE then
    let? (xdrs, size) := xdr_size3 xdrs (set_size3_size objp) in
    XOk xdrs {| set_size3_set_it := set_it; set_size3_size := size |}
  else
    XOk xdrs {| set_size3_set_it := set_it; set_size3_size := set_size3_size objp |}.

Definition xdr_set_atime : xdrproc set_atime := fun xdrs objp =>
  let? (xdrs, set_it) := xdr_time_how xdrs (set_atime_set_it objp) in
  if set_it =? SET_TO_CLIENT_TIME then
    let? (xdrs, atime) := xdr_nfstime3 xdrs (set_atime_atime objp) in
    XOk xdrs {| set_atime_set_it := set_it; set_atime_atime := atime |}
  else
    XOk xdrs {| set_atime_set_it := set_it; set_atime_atime := set_atime_atime objp |}.

Definition xdr_set_mtime : xdrproc set_mtime := fun xdrs objp =>
  let? (xdrs, set_it) := xdr_time_how xdrs (set_mtime_set_it objp) in
  if set_it =? SET_TO_CLIENT_TIME then
    let? (xdrs, mtime) := xdr_nfstime3 xdrs (set_mtime_mtime objp) in
    XOk xdrs {| set_mtime_set_it := set_it; set_mtime_mtime := mtime |}
  else
    XOk xdrs {| set_mtime_set_it := set_it; set_mtime_mtime := set_mtime_mtime objp |}.

Definition xdr_sattr3 : xdrproc sattr3 := fun xdrs objp =>
  let? (xdrs, mode) := xdr_set_mode3 xdrs (sattr3_mode objp) in
  let? (xdrs, uid) := xdr_set_uid3 xdrs (sattr3_uid objp) in
  let? (xdrs, gid) := xdr_set_gid3 xdrs (sattr3_gid objp) in
  let? (xdrs, size) := xdr_set_size3 xdrs (sattr3_size objp) in
  let? (xdrs, atime) := xdr_set_atime xdrs (sattr3_atime objp) in
  let? (xdrs, mtime) := xdr_set_mtime xdrs (sattr3_mtime objp) in
  XOk xdrs {| sattr3_mode := mode;
              sattr3_uid := uid;
              sattr3_gid := gid;
              sattr3_size := size;
              sattr3_atime := atime;
              sattr3_mtime := mtime |}.

Definition xdr_diropargs3 : xdrproc diropargs3 := fun xdrs objp =>
  let? (xdrs, dir) := xdr_nfs_fh3 xdrs (diropargs3_dir objp) in
  let? (xdrs, name) := xdr_filename3 xdrs (diropargs3_name objp) in
  XOk xdrs {| diropargs3_dir := dir; diropargs3_name := name |}.

Definition xdr_GETATTR3args : xdrproc GETATTR3args := fun xdrs objp =>
  let? (xdrs, object) := xdr_nfs_fh3 xdrs (GETATTR3args_object objp) in
  XOk xdrs {| GETATTR3args_object := object |}.

Definition xdr_GETATTR3resok : xdrproc GETATTR3resok := fun xdrs objp =>
  let? (xdrs, obj_attributes) := xdr_fattr3 xdrs (GETATTR3resok_obj_attributes objp) in
  XOk xdrs {| GETATTR3resok_obj_attributes := obj_attributes |}.

Definition xdr_GETATTR3res : xdrproc GETATTR3res := fun xdrs objp =>
  let? (xdrs, status) := xdr_nfsstat3 xdrs (GETATTR3res_status objp) in
  if status =? NFS3_OK then
    let? (xdrs, resok) := xdr_GETATTR3resok xdrs (GETATTR3res_resok objp) in
    XOk xdrs {| GETATTR3res_status := status; GETATTR3res_resok := resok |}
  else
    XOk xdrs {| GETATTR3res_status := status;
                GETATTR3res_resok := GETATTR3res_resok objp |}.

Definition xdr_sattrguard3 : xdrproc sattrguard3 := fun xdrs objp =>
  let? (xdrs, check) := xdr_bool xdrs (sattrguard3_check objp) in
  if check =? TRUE then
    let? (xdrs, obj_ctime) := xdr_nfstime3 xdrs (sattrguard3_obj_ctime objp) in
    XOk xdrs {| sattrguard3_check := check; sattrguard3_obj_ctime := obj_ctime |}
  else if check =? FALSE then
    XOk xdrs {| sattrguard3_check := check;
                sattrguard3_obj_ctime := sattrguard3_obj_ctime objp |}
  else
    XFail xdrs.

Definition xdr_SETATTR3args : xdrproc SETATTR3args := fun xdrs objp =>
  let? (xdrs, object) := xdr_nfs_fh3 xdrs (SETATTR3args_object objp) in
  let? (xdrs, new_attributes) := xdr_sattr3 xdrs (SETATTR3args_new_attributes objp) in
  let? (xdrs, guard) := xdr_sattrguard3 xdrs (SETATTR3args_guard objp) in
  XOk xdrs {| SETATTR3args_object := object;
              SETATTR3args_new_attributes := new_attributes;
              SETATTR3args_guard := guard |}.

Definition xdr_SETATTR3resok : xdrproc SETATTR3resok := fun xdrs objp =>
  let? (xdrs, obj_wcc) := xdr_wcc_data xdrs (SETATTR3resok_obj_wcc objp) in
  XOk xdrs {| SETATTR3resok_obj_wcc := obj_wcc |}.

Definition xdr_SETATTR3resfail : xdrproc SETATTR3resfail := fun xdrs objp =>
  let? (xdrs, obj_wcc) := xdr_wcc_data xdrs (SETATTR3resfail_obj_wcc objp) in
  XOk xdrs {| SETATTR3resfail_obj_wcc := obj_wcc |}.

Definition xdr_SETATTR3res : xdrproc SETATTR3res := fun xdrs objp =>
  let? (xdrs, status) := xdr_nfsstat3 xdrs (SETATTR3res_status objp) in
  if status =? NFS3_OK then
    let? (xdrs, resok) := xdr_SETATTR3resok xdrs (SETATTR3res_resok objp) in
    XOk xdrs {| SETATTR3res_status := status;
                SETATTR3res_resok := resok;
                SETATTR3res_resfail := SETATTR3res_resfail objp |}
  else
    let? (xdrs, resfail) := xdr_SETATTR3resfail xdrs (SETATTR3res_resfail objp) in
    XOk xdrs {| SETATTR3res_status := status;
                SETATTR3res_resok := SETATTR3res_resok objp;
                SETATTR3res_resfail := resfail |}.

Definition xdr_LOOKUP3args : xdrproc LOOKUP3args := fun xdrs objp =>
  let? (xdrs, what) := xdr_diropargs3 xdrs (LOOKUP3args_what objp) in
  XOk xdrs {| LOOKUP3args_what := what |}.

Definition xdr_LOOKUP3resok : xdrproc LOOKUP3resok := fun xdrs objp =>
  let? (xdrs, object) := xdr_nfs_fh3 xdrs (LOOKUP3resok_object objp) in
  let? (xdrs, obj_attributes) := xdr_post_op_attr xdrs (LOOKUP3resok_obj_attributes objp) in
  let? (xdrs, dir_attributes) := xdr_post_op_attr xdrs (LOOKUP3resok_dir_attributes objp) in
  XOk xdrs {| LOOKUP3resok_object := object;
              LOOKUP3resok_obj_attributes := obj_attributes;
              LOOKUP3resok_dir_attributes := dir_attributes |}.

Definition xdr_LOOKUP3resfail : xdrproc LOOKUP3resfail := fun xdrs objp =>
  let? (xdrs, dir_attributes) := xdr_post_op_attr xdrs (LOOKUP3resfail_dir_attributes objp) in
  XOk xdrs {| LOOKUP3resfail_dir_attributes := dir_attributes |}.

Definition xdr_LOOKUP3res : xdrproc LOOKUP3res := fun xdrs objp =>
  let? (xdrs, status) := xdr_nfsstat3 xdrs (LOOKUP3res_status objp) in
  if status =? NFS3_OK then
    let? (xdrs, resok) := xdr_LOOKUP3resok xdrs (LOOKUP3res_resok objp) in
    XOk xdrs {| LOOKUP3res_status := status;
                LOOKUP3res_resok := resok;
                LOOKUP3res_resfail := LOOKUP3res_resfail objp |}
  else
    let? (xdrs, resfail) := xdr_LOOKUP3resfail xdrs (LOOKUP3res_resfail objp) in
    XOk xdrs {| LOOKUP3res_status := status;
                LOOKUP3res_resok := LOOKUP3res_resok objp;
                LOOKUP3res_resfail := resfail |}.

Definition xdr_ACCESS3args : xdrproc ACCESS3args := fun xdrs objp =>
  let? (xdrs, object) := xdr_nfs_fh3 xdrs (ACCESS3args_object objp) in
  let? (xdrs, access) := xdr_uint32 xdrs (ACCESS3args_access objp) in
  XOk xdrs {| ACCESS3args_object := object; ACCESS3args_access := access |}.

Definition xdr_ACCESS3resok : xdrproc ACCESS3resok := fun xdrs objp =>
  let? (xdrs, obj_attributes) := xdr_post_op_attr xdrs (ACCESS3resok_obj_attributes objp) in
  let? (xdrs, access) := xdr_uint32 xdrs (ACCESS3resok_access objp) in
  XOk xdrs {| ACCESS3resok_obj_attributes := obj_attributes;
              ACCESS3resok_access := access |}.

Definition xdr_ACCESS3resfail : xdrproc ACCESS3resfail := fun xdrs objp =>
  let? (xdrs, obj_attributes) := xdr_post_op_attr xdrs (ACCESS3resfail_obj_attributes objp) in
  XOk xdrs {| ACCESS3resfail_obj_attributes := obj_attributes |}.

Definition xdr_ACCESS3res : xdrproc ACCESS3res := fun xdrs objp =>
  let? (xdrs, status) := xdr_nfsstat3 xdrs (ACCESS3res_status objp) in
  if status =? NFS3_OK then
    let? (xdrs, resok) := xdr_ACCESS3resok xdrs (ACCESS3res_resok objp) in
    XOk xdrs {| ACCESS3res_status := status;
                ACCESS3res_resok := resok;
                ACCESS3res_resfail := ACCESS3res_resfail objp |}
  else
    let? (xdrs, resfail) := xdr_ACCESS3resfail xdrs (ACCESS3res_resfail objp) in
    XOk xdrs {| ACCESS3res_status := status;
                ACCESS3res_resok := ACCESS3res_resok objp;
                ACCESS3res_resfail := resfail |}.

Definition xdr_READLINK3args : xdrproc READLINK3args := fun xdrs objp =>
  let? (xdrs, symlink) := xdr_nfs_fh3 xdrs (READLINK3args_symlink objp) in
  XOk xdrs {| READLINK3args_symlink := symlink |}.

Definition xdr_READLINK3resok : xdrproc READLINK3resok := fun xdrs objp =>
  let? (xdrs, symlink_attributes) := xdr_post_op_attr xdrs (READLINK3resok_symlink_attributes objp) in
  let? (xdrs, data) := xdr_nfspath3 xdrs (READLINK3resok_data objp) in
  XOk xdrs {| READLINK3resok_symlink_attributes := symlink_attributes;
              READLINK3resok_data := data |}.

Definition xdr_READLINK3resfail : xdrproc READLINK3resfail := fun xdrs objp =>
  let? (xdrs, symlink_attributes) := xdr_post_op_attr xdrs (READLINK3resfail_symlink_attributes objp) in
  XOk xdrs {| READLINK3resfail_symlink_attributes := symlink_attributes |}.

Definition xdr_READLINK3res : xdrproc READLINK3res := fun xdrs objp =>
  let? (xdrs, status) := xdr_nfsstat3 xdrs (READLINK3res_status objp) in
  if status =? NFS3_OK then
    let? (xdrs, resok) := xdr_READLINK3resok xdrs (READLINK3res_resok objp) in
    XOk xdrs {| READLINK3res_status := status;
                READLINK3res_resok := resok;
                READLINK3res_resfail := READLINK3res_resfail objp |}
  else
    let? (xdrs, resfail) := xdr_READLINK3resfail xdrs (READLINK3res_resfail objp) in
    XOk xdrs {| READLINK3res_status := status;
                READLINK3res_resok := READLINK3res_resok objp;
                READLINK3res_resfail := resfail |}.

Definition xdr_READ3args : xdrproc READ3args := fun xdrs objp =>
  let? (xdrs, file) := xdr_nfs_fh3 xdrs (READ3args_file objp) in
  let? (xdrs, offset) := xdr_offset3 xdrs (READ3args_offset objp) in
  let? (xdrs, count) := xdr_count3 xdrs (READ3args_count objp) in
  XOk xdrs {| READ3args_file := file;
              READ3args_offset := offset;
              READ3args_count := count |}.

Definition xdr_READ3resok : xdrproc READ3resok := fun xdrs objp =>
  let? (xdrs, file_attributes) := xdr_post_op_attr xdrs (READ3resok_file_attributes objp) in
  let? (xdrs, count) := xdr_count3 xdrs (READ3resok_count objp) in
  let? (xdrs, eof) := xdr_bool xdrs (READ3resok_eof objp) in
  if x_public xdrs =? DISABLE_DATA_DEXDR_INTERNAL
  then XOk xdrs {| READ3resok_file_attributes := file_attributes;
                   READ3resok_count := count;
                   READ3resok_eof := eof;
                   READ3resok_data := READ3resok_data objp |}
  else
  let? (xdrs, data) := xdr_bytes MAXLEN xdrs (READ3resok_data objp) in
  XOk xdrs {| READ3resok_file_attributes := file_attributes;
              READ3resok_count := count;
              READ3resok_eof := eof;
              READ3resok_data := data |}.

Definition xdr_READ3resfail : xdrproc READ3resfail := fun xdrs objp =>
  let? (xdrs, file_attributes) := xdr_post_op_attr xdrs (READ3resfail_file_attributes objp) in
  XOk xdrs {| READ3resfail_file_attributes := file_attributes |}.

Definition xdr_READ3res : xdrproc READ3res := fun xdrs objp =>
  let? (xdrs, status) := xdr_nfsstat3 xdrs (READ3res_status objp) in
  if status =? NFS3_OK then
    let? (xdrs, resok) := xdr_READ3resok xdrs (READ3res_resok objp) in
    XOk xdrs {| READ3res_status := status;
                READ3res_resok := resok;
                READ3res_resfail := READ3res_resfail objp |}
  else
    let? (xdrs, resfail) := xdr_READ3resfail xdrs (READ3res_resfail objp) in
    XOk xdrs {| READ3res_status := status;
                READ3res_resok := READ3res_resok objp;
                READ3res_resfail := resfail |}.

Definition xdr_stable_how : xdrproc stable_how := fun xdrs objp =>
  let? (xdrs, v) := xdr_enum xdrs objp in XOk xdrs v.

Definition xdr_WRITE3args : xdrproc WRITE3args := fun xdrs objp =>
  let? (xdrs, file) := xdr_nfs_fh3 xdrs (WRITE3args_file objp) in
  let? (xdrs, offset) := xdr_offset3 xdrs (WRITE3args_offset objp) in
  let? (xdrs, count) := xdr_count3 xdrs (WRITE3args_count objp) in
  let? (xdrs, stable) := xdr_stable_how xdrs (WRITE3args_stable objp) in
  if x_public xdrs =? DISABLE_DATA_DEXDR_INTERNAL
  then XOk xdrs {| WRITE3args_file := file;
                   WRITE3args_offset := offset;
                   WRITE3args_count := count;
                   WRITE3args_stable := stable;
                   WRITE3args_data := WRITE3args_data objp |}
  else
  let? (xdrs, data) := xdr_bytes MAXLEN xdrs (WRITE3args_data objp) in
  XOk xdrs {| WRITE3args_file := file;
              WRITE3args_offset := offset;
              WRITE3args_count := count;
              WRITE3args_stable := stable;
              WRITE3args_data := data |}.

Definition xdr_WRITE3resok : xdrproc WRITE3resok := fun xdrs objp =>
  let? (xdrs, file_wcc) := xdr_wcc_data xdrs (WRITE3resok_file_wcc objp) in
  let? (xdrs, count) := xdr_count3 xdrs (WRITE3resok_count objp) in
  let? (xdrs, committed) := xdr_stable_how xdrs (WRITE3resok_committed objp) in
  let? (xdrs, verf) := xdr_writeverf3 xdrs (WRITE3resok_verf objp) in
  XOk xdrs {| WRITE3resok_file_wcc := file_wcc;
              WRITE3resok_count := count;
              WRITE3resok_committed := committed;
              WRITE3resok_verf := verf |}.

Definition xdr_WRITE3resfail : xdrproc WRITE3resfail := fun xdrs objp =>
  let? (xdrs, file_wcc) := xdr_wcc_data xdrs (WRITE3resfail_file_wcc objp) in
  XOk xdrs {| WRITE3resfail_file_wcc := file_wcc |}.

Definition xdr_WRITE3res : xdrproc WRITE3res := fun xdrs objp =>
  let? (xdrs, status) := xdr_nfsstat3 xdrs (WRITE3res_status objp) in
  if status =? NFS3_OK then
    let? (xdrs, resok) := xdr_WRITE3resok xdrs (WRITE3res_resok objp) in
    XOk xdrs {| WRITE3res_status := status;
                WRITE3res_resok := resok;
                WRITE3res_resfail := WRITE3res_resfail objp |}
  else
    let? (xdrs, resfail) := xdr_WRITE3resfail xdrs (WRITE3res_resfail objp) in
    XOk xdrs {| WRITE3res_status := status;
                WRITE3res_resok := WRITE3res_resok objp;
                WRITE3res_resfail := resfail |}.

Definition xdr_createmode3 : xdrproc createmode3 := fun xdrs objp =>
  let? (xdrs, v) := xdr_enum xdrs objp in XOk xdrs v.

Definition xdr_createhow3 : xdrproc createhow3 := fun xdrs objp =>
  let? (xdrs, mode) := xdr_createmode3 xdrs (createhow3_mode objp) in
  if (mode =? UNCHECKED) || (mode =? GUARDED) then
    let? (xdrs, obj_attributes) := xdr_sattr3 xdrs (createhow3_obj_attributes objp) in
    XOk xdrs {| createhow3_mode := mode;
                createhow3_obj_attributes := obj_attributes;
                createhow3_verf := createhow3_verf objp |}
  else if mode =? EXCLUSIVE then
    let? (xdrs, verf) := xdr_createverf3 xdrs (createhow3_verf objp) in
    XOk xdrs {| createhow3_mode := mode;
                createhow3_obj_attributes := createhow3_obj_attributes objp;
                createhow3_verf := verf |}
  else
    XFail xdrs.

Definition xdr_CREATE3args : xdrproc CREATE3args := fun xdrs objp =>
  let? (xdrs, where_) := xdr_diropargs3 xdrs (CREATE3args_where objp) in
  let? (xdrs, how) := xdr_createhow3 xdrs (CREATE3args_how objp) in
  XOk xdrs {| CREATE3args_where := where_; CREATE3args_how := how |}.

Definition xdr_CREATE3resok : xdrproc CREATE3resok := fun xdrs objp =>
  let? (xdrs, obj) := xdr_post_op_fh3 xdrs (CREATE3resok_obj objp) in
  let? (xdrs, obj_attributes) := xdr_post_op_attr xdrs (CREATE3resok_obj_attributes objp) in
  let? (xdrs, dir_wcc) := xdr_wcc_data xdrs (CREATE3resok_dir_wcc objp) in
  XOk xdrs {| CREATE3resok_obj := obj;
              CREATE3resok_obj_attributes := obj_attributes;
              CREATE3resok_dir_wcc := dir_wcc |}.

Definition xdr_CREATE3resfail : xdrproc CREATE3resfail := fun xdrs objp =>
  let? (xdrs, dir_wcc) := xdr_wcc_data xdrs (CREATE3resfail_dir_wcc objp) in
  XOk xdrs {| CREATE3resfail_dir_wcc := dir_wcc |}.

Definition xdr_CREATE3res : xdrproc CREATE3res := fun xdrs objp =>
  let? (xdrs, status) := xdr_nfsstat3 xdrs (CREATE3res_status objp) in
  if status =? NFS3_OK then
    let? (xdrs, resok) := xdr_CREATE3resok xdrs (CREATE3res_resok objp) in
    XOk xdrs {| CREATE3res_status := status;
                CREATE3res_resok := resok;
                CREATE3res_resfail := CREATE3res_resfail objp |}
  else
    let? (xdrs, resfail) := xdr_CREATE3resfail xdrs (CREATE3res_resfail objp) in
    XOk xdrs {| CREATE3res_status := status;
                CREATE3res_resok := CREATE3res_resok objp;
                CREATE3res_resfail := resfail |}.

Definition xdr_MKDIR3args : xdrproc MKDIR3args := fun xdrs objp =>
  let? (xdrs, where_) := xdr_diropargs3 xdrs (MKDIR3args_where objp) in
  let? (xdrs, attributes) := xdr_sattr3 xdrs (MKDIR3args_attributes objp) in
  XOk xdrs {| MKDIR3args_where := where_; MKDIR3args_attributes := attributes |}.

Definition xdr_MKDIR3resok : xdrproc MKDIR3resok := fun xdrs objp =>
  let? (xdrs, obj) := xdr_post_op_fh3 xdrs (MKDIR3resok_obj objp) in
  let? (xdrs, obj_attributes) := xdr_post_op_attr xdrs (MKDIR3resok_obj_attributes objp) in
  let? (xdrs, dir_wcc) := xdr_wcc_data xdrs (MKDIR3resok_dir_wcc objp) in
  XOk xdrs {| MKDIR3resok_obj := obj;
              MKDIR3resok_obj_attributes := obj_attributes;
              MKDIR3resok_dir_wcc := dir_wcc |}.

Definition xdr_MKDIR3resfail : xdrproc MKDIR3resfail := fun xdrs objp =>
  let? (xdrs, dir_wcc) := xdr_wcc_data xdrs (MKDIR3resfail_dir_wcc objp) in
  XOk xdrs {| MKDIR3resfail_dir_wcc := dir_wcc |}.

Definition xdr_MKDIR3res : xdrproc MKDIR3res := fun xdrs objp =>
  let? (xdrs, status) := xdr_nfsstat3 xdrs (MKDIR3res_status objp) in
  if status =? NFS3_OK then
    let? (xdrs, resok) := xdr_MKDIR3resok xdrs (MKDIR3res_resok objp) in
    XOk xdrs {| MKDIR3res_status := status;
                MKDIR3res_resok := resok;
                MKDIR3res_resfail := MKDIR3res_resfail objp |}
  else
    let? (xdrs, resfail) := xdr_MKDIR3resfail xdrs (MKDIR3res_resfail objp) in
    XOk xdrs {| MKDIR3res_status := status;
                MKDIR3res_resok := MKDIR3res_resok objp;
                MKDIR3res_resfail := resfail |}.

Definition xdr_symlinkdata3 : xdrproc symlinkdata3 := fun xdrs objp =>
  let? (xdrs, symlink_attributes) := xdr_sattr3 xdrs (symlinkdata3_symlink_attributes objp) in
  let? (xdrs, symlink_data) := xdr_nfspath3 xdrs (symlinkdata3_symlink_data objp) in
  XOk xdrs {| symlinkdata3_symlink_attributes := symlink_attributes;
              symlinkdata3_symlink_data := symlink_data |}.

Definition xdr_SYMLINK3args : xdrproc SYMLINK3args := fun xdrs objp =>
  let? (xdrs, where_) := xdr_diropargs3 xdrs (SYMLINK3args_where objp) in
  let? (xdrs, symlink) := xdr_symlinkdata3 xdrs (SYMLINK3args_symlink objp) in
  XOk xdrs {| SYMLINK3args_where := where_; SYMLINK3args_symlink := symlink |}.

Definition xdr_SYMLINK3resok : xdrproc SYMLINK3resok := fun xdrs objp =>
  let? (xdrs, obj) := xdr_post_op_fh3 xdrs (SYMLINK3resok_obj objp) in
  let? (xdrs, obj_attributes) := xdr_post_op_attr xdrs (SYMLINK3resok_obj_attributes objp) in
  let? (xdrs, dir_wcc) := xdr_wcc_data xdrs (SYMLINK3resok_dir_wcc objp) in
  XOk xdrs {| SYMLINK3resok_obj := obj;
              SYMLINK3resok_obj_attributes := obj_attributes;
              SYMLINK3resok_dir_wcc := dir_wcc |}.

Definition xdr_SYMLINK3resfail : xdrproc SYMLINK3resfail := fun xdrs objp =>
  let? (xdrs, dir_wcc) := xdr_wcc_data xdrs (SYMLINK3resfail_dir_wcc objp) in
  XOk xdrs {| SYMLINK3resfail_dir_wcc := dir_wcc |}.

Definition xdr_SYMLINK3res : xdrproc SYMLINK3res := fun xdrs objp =>
  let? (xdrs, status) := xdr_nfsstat3 xdrs (SYMLINK3res_status objp) in
  if status =? NFS3_OK then
    let? (xdrs, resok) := xdr_SYMLINK3resok xdrs (SYMLINK3res_resok objp) in
    XOk xdrs {| SYMLINK3res_status := status;
                SYMLINK3res_resok := resok;
                SYMLINK3res_resfail := SYMLINK3res_resfail objp |}
  else
    let? (xdrs, resfail) := xdr_SYMLINK3resfail xdrs (SYMLINK3res_resfail objp) in
    XOk xdrs {| SYMLINK3res_status := status;
                SYMLINK3res_resok := SYMLINK3res_resok objp;
                SYMLINK3res_resfail := resfail |}.

Definition xdr_devicedata3 : xdrproc devicedata3 := fun xdrs objp =>
  let? (xdrs, dev_attributes) := xdr_sattr3 xdrs (devicedata3_dev_attributes objp) in
  let? (xdrs, spec) := xdr_specdata3 xdrs (devicedata3_spec objp) in
  XOk xdrs {| devicedata3_dev_attributes := dev_attributes; devicedata3_spec := spec |}.

Definition xdr_mknoddata3 : xdrproc mknoddata3 := fun xdrs objp =>
  let? (xdrs, type) := xdr_ftype3 xdrs (mknoddata3_type objp) in
  if (type =? NF3CHR) || (type =? NF3BLK) then
    let? (xdrs, device) := xdr_devicedata3 xdrs (mknoddata3_device objp) in
    XOk xdrs {| mknoddata3_type := type;
                mknoddata3_device := device;
                mknoddata3_pipe_attributes := mknoddata3_pipe_attributes objp |}
  else if (type =? NF3SOCK) || (type =? NF3FIFO) then
    let? (xdrs, pipe_attributes) := xdr_sattr3 xdrs (mknoddata3_pipe_attributes objp) in
    XOk xdrs {| mknoddata3_type := type;
                mknoddata3_device := mknoddata3_device objp;
                mknoddata3_pipe_attributes := pipe_attributes |}
  else
    XOk xdrs {| mknoddata3_type := type;
                mknoddata3_device := mknoddata3_device objp;
                mknoddata3_pipe_attributes := mknoddata3_pipe_attributes objp |}.

Definition xdr_MKNOD3args : xdrproc MKNOD3args := fun xdrs objp =>
  let? (xdrs, where_) := xdr_diropargs3 xdrs (MKNOD3args_where objp) in
  let? (xdrs, what) := xdr_mknoddata3 xdrs (MKNOD3args_what objp) in
  XOk xdrs {| MKNOD3args_where := where_; MKNOD3args_what := what |}.

Definition xdr_MKNOD3resok : xdrproc MKNOD3resok := fun xdrs objp =>
  let? (xdrs, obj) := xdr_post_op_fh3 xdrs (MKNOD3resok_obj objp) in
  let? (xdrs, obj_attributes) := xdr_post_op_attr xdrs (MKNOD3resok_obj_attributes objp) in
  let? (xdrs, dir_wcc) := xdr_wcc_data xdrs (MKNOD3resok_dir_wcc objp) in
  XOk xdrs {| MKNOD3resok_obj := obj;
              MKNOD3resok_obj_attributes := obj_attributes;
              MKNOD3resok_dir_wcc := dir_wcc |}.

Definition xdr_MKNOD3resfail : xdrproc MKNOD3resfail := fun xdrs objp =>
  let? (xdrs, dir_wcc) := xdr_wcc_data xdrs (MKNOD3resfail_dir_wcc objp) in
  XOk xdrs {| MKNOD3resfail_dir_wcc := dir_wcc |}.

Definition xdr_MKNOD3res : xdrproc MKNOD3res := fun xdrs objp =>
  let? (xdrs, status) := xdr_nfsstat3 xdrs (MKNOD3res_status objp) in
  if status =? NFS3_OK then
    let? (xdrs, resok) := xdr_MKNOD3resok xdrs (MKNOD3res_resok objp) in
    XOk xdrs {| MKNOD3res_status := status;
                MKNOD3res_resok := resok;
                MKNOD3res_resfail := MKNOD3res_resfail objp |}
  else
    let? (xdrs, resfail) := xdr_MKNOD3resfail xdrs (MKNOD3res_resfail objp) in
    XOk xdrs {| MKNOD3res_status := status;
                MKNOD3res_resok := MKNOD3res_resok objp;
                MKNOD3res_resfail := resfail |}.

Definition xdr_REMOVE3args : xdrproc REMOVE3args := fun xdrs objp =>
  let? (xdrs, object) := xdr_diropargs3 xdrs (REMOVE3args_object objp) in
  XOk xdrs {| REMOVE3args_object := object |}.

Definition xdr_REMOVE3resok : xdrproc REMOVE3resok := fun xdrs objp =>
  let? (xdrs, dir_wcc) := xdr_wcc_data xdrs (REMOVE3resok_dir_wcc objp) in
  XOk xdrs {| REMOVE3resok_dir_wcc := dir_wcc |}.

Definition xdr_REMOVE3resfail : xdrproc REMOVE3resfail := fun xdrs objp =>
  let? (xdrs, dir_wcc) := xdr_wcc_data xdrs (REMOVE3resfail_dir_wcc objp) in
  XOk xdrs {| REMOVE3resfail_dir_wcc := dir_wcc |}.

Definition xdr_REMOVE3res : xdrproc REMOVE3res := fun xdrs objp =>
  let? (xdrs, status) := xdr_nfsstat3 xdrs (REMOVE3res_status objp) in
  if status =? NFS3_OK then
    let? (xdrs, resok) := xdr_REMOVE3resok xdrs (REMOVE3res_resok objp) in
    XOk xdrs {| REMOVE3res_status := status;
                REMOVE3res_resok := resok;
                REMOVE3res_resfail := REMOVE3res_resfail objp |}
  else
    let? (xdrs, resfail) := xdr_REMOVE3resfail xdrs (REMOVE3res_resfail objp) in
    XOk xdrs {| REMOVE3res_status := status;
                REMOVE3res_resok := REMOVE3res_resok objp;
                REMOVE3res_resfail := resfail |}.

Definition xdr_RMDIR3args : xdrproc RMDIR3args := fun xdrs objp =>
  let? (xdrs, object) := xdr_diropargs3 xdrs (RMDIR3args_object objp) in
  XOk xdrs {| RMDIR3args_object := object |}.

Definition xdr_RMDIR3resok : xdrproc RMDIR3resok := fun xdrs objp =>
  let? (xdrs, dir_wcc) := xdr_wcc_data xdrs (RMDIR3resok_dir_wcc objp) in
  XOk xdrs {| RMDIR3resok_dir_wcc := dir_wcc |}.

Definition xdr_RMDIR3resfail : xdrproc RMDIR3resfail := fun xdrs objp =>
  let? (xdrs, dir_wcc) := xdr_wcc_data xdrs (RMDIR3resfail_dir_wcc objp) in
  XOk xdrs {| RMDIR3resfail_dir_wcc := dir_wcc |}.

Definition xdr_RMDIR3res : xdrproc RMDIR3res := fun xdrs objp =>
  let? (xdrs, status) := xdr_nfsstat3 xdrs (RMDIR3res_status objp) in
  if status =? NFS3_OK then
    let? (xdrs, resok) := xdr_RMDIR3resok xdrs (RMDIR3res_resok objp) in
    XOk xdrs {| RMDIR3res_status := status;
                RMDIR3res_resok := resok;
                RMDIR3res_resfail := RMDIR3res_resfail objp |}
  else
    let? (xdrs, resfail) := xdr_RMDIR3resfail xdrs (RMDIR3res_resfail objp) in
    XOk xdrs {| RMDIR3res_status := status;
                RMDIR3res_resok := RMDIR3res_resok objp;
                RMDIR3res_resfail := resfail |}.

Definition xdr_RENAME3args : xdrproc RENAME3args := fun xdrs objp =>
  let? (xdrs, from) := xdr_diropargs3 xdrs (RENAME3args_from objp) in
  let? (xdrs, to) := xdr_diropargs3 xdrs (RENAME3args_to objp) in
  XOk xdrs {| RENAME3args_from := from; RENAME3args_to := to |}.

Definition xdr_RENAME3resok : xdrproc RENAME3resok := fun xdrs objp =>
  let? (xdrs, fromdir_wcc) := xdr_wcc_data xdrs (RENAME3resok_fromdir_wcc objp) in
  let? (xdrs, todir_wcc) := xdr_wcc_data xdrs (RENAME3resok_todir_wcc objp) in
  XOk xdrs {| RENAME3resok_fromdir_wcc := fromdir_wcc;
              RENAME3resok_todir_wcc := todir_wcc |}.

Definition xdr_RENAME3resfail : xdrproc RENAME3resfail := fun xdrs objp =>
  let? (xdrs, fromdir_wcc) := xdr_wcc_data xdrs (RENAME3resfail_fromdir_wcc objp) in
  let? (xdrs, todir_wcc) := xdr_wcc_data xdrs (RENAME3resfail_todir_wcc objp) in
  XOk xdrs {| RENAME3resfail_fromdir_wcc := fromdir_wcc;
              RENAME3resfail_todir_wcc := todir_wcc |}.

Definition xdr_RENAME3res : xdrproc RENAME3res := fun xdrs objp =>
  let? (xdrs, status) := xdr_nfsstat3 xdrs (RENAME3res_status objp) in
  if status =? NFS3_OK then
    let? (xdrs, resok) := xdr_RENAME3resok xdrs (RENAME3res_resok objp) in
    XOk xdrs {| RENAME3res_status := status;
                RENAME3res_resok := resok;
                RENAME3res_resfail := RENAME3res_resfail objp |}
  else
    let? (xdrs, resfail) := xdr_RENAME3resfail xdrs (RENAME3res_resfail objp) in
    XOk xdrs {| RENAME3res_status := status;
                RENAME3res_resok := RENAME3res_resok objp;
                RENAME3res_resfail := resfail |}.

Definition xdr_LINK3args : xdrproc LINK3args := fun xdrs objp =>
  let? (xdrs, file) := xdr_nfs_fh3 xdrs (LINK3args_file objp) in
  let? (xdrs, link) := xdr_diropargs3 xdrs (LINK3args_link objp) in
  XOk xdrs {| LINK3args_file := file; LINK3args_link := link |}.

Definition xdr_LINK3resok : xdrproc LINK3resok := fun xdrs objp =>
  let? (xdrs, file_attributes) := xdr_post_op_attr xdrs (LINK3resok_file_attributes objp) in
  let? (xdrs, linkdir_wcc) := xdr_wcc_data xdrs (LINK3resok_linkdir_wcc objp) in
  XOk xdrs {| LINK3resok_file_attributes := file_attributes;
              LINK3resok_linkdir_wcc := linkdir_wcc |}.

Definition xdr_LINK3resfail : xdrproc LINK3resfail := fun xdrs objp =>
  let? (xdrs, file_attributes) := xdr_post_op_attr xdrs (LINK3resfail_file_attributes objp) in
  let? (xdrs, linkdir_wcc) := xdr_wcc_data xdrs (LINK3resfail_linkdir_wcc objp) in
  XOk xdrs {| LINK3resfail_file_attributes := file_attributes;
              LINK3resfail_linkdir_wcc := linkdir_wcc |}.

Definition xdr_LINK3res : xdrproc LINK3res := fun xdrs objp =>
  let? (xdrs, status) := xdr_nfsstat3 xdrs (LINK3res_status objp) in
  if status =? NFS3_OK then
    let? (xdrs, resok) := xdr_LINK3resok xdrs (LINK3res_resok objp) in
    XOk xdrs {| LINK3res_status := status;
                LINK3res_resok := resok;
                LINK3res_resfail := LINK3res_resfail objp |}
  else
    let? (xdrs, resfail) := xdr_LINK3resfail xdrs (LINK3res_resfail objp) in
    XOk xdrs {| LINK3res_status := status;
                LINK3res_resok := LINK3res_resok objp;
                LINK3res_resfail := resfail |}.

Definition xdr_READDIR3args : xdrproc READDIR3args := fun xdrs objp =>
  let? (xdrs, dir) := xdr_nfs_fh3 xdrs (READDIR3args_dir objp) in
  let? (xdrs, cookie) := xdr_cookie3 xdrs (READDIR3args_cookie objp) in
  let? (xdrs, cookieverf) := xdr_cookieverf3 xdrs (READDIR3args_cookieverf objp) in
  let? (xdrs, count) := xdr_count3 xdrs (READDIR3args_count objp) in
  XOk xdrs {| READDIR3args_dir := dir;
              READDIR3args_cookie := cookie;
              READDIR3args_cookieverf := cookieverf;
              READDIR3args_count := count |}.

(** The zeroed object [xdr_pointer] allocates for a [struct entry3]. *)
Definition zero_entry3 : entry3 :=
  Node {| entry3_body_fileid := 0; entry3_body_name := PNull; entry3_body_cookie := 0 |} PNull.

Fixpoint xdr_entry3 (fuel : nat) : xdrproc entry3 := fun xdrs objp =>
  match fuel with
  | O => XFuel
  | S fuel =>
      let? (xdrs, fileid) := xdr_fileid3 xdrs (entry3_body_fileid (node_body objp)) in
      let? (xdrs, name) := xdr_filename3 xdrs (entry3_body_name (node_body objp)) in
      let? (xdrs, cookie) := xdr_cookie3 xdrs (entry3_body_cookie (node_body objp)) in
      let? (xdrs, nextentry) :=
        xdr_pointer zero_entry3 (xdr_entry3 fuel) xdrs (node_next objp) in
      XOk xdrs (Node {| entry3_body_fileid := fileid;
                        entry3_body_name := name;
                        entry3_body_cookie := cookie |} nextentry)
  end.

(** [xdr_pointer (xdrs, &entries, sizeof (entry3), xdr_entry3)]. *)
Definition xdr_entry3_list : xdrproc (ptr entry3) := fun xdrs entries =>
  xdr_pointer zero_entry3 (xdr_entry3 (chain_fuel xdrs entries)) xdrs entries.

Definition xdr_dirlist3 : xdrproc dirlist3 := fun xdrs objp =>
  let? (xdrs, entries) := xdr_entry3_list xdrs (dirlist3_entries objp) in
  let? (xdrs, eof) := xdr_bool xdrs (dirlist3_eof objp) in
  XOk xdrs {| dirlist3_entries := entries; dirlist3_eof := eof |}.

Definition xdr_READDIR3resok : xdrproc READDIR3resok := fun xdrs objp =>
  let? (xdrs, dir_attributes) := xdr_post_op_attr xdrs (READDIR3resok_dir_attributes objp) in
  let? (xdrs, cookieverf) := xdr_cookieverf3 xdrs (READDIR3resok_cookieverf objp) in
  let? (xdrs, reply) := xdr_dirlist3 xdrs (READDIR3resok_reply objp) in
  XOk xdrs {| READDIR3resok_dir_attributes := dir_attributes;
              READDIR3resok_cookieverf := cookieverf;
              READDIR3resok_reply := reply |}.

Definition xdr_READDIR3resfail : xdrproc READDIR3resfail := fun xdrs objp =>
  let? (xdrs, dir_attributes) := xdr_post_op_attr xdrs (READDIR3resfail_dir_attributes objp) in
  XOk xdrs {| READDIR3resfail_dir_attributes := dir_attributes |}.

Definition xdr_READDIR3res : xdrproc READDIR3res := fun xdrs objp =>
  let? (xdrs, status) := xdr_nfsstat3 xdrs (READDIR3res_status objp) in
  if status =? NFS3_OK then
    let? (xdrs, resok) := xdr_READDIR3resok xdrs (READDIR3res_resok objp) in
    XOk xdrs {| READDIR3res_status := status;
                READDIR3res_resok := resok;
                READDIR3res_resfail := READDIR3res_resfail objp |}
  else
    let? (xdrs, resfail) := xdr_READDIR3resfail xdrs (READDIR3res_resfail objp) in
    XOk xdrs {| READDIR3res_status := status;
                READDIR3res_resok := READDIR3res_resok objp;
                READDIR3res_resfail := resfail |}.

Definition xdr_READDIRPLUS3args : xdrproc READDIRPLUS3args := fun xdrs objp =>
  let? (xdrs, dir) := xdr_nfs_fh3 xdrs (READDIRPLUS3args_dir objp) in
  let? (xdrs, cookie) := xdr_cookie3 xdrs (READDIRPLUS3args_cookie objp) in
  let? (xdrs, cookieverf) := xdr_cookieverf3 xdrs (READDIRPLUS3args_cookieverf objp) in
  let? (xdrs, dircount) := xdr_count3 xdrs (READDIRPLUS3args_dircount objp) in
  let? (xdrs, maxcount) := xdr_count3 xdrs (READDIRPLUS3args_maxcount objp) in
  XOk xdrs {| READDIRPLUS3args_dir := dir;
              READDIRPLUS3args_cookie := cookie;
              READDIRPLUS3args_cookieverf := cookieverf;
              READDIRPLUS3args_dircount := dircount;
              READDIRPLUS3args_maxcount := maxcount |}.

Definition zero_nfstime3 : nfstime3 := mk_nfstime3 0 0.
Definition zero_fattr3 : fattr3 :=
  mk_fattr3 0 0 0 0 0 0 0 (mk_specdata3 0 0) 0 0 zero_nfstime3 zero_nfstime3 zero_nfstime3.
Definition zero_post_op_attr : post_op_attr := mk_post_op_attr FALSE zero_fattr3.
Definition zero_post_op_fh3 : post_op_fh3 :=
  mk_post_op_fh3 FALSE (mk_nfs_fh3 (mk_opaque_buf 0 PNull)).

(** The zeroed object [xdr_pointer] allocates for a [struct entryplus3]. *)
Definition zero_entryplus3 : entryplus3 :=
  Node {| entryplus3_body_fileid := 0;
          entryplus3_body_name := PNull;
          entryplus3_body_cookie := 0;
          entryplus3_body_name_attributes := zero_post_op_attr;
          entryplus3_body_name_handle := zero_post_op_fh3 |} PNull.

Fixpoint xdr_entryplus3 (fuel : nat) : xdrproc entryplus3 := fun xdrs objp =>
  match fuel with
  | O => XFuel
  | S fuel =>
      let? (xdrs, fileid) := xdr_fileid3 xdrs (entryplus3_body_fileid (node_body objp)) in
      let? (xdrs, name) := xdr_filename3 xdrs (entryplus3_body_name (node_body objp)) in
      let? (xdrs, cookie) := xdr_cookie3 xdrs (entryplus3_body_cookie (node_body objp)) in
      let? (xdrs, name_attributes) :=
        xdr_post_op_attr xdrs (entryplus3_body_name_attributes (node_body objp)) in
      let? (xdrs, name_handle) :=
        xdr_post_op_fh3 xdrs (entryplus3_body_name_handle (node_body objp)) in
      let? (xdrs, nextentry) :=
        xdr_pointer zero_entryplus3 (xdr_entryplus3 fuel) xdrs (node_next objp) in
      XOk xdrs (Node {| entryplus3_body_fileid := fileid;
                        entryplus3_body_name := name;
                        entryplus3_body_cookie := cookie;
                        entryplus3_body_name_attributes := name_attributes;
                        entryplus3_body_name_handle := name_handle |} nextentry)
  end.

(** [xdr_pointer (xdrs, &entries, sizeof (entryplus3), xdr_entryplus3)]. *)
Definition xdr_entryplus3_list : xdrproc (ptr entryplus3) := fun xdrs entries =>
  xdr_pointer zero_entryplus3 (xdr_entryplus3 (chain_fuel xdrs entries)) xdrs entries.

Definition xdr_dirlistplus3 : xdrproc dirlistplus3 := fun xdrs objp =>
  let? (xdrs, entries) := xdr_entryplus3_list xdrs (dirlistplus3_entries objp) in
  let? (xdrs, eof) := xdr_bool xdrs (dirlistplus3_eof objp) in
  XOk xdrs {| dirlistplus3_entries := entries; dirlistplus3_eof := eof |}.

Definition xdr_READDIRPLUS3resok : xdrproc READDIRPLUS3resok := fun xdrs objp =>
  let? (xdrs, dir_attributes) := xdr_post_op_attr xdrs (READDIRPLUS3resok_dir_attributes objp) in
  let? (xdrs, cookieverf) := xdr_cookieverf3 xdrs (READDIRPLUS3resok_cookieverf objp) in
  let? (xdrs, reply) := xdr_dirlistplus3 xdrs (READDIRPLUS3resok_reply objp) in
  XOk xdrs {| READDIRPLUS3resok_dir_attributes := dir_attributes;
              READDIRPLUS3resok_cookieverf := cookieverf;
              READDIRPLUS3resok_reply := reply |}.

Definition xdr_READDIRPLUS3resfail : xdrproc READDIRPLUS3resfail := fun xdrs objp =>
  let? (xdrs, dir_attributes) := xdr_post_op_attr xdrs (READDIRPLUS3resfail_dir_attributes objp) in
  XOk xdrs {| READDIRPLUS3resfail_dir_attributes := dir_attributes |}.

Definition xdr_READDIRPLUS3res : xdrproc READDIRPLUS3res := fun xdrs objp =>
  let? (xdrs, status) := xdr_nfsstat3 xdrs (READDIRPLUS3res_status objp) in
  if status =? NFS3_OK then
    let? (xdrs, resok) := xdr_READDIRPLUS3resok xdrs (READDIRPLUS3res_resok objp) in
    XOk xdrs {| READDIRPLUS3res_status := status;
                READDIRPLUS3res_resok := resok;
                READDIRPLUS3res_resfail := READDIRPLUS3res_resfail objp |}
  else
    let? (xdrs, resfail) := xdr_READDIRPLUS3resfail xdrs (READDIRPLUS3res_resfail objp) in
    XOk xdrs {| READDIRPLUS3res_status := status;
                READDIRPLUS3res_resok := READDIRPLUS3res_resok objp;
                READDIRPLUS3res_resfail := resfail |}.

Definition xdr_FSSTAT3args : xdrproc FSSTAT3args := fun xdrs objp =>
  let? (xdrs, fsroot) := xdr_nfs_fh3 xdrs (FSSTAT3args_fsroot objp) in
  XOk xdrs {| FSSTAT3args_fsroot := fsroot |}.

Definition xdr_FSSTAT3resok : xdrproc FSSTAT3resok := fun xdrs objp =>
  let? (xdrs, obj_attributes) := xdr_post_op_attr xdrs (FSSTAT3resok_obj_attributes objp) in
  let? (xdrs, tbytes) := xdr_size3 xdrs (FSSTAT3resok_tbytes objp) in
  let? (xdrs, fbytes) := xdr_size3 xdrs (FSSTAT3resok_fbytes objp) in
  let? (xdrs, abytes) := xdr_size3 xdrs (FSSTAT3resok_abytes objp) in
  let? (xdrs, tfiles) := xdr_size3 xdrs (FSSTAT3resok_tfiles objp) in
  let? (xdrs, ffiles) := xdr_size3 xdrs (FSSTAT3resok_ffiles objp) in
  let? (xdrs, afiles) := xdr_size3 xdrs (FSSTAT3resok_afiles objp) in
  let? (xdrs, invarsec) := xdr_uint32 xdrs (FSSTAT3resok_invarsec objp) in
  XOk xdrs {| FSSTAT3resok_obj_attributes := obj_attributes;
              FSSTAT3resok_tbytes := tbytes;
              FSSTAT3resok_fbytes := fbytes;
              FSSTAT3resok_abytes := abytes;
              FSSTAT3resok_tfiles := tfiles;
              FSSTAT3resok_ffiles := ffiles;
              FSSTAT3resok_afiles := afiles;
              FSSTAT3resok_invarsec := invarsec |}.

Definition xdr_FSSTAT3resfail : xdrproc FSSTAT3resfail := fun xdrs objp =>
  let? (xdrs, obj_attributes) := xdr_post_op_attr xdrs (FSSTAT3resfail_obj_attributes objp) in
  XOk xdrs {| FSSTAT3resfail_obj_attributes := obj_attributes |}.

Definition xdr_FSSTAT3res : xdrproc FSSTAT3res := fun xdrs objp =>
  let? (xdrs, status) := xdr_nfsstat3 xdrs (FSSTAT3res_status objp) in
  if status =? NFS3_OK then
    let? (xdrs, resok) := xdr_FSSTAT3resok xdrs (FSSTAT3res_resok objp) in
    XOk xdrs {| FSSTAT3res_status := status;
                FSSTAT3res_resok := resok;
                FSSTAT3res_resfail := FSSTAT3res_resfail objp |}
  else
    let? (xdrs, resfail) := xdr_FSSTAT3resfail xdrs (FSSTAT3res_resfail objp) in
    XOk xdrs {| FSSTAT3res_status := status;
                FSSTAT3res_resok := FSSTAT3res_resok objp;
                FSSTAT3res_resfail := resfail |}.

Definition xdr_FSINFOargs : xdrproc FSINFOargs := fun xdrs objp =>
  let? (xdrs, fsroot) := xdr_nfs_fh3 xdrs (FSINFOargs_fsroot objp) in
  XOk xdrs {| FSINFOargs_fsroot := fsroot |}.

Definition xdr_FSINFO3resok : xdrproc FSINFO3resok := fun xdrs objp =>
  let? (xdrs, obj_attributes) := xdr_post_op_attr xdrs (FSINFO3resok_obj_attributes objp) in
  let? (xdrs, rtmax) := xdr_uint32 xdrs (FSINFO3resok_rtmax objp) in
  let? (xdrs, rtpref) := xdr_uint32 xdrs (FSINFO3resok_rtpref objp) in
  let? (xdrs, rtmult) := xdr_uint32 xdrs (FSINFO3resok_rtmult objp) in
  let? (xdrs, wtmax) := xdr_uint32 xdrs (FSINFO3resok_wtmax objp) in
  let? (xdrs, wtpref) := xdr_uint32 xdrs (FSINFO3resok_wtpref objp) in
  let? (xdrs, wtmult) := xdr_uint32 xdrs (FSINFO3resok_wtmult objp) in
  let? (xdrs, dtpref) := xdr_uint32 xdrs (FSINFO3resok_dtpref objp) in
  let? (xdrs, maxfilesize) := xdr_size3 xdrs (FSINFO3resok_maxfilesize objp) in
  let? (xdrs, time_delta) := xdr_nfstime3 xdrs (FSINFO3resok_time_delta objp) in
  let? (xdrs, properties) := xdr_uint32 xdrs (FSINFO3resok_properties objp) in
  XOk xdrs {| FSINFO3resok_obj_attributes := obj_attributes;
              FSINFO3resok_rtmax := rtmax;
              FSINFO3resok_rtpref := rtpref;
              FSINFO3resok_rtmult := rtmult;
              FSINFO3resok_wtmax := wtmax;
              FSINFO3resok_wtpref := wtpref;
              FSINFO3resok_wtmult := wtmult;
              FSINFO3resok_dtpref := dtpref;
              FSINFO3resok_maxfilesize := maxfilesize;
              FSINFO3resok_time_delta := time_delta;
              FSINFO3resok_properties := properties |}.

Definition xdr_FSINFO3resfail : xdrproc FSINFO3resfail := fun xdrs objp =>
  let? (xdrs, obj_attributes) := xdr_post_op_attr xdrs (FSINFO3resfail_obj_attributes objp) in
  XOk xdrs {| FSINFO3resfail_obj_attributes := obj_attributes |}.

Definition xdr_FSINFO3res : xdrproc FSINFO3res := fun xdrs objp =>
  let? (xdrs, status) := xdr_nfsstat3 xdrs (FSINFO3res_status objp) in
  if status =? NFS3_OK then
    let? (xdrs, resok) := xdr_FSINFO3resok xdrs (FSINFO3res_resok objp) in
    XOk xdrs {| FSINFO3res_status := status;
                FSINFO3res_resok := resok;
                FSINFO3res_resfail := FSINFO3res_resfail objp |}
  else
    let? (xdrs, resfail) := xdr_FSINFO3resfail xdrs (FSINFO3res_resfail objp) in
    XOk xdrs {| FSINFO3res_status := status;
                FSINFO3res_resok := FSINFO3res_resok objp;
                FSINFO3res_resfail := resfail |}.

Definition xdr_PATHCONF3args : xdrproc PATHCONF3args := fun xdrs objp =>
  let? (xdrs, object) := xdr_nfs_fh3 xdrs (PATHCONF3args_object objp) in
  XOk xdrs {| PATHCONF3args_object := object |}.

(** The four booleans, one call each; the [buf == NULL] branch. *)
Definition PATHCONF3resok_bools (obj_attributes : post_op_attr) (linkmax name_max : uint32)
    : xdrproc PATHCONF3resok := fun xdrs objp =>
  let? (xdrs, no_trunc) := xdr_bool xdrs (PATHCONF3resok_no_trunc objp) in
  let? (xdrs, chown_restricted) := xdr_bool xdrs (PATHCONF3resok_chown_restricted objp) in
  let? (xdrs, case_insensitive) := xdr_bool xdrs (PATHCONF3resok_case_insensitive objp) in
  let? (xdrs, case_preserving) := xdr_bool xdrs (PATHCONF3resok_case_preserving objp) in
  XOk xdrs
      {| PATHCONF3resok_obj_attributes := obj_attributes;
         PATHCONF3resok_linkmax := linkmax;
         PATHCONF3resok_name_max := name_max;
         PATHCONF3resok_no_trunc := no_trunc;
         PATHCONF3resok_chown_restricted := chown_restricted;
         PATHCONF3resok_case_insensitive := case_insensitive;
         PATHCONF3resok_case_preserving := case_preserving |}.

(** IXDR_PUT_BOOL and IXDR_GET_BOOL: a 32-bit integer in network order, which
    [IXDR_GET_BOOL] does not reduce to 0 or 1. *)
Definition IXDR_PUT_BOOL (v : bool_t) : list Z := be 4 v.
Definition IXDR_GET_BOOL (buf : list Z) (i : nat) : bool_t :=
  let v := unbe (take 4 (drop (4 * i) buf)) in
  if v <? 2 ^ 31 then v else v - 2 ^ 32.
Definition BYTES_PER_XDR_UNIT : nat := 4.

Definition xdr_PATHCONF3resok : xdrproc PATHCONF3resok := fun xdrs objp =>
  match x_op xdrs with
  | XDR_ENCODE =>
      let? (xdrs, obj_attributes) := xdr_post_op_attr xdrs (PATHCONF3resok_obj_attributes objp) in
      let? (xdrs, linkmax) := xdr_uint32 xdrs (PATHCONF3resok_linkmax objp) in
      let? (xdrs, name_max) := xdr_uint32 xdrs (PATHCONF3resok_name_max objp) in
      match xdr_inline_put (4 * BYTES_PER_XDR_UNIT) xdrs with
      | None => PATHCONF3resok_bools obj_attributes linkmax name_max xdrs objp
      | Some put =>
          let no_trunc := PATHCONF3resok_no_trunc objp in
          let chown_restricted := PATHCONF3resok_chown_restricted objp in
          let case_insensitive := PATHCONF3resok_case_insensitive objp in
          let case_preserving := PATHCONF3resok_case_preserving objp in
          XOk (put (IXDR_PUT_BOOL no_trunc ++ IXDR_PUT_BOOL chown_restricted ++
                    IXDR_PUT_BOOL case_insensitive ++ IXDR_PUT_BOOL case_preserving))
            {| PATHCONF3resok_obj_attributes := obj_attributes;
               PATHCONF3resok_linkmax := linkmax;
               PATHCONF3resok_name_max := name_max;
               PATHCONF3resok_no_trunc := no_trunc;
               PATHCONF3resok_chown_restricted := chown_restricted;
               PATHCONF3resok_case_insensitive := case_insensitive;
               PATHCONF3resok_case_preserving := case_preserving |}
      end
  | XDR_DECODE =>
      let? (xdrs, obj_attributes) := xdr_post_op_attr xdrs (PATHCONF3resok_obj_attributes objp) in
      let? (xdrs, linkmax) := xdr_uint32 xdrs (PATHCONF3resok_linkmax objp) in
      let? (xdrs, name_max) := xdr_uint32 xdrs (PATHCONF3resok_name_max objp) in
      match xdr_inline_get (4 * BYTES_PER_XDR_UNIT) xdrs with
      | None => PATHCONF3resok_bools obj_attributes linkmax name_max xdrs objp
      | Some (buf, xdrs) =>
          let no_trunc := IXDR_GET_BOOL buf 0 in
          let chown_restricted := IXDR_GET_BOOL buf 1 in
          let case_insensitive := IXDR_GET_BOOL buf 2 in
          let case_preserving := IXDR_GET_BOOL buf 3 in
          XOk xdrs
            {| PATHCONF3resok_obj_attributes := obj_attributes;
               PATHCONF3resok_linkmax := linkmax;
               PATHCONF3resok_name_max := name_max;
               PATHCONF3resok_no_trunc := no_trunc;
               PATHCONF3resok_chown_restricted := chown_restricted;
               PATHCONF3resok_case_insensitive := case_insensitive;
               PATHCONF3resok_case_preserving := case_preserving |}
      end
  | XDR_FREE =>
      let? (xdrs, obj_attributes) := xdr_post_op_attr xdrs (PATHCONF3resok_obj_attributes objp) in
      let? (xdrs, linkmax) := xdr_uint32 xdrs (PATHCONF3resok_linkmax objp) in
      let? (xdrs, name_max) := xdr_uint32 xdrs (PATHCONF3resok_name_max objp) in
      PATHCONF3resok_bools obj_attributes linkmax name_max xdrs objp
  end.

Definition xdr_PATHCONF3resfail : xdrproc PATHCONF3resfail := fun xdrs objp =>
  let? (xdrs, obj_attributes) := xdr_post_op_attr xdrs (PATHCONF3resfail_obj_attributes objp) in
  XOk xdrs {| PATHCONF3resfail_obj_attributes := obj_attributes |}.

Definition xdr_PATHCONF3res : xdrproc PATHCONF3res := fun xdrs objp =>
  let? (xdrs, status) := xdr_nfsstat3 xdrs (PATHCONF3res_status objp) in
  if status =? NFS3_OK then
    let? (xdrs, resok) := xdr_PATHCONF3resok xdrs (PATHCONF3res_resok objp) in
    XOk xdrs {| PATHCONF3res_status := status;
                PATHCONF3res_resok := resok;
                PATHCONF3res_resfail := PATHCONF3res_resfail objp |}
  else
    let? (xdrs, resfail) := xdr_PATHCONF3resfail xdrs (PATHCONF3res_resfail objp) in
    XOk xdrs {| PATHCONF3res_status := status;
                PATHCONF3res_resok := PATHCONF3res_resok objp;
                PATHCONF3res_resfail := resfail |}.

Definition xdr_COMMIT3args : xdrproc COMMIT3args := fun xdrs objp =>
  let? (xdrs, file) := xdr_nfs_fh3 xdrs (COMMIT3args_file objp) in
  let? (xdrs, offset) := xdr_offset3 xdrs (COMMIT3args_offset objp) in
  let? (xdrs, count) := xdr_count3 xdrs (COMMIT3args_count objp) in
  XOk xdrs {| COMMIT3args_file := file;
              COMMIT3args_offset := offset;
              COMMIT3args_count := count |}.

Definition xdr_COMMIT3resok : xdrproc COMMIT3resok := fun xdrs objp =>
  let? (xdrs, file_wcc) := xdr_wcc_data xdrs (COMMIT3resok_file_wcc objp) in
  let? (xdrs, verf) := xdr_writeverf3 xdrs (COMMIT3resok_verf objp) in
  XOk xdrs {| COMMIT3resok_file_wcc := file_wcc; COMMIT3resok_verf := verf |}.

Definition xdr_COMMIT3resfail : xdrproc COMMIT3resfail := fun xdrs objp =>
  let? (xdrs, file_wcc) := xdr_wcc_data xdrs (COMMIT3resfail_file_wcc objp) in
  XOk xdrs {| COMMIT3resfail_file_wcc := file_wcc |}.

Definition xdr_COMMIT3res : xdrproc COMMIT3res := fun xdrs objp =>
  let? (xdrs, status) := xdr_nfsstat3 xdrs (COMMIT3res_status objp) in
  if status =? NFS3_OK then
    let? (xdrs, resok) := xdr_COMMIT3resok xdrs (COMMIT3res_resok objp) in
    XOk xdrs {| COMMIT3res_status := status;
                COMMIT3res_resok := resok;
                COMMIT3res_resfail := COMMIT3res_resfail objp |}
  else
    let? (xdrs, resfail) := xdr_COMMIT3resfail xdrs (COMMIT3res_resfail objp) in
    XOk xdrs {| COMMIT3res_status := status;
                COMMIT3res_resok := COMMIT3res_resok objp;
                COMMIT3res_resfail := resfail |}.

Definition xdr_fhandle3 : xdrproc fhandle3 := fun xdrs objp =>
  let? (xdrs, v) := xdr_bytes FHSIZE3 xdrs objp in XOk xdrs v.

Definition xdr_dirpath : xdrproc dirpath := fun xdrs objp =>
  let? (xdrs, v) := xdr_string MNTPATHLEN xdrs objp in XOk xdrs v.

Definition xdr_name : xdrproc name := fun xdrs objp =>
  let? (xdrs, v) := xdr_string MNTNAMLEN xdrs objp in XOk xdrs v.

Definition xdr_mountstat3 : xdrproc mountstat3 := fun xdrs objp =>
  let? (xdrs, v) := xdr_enum xdrs objp in XOk xdrs v.

Definition xdr_mountres3_ok : xdrproc mountres3_ok := fun xdrs objp =>
  let? (xdrs, fhandle) := xdr_fhandle3 xdrs (mountres3_ok_fhandle objp) in
  let? (xdrs, auth_flavors) := xdr_array MAXLEN xdr_int xdrs (mountres3_ok_auth_flavors objp) in
  XOk xdrs {| mountres3_ok_fhandle := fhandle;
              mountres3_ok_auth_flavors := auth_flavors |}.

Definition xdr_mountres3 : xdrproc mountres3 := fun xdrs objp =>
  let? (xdrs, fhs_status) := xdr_mountstat3 xdrs (mountres3_fhs_status objp) in
  if fhs_status =? MNT3_OK then
    let? (xdrs, mountinfo) := xdr_mountres3_ok xdrs (mountres3_mountinfo objp) in
    XOk xdrs {| mountres3_fhs_status := fhs_status; mountres3_mountinfo := mountinfo |}
  else
    XOk xdrs {| mountres3_fhs_status := fhs_status;
                mountres3_mountinfo := mountres3_mountinfo objp |}.

(** The zeroed object [xdr_pointer] allocates for a [struct mountbody]. *)
Definition zero_mountbody : mountbody :=
  Node {| mountbody_body_ml_hostname := PNull; mountbody_body_ml_directory := PNull |} PNull.

(** [xdr_mountbody] and [xdr_mountlist] call each other. *)
Fixpoint xdr_mountbody (fuel : nat) : xdrproc mountbody := fun xdrs objp =>
  match fuel with
  | O => XFuel
  | S fuel =>
      let? (xdrs, ml_hostname) := xdr_name xdrs (mountbody_body_ml_hostname (node_body objp)) in
      let? (xdrs, ml_directory) := xdr_dirpath xdrs (mountbody_body_ml_directory (node_body objp)) in
      let? (xdrs, ml_next) :=
        (let? (xdrs, p) := xdr_pointer zero_mountbody (xdr_mountbody fuel) xdrs (node_next objp) in
         XOk xdrs p) in
      XOk xdrs (Node {| mountbody_body_ml_hostname := ml_hostname; mountbody_body_ml_directory := ml_directory |} ml_next)
  end.

Definition xdr_mountlist : xdrproc mountlist := fun xdrs objp =>
  let? (xdrs, p) := xdr_pointer zero_mountbody (xdr_mountbody (chain_fuel xdrs objp)) xdrs objp in
  XOk xdrs p.

(** The zeroed object [xdr_pointer] allocates for a [struct groupnode]. *)
Definition zero_groupnode : groupnode :=
  Node {| groupnode_body_gr_name := PNull |} PNull.

(** [xdr_groupnode] and [xdr_groups] call each other. *)
Fixpoint xdr_groupnode (fuel : nat) : xdrproc groupnode := fun xdrs objp =>
  match fuel with
  | O => XFuel
  | S fuel =>
      let? (xdrs, gr_name) := xdr_name xdrs (groupnode_body_gr_name (node_body objp)) in
      let? (xdrs, gr_next) :=
        (let? (xdrs, p) := xdr_pointer zero_groupnode (xdr_groupnode fuel) xdrs (node_next objp) in
         XOk xdrs p) in
      XOk xdrs (Node {| groupnode_body_gr_name := gr_name |} gr_next)
  end.

Definition xdr_groups : xdrproc groups := fun xdrs objp =>
  let? (xdrs, p) := xdr_pointer zero_groupnode (xdr_groupnode (chain_fuel xdrs objp)) xdrs objp in
  XOk xdrs p.

(** The zeroed object [xdr_pointer] allocates for a [struct exportnode]. *)
Definition zero_exportnode : exportnode :=
  Node {| exportnode_body_ex_dir := PNull; exportnode_body_ex_groups := PNull |} PNull.

(** [xdr_exportnode] and [xdr_exports] call each other. *)
Fixpoint xdr_exportnode (fuel : nat) : xdrproc exportnode := fun xdrs objp =>
  match fuel with
  | O => XFuel
  | S fuel =>
      let? (xdrs, ex_dir) := xdr_dirpath xdrs (exportnode_body_ex_dir (node_body objp)) in
      let? (xdrs, ex_groups) := xdr_groups xdrs (exportnode_body_ex_groups (node_body objp)) in
      let? (xdrs, ex_next) :=
        (let? (xdrs, p) := xdr_pointer zero_exportnode (xdr_exportnode fuel) xdrs (node_next objp) in
         XOk xdrs p) in
      XOk xdrs (Node {| exportnode_body_ex_dir := ex_dir; exportnode_body_ex_groups := ex_groups |} ex_next)
  end.

Definition xdr_exports : xdrproc exports := fun xdrs objp =>
  let? (xdrs, p) := xdr_pointer zero_exportnode (xdr_exportnode (chain_fuel xdrs objp)) xdrs objp in
  XOk xdrs p.

End nfs3_xdr.
