(* ===== verification/NfsXdrCorrect.v ===== *)
(** * The XDR routines implement the protocol

    For every routine [xdr_T] of [nfs3_xdr.c], [xdr_T_codec] says that it
    implements the wire description [T_w] of [nfs3.x]. *)

From S2P Require Import Prelude Xdr XdrList NfsTypes NfsSpec NfsXdr.

(** Proves [Codec pub xdr_T T_w] from the routine and the description. *)
Tactic Notation "routine" reference(r) reference(w) :=
  unfold r, w; try solve [apply codec_wrap; eauto with xdr]; xdr_codec.

(** Zeroed memory is ready for decoding. *)
Ltac zero_fresh :=
  repeat first
    [ done | split | intro
    | match goal with |- context [if ?b then _ else _] => destruct b end ].

Lemma xdr_uint64_codec `{HL : XdrLaws} pub : Codec pub xdr_uint64 uint64_w.
Proof. routine xdr_uint64 uint64_w. Qed.
#[export] Hint Resolve xdr_uint64_codec : xdr.

Lemma xdr_int64_codec `{HL : XdrLaws} pub : Codec pub xdr_int64 int64_w.
Proof. routine xdr_int64 int64_w. Qed.
#[export] Hint Resolve xdr_int64_codec : xdr.

Lemma xdr_uint32_codec `{HL : XdrLaws} pub : Codec pub xdr_uint32 uint32_w.
Proof. routine xdr_uint32 uint32_w. Qed.
#[export] Hint Resolve xdr_uint32_codec : xdr.

Lemma xdr_int32_codec `{HL : XdrLaws} pub : Codec pub xdr_int32 int32_w.
Proof. routine xdr_int32 int32_w. Qed.
#[export] Hint Resolve xdr_int32_codec : xdr.

Lemma xdr_filename3_codec `{HL : XdrLaws} pub : Codec pub xdr_filename3 filename3_w.
Proof. routine xdr_filename3 filename3_w. Qed.
#[export] Hint Resolve xdr_filename3_codec : xdr.

Lemma xdr_nfspath3_codec `{HL : XdrLaws} pub : Codec pub xdr_nfspath3 nfspath3_w.
Proof. routine xdr_nfspath3 nfspath3_w. Qed.
#[export] Hint Resolve xdr_nfspath3_codec : xdr.

Lemma xdr_fileid3_codec `{HL : XdrLaws} pub : Codec pub xdr_fileid3 fileid3_w.
Proof. routine xdr_fileid3 fileid3_w. Qed.
#[export] Hint Resolve xdr_fileid3_codec : xdr.

Lemma xdr_cookie3_codec `{HL : XdrLaws} pub : Codec pub xdr_cookie3 cookie3_w.
Proof. routine xdr_cookie3 cookie3_w. Qed.
#[export] Hint Resolve xdr_cookie3_codec : xdr.

Lemma xdr_cookieverf3_codec `{HL : XdrLaws} pub : Codec pub xdr_cookieverf3 cookieverf3_w.
Proof. routine xdr_cookieverf3 cookieverf3_w. Qed.
#[export] Hint Resolve xdr_cookieverf3_codec : xdr.

Lemma xdr_createverf3_codec `{HL : XdrLaws} pub : Codec pub xdr_createverf3 createverf3_w.
Proof. routine xdr_createverf3 createverf3_w. Qed.
#[export] Hint Resolve xdr_createverf3_codec : xdr.

Lemma xdr_writeverf3_codec `{HL : XdrLaws} pub : Codec pub xdr_writeverf3 writeverf3_w.
Proof. routine xdr_writeverf3 writeverf3_w. Qed.
#[export] Hint Resolve xdr_writeverf3_codec : xdr.

Lemma xdr_uid3_codec `{HL : XdrLaws} pub : Codec pub xdr_uid3 uid3_w.
Proof. routine xdr_uid3 uid3_w. Qed.
#[export] Hint Resolve xdr_uid3_codec : xdr.

Lemma xdr_gid3_codec `{HL : XdrLaws} pub : Codec pub xdr_gid3 gid3_w.
Proof. routine xdr_gid3 gid3_w. Qed.
#[export] Hint Resolve xdr_gid3_codec : xdr.

Lemma xdr_size3_codec `{HL : XdrLaws} pub : Codec pub xdr_size3 size3_w.
Proof. routine xdr_size3 size3_w. Qed.
#[export] Hint Resolve xdr_size3_codec : xdr.

Lemma xdr_offset3_codec `{HL : XdrLaws} pub : Codec pub xdr_offset3 offset3_w.
Proof. routine xdr_offset3 offset3_w. Qed.
#[export] Hint Resolve xdr_offset3_codec : xdr.

Lemma xdr_mode3_codec `{HL : XdrLaws} pub : Codec pub xdr_mode3 mode3_w.
Proof. routine xdr_mode3 mode3_w. Qed.
#[export] Hint Resolve xdr_mode3_codec : xdr.

Lemma xdr_count3_codec `{HL : XdrLaws} pub : Codec pub xdr_count3 count3_w.
Proof. routine xdr_count3 count3_w. Qed.
#[export] Hint Resolve xdr_count3_codec : xdr.

Lemma xdr_nfsstat3_codec `{HL : XdrLaws} pub : Codec pub xdr_nfsstat3 nfsstat3_w.
Proof. routine xdr_nfsstat3 nfsstat3_w. Qed.
#[export] Hint Resolve xdr_nfsstat3_codec : xdr.

Lemma xdr_ftype3_codec `{HL : XdrLaws} pub : Codec pub xdr_ftype3 ftype3_w.
Proof. routine xdr_ftype3 ftype3_w. Qed.
#[export] Hint Resolve xdr_ftype3_codec : xdr.

Lemma xdr_specdata3_codec `{HL : XdrLaws} pub : Codec pub xdr_specdata3 specdata3_w.
Proof. routine xdr_specdata3 specdata3_w. Qed.
#[export] Hint Resolve xdr_specdata3_codec : xdr.

Lemma xdr_nfs_fh3_codec `{HL : XdrLaws} pub : Codec pub xdr_nfs_fh3 nfs_fh3_w.
Proof. routine xdr_nfs_fh3 nfs_fh3_w. Qed.
#[export] Hint Resolve xdr_nfs_fh3_codec : xdr.

Lemma xdr_nfstime3_codec `{HL : XdrLaws} pub : Codec pub xdr_nfstime3 nfstime3_w.
Proof. routine xdr_nfstime3 nfstime3_w. Qed.
#[export] Hint Resolve xdr_nfstime3_codec : xdr.

Lemma xdr_fattr3_codec `{HL : XdrLaws} pub : Codec pub xdr_fattr3 fattr3_w.
Proof. routine xdr_fattr3 fattr3_w. Qed.
#[export] Hint Resolve xdr_fattr3_codec : xdr.

Lemma xdr_post_op_attr_codec `{HL : XdrLaws} pub : Codec pub xdr_post_op_attr post_op_attr_w.
Proof. routine xdr_post_op_attr post_op_attr_w. Qed.
#[export] Hint Resolve xdr_post_op_attr_codec : xdr.

Lemma xdr_wcc_attr_codec `{HL : XdrLaws} pub : Codec pub xdr_wcc_attr wcc_attr_w.
Proof. routine xdr_wcc_attr wcc_attr_w. Qed.
#[export] Hint Resolve xdr_wcc_attr_codec : xdr.

Lemma xdr_pre_op_attr_codec `{HL : XdrLaws} pub : Codec pub xdr_pre_op_attr pre_op_attr_w.
Proof. routine xdr_pre_op_attr pre_op_attr_w. Qed.
#[export] Hint Resolve xdr_pre_op_attr_codec : xdr.

Lemma xdr_wcc_data_codec `{HL : XdrLaws} pub : Codec pub xdr_wcc_data wcc_data_w.
Proof. routine xdr_wcc_data wcc_data_w. Qed.
#[export] Hint Resolve xdr_wcc_data_codec : xdr.

(** A handle that is ready for decoding owns nothing. *)
Lemma nfs_fh3_fresh d : w_fresh nfs_fh3_w d -> w_owned nfs_fh3_w d = 0%nat /\ w_clean nfs_fh3_w d.
Proof. apply bytes_fresh. Qed.

Lemma xdr_post_op_fh3_codec `{HL : XdrLaws} pub : Codec pub xdr_post_op_fh3 post_op_fh3_w.
Proof.
  routine xdr_post_op_fh3 post_op_fh3_w.
  apply safe_ret; cbn; xdr_if; cbn; by apply nfs_fh3_fresh.
Qed.
#[export] Hint Resolve xdr_post_op_fh3_codec : xdr.

Lemma xdr_time_how_codec `{HL : XdrLaws} pub : Codec pub xdr_time_how time_how_w.
Proof. routine xdr_time_how time_how_w. Qed.
#[export] Hint Resolve xdr_time_how_codec : xdr.

Lemma xdr_set_mode3_codec `{HL : XdrLaws} pub : Codec pub xdr_set_mode3 set_mode3_w.
Proof. routine xdr_set_mode3 set_mode3_w. Qed.
#[export] Hint Resolve xdr_set_mode3_codec : xdr.

Lemma xdr_set_uid3_codec `{HL : XdrLaws} pub : Codec pub xdr_set_uid3 set_uid3_w.
Proof. routine xdr_set_uid3 set_uid3_w. Qed.
#[export] Hint Resolve xdr_set_uid3_codec : xdr.

Lemma xdr_set_gid3_codec `{HL : XdrLaws} pub : Codec pub xdr_set_gid3 set_gid3_w.
Proof. routine xdr_set_gid3 set_gid3_w. Qed.
#[export] Hint Resolve xdr_set_gid3_codec : xdr.

Lemma xdr_set_size3_codec `{HL : XdrLaws} pub : Codec pub xdr_set_size3 set_size3_w.
Proof. routine xdr_set_size3 set_size3_w. Qed.
#[export] Hint Resolve xdr_set_size3_codec : xdr.

Lemma xdr_set_atime_codec `{HL : XdrLaws} pub : Codec pub xdr_set_atime set_atime_w.
Proof. routine xdr_set_atime set_atime_w. Qed.
#[export] Hint Resolve xdr_set_atime_codec : xdr.

Lemma xdr_set_mtime_codec `{HL : XdrLaws} pub : Codec pub xdr_set_mtime set_mtime_w.
Proof. routine xdr_set_mtime set_mtime_w. Qed.
#[export] Hint Resolve xdr_set_mtime_codec : xdr.

Lemma xdr_sattr3_codec `{HL : XdrLaws} pub : Codec pub xdr_sattr3 sattr3_w.
Proof. routine xdr_sattr3 sattr3_w. Qed.
#[export] Hint Resolve xdr_sattr3_codec : xdr.

Lemma xdr_diropargs3_codec `{HL : XdrLaws} pub : Codec pub xdr_diropargs3 diropargs3_w.
Proof. routine xdr_diropargs3 diropargs3_w. Qed.
#[export] Hint Resolve xdr_diropargs3_codec : xdr.

Lemma xdr_GETATTR3args_codec `{HL : XdrLaws} pub : Codec pub xdr_GETATTR3args GETATTR3args_w.
Proof. routine xdr_GETATTR3args GETATTR3args_w. Qed.
#[export] Hint Resolve xdr_GETATTR3args_codec : xdr.

Lemma xdr_GETATTR3resok_codec `{HL : XdrLaws} pub : Codec pub xdr_GETATTR3resok GETATTR3resok_w.
Proof. routine xdr_GETATTR3resok GETATTR3resok_w. Qed.
#[export] Hint Resolve xdr_GETATTR3resok_codec : xdr.

Lemma xdr_GETATTR3res_codec `{HL : XdrLaws} pub : Codec pub xdr_GETATTR3res GETATTR3res_w.
Proof. routine xdr_GETATTR3res GETATTR3res_w. Qed.
#[export] Hint Resolve xdr_GETATTR3res_codec : xdr.

Lemma xdr_sattrguard3_codec `{HL : XdrLaws} pub : Codec pub xdr_sattrguard3 sattrguard3_w.
Proof. routine xdr_sattrguard3 sattrguard3_w. Qed.
#[export] Hint Resolve xdr_sattrguard3_codec : xdr.

Lemma xdr_SETATTR3args_codec `{HL : XdrLaws} pub : Codec pub xdr_SETATTR3args SETATTR3args_w.
Proof. routine xdr_SETATTR3args SETATTR3args_w. Qed.
#[export] Hint Resolve xdr_SETATTR3args_codec : xdr.

Lemma xdr_SETATTR3resok_codec `{HL : XdrLaws} pub : Codec pub xdr_SETATTR3resok SETATTR3resok_w.
Proof. routine xdr_SETATTR3resok SETATTR3resok_w. Qed.
#[export] Hint Resolve xdr_SETATTR3resok_codec : xdr.

Lemma xdr_SETATTR3resfail_codec `{HL : XdrLaws} pub : Codec pub xdr_SETATTR3resfail SETATTR3resfail_w.
Proof. routine xdr_SETATTR3resfail SETATTR3resfail_w. Qed.
#[export] Hint Resolve xdr_SETATTR3resfail_codec : xdr.

Lemma xdr_SETATTR3res_codec `{HL : XdrLaws} pub : Codec pub xdr_SETATTR3res SETATTR3res_w.
Proof. routine xdr_SETATTR3res SETATTR3res_w. Qed.
#[export] Hint Resolve xdr_SETATTR3res_codec : xdr.

Lemma xdr_LOOKUP3args_codec `{HL : XdrLaws} pub : Codec pub xdr_LOOKUP3args LOOKUP3args_w.
Proof. routine xdr_LOOKUP3args LOOKUP3args_w. Qed.
#[export] Hint Resolve xdr_LOOKUP3args_codec : xdr.

Lemma xdr_LOOKUP3resok_codec `{HL : XdrLaws} pub : Codec pub xdr_LOOKUP3resok LOOKUP3resok_w.
Proof. routine xdr_LOOKUP3resok LOOKUP3resok_w. Qed.
#[export] Hint Resolve xdr_LOOKUP3resok_codec : xdr.

Lemma xdr_LOOKUP3resfail_codec `{HL : XdrLaws} pub : Codec pub xdr_LOOKUP3resfail LOOKUP3resfail_w.
Proof. routine xdr_LOOKUP3resfail LOOKUP3resfail_w. Qed.
#[export] Hint Resolve xdr_LOOKUP3resfail_codec : xdr.

Lemma xdr_LOOKUP3res_codec `{HL : XdrLaws} pub : Codec pub xdr_LOOKUP3res LOOKUP3res_w.
Proof. routine xdr_LOOKUP3res LOOKUP3res_w. Qed.
#[export] Hint Resolve xdr_LOOKUP3res_codec : xdr.

Lemma xdr_ACCESS3args_codec `{HL : XdrLaws} pub : Codec pub xdr_ACCESS3args ACCESS3args_w.
Proof. routine xdr_ACCESS3args ACCESS3args_w. Qed.
#[export] Hint Resolve xdr_ACCESS3args_codec : xdr.

Lemma xdr_ACCESS3resok_codec `{HL : XdrLaws} pub : Codec pub xdr_ACCESS3resok ACCESS3resok_w.
Proof. routine xdr_ACCESS3resok ACCESS3resok_w. Qed.
#[export] Hint Resolve xdr_ACCESS3resok_codec : xdr.

Lemma xdr_ACCESS3resfail_codec `{HL : XdrLaws} pub : Codec pub xdr_ACCESS3resfail ACCESS3resfail_w.
Proof. routine xdr_ACCESS3resfail ACCESS3resfail_w. Qed.
#[export] Hint Resolve xdr_ACCESS3resfail_codec : xdr.

Lemma xdr_ACCESS3res_codec `{HL : XdrLaws} pub : Codec pub xdr_ACCESS3res ACCESS3res_w.
Proof. routine xdr_ACCESS3res ACCESS3res_w. Qed.
#[export] Hint Resolve xdr_ACCESS3res_codec : xdr.

Lemma xdr_READLINK3args_codec `{HL : XdrLaws} pub : Codec pub xdr_READLINK3args READLINK3args_w.
Proof. routine xdr_READLINK3args READLINK3args_w. Qed.
#[export] Hint Resolve xdr_READLINK3args_codec : xdr.

Lemma xdr_READLINK3resok_codec `{HL : XdrLaws} pub : Codec pub xdr_READLINK3resok READLINK3resok_w.
Proof. routine xdr_READLINK3resok READLINK3resok_w. Qed.
#[export] Hint Resolve xdr_READLINK3resok_codec : xdr.

Lemma xdr_READLINK3resfail_codec `{HL : XdrLaws} pub : Codec pub xdr_READLINK3resfail READLINK3resfail_w.
Proof. routine xdr_READLINK3resfail READLINK3resfail_w. Qed.
#[export] Hint Resolve xdr_READLINK3resfail_codec : xdr.

Lemma xdr_READLINK3res_codec `{HL : XdrLaws} pub : Codec pub xdr_READLINK3res READLINK3res_w.
Proof. routine xdr_READLINK3res READLINK3res_w. Qed.
#[export] Hint Resolve xdr_READLINK3res_codec : xdr.

Lemma xdr_READ3args_codec `{HL : XdrLaws} pub : Codec pub xdr_READ3args READ3args_w.
Proof. routine xdr_READ3args READ3args_w. Qed.
#[export] Hint Resolve xdr_READ3args_codec : xdr.

Lemma xdr_READ3resok_codec `{HL : XdrLaws} pub : Codec pub xdr_READ3resok (READ3resok_w pub).
Proof.
  unfold READ3resok_w, payload_w. routine xdr_READ3resok READ3resok_w.
Qed.
#[export] Hint Resolve xdr_READ3resok_codec : xdr.

Lemma xdr_READ3resfail_codec `{HL : XdrLaws} pub : Codec pub xdr_READ3resfail READ3resfail_w.
Proof. routine xdr_READ3resfail READ3resfail_w. Qed.
#[export] Hint Resolve xdr_READ3resfail_codec : xdr.

Lemma xdr_READ3res_codec `{HL : XdrLaws} pub : Codec pub xdr_READ3res (READ3res_w pub).
Proof. routine xdr_READ3res READ3res_w. Qed.
#[export] Hint Resolve xdr_READ3res_codec : xdr.

Lemma xdr_stable_how_codec `{HL : XdrLaws} pub : Codec pub xdr_stable_how stable_how_w.
Proof. routine xdr_stable_how stable_how_w. Qed.
#[export] Hint Resolve xdr_stable_how_codec : xdr.

Lemma xdr_WRITE3args_codec `{HL : XdrLaws} pub : Codec pub xdr_WRITE3args (WRITE3args_w pub).
Proof.
  unfold WRITE3args_w, payload_w. routine xdr_WRITE3args WRITE3args_w.
Qed.
#[export] Hint Resolve xdr_WRITE3args_codec : xdr.

Lemma xdr_WRITE3resok_codec `{HL : XdrLaws} pub : Codec pub xdr_WRITE3resok WRITE3resok_w.
Proof. routine xdr_WRITE3resok WRITE3resok_w. Qed.
#[export] Hint Resolve xdr_WRITE3resok_codec : xdr.

Lemma xdr_WRITE3resfail_codec `{HL : XdrLaws} pub : Codec pub xdr_WRITE3resfail WRITE3resfail_w.
Proof. routine xdr_WRITE3resfail WRITE3resfail_w. Qed.
#[export] Hint Resolve xdr_WRITE3resfail_codec : xdr.

Lemma xdr_WRITE3res_codec `{HL : XdrLaws} pub : Codec pub xdr_WRITE3res WRITE3res_w.
Proof. routine xdr_WRITE3res WRITE3res_w. Qed.
#[export] Hint Resolve xdr_WRITE3res_codec : xdr.

Lemma xdr_createmode3_codec `{HL : XdrLaws} pub : Codec pub xdr_createmode3 createmode3_w.
Proof. routine xdr_createmode3 createmode3_w. Qed.
#[export] Hint Resolve xdr_createmode3_codec : xdr.

Lemma xdr_createhow3_codec `{HL : XdrLaws} pub : Codec pub xdr_createhow3 createhow3_w.
Proof. routine xdr_createhow3 createhow3_w. Qed.
#[export] Hint Resolve xdr_createhow3_codec : xdr.

Lemma xdr_CREATE3args_codec `{HL : XdrLaws} pub : Codec pub xdr_CREATE3args CREATE3args_w.
Proof. routine xdr_CREATE3args CREATE3args_w. Qed.
#[export] Hint Resolve xdr_CREATE3args_codec : xdr.

Lemma xdr_CREATE3resok_codec `{HL : XdrLaws} pub : Codec pub xdr_CREATE3resok CREATE3resok_w.
Proof. routine xdr_CREATE3resok CREATE3resok_w. Qed.
#[export] Hint Resolve xdr_CREATE3resok_codec : xdr.

Lemma xdr_CREATE3resfail_codec `{HL : XdrLaws} pub : Codec pub xdr_CREATE3resfail CREATE3resfail_w.
Proof. routine xdr_CREATE3resfail CREATE3resfail_w. Qed.
#[export] Hint Resolve xdr_CREATE3resfail_codec : xdr.

Lemma xdr_CREATE3res_codec `{HL : XdrLaws} pub : Codec pub xdr_CREATE3res CREATE3res_w.
Proof. routine xdr_CREATE3res CREATE3res_w. Qed.
#[export] Hint Resolve xdr_CREATE3res_codec : xdr.

Lemma xdr_MKDIR3args_codec `{HL : XdrLaws} pub : Codec pub xdr_MKDIR3args MKDIR3args_w.
Proof. routine xdr_MKDIR3args MKDIR3args_w. Qed.
#[export] Hint Resolve xdr_MKDIR3args_codec : xdr.

Lemma xdr_MKDIR3resok_codec `{HL : XdrLaws} pub : Codec pub xdr_MKDIR3resok MKDIR3resok_w.
Proof. routine xdr_MKDIR3resok MKDIR3resok_w. Qed.
#[export] Hint Resolve xdr_MKDIR3resok_codec : xdr.

Lemma xdr_MKDIR3resfail_codec `{HL : XdrLaws} pub : Codec pub xdr_MKDIR3resfail MKDIR3resfail_w.
Proof. routine xdr_MKDIR3resfail MKDIR3resfail_w. Qed.
#[export] Hint Resolve xdr_MKDIR3resfail_codec : xdr.

Lemma xdr_MKDIR3res_codec `{HL : XdrLaws} pub : Codec pub xdr_MKDIR3res MKDIR3res_w.
Proof. routine xdr_MKDIR3res MKDIR3res_w. Qed.
#[export] Hint Resolve xdr_MKDIR3res_codec : xdr.

Lemma xdr_symlinkdata3_codec `{HL : XdrLaws} pub : Codec pub xdr_symlinkdata3 symlinkdata3_w.
Proof. routine xdr_symlinkdata3 symlinkdata3_w. Qed.
#[export] Hint Resolve xdr_symlinkdata3_codec : xdr.

Lemma xdr_SYMLINK3args_codec `{HL : XdrLaws} pub : Codec pub xdr_SYMLINK3args SYMLINK3args_w.
Proof. routine xdr_SYMLINK3args SYMLINK3args_w. Qed.
#[export] Hint Resolve xdr_SYMLINK3args_codec : xdr.

Lemma xdr_SYMLINK3resok_codec `{HL : XdrLaws} pub : Codec pub xdr_SYMLINK3resok SYMLINK3resok_w.
Proof. routine xdr_SYMLINK3resok SYMLINK3resok_w. Qed.
#[export] Hint Resolve xdr_SYMLINK3resok_codec : xdr.

Lemma xdr_SYMLINK3resfail_codec `{HL : XdrLaws} pub : Codec pub xdr_SYMLINK3resfail SYMLINK3resfail_w.
Proof. routine xdr_SYMLINK3resfail SYMLINK3resfail_w. Qed.
#[export] Hint Resolve xdr_SYMLINK3resfail_codec : xdr.

Lemma xdr_SYMLINK3res_codec `{HL : XdrLaws} pub : Codec pub xdr_SYMLINK3res SYMLINK3res_w.
Proof. routine xdr_SYMLINK3res SYMLINK3res_w. Qed.
#[export] Hint Resolve xdr_SYMLINK3res_codec : xdr.

Lemma xdr_devicedata3_codec `{HL : XdrLaws} pub : Codec pub xdr_devicedata3 devicedata3_w.
Proof. routine xdr_devicedata3 devicedata3_w. Qed.
#[export] Hint Resolve xdr_devicedata3_codec : xdr.

Lemma xdr_mknoddata3_codec `{HL : XdrLaws} pub : Codec pub xdr_mknoddata3 mknoddata3_w.
Proof. routine xdr_mknoddata3 mknoddata3_w. Qed.
#[export] Hint Resolve xdr_mknoddata3_codec : xdr.

Lemma xdr_MKNOD3args_codec `{HL : XdrLaws} pub : Codec pub xdr_MKNOD3args MKNOD3args_w.
Proof. routine xdr_MKNOD3args MKNOD3args_w. Qed.
#[export] Hint Resolve xdr_MKNOD3args_codec : xdr.

Lemma xdr_MKNOD3resok_codec `{HL : XdrLaws} pub : Codec pub xdr_MKNOD3resok MKNOD3resok_w.
Proof. routine xdr_MKNOD3resok MKNOD3resok_w. Qed.
#[export] Hint Resolve xdr_MKNOD3resok_codec : xdr.

Lemma xdr_MKNOD3resfail_codec `{HL : XdrLaws} pub : Codec pub xdr_MKNOD3resfail MKNOD3resfail_w.
Proof. routine xdr_MKNOD3resfail MKNOD3resfail_w. Qed.
#[export] Hint Resolve xdr_MKNOD3resfail_codec : xdr.

Lemma xdr_MKNOD3res_codec `{HL : XdrLaws} pub : Codec pub xdr_MKNOD3res MKNOD3res_w.
Proof. routine xdr_MKNOD3res MKNOD3res_w. Qed.
#[export] Hint Resolve xdr_MKNOD3res_codec : xdr.

Lemma xdr_REMOVE3args_codec `{HL : XdrLaws} pub : Codec pub xdr_REMOVE3args REMOVE3args_w.
Proof. routine xdr_REMOVE3args REMOVE3args_w. Qed.
#[export] Hint Resolve xdr_REMOVE3args_codec : xdr.

Lemma xdr_REMOVE3resok_codec `{HL : XdrLaws} pub : Codec pub xdr_REMOVE3resok REMOVE3resok_w.
Proof. routine xdr_REMOVE3resok REMOVE3resok_w. Qed.
#[export] Hint Resolve xdr_REMOVE3resok_codec : xdr.

Lemma xdr_REMOVE3resfail_codec `{HL : XdrLaws} pub : Codec pub xdr_REMOVE3resfail REMOVE3resfail_w.
Proof. routine xdr_REMOVE3resfail REMOVE3resfail_w. Qed.
#[export] Hint Resolve xdr_REMOVE3resfail_codec : xdr.

Lemma xdr_REMOVE3res_codec `{HL : XdrLaws} pub : Codec pub xdr_REMOVE3res REMOVE3res_w.
Proof. routine xdr_REMOVE3res REMOVE3res_w. Qed.
#[export] Hint Resolve xdr_REMOVE3res_codec : xdr.

Lemma xdr_RMDIR3args_codec `{HL : XdrLaws} pub : Codec pub xdr_RMDIR3args RMDIR3args_w.
Proof. routine xdr_RMDIR3args RMDIR3args_w. Qed.
#[export] Hint Resolve xdr_RMDIR3args_codec : xdr.

Lemma xdr_RMDIR3resok_codec `{HL : XdrLaws} pub : Codec pub xdr_RMDIR3resok RMDIR3resok_w.
Proof. routine xdr_RMDIR3resok RMDIR3resok_w. Qed.
#[export] Hint Resolve xdr_RMDIR3resok_codec : xdr.

Lemma xdr_RMDIR3resfail_codec `{HL : XdrLaws} pub : Codec pub xdr_RMDIR3resfail RMDIR3resfail_w.
Proof. routine xdr_RMDIR3resfail RMDIR3resfail_w. Qed.
#[export] Hint Resolve xdr_RMDIR3resfail_codec : xdr.

Lemma xdr_RMDIR3res_codec `{HL : XdrLaws} pub : Codec pub xdr_RMDIR3res RMDIR3res_w.
Proof. routine xdr_RMDIR3res RMDIR3res_w. Qed.
#[export] Hint Resolve xdr_RMDIR3res_codec : xdr.

Lemma xdr_RENAME3args_codec `{HL : XdrLaws} pub : Codec pub xdr_RENAME3args RENAME3args_w.
Proof. routine xdr_RENAME3args RENAME3args_w. Qed.
#[export] Hint Resolve xdr_RENAME3args_codec : xdr.

Lemma xdr_RENAME3resok_codec `{HL : XdrLaws} pub : Codec pub xdr_RENAME3resok RENAME3resok_w.
Proof. routine xdr_RENAME3resok RENAME3resok_w. Qed.
#[export] Hint Resolve xdr_RENAME3resok_codec : xdr.

Lemma xdr_RENAME3resfail_codec `{HL : XdrLaws} pub : Codec pub xdr_RENAME3resfail RENAME3resfail_w.
Proof. routine xdr_RENAME3resfail RENAME3resfail_w. Qed.
#[export] Hint Resolve xdr_RENAME3resfail_codec : xdr.

Lemma xdr_RENAME3res_codec `{HL : XdrLaws} pub : Codec pub xdr_RENAME3res RENAME3res_w.
Proof. routine xdr_RENAME3res RENAME3res_w. Qed.
#[export] Hint Resolve xdr_RENAME3res_codec : xdr.

Lemma xdr_LINK3args_codec `{HL : XdrLaws} pub : Codec pub xdr_LINK3args LINK3args_w.
Proof. routine xdr_LINK3args LINK3args_w. Qed.
#[export] Hint Resolve xdr_LINK3args_codec : xdr.

Lemma xdr_LINK3resok_codec `{HL : XdrLaws} pub : Codec pub xdr_LINK3resok LINK3resok_w.
Proof. routine xdr_LINK3resok LINK3resok_w. Qed.
#[export] Hint Resolve xdr_LINK3resok_codec : xdr.

Lemma xdr_LINK3resfail_codec `{HL : XdrLaws} pub : Codec pub xdr_LINK3resfail LINK3resfail_w.
Proof. routine xdr_LINK3resfail LINK3resfail_w. Qed.
#[export] Hint Resolve xdr_LINK3resfail_codec : xdr.

Lemma xdr_LINK3res_codec `{HL : XdrLaws} pub : Codec pub xdr_LINK3res LINK3res_w.
Proof. routine xdr_LINK3res LINK3res_w. Qed.
#[export] Hint Resolve xdr_LINK3res_codec : xdr.

Lemma xdr_READDIR3args_codec `{HL : XdrLaws} pub : Codec pub xdr_READDIR3args READDIR3args_w.
Proof. routine xdr_READDIR3args READDIR3args_w. Qed.
#[export] Hint Resolve xdr_READDIR3args_codec : xdr.

(** The members of a [struct entry3] other than the link. *)
Definition xdr_entry3_body {P : XdrPrims} : xdrproc entry3_body := fun xdrs objp =>
  let? (xdrs, fileid) := xdr_fileid3 xdrs (entry3_body_fileid objp) in
  let? (xdrs, name) := xdr_filename3 xdrs (entry3_body_name objp) in
  let? (xdrs, cookie) := xdr_cookie3 xdrs (entry3_body_cookie objp) in
  XOk xdrs {| entry3_body_fileid := fileid;
              entry3_body_name := name;
              entry3_body_cookie := cookie |}.

Lemma xdr_entry3_body_codec `{HL : XdrLaws} pub : Codec pub xdr_entry3_body entry3_body_w.
Proof. routine xdr_entry3_body entry3_body_w. Qed.

Lemma xdr_entry3_chain `{HL : XdrLaws} pub : ChainCodec pub xdr_entry3 entry3_body_w zero_entry3.
Proof.
  apply (chain_rec_codec _ _ _ _ xdr_entry3_body); [apply xdr_entry3_body_codec | zero_fresh | done | ].
  unfold xdr_entry3_body. xbind_eq.
Qed.

Lemma xdr_entry3_list_codec `{HL : XdrLaws} pub :
  Codec pub xdr_entry3_list (chain_w entry3_body_w).
Proof. apply chain_codec, xdr_entry3_chain. Qed.
#[export] Hint Resolve xdr_entry3_list_codec : xdr.

Lemma xdr_dirlist3_codec `{HL : XdrLaws} pub : Codec pub xdr_dirlist3 dirlist3_w.
Proof. routine xdr_dirlist3 dirlist3_w. Qed.
#[export] Hint Resolve xdr_dirlist3_codec : xdr.

Lemma xdr_READDIR3resok_codec `{HL : XdrLaws} pub : Codec pub xdr_READDIR3resok READDIR3resok_w.
Proof. routine xdr_READDIR3resok READDIR3resok_w. Qed.
#[export] Hint Resolve xdr_READDIR3resok_codec : xdr.

Lemma xdr_READDIR3resfail_codec `{HL : XdrLaws} pub : Codec pub xdr_READDIR3resfail READDIR3resfail_w.
Proof. routine xdr_READDIR3resfail READDIR3resfail_w. Qed.
#[export] Hint Resolve xdr_READDIR3resfail_codec : xdr.

Lemma xdr_READDIR3res_codec `{HL : XdrLaws} pub : Codec pub xdr_READDIR3res READDIR3res_w.
Proof. routine xdr_READDIR3res READDIR3res_w. Qed.
#[export] Hint Resolve xdr_READDIR3res_codec : xdr.

Lemma xdr_READDIRPLUS3args_codec `{HL : XdrLaws} pub : Codec pub xdr_READDIRPLUS3args READDIRPLUS3args_w.
Proof. routine xdr_READDIRPLUS3args READDIRPLUS3args_w. Qed.
#[export] Hint Resolve xdr_READDIRPLUS3args_codec : xdr.

(** The members of a [struct entryplus3] other than the link. *)
Definition xdr_entryplus3_body {P : XdrPrims} : xdrproc entryplus3_body := fun xdrs objp =>
  let? (xdrs, fileid) := xdr_fileid3 xdrs (entryplus3_body_fileid objp) in
  let? (xdrs, name) := xdr_filename3 xdrs (entryplus3_body_name objp) in
  let? (xdrs, cookie) := xdr_cookie3 xdrs (entryplus3_body_cookie objp) in
  let? (xdrs, name_attributes) := xdr_post_op_attr xdrs (entryplus3_body_name_attributes objp) in
  let? (xdrs, name_handle) := xdr_post_op_fh3 xdrs (entryplus3_body_name_handle objp) in
  XOk xdrs {| entryplus3_body_fileid := fileid;
              entryplus3_body_name := name;
              entryplus3_body_cookie := cookie;
              entryplus3_body_name_attributes := name_attributes;
              entryplus3_body_name_handle := name_handle |}.

Lemma xdr_entryplus3_body_codec `{HL : XdrLaws} pub : Codec pub xdr_entryplus3_body entryplus3_body_w.
Proof. routine xdr_entryplus3_body entryplus3_body_w. Qed.

Lemma xdr_entryplus3_chain `{HL : XdrLaws} pub : ChainCodec pub xdr_entryplus3 entryplus3_body_w zero_entryplus3.
Proof.
  apply (chain_rec_codec _ _ _ _ xdr_entryplus3_body); [apply xdr_entryplus3_body_codec | zero_fresh | done | ].
  unfold xdr_entryplus3_body. xbind_eq.
Qed.

Lemma xdr_entryplus3_list_codec `{HL : XdrLaws} pub :
  Codec pub xdr_entryplus3_list (chain_w entryplus3_body_w).
Proof. apply chain_codec, xdr_entryplus3_chain. Qed.
#[export] Hint Resolve xdr_entryplus3_list_codec : xdr.

Lemma xdr_dirlistplus3_codec `{HL : XdrLaws} pub : Codec pub xdr_dirlistplus3 dirlistplus3_w.
Proof. routine xdr_dirlistplus3 dirlistplus3_w. Qed.
#[export] Hint Resolve xdr_dirlistplus3_codec : xdr.

Lemma xdr_READDIRPLUS3resok_codec `{HL : XdrLaws} pub : Codec pub xdr_READDIRPLUS3resok READDIRPLUS3resok_w.
Proof. routine xdr_READDIRPLUS3resok READDIRPLUS3resok_w. Qed.
#[export] Hint Resolve xdr_READDIRPLUS3resok_codec : xdr.

Lemma xdr_READDIRPLUS3resfail_codec `{HL : XdrLaws} pub : Codec pub xdr_READDIRPLUS3resfail READDIRPLUS3resfail_w.
Proof. routine xdr_READDIRPLUS3resfail READDIRPLUS3resfail_w. Qed.
#[export] Hint Resolve xdr_READDIRPLUS3resfail_codec : xdr.

Lemma xdr_READDIRPLUS3res_codec `{HL : XdrLaws} pub : Codec pub xdr_READDIRPLUS3res READDIRPLUS3res_w.
Proof. routine xdr_READDIRPLUS3res READDIRPLUS3res_w. Qed.
#[export] Hint Resolve xdr_READDIRPLUS3res_codec : xdr.

Lemma xdr_FSSTAT3args_codec `{HL : XdrLaws} pub : Codec pub xdr_FSSTAT3args FSSTAT3args_w.
Proof. routine xdr_FSSTAT3args FSSTAT3args_w. Qed.
#[export] Hint Resolve xdr_FSSTAT3args_codec : xdr.

Lemma xdr_FSSTAT3resok_codec `{HL : XdrLaws} pub : Codec pub xdr_FSSTAT3resok FSSTAT3resok_w.
Proof. routine xdr_FSSTAT3resok FSSTAT3resok_w. Qed.
#[export] Hint Resolve xdr_FSSTAT3resok_codec : xdr.

Lemma xdr_FSSTAT3resfail_codec `{HL : XdrLaws} pub : Codec pub xdr_FSSTAT3resfail FSSTAT3resfail_w.
Proof. routine xdr_FSSTAT3resfail FSSTAT3resfail_w. Qed.
#[export] Hint Resolve xdr_FSSTAT3resfail_codec : xdr.

Lemma xdr_FSSTAT3res_codec `{HL : XdrLaws} pub : Codec pub xdr_FSSTAT3res FSSTAT3res_w.
Proof. routine xdr_FSSTAT3res FSSTAT3res_w. Qed.
#[export] Hint Resolve xdr_FSSTAT3res_codec : xdr.

Lemma xdr_FSINFOargs_codec `{HL : XdrLaws} pub : Codec pub xdr_FSINFOargs FSINFOargs_w.
Proof. routine xdr_FSINFOargs FSINFOargs_w. Qed.
#[export] Hint Resolve xdr_FSINFOargs_codec : xdr.

Lemma xdr_FSINFO3resok_codec `{HL : XdrLaws} pub : Codec pub xdr_FSINFO3resok FSINFO3resok_w.
Proof. routine xdr_FSINFO3resok FSINFO3resok_w. Qed.
#[export] Hint Resolve xdr_FSINFO3resok_codec : xdr.

Lemma xdr_FSINFO3resfail_codec `{HL : XdrLaws} pub : Codec pub xdr_FSINFO3resfail FSINFO3resfail_w.
Proof. routine xdr_FSINFO3resfail FSINFO3resfail_w. Qed.
#[export] Hint Resolve xdr_FSINFO3resfail_codec : xdr.

Lemma xdr_FSINFO3res_codec `{HL : XdrLaws} pub : Codec pub xdr_FSINFO3res FSINFO3res_w.
Proof. routine xdr_FSINFO3res FSINFO3res_w. Qed.
#[export] Hint Resolve xdr_FSINFO3res_codec : xdr.

Lemma xdr_PATHCONF3args_codec `{HL : XdrLaws} pub : Codec pub xdr_PATHCONF3args PATHCONF3args_w.
Proof. routine xdr_PATHCONF3args PATHCONF3args_w. Qed.
#[export] Hint Resolve xdr_PATHCONF3args_codec : xdr.

(** ** [XDR_INLINE]: a window on the buffer, or the ordinary calls *)
Section inline.
Context `{HL : XdrLaws} {A : Type} (pub : Z) (w : nat).
Implicit Types (K : XDR -> xres A) (G : list Z -> A).

Lemma enc_inline K bs a :
  length bs = w -> EncOK pub K bs a ->
  EncOK pub (fun s => match xdr_inline_put w s with
                      | None => K s | Some put => XOk (put bs) a end) bs a.
Proof.
  intros Hl HK s Ho Hp. destruct (xdr_inline_put w s) as [put|] eqn:Hput; [|by apply HK].
  destruct (xdr_inline_put_ok w s put bs Ho Hput Hl) as [Hle ->]. split; [done|lia].
Qed.

Lemma dec_inline n K G bs (R : A -> Prop) :
  length bs = w -> DecOK pub n K bs R -> R (G bs) ->
  DecOK pub n (fun s => match xdr_inline_get w s with
                        | None => K s | Some (b, s) => XOk s (G b) end) bs R.
Proof.
  intros Hl HK HP s Ho Hp Hm Hn.
  destruct (xdr_inline_get w s) as [[b s']|] eqn:Hget; [|by apply HK].
  apply xdr_inline_get_ok in Hget as (Hb & Heq & Hs'); [|done]. split.
  - intros rest Hrest. rewrite Hrest in Heq. apply app_inj_1 in Heq as [<- ->]; [|congruence].
    exists s', (G bs). rewrite Hs'. by split_and!.
  - intros more Hne Hmore. exfalso. rewrite Heq in Hmore. apply (f_equal length) in Hmore.
    rewrite !length_app in Hmore. destruct more; [done|]. cbn in Hmore. lia.
Qed.

Lemma safe_inline n k K G own Q :
  DecSafe pub n k K own Q -> (forall b, own (G b) = k /\ Q (G b)) ->
  DecSafe pub n k (fun s => match xdr_inline_get w s with
                            | None => K s | Some (b, s) => XOk s (G b) end) own Q.
Proof.
  intros HK HG s Ho Hp Hn.
  destruct (xdr_inline_get w s) as [[b s']|] eqn:Hget; [|by apply HK].
  apply xdr_inline_get_ok in Hget as (Hb & Heq & Hs'); [|done].
  destruct (HG b) as [-> HQ]. rewrite Hs'. cbn. split_and!; try done. by exists b.
Qed.
Lemma typed_inline K G (Q : A -> Prop) :
  DecTyped pub K Q -> (forall b, bytes_ok b -> Q (G b)) ->
  DecTyped pub (fun s => match xdr_inline_get w s with
                         | None => K s | Some (b, s) => XOk s (G b) end) Q.
Proof.
  intros HK HG s Ho Hp Hb.
  destruct (xdr_inline_get w s) as [[b s']|] eqn:Hget; [|by apply HK].
  apply xdr_inline_get_ok in Hget as (_ & Heq & Hs'); [|done]. rewrite Heq in Hb. apply Forall_app in Hb as [Hb Hb'].
  rewrite Hs'. cbn. split_and!; try done. by apply HG.
Qed.
End inline.

(** [xdr_bool] as a routine for such a boolean. *)
Lemma xdr_raw_bool_codec `{HL : XdrLaws} pub : Codec pub xdr_bool raw_bool_w.
Proof.
  destruct (xdr_bool_codec pub) as [He Hd Hs Ht]. split; [exact He|exact Hd|exact Hs|].
  intros d Hf s Ho Hp Hb. specialize (Ht d Hf s Ho Hp Hb). cbv beta in Ht. destruct (xdr_bool s d) as [s' a| | |]; try done.
  destruct Ht as (? & ? & ? & Ha). split_and!; try done. change (is_int32 a). unfold is_int32. destruct Ha as [-> | ->]; lia.
Qed.

Lemma IXDR_GET_BOOL_int32 bs i : bytes_ok bs -> is_int32 (IXDR_GET_BOOL bs i).
Proof.
  intros Hb. unfold IXDR_GET_BOOL, is_int32. set (l := take 4 (drop (4 * i) bs)).
  assert (Hl : bytes_ok l) by (by apply Forall_take, Forall_drop). pose proof (unbe_range l Hl) as Hr.
  assert (256 ^ Z.of_nat (length l) <= 2 ^ 31 + 2 ^ 31).
  { change (2 ^ 31 + 2 ^ 31) with (256 ^ 4). apply Z.pow_le_mono_r; [lia|]. unfold l. rewrite length_take. lia. }
  destruct (Z.ltb_spec (unbe l) (2 ^ 31)); lia.
Qed.

(** The network order of C booleans is read back by [IXDR_GET_BOOL]. *)
Lemma IXDR_bools a b c d :
  w_wf raw_bool_w a -> w_wf raw_bool_w b -> w_wf raw_bool_w c -> w_wf raw_bool_w d ->
  let bs := w_enc raw_bool_w a ++ w_enc raw_bool_w b ++ w_enc raw_bool_w c ++ w_enc raw_bool_w d in
  length bs = 16%nat /\ IXDR_GET_BOOL bs 0 = a /\ IXDR_GET_BOOL bs 1 = b /\
  IXDR_GET_BOOL bs 2 = c /\ IXDR_GET_BOOL bs 3 = d.
Proof. by intros [-> | ->] [-> | ->] [-> | ->] [-> | ->]. Qed.

Lemma xdr_PATHCONF3resok_codec `{HL : XdrLaws} pub : Codec pub xdr_PATHCONF3resok PATHCONF3resok_w.
Proof.
  pose proof (xdr_raw_bool_codec (HL := HL)) as Hraw. unfold xdr_PATHCONF3resok, PATHCONF3resok_w, PATHCONF3resok_bools. split.
  - intros a Hwf; cbn in *; destruct_and?. apply enc_op. do 3 xdr_enc_step.
    apply (enc_inline pub _ _ (_ ++ _)); [done|].
    unfold IXDR_PUT_BOOL. change (be 4) with (w_enc raw_bool_w). repeat xdr_enc_step.
  - intros a d n Hwf Hfresh; cbn in *; destruct_and?. apply dec_op. do 3 xdr_dec_step.
    destruct (IXDR_bools (PATHCONF3resok_no_trunc a) (PATHCONF3resok_chown_restricted a)
      (PATHCONF3resok_case_insensitive a) (PATHCONF3resok_case_preserving a))
      as (Hl & E0 & E1 & E2 & E3); [assumption..|].
    apply (dec_inline pub (4 * BYTES_PER_XDR_UNIT) n); [done|repeat xdr_dec_step|].
    cbn. rewrite E0, E1, E2, E3. by split_and!.
  - intros d n Hfresh; cbn in *; destruct_and?. apply safe_op. do 3 xdr_safe_step.
    apply (safe_inline pub (4 * BYTES_PER_XDR_UNIT)); [repeat xdr_safe_step|]. intros b. split; xdr_side.
  - intros d Hfresh; cbn in *; destruct_and?. apply typed_op. do 3 xdr_typed_step.
    apply (typed_inline pub (4 * BYTES_PER_XDR_UNIT)).
    + do 4 (eapply typed_bind; [apply (codec_typed _ _ _ (Hraw pub)); done|intros ? ?; cbn]). apply typed_ret; xdr_side.
    + intros b Hb. cbn. pose proof (IXDR_GET_BOOL_int32 b) as HB. split_and!; try done; by apply HB.
Qed.
#[export] Hint Resolve xdr_PATHCONF3resok_codec : xdr.

Lemma xdr_PATHCONF3resfail_codec `{HL : XdrLaws} pub : Codec pub xdr_PATHCONF3resfail PATHCONF3resfail_w.
Proof. routine xdr_PATHCONF3resfail PATHCONF3resfail_w. Qed.
#[export] Hint Resolve xdr_PATHCONF3resfail_codec : xdr.

Lemma xdr_PATHCONF3res_codec `{HL : XdrLaws} pub : Codec pub xdr_PATHCONF3res PATHCONF3res_w.
Proof. routine xdr_PATHCONF3res PATHCONF3res_w. Qed.
#[export] Hint Resolve xdr_PATHCONF3res_codec : xdr.

Lemma xdr_COMMIT3args_codec `{HL : XdrLaws} pub : Codec pub xdr_COMMIT3args COMMIT3args_w.
Proof. routine xdr_COMMIT3args COMMIT3args_w. Qed.
#[export] Hint Resolve xdr_COMMIT3args_codec : xdr.

Lemma xdr_COMMIT3resok_codec `{HL : XdrLaws} pub : Codec pub xdr_COMMIT3resok COMMIT3resok_w.
Proof. routine xdr_COMMIT3resok COMMIT3resok_w. Qed.
#[export] Hint Resolve xdr_COMMIT3resok_codec : xdr.

Lemma xdr_COMMIT3resfail_codec `{HL : XdrLaws} pub : Codec pub xdr_COMMIT3resfail COMMIT3resfail_w.
Proof. routine xdr_COMMIT3resfail COMMIT3resfail_w. Qed.
#[export] Hint Resolve xdr_COMMIT3resfail_codec : xdr.

Lemma xdr_COMMIT3res_codec `{HL : XdrLaws} pub : Codec pub xdr_COMMIT3res COMMIT3res_w.
Proof. routine xdr_COMMIT3res COMMIT3res_w. Qed.
#[export] Hint Resolve xdr_COMMIT3res_codec : xdr.

Lemma xdr_fhandle3_codec `{HL : XdrLaws} pub : Codec pub xdr_fhandle3 fhandle3_w.
Proof. routine xdr_fhandle3 fhandle3_w. Qed.
#[export] Hint Resolve xdr_fhandle3_codec : xdr.

Lemma xdr_dirpath_codec `{HL : XdrLaws} pub : Codec pub xdr_dirpath dirpath_w.
Proof. routine xdr_dirpath dirpath_w. Qed.
#[export] Hint Resolve xdr_dirpath_codec : xdr.

Lemma xdr_name_codec `{HL : XdrLaws} pub : Codec pub xdr_name name_w.
Proof. routine xdr_name name_w. Qed.
#[export] Hint Resolve xdr_name_codec : xdr.

Lemma xdr_mountstat3_codec `{HL : XdrLaws} pub : Codec pub xdr_mountstat3 mountstat3_w.
Proof. routine xdr_mountstat3 mountstat3_w. Qed.
#[export] Hint Resolve xdr_mountstat3_codec : xdr.

Lemma xdr_mountres3_ok_codec `{HL : XdrLaws} pub : Codec pub xdr_mountres3_ok mountres3_ok_w.
Proof. routine xdr_mountres3_ok mountres3_ok_w. Qed.
#[export] Hint Resolve xdr_mountres3_ok_codec : xdr.

Lemma xdr_mountres3_codec `{HL : XdrLaws} pub : Codec pub xdr_mountres3 mountres3_w.
Proof. routine xdr_mountres3 mountres3_w. Qed.
#[export] Hint Resolve xdr_mountres3_codec : xdr.

(** The members of a [struct mountbody] other than the link. *)
Definition xdr_mountbody_body {P : XdrPrims} : xdrproc mountbody_body := fun xdrs objp =>
  let? (xdrs, ml_hostname) := xdr_name xdrs (mountbody_body_ml_hostname objp) in
  let? (xdrs, ml_directory) := xdr_dirpath xdrs (mountbody_body_ml_directory objp) in
  XOk xdrs {| mountbody_body_ml_hostname := ml_hostname;
              mountbody_body_ml_directory := ml_directory |}.

Lemma xdr_mountbody_body_codec `{HL : XdrLaws} pub : Codec pub xdr_mountbody_body mountbody_body_w.
Proof. routine xdr_mountbody_body mountbody_body_w. Qed.

Lemma xdr_mountbody_chain `{HL : XdrLaws} pub : ChainCodec pub xdr_mountbody mountbody_body_w zero_mountbody.
Proof.
  apply (chain_rec_codec _ _ _ _ xdr_mountbody_body); [apply xdr_mountbody_body_codec | zero_fresh | done | ].
  unfold xdr_mountbody_body. xbind_eq.
Qed.

Lemma xdr_mountlist_codec `{HL : XdrLaws} pub : Codec pub xdr_mountlist mountlist_w.
Proof. apply codec_wrap, chain_codec, xdr_mountbody_chain. Qed.
#[export] Hint Resolve xdr_mountlist_codec : xdr.

(** The members of a [struct groupnode] other than the link. *)
Definition xdr_groupnode_body {P : XdrPrims} : xdrproc groupnode_body := fun xdrs objp =>
  let? (xdrs, gr_name) := xdr_name xdrs (groupnode_body_gr_name objp) in
  XOk xdrs {| groupnode_body_gr_name := gr_name |}.

Lemma xdr_groupnode_body_codec `{HL : XdrLaws} pub : Codec pub xdr_groupnode_body groupnode_body_w.
Proof. routine xdr_groupnode_body groupnode_body_w. Qed.

Lemma xdr_groupnode_chain `{HL : XdrLaws} pub : ChainCodec pub xdr_groupnode groupnode_body_w zero_groupnode.
Proof.
  apply (chain_rec_codec _ _ _ _ xdr_groupnode_body); [apply xdr_groupnode_body_codec | zero_fresh | done | ].
  unfold xdr_groupnode_body. xbind_eq.
Qed.

Lemma xdr_groups_codec `{HL : XdrLaws} pub : Codec pub xdr_groups groups_w.
Proof. apply codec_wrap, chain_codec, xdr_groupnode_chain. Qed.
#[export] Hint Resolve xdr_groups_codec : xdr.

(** The members of a [struct exportnode] other than the link. *)
Definition xdr_exportnode_body {P : XdrPrims} : xdrproc exportnode_body := fun xdrs objp =>
  let? (xdrs, ex_dir) := xdr_dirpath xdrs (exportnode_body_ex_dir objp) in
  let? (xdrs, ex_groups) := xdr_groups xdrs (exportnode_body_ex_groups objp) in
  XOk xdrs {| exportnode_body_ex_dir := ex_dir; exportnode_body_ex_groups := ex_groups |}.

Lemma xdr_exportnode_body_codec `{HL : XdrLaws} pub : Codec pub xdr_exportnode_body exportnode_body_w.
Proof. routine xdr_exportnode_body exportnode_body_w. Qed.

Lemma xdr_exportnode_chain `{HL : XdrLaws} pub : ChainCodec pub xdr_exportnode exportnode_body_w zero_exportnode.
Proof.
  apply (chain_rec_codec _ _ _ _ xdr_exportnode_body); [apply xdr_exportnode_body_codec | zero_fresh | done | ].
  unfold xdr_exportnode_body. xbind_eq.
Qed.

Lemma xdr_exports_codec `{HL : XdrLaws} pub : Codec pub xdr_exports exports_w.
Proof. apply codec_wrap, chain_codec, xdr_exportnode_chain. Qed.
#[export] Hint Resolve xdr_exports_codec : xdr.

