(* ===== verification/NfsWire.v ===== *)
(** * What the NFSv3 XDR routines guarantee

    The table of all the routines of [nfs3_xdr.c] with the description each
    one implements, and the theorems that hold of every entry: the bytes an
    encoder writes are those of [nfs3.x]; a decoder inverts it; truncated
    messages are rejected; arbitrary bytes are decoded without undefined
    behaviour and with exact ownership of the blocks allocated. *)

From S2P Require Import Prelude Xdr XdrRfc XdrList NfsTypes NfsSpec NfsXdr NfsXdrCorrect.

(** A routine, the type of its objects, and its description. *)
Record routine `{P : XdrPrims} := mk_routine {
  r_type : Type;
  r_proc : xdrproc r_type;
  r_wire : Z -> wire r_type
}.
Arguments mk_routine {P r_type}.

Definition nfs3_routines `{P : XdrPrims} : list routine := [
  mk_routine xdr_uint64 (fun _ => uint64_w);
  mk_routine xdr_int64 (fun _ => int64_w);
  mk_routine xdr_uint32 (fun _ => uint32_w);
  mk_routine xdr_int32 (fun _ => int32_w);
  mk_routine xdr_filename3 (fun _ => filename3_w);
  mk_routine xdr_nfspath3 (fun _ => nfspath3_w);
  mk_routine xdr_fileid3 (fun _ => fileid3_w);
  mk_routine xdr_cookie3 (fun _ => cookie3_w);
  mk_routine xdr_cookieverf3 (fun _ => cookieverf3_w);
  mk_routine xdr_createverf3 (fun _ => createverf3_w);
  mk_routine xdr_writeverf3 (fun _ => writeverf3_w);
  mk_routine xdr_uid3 (fun _ => uid3_w);
  mk_routine xdr_gid3 (fun _ => gid3_w);
  mk_routine xdr_size3 (fun _ => size3_w);
  mk_routine xdr_offset3 (fun _ => offset3_w);
  mk_routine xdr_mode3 (fun _ => mode3_w);
  mk_routine xdr_count3 (fun _ => count3_w);
  mk_routine xdr_nfsstat3 (fun _ => nfsstat3_w);
  mk_routine xdr_ftype3 (fun _ => ftype3_w);
  mk_routine xdr_specdata3 (fun _ => specdata3_w);
  mk_routine xdr_nfs_fh3 (fun _ => nfs_fh3_w);
  mk_routine xdr_nfstime3 (fun _ => nfstime3_w);
  mk_routine xdr_fattr3 (fun _ => fattr3_w);
  mk_routine xdr_post_op_attr (fun _ => post_op_attr_w);
  mk_routine xdr_wcc_attr (fun _ => wcc_attr_w);
  mk_routine xdr_pre_op_attr (fun _ => pre_op_attr_w);
  mk_routine xdr_wcc_data (fun _ => wcc_data_w);
  mk_routine xdr_post_op_fh3 (fun _ => post_op_fh3_w);
  mk_routine xdr_time_how (fun _ => time_how_w);
  mk_routine xdr_set_mode3 (fun _ => set_mode3_w);
  mk_routine xdr_set_uid3 (fun _ => set_uid3_w);
  mk_routine xdr_set_gid3 (fun _ => set_gid3_w);
  mk_routine xdr_set_size3 (fun _ => set_size3_w);
  mk_routine xdr_set_atime (fun _ => set_atime_w);
  mk_routine xdr_set_mtime (fun _ => set_mtime_w);
  mk_routine xdr_sattr3 (fun _ => sattr3_w);
  mk_routine xdr_diropargs3 (fun _ => diropargs3_w);
  mk_routine xdr_GETATTR3args (fun _ => GETATTR3args_w);
  mk_routine xdr_GETATTR3resok (fun _ => GETATTR3resok_w);
  mk_routine xdr_GETATTR3res (fun _ => GETATTR3res_w);
  mk_routine xdr_sattrguard3 (fun _ => sattrguard3_w);
  mk_routine xdr_SETATTR3args (fun _ => SETATTR3args_w);
  mk_routine xdr_SETATTR3resok (fun _ => SETATTR3resok_w);
  mk_routine xdr_SETATTR3resfail (fun _ => SETATTR3resfail_w);
  mk_routine xdr_SETATTR3res (fun _ => SETATTR3res_w);
  mk_routine xdr_LOOKUP3args (fun _ => LOOKUP3args_w);
  mk_routine xdr_LOOKUP3resok (fun _ => LOOKUP3resok_w);
  mk_routine xdr_LOOKUP3resfail (fun _ => LOOKUP3resfail_w);
  mk_routine xdr_LOOKUP3res (fun _ => LOOKUP3res_w);
  mk_routine xdr_ACCESS3args (fun _ => ACCESS3args_w);
  mk_routine xdr_ACCESS3resok (fun _ => ACCESS3resok_w);
  mk_routine xdr_ACCESS3resfail (fun _ => ACCESS3resfail_w);
  mk_routine xdr_ACCESS3res (fun _ => ACCESS3res_w);
  mk_routine xdr_READLINK3args (fun _ => READLINK3args_w);
  mk_routine xdr_READLINK3resok (fun _ => READLINK3resok_w);
  mk_routine xdr_READLINK3resfail (fun _ => READLINK3resfail_w);
  mk_routine xdr_READLINK3res (fun _ => READLINK3res_w);
  mk_routine xdr_READ3args (fun _ => READ3args_w);
  mk_routine xdr_READ3resok READ3resok_w;
  mk_routine xdr_READ3resfail (fun _ => READ3resfail_w);
  mk_routine xdr_READ3res READ3res_w;
  mk_routine xdr_stable_how (fun _ => stable_how_w);
  mk_routine xdr_WRITE3args WRITE3args_w;
  mk_routine xdr_WRITE3resok (fun _ => WRITE3resok_w);
  mk_routine xdr_WRITE3resfail (fun _ => WRITE3resfail_w);
  mk_routine xdr_WRITE3res (fun _ => WRITE3res_w);
  mk_routine xdr_createmode3 (fun _ => createmode3_w);
  mk_routine xdr_createhow3 (fun _ => createhow3_w);
  mk_routine xdr_CREATE3args (fun _ => CREATE3args_w);
  mk_routine xdr_CREATE3resok (fun _ => CREATE3resok_w);
  mk_routine xdr_CREATE3resfail (fun _ => CREATE3resfail_w);
  mk_routine xdr_CREATE3res (fun _ => CREATE3res_w);
  mk_routine xdr_MKDIR3args (fun _ => MKDIR3args_w);
  mk_routine xdr_MKDIR3resok (fun _ => MKDIR3resok_w);
  mk_routine xdr_MKDIR3resfail (fun _ => MKDIR3resfail_w);
  mk_routine xdr_MKDIR3res (fun _ => MKDIR3res_w);
  mk_routine xdr_symlinkdata3 (fun _ => symlinkdata3_w);
  mk_routine xdr_SYMLINK3args (fun _ => SYMLINK3args_w);
  mk_routine xdr_SYMLINK3resok (fun _ => SYMLINK3resok_w);
  mk_routine xdr_SYMLINK3resfail (fun _ => SYMLINK3resfail_w);
  mk_routine xdr_SYMLINK3res (fun _ => SYMLINK3res_w);
  mk_routine xdr_devicedata3 (fun _ => devicedata3_w);
  mk_routine xdr_mknoddata3 (fun _ => mknoddata3_w);
  mk_routine xdr_MKNOD3args (fun _ => MKNOD3args_w);
  mk_routine xdr_MKNOD3resok (fun _ => MKNOD3resok_w);
  mk_routine xdr_MKNOD3resfail (fun _ => MKNOD3resfail_w);
  mk_routine xdr_MKNOD3res (fun _ => MKNOD3res_w);
  mk_routine xdr_REMOVE3args (fun _ => REMOVE3args_w);
  mk_routine xdr_REMOVE3resok (fun _ => REMOVE3resok_w);
  mk_routine xdr_REMOVE3resfail (fun _ => REMOVE3resfail_w);
  mk_routine xdr_REMOVE3res (fun _ => REMOVE3res_w);
  mk_routine xdr_RMDIR3args (fun _ => RMDIR3args_w);
  mk_routine xdr_RMDIR3resok (fun _ => RMDIR3resok_w);
  mk_routine xdr_RMDIR3resfail (fun _ => RMDIR3resfail_w);
  mk_routine xdr_RMDIR3res (fun _ => RMDIR3res_w);
  mk_routine xdr_RENAME3args (fun _ => RENAME3args_w);
  mk_routine xdr_RENAME3resok (fun _ => RENAME3resok_w);
  mk_routine xdr_RENAME3resfail (fun _ => RENAME3resfail_w);
  mk_routine xdr_RENAME3res (fun _ => RENAME3res_w);
  mk_routine xdr_LINK3args (fun _ => LINK3args_w);
  mk_routine xdr_LINK3resok (fun _ => LINK3resok_w);
  mk_routine xdr_LINK3resfail (fun _ => LINK3resfail_w);
  mk_routine xdr_LINK3res (fun _ => LINK3res_w);
  mk_routine xdr_READDIR3args (fun _ => READDIR3args_w);
  mk_routine xdr_entry3_list (fun _ => chain_w entry3_body_w);
  mk_routine xdr_dirlist3 (fun _ => dirlist3_w);
  mk_routine xdr_READDIR3resok (fun _ => READDIR3resok_w);
  mk_routine xdr_READDIR3resfail (fun _ => READDIR3resfail_w);
  mk_routine xdr_READDIR3res (fun _ => READDIR3res_w);
  mk_routine xdr_READDIRPLUS3args (fun _ => READDIRPLUS3args_w);
  mk_routine xdr_entryplus3_list (fun _ => chain_w entryplus3_body_w);
  mk_routine xdr_dirlistplus3 (fun _ => dirlistplus3_w);
  mk_routine xdr_READDIRPLUS3resok (fun _ => READDIRPLUS3resok_w);
  mk_routine xdr_READDIRPLUS3resfail (fun _ => READDIRPLUS3resfail_w);
  mk_routine xdr_READDIRPLUS3res (fun _ => READDIRPLUS3res_w);
  mk_routine xdr_FSSTAT3args (fun _ => FSSTAT3args_w);
  mk_routine xdr_FSSTAT3resok (fun _ => FSSTAT3resok_w);
  mk_routine xdr_FSSTAT3resfail (fun _ => FSSTAT3resfail_w);
  mk_routine xdr_FSSTAT3res (fun _ => FSSTAT3res_w);
  mk_routine xdr_FSINFOargs (fun _ => FSINFOargs_w);
  mk_routine xdr_FSINFO3resok (fun _ => FSINFO3resok_w);
  mk_routine xdr_FSINFO3resfail (fun _ => FSINFO3resfail_w);
  mk_routine xdr_FSINFO3res (fun _ => FSINFO3res_w);
  mk_routine xdr_PATHCONF3args (fun _ => PATHCONF3args_w);
  mk_routine xdr_PATHCONF3resok (fun _ => PATHCONF3resok_w);
  mk_routine xdr_PATHCONF3resfail (fun _ => PATHCONF3resfail_w);
  mk_routine xdr_PATHCONF3res (fun _ => PATHCONF3res_w);
  mk_routine xdr_COMMIT3args (fun _ => COMMIT3args_w);
  mk_routine xdr_COMMIT3resok (fun _ => COMMIT3resok_w);
  mk_routine xdr_COMMIT3resfail (fun _ => COMMIT3resfail_w);
  mk_routine xdr_COMMIT3res (fun _ => COMMIT3res_w);
  mk_routine xdr_fhandle3 (fun _ => fhandle3_w);
  mk_routine xdr_dirpath (fun _ => dirpath_w);
  mk_routine xdr_name (fun _ => name_w);
  mk_routine xdr_mountstat3 (fun _ => mountstat3_w);
  mk_routine xdr_mountres3_ok (fun _ => mountres3_ok_w);
  mk_routine xdr_mountres3 (fun _ => mountres3_w);
  mk_routine xdr_mountlist (fun _ => mountlist_w);
  mk_routine xdr_groups (fun _ => groups_w);
  mk_routine xdr_exports (fun _ => exports_w)
].


(** Every entry implements its description. *)
Lemma nfs3_routines_codec `{HL : XdrLaws} :
  Forall (fun r => forall pub, Codec pub (r_proc r) (r_wire r pub)) nfs3_routines.
Proof.
  unfold nfs3_routines.
  repeat first [apply List.Forall_nil | apply List.Forall_cons; [intros pub; cbn; auto with xdr|]].
Qed.

Lemma routine_codec `{HL : XdrLaws} r pub :
  r ∈ nfs3_routines -> Codec pub (r_proc r) (r_wire r pub).
Proof. intros Hr. revert pub. by eapply (Forall_forall _ nfs3_routines) in Hr; [|apply nfs3_routines_codec]. Qed.


(** ** XDR is made of whole words of bytes *)

Definition words_ok {A} (w : wire A) : Prop :=
  forall a, w_wf w a -> (length (w_enc w a) mod 4 = 0)%nat /\ bytes_ok (w_enc w a).

Lemma words_app bs bs' :
  (length bs mod 4 = 0)%nat /\ bytes_ok bs -> (length bs' mod 4 = 0)%nat /\ bytes_ok bs' ->
  (length (bs ++ bs') mod 4 = 0)%nat /\ bytes_ok (bs ++ bs').
Proof.
  intros [H1 H2] [H3 H4]. split; [|by apply Forall_app].
  rewrite length_app, Nat.Div0.add_mod, H1, H3. done.
Qed.

Lemma words_be4 v : (length (be 4 v) mod 4 = 0)%nat /\ bytes_ok (be 4 v).
Proof. rewrite length_be. split; [done|apply be_bytes_ok]. Qed.
Lemma words_be8 v : (length (be 8 v) mod 4 = 0)%nat /\ bytes_ok (be 8 v).
Proof. rewrite length_be. split; [done|apply be_bytes_ok]. Qed.

Lemma words_padded bs :
  bytes_ok bs -> (length (bs ++ pad (length bs)) mod 4 = 0)%nat /\ bytes_ok (bs ++ pad (length bs)).
Proof.
  intros Hbs. split.
  - rewrite length_app. unfold pad. rewrite repeat_length.
    pose proof (Nat.div_mod (length bs) 4 ltac:(lia)) as Hd.
    pose proof (Nat.mod_upper_bound (length bs) 4 ltac:(lia)) as Hu.
    generalize dependent (length bs mod 4)%nat. generalize (length bs / 4)%nat.
    intros q r Hd Hu.
    apply Nat.Lcm0.mod_divide.
    destruct r as [|[|[|[|?]]]]; try lia; [exists q|exists (S q)..]; cbn; lia.
  - apply Forall_app. split; [done|]. apply Forall_forall. intros b Hb.
    unfold pad in Hb. apply list_elem_of_In, repeat_spec in Hb as ->. by split.
Qed.

Lemma words_u32 : words_ok u32_w. Proof. intros v _. apply words_be4. Qed.
Lemma words_u64 : words_ok u64_w. Proof. intros v _. apply words_be8. Qed.
Lemma words_int : words_ok int_w. Proof. intros v _. apply words_be4. Qed.
Lemma words_quad : words_ok quad_w. Proof. intros v _. apply words_be8. Qed.
Lemma words_bool : words_ok bool_w. Proof. intros v _. apply words_be4. Qed.
Lemma words_raw_bool : words_ok raw_bool_w. Proof. intros v _. apply words_be4. Qed.
Lemma words_opaque n : words_ok (opaque_w n).
Proof. intros bs [<- Hb]. by apply words_padded. Qed.
Lemma words_bytes max : words_ok (bytes_w max).
Proof.
  intros [n [|bs|]] Hwf; cbn in *; [|destruct Hwf as (_ & _ & Hb)|done];
    (apply words_app; [apply words_be4|]); [|by apply words_padded].
  apply (words_padded []). by constructor.
Qed.
Lemma words_string max : words_ok (string_w max).
Proof.
  intros [|bs|] Hwf; cbn in *; [done| |done]. destruct Hwf as (_ & _ & Hb).
  apply words_app; [apply words_be4|]. apply words_padded.
  eapply Forall_impl; [done|]. unfold is_u. intros b Hb'. cbn in Hb'. lia.
Qed.
Lemma words_ints max : words_ok (ints_w max).
Proof.
  intros [n [|vs|]] Hwf; cbn in *; [|clear Hwf|done].
  - apply words_app; [apply words_be4|]. by split; constructor.
  - apply words_app; [apply words_be4|]. cbn.
    induction vs as [|v vs IH]; [by split; constructor|].
    by apply (words_app (be 4 v)); [apply words_be4|].
Qed.
Lemma words_void {A} : words_ok (@void_w A). Proof. intros a _. by split; constructor. Qed.
Lemma words_never {A} : words_ok (@never_w A). Proof. by intros a []. Qed.
Lemma words_inactive {A} (w : wire A) : words_ok (inactive_w w).
Proof. intros a _. by split; constructor. Qed.
Lemma words_prod {A B} (w1 : wire A) (w2 : wire B) :
  words_ok w1 -> words_ok w2 -> words_ok (prod_w w1 w2).
Proof. intros H1 H2 [a b] [Ha Hb]. by apply words_app; [apply H1|apply H2]. Qed.
Lemma words_via {A B} (f : B -> A) w : words_ok w -> words_ok (via f w).
Proof. intros H b Hb. by apply H. Qed.
Lemma words_union {A} (tag : A -> Z) tw arm :
  words_ok tw -> (forall t, words_ok (arm t)) -> words_ok (union_w tag tw arm).
Proof. intros H1 H2 a [Ht Ha]. by apply words_app; [apply H1|apply H2]. Qed.
Lemma words_node {A} (w : wire A) :
  words_ok w -> forall n, node_wf w n ->
  (length (node_enc w n) mod 4 = 0)%nat /\ bytes_ok (node_enc w n).
Proof.
  intros Hw. fix IH 1. intros [a nx] [Ha Hnx]. cbn. apply words_app; [by apply Hw|].
  destruct nx as [|n|]; cbn in *; [apply words_be4| |done].
  apply words_app; [apply words_be4|by apply IH].
Qed.
Lemma words_chain {A} (w : wire A) : words_ok w -> words_ok (chain_w w).
Proof.
  intros Hw [|n|] Hwf; cbn in *; [apply words_be4| |done].
  apply words_app; [apply words_be4|by apply words_node].
Qed.

Create HintDb words discriminated.
#[export] Hint Constants Opaque : words.
#[export] Hint Resolve words_u32 words_u64 words_int words_quad words_bool words_raw_bool words_opaque words_bytes
  words_string words_ints words_void words_never words_inactive words_prod words_via
  words_union : words.
#[export] Hint Extern 5 (words_ok (if ?b then _ else _)) => destruct b : words.

#[export] Hint Extern 1 (words_ok (chain_w _)) => apply words_chain : words.

(** Unfolds the description of a type when no rule applies. *)
Ltac words_head w :=
  lazymatch w with ?f _ => words_head f | _ => unfold w end.
#[export] Hint Extern 9 (words_ok ?w) => words_head w : words.
#[export] Hint Transparent uint64 int64 uint32 int32 filename3 nfspath3 fileid3 cookie3
  cookieverf3 createverf3 writeverf3 uid3 gid3 size3 offset3 mode3 count3 dirpath name
  nfsstat3 ftype3 time_how stable_how createmode3 mountstat3 bool_t fhandle3 mountlist groups
  exports mountbody groupnode exportnode entry3 entryplus3 : words.

Lemma words_fattr3 : words_ok fattr3_w. Proof. auto 30 with words. Qed.
#[export] Hint Resolve words_fattr3 : words.
Lemma words_post_op_attr : words_ok post_op_attr_w. Proof. auto 30 with words. Qed.
#[export] Hint Resolve words_post_op_attr : words.
Lemma words_wcc_data : words_ok wcc_data_w. Proof. auto 30 with words. Qed.
#[export] Hint Resolve words_wcc_data : words.
Lemma words_sattr3 : words_ok sattr3_w. Proof. auto 30 with words. Qed.
#[export] Hint Resolve words_sattr3 : words.

Lemma nfs3_routines_words `{P : XdrPrims} :
  Forall (fun r => forall pub, words_ok (r_wire r pub)) nfs3_routines.
Proof.
  unfold nfs3_routines.
  repeat first [apply List.Forall_nil | apply List.Forall_cons; [intros pub; cbn; auto 40 with words|]].
Qed.

(** ** The theorems *)

(** [xdrmem_create(&xdr, buf, size, XDR_ENCODE)] and
    [xdrmem_create(&xdr, buf, length, XDR_DECODE)]. *)
Definition enc_stream (pub : Z) (size : nat) (h : heap) : XDR := mk_XDR XDR_ENCODE [] size pub h.
Definition dec_stream (pub : Z) (bs : list Z) (h : heap) : XDR := mk_XDR XDR_DECODE bs 0 pub h.

Section theorems.
Context `{HL : XdrLaws}.
Implicit Types (r : routine) (h : heap).

(** [C1] Every XDR routine of [nfs3_xdr.c], applied to an object that has a
    representation, writes exactly the bytes [nfs3.x] prescribes and leaves
    the object alone; if the buffer is too small it returns FALSE instead of
    writing past it. *)
Theorem nfs3_xdr_encode r pub o size h :
  r ∈ nfs3_routines -> w_wf (r_wire r pub) o ->
  let bs := w_enc (r_wire r pub) o in
  ((length bs <= size)%nat -> r_proc r (enc_stream pub size h) o =
     XOk (mk_XDR XDR_ENCODE bs (size - length bs) pub h) o) /\
  ((size < length bs)%nat -> exists s', r_proc r (enc_stream pub size h) o = XFail s').
Proof.
  intros Hr Hwf. by apply (codec_enc _ _ _ (routine_codec r pub Hr) o Hwf (enc_stream pub size h)).
Qed.

(** [C2] Round trip: what a routine encodes, the same routine decodes, into
    any destination it may be given, to an object that agrees with the
    original; it consumes exactly the bytes written and leaves whatever
    follows them. *)
Theorem nfs3_xdr_roundtrip r pub o d size h rest :
  r ∈ nfs3_routines -> w_wf (r_wire r pub) o -> w_fresh (r_wire r pub) d -> mem_ample h ->
  (length (w_enc (r_wire r pub) o) <= size)%nat ->
  exists s s' o',
    r_proc r (enc_stream pub size h) o = XOk s o /\
    r_proc r (dec_stream pub (x_buf s ++ rest) h) d = XOk s' o' /\
    x_buf s' = rest /\ w_sim (r_wire r pub) o o'.
Proof.
  intros Hr Hwf Hd Hh Hsz. pose proof (routine_codec r pub Hr) as Hc.
  destruct (codec_enc _ _ _ Hc o Hwf (enc_stream pub size h)) as [He _]; [done..|].
  specialize (He Hsz). cbn in He.
  destruct (codec_dec _ _ _ Hc o d _ Hwf Hd (dec_stream pub (w_enc (r_wire r pub) o ++ rest) h)
    eq_refl eq_refl Hh (le_n _)) as [Hdec _].
  destruct (Hdec rest eq_refl) as (s' & o' & Hr' & (_ & _ & Hb & _) & Hsim).
  eexists _, s', o'. split; [exact He|]. by cbn.
Qed.

(** A message cut short is rejected: decoding a proper prefix of an
    encoding returns FALSE. *)
Theorem nfs3_xdr_truncated r pub o d bs more h :
  r ∈ nfs3_routines -> w_wf (r_wire r pub) o -> w_fresh (r_wire r pub) d -> mem_ample h ->
  more <> [] -> bs ++ more = w_enc (r_wire r pub) o ->
  exists s', r_proc r (dec_stream pub bs h) d = XFail s'.
Proof.
  intros Hr Hwf Hd Hh Hne Heq.
  destruct (codec_dec _ _ _ (routine_codec r pub Hr) o d _ Hwf Hd (dec_stream pub bs h)
    eq_refl eq_refl Hh (le_n _)) as [_ Ht].
  by apply (Ht more).
Qed.

(** [C13] Robustness: on arbitrary input, with allocations that may fail at
    any point, a decoder terminates without undefined behaviour.  On success
    it has consumed a prefix of the input, the object holds no indeterminate
    pointer, and it owns exactly the blocks that were allocated. *)
Theorem nfs3_xdr_safe r pub d bs h :
  r ∈ nfs3_routines -> w_fresh (r_wire r pub) d ->
  match r_proc r (dec_stream pub bs h) d with
  | XOk s' o =>
      (exists pre, bs = pre ++ x_buf s') /\ w_clean (r_wire r pub) o /\
      h_live (x_heap s') = (h_live h + w_owned (r_wire r pub) o)%nat
  | XFail s' => (h_live h <= h_live (x_heap s'))%nat
  | XUB | XFuel => False
  end.
Proof.
  intros Hr Hd.
  pose proof (codec_safe _ _ _ (routine_codec r pub Hr) d _ Hd (dec_stream pub bs h)
    eq_refl eq_refl (le_n _)) as H. cbn in H.
  destruct (r_proc r _ d) as [s' o|s'| |]; try done.
  - destruct H as (_ & _ & _ & Hpre & Hl & Hcl). split_and!; try done. lia.
  - by destruct H.
Qed.

(** [C14] Types: whatever bytes arrive, an object that a decoder accepts has a value
    of its C type in every member that its discriminants make meaningful: integers
    and enumerations fit their width, booleans are 0 or 1, opaque data and strings
    are no longer than the bounds of [nfs3.x] (a handle has at most 64 bytes), their
    length field says how long they are, and lists end.  The exception is the four
    flags of PATHCONF, which the inline code takes over as 32-bit integers. *)
Theorem nfs3_xdr_typed r pub d bs h s' o :
  r ∈ nfs3_routines -> w_fresh (r_wire r pub) d -> bytes_ok bs ->
  r_proc r (dec_stream pub bs h) d = XOk s' o -> w_typed (r_wire r pub) o.
Proof.
  intros Hr Hd Hb E.
  pose proof (codec_typed _ _ _ (routine_codec r pub Hr) d Hd (dec_stream pub bs h) eq_refl eq_refl Hb) as H.
  cbv beta in H. rewrite E in H. apply H.
Qed.

(** An encoding is made of whole 32-bit words, and of bytes. *)
Theorem nfs3_xdr_words r pub o size h s :
  r ∈ nfs3_routines -> w_wf (r_wire r pub) o ->
  r_proc r (enc_stream pub size h) o = XOk s o ->
  (length (x_buf s) mod 4 = 0)%nat /\ bytes_ok (x_buf s) /\ (length (x_buf s) <= size)%nat.
Proof.
  intros Hr Hwf Hs.
  destruct (codec_enc _ _ _ (routine_codec r pub Hr) o Hwf (enc_stream pub size h)) as [He Hf];
    [done..|].
  pose proof nfs3_routines_words as Hw. rewrite Forall_forall in Hw.
  destruct (Hw r Hr pub o Hwf) as [Hl Hb].
  destruct (decide (length (w_enc (r_wire r pub) o) <= size)%nat) as [Hle|Hgt].
  - rewrite He in Hs by done. injection Hs as <-. by cbn.
  - destruct Hf as [s' Hs']; [cbn; lia|]. by rewrite Hs' in Hs.
Qed.
End theorems.

(** ** Witnesses

    The operands of a LOOKUP call, under the RFC 4506 implementation of the
    primitives. *)
Definition sample_lookup : LOOKUP3args :=
  {| LOOKUP3args_what :=
       {| diropargs3_dir := {| nfs_fh3_data := mk_opaque_buf 5 (PTo [1; 2; 3; 4; 255]) |};
          diropargs3_name := PTo [97; 98] |} |}.
Definition blank_lookup : LOOKUP3args :=
  {| LOOKUP3args_what :=
       {| diropargs3_dir := {| nfs_fh3_data := mk_opaque_buf 0 PNull |};
          diropargs3_name := PNull |} |}.
Definition lookup_routine : @routine rfc_prims :=
  mk_routine xdr_LOOKUP3args (fun _ => LOOKUP3args_w).
Definition ample_heap : heap := mk_heap 0 0 (fun _ => true).

Lemma lookup_routine_in : lookup_routine ∈ @nfs3_routines rfc_prims.
Proof. apply (list_elem_of_lookup_2 _ 45). reflexivity. Qed.
Lemma sample_lookup_wf : w_wf LOOKUP3args_w sample_lookup.
Proof.
  unfold LOOKUP3args_w, diropargs3_w, nfs_fh3_w, filename3_w, bytes_w, string_w. cbn.
  unfold bytes_wf, bytes_ok, is_u. cbn.
  split_and!; first [reflexivity | by vm_compute | repeat constructor; lia].
Qed.
Lemma blank_lookup_fresh : w_fresh LOOKUP3args_w blank_lookup.
Proof. done. Qed.
Lemma ample_heap_ok : mem_ample ample_heap.
Proof. done. Qed.

Lemma nfs3_xdr_encode_witness :
  r_proc lookup_routine (enc_stream 0 100 ample_heap) sample_lookup =
    XOk (mk_XDR XDR_ENCODE [0;0;0;5; 1;2;3;4; 255;0;0;0; 0;0;0;2; 97;98;0;0] 80 0 ample_heap)
        sample_lookup /\
  exists s, r_proc lookup_routine (enc_stream 0 19 ample_heap) sample_lookup = XFail s.
Proof.
  split.
  - apply (nfs3_xdr_encode lookup_routine 0 sample_lookup 100 ample_heap
             lookup_routine_in sample_lookup_wf). vm_compute. lia.
  - apply (nfs3_xdr_encode lookup_routine 0 sample_lookup 19 ample_heap
             lookup_routine_in sample_lookup_wf). vm_compute. lia.
Defined.

Lemma nfs3_xdr_roundtrip_witness : exists s s' o',
  r_proc lookup_routine (enc_stream 0 100 ample_heap) sample_lookup = XOk s sample_lookup /\
  r_proc lookup_routine (dec_stream 0 (x_buf s ++ [9; 9]) ample_heap) blank_lookup = XOk s' o' /\
  x_buf s' = [9; 9] /\ w_sim LOOKUP3args_w sample_lookup o'.
Proof.
  apply (nfs3_xdr_roundtrip lookup_routine 0 sample_lookup blank_lookup 100 ample_heap [9; 9]
           lookup_routine_in sample_lookup_wf blank_lookup_fresh ample_heap_ok).
  vm_compute. lia.
Defined.

Lemma nfs3_xdr_truncated_witness : exists s,
  r_proc lookup_routine (dec_stream 0 [0;0;0;5; 1;2;3;4; 255;0;0;0; 0;0;0;2; 97] ample_heap)
    blank_lookup = XFail s.
Proof.
  by apply (nfs3_xdr_truncated lookup_routine 0 sample_lookup blank_lookup _ [98; 0; 0] ample_heap
           lookup_routine_in sample_lookup_wf blank_lookup_fresh ample_heap_ok).
Defined.

Lemma nfs3_xdr_safe_witness :
  match r_proc lookup_routine (dec_stream 0 [0;0;0;0; 0;0;0;1; 47;0;0;0] ample_heap) blank_lookup with
  | XOk s o => h_live (x_heap s) = w_owned LOOKUP3args_w o /\ h_live (x_heap s) = 1%nat
  | _ => False
  end.
Proof.
  pose proof (nfs3_xdr_safe lookup_routine 0 blank_lookup [0;0;0;0; 0;0;0;1; 47;0;0;0] ample_heap
                lookup_routine_in blank_lookup_fresh) as H.
  vm_compute in H |- *. by destruct H as (_ & _ & H).
Defined.

(** A handle and a name that arrive fit; the name has a NUL inside. *)
Definition odd_lookup : LOOKUP3args :=
  {| LOOKUP3args_what :=
       {| diropargs3_dir := {| nfs_fh3_data := mk_opaque_buf 5 (PTo [1; 2; 3; 4; 255]) |};
          diropargs3_name := PTo [97; 0] |} |}.

Lemma nfs3_xdr_typed_witness :
  r_proc lookup_routine (dec_stream 0 [0;0;0;5; 1;2;3;4; 255;0;0;0; 0;0;0;2; 97;0;7;7] ample_heap) blank_lookup =
    XOk (mk_XDR XDR_DECODE [] 0 0 (mk_heap 2 2 (fun _ => true))) odd_lookup /\
  w_typed LOOKUP3args_w odd_lookup /\ data_len (nfs_fh3_data (diropargs3_dir (LOOKUP3args_what odd_lookup))) <= 64.
Proof.
  assert (E : r_proc lookup_routine (dec_stream 0 [0;0;0;5; 1;2;3;4; 255;0;0;0; 0;0;0;2; 97;0;7;7] ample_heap) blank_lookup =
    XOk (mk_XDR XDR_DECODE [] 0 0 (mk_heap 2 2 (fun _ => true))) odd_lookup) by (vm_compute; reflexivity).
  split; [exact E|]. split; [|cbn; lia].
  apply (nfs3_xdr_typed lookup_routine 0 blank_lookup [0;0;0;5; 1;2;3;4; 255;0;0;0; 0;0;0;2; 97;0;7;7] ample_heap
    (mk_XDR XDR_DECODE [] 0 0 (mk_heap 2 2 (fun _ => true))) odd_lookup lookup_routine_in blank_lookup_fresh); [repeat constructor; lia|exact E].
Defined.

(** A handle of 65 bytes does not; a flag of PATHCONF may be 2. *)
Example long_handle : exists s,
  r_proc lookup_routine (dec_stream 0 ([0;0;0;65] ++ repeat 1 68 ++ [0;0;0;1; 97;0;0;0]) ample_heap) blank_lookup = XFail s.
Proof. eexists. vm_compute. reflexivity. Qed.

Definition blank_pathconf : PATHCONF3resok :=
  let t := mk_nfstime3 0 0 in
  mk_PATHCONF3resok (mk_post_op_attr FALSE (mk_fattr3 0 0 0 0 0 0 0 (mk_specdata3 0 0) 0 0 t t t)) 0 0 0 0 0 0.
Example raw_flag :
  match @xdr_PATHCONF3resok rfc_prims (dec_stream 0 ([0;0;0;0; 0;0;0;9; 0;0;0;9; 0;0;0;2] ++ repeat 0 12) ample_heap) blank_pathconf with
  | XOk _ o => PATHCONF3resok_no_trunc o = 2 /\ PATHCONF3resok_no_trunc o <> TRUE
  | _ => False
  end.
Proof. vm_compute. split; [reflexivity|discriminate]. Qed.

Lemma nfs3_xdr_words_witness : exists s,
  r_proc lookup_routine (enc_stream 0 64 ample_heap) sample_lookup = XOk s sample_lookup /\
  (length (x_buf s) mod 4 = 0)%nat /\ bytes_ok (x_buf s) /\ (length (x_buf s) <= 64)%nat.
Proof.
  eexists. split; [reflexivity|].
  apply (nfs3_xdr_words lookup_routine 0 sample_lookup 64 ample_heap _
           lookup_routine_in sample_lookup_wf). reflexivity.
Defined.
