(* ===== verification/NfsMsg.v ===== *)
(** * Messages: decoding into fresh memory and freeing, [nfs3.c] and [mount3.c]

    [xdr_to_T] allocates a [struct T], clears the pointers the decoder will
    look at, decodes the message into it and returns it, or NULL.  [free_T]
    releases what it returned.  The content of a fresh block is the argument
    [junk]; the user field of the handle, which [xdrmem_create] leaves alone,
    is the argument [x_public].  [None] is undefined behaviour.

    The second argument of [mem_free] is dropped by the macro of the C library
    ([<rpc/types.h>]), so it is not evaluated here either. *)

From S2P Require Import Prelude Xdr XdrList NfsTypes NfsXdr.

(** ** Clearing members of a fresh object *)

Definition null_val (o : opaque_buf) : opaque_buf := mk_opaque_buf (data_len o) PNull.
Definition null {A} (_ : ptr A) : ptr A := PNull.
Definition null_flavors (o : Z * ptr (list Z)) : Z * ptr (list Z) := (fst o, PNull).

Definition upd_nfs_fh3_data (g : opaque_buf -> opaque_buf) (o : nfs_fh3) : nfs_fh3 :=
  {| nfs_fh3_data := g (nfs_fh3_data o) |}.
Definition upd_LOOKUP3resok_object (g : nfs_fh3 -> nfs_fh3) (o : LOOKUP3resok) : LOOKUP3resok :=
  {| LOOKUP3resok_object := g (LOOKUP3resok_object o);
     LOOKUP3resok_obj_attributes := LOOKUP3resok_obj_attributes o;
     LOOKUP3resok_dir_attributes := LOOKUP3resok_dir_attributes o |}.
Definition upd_LOOKUP3res_resok (g : LOOKUP3resok -> LOOKUP3resok) (o : LOOKUP3res) : LOOKUP3res :=
  {| LOOKUP3res_status := LOOKUP3res_status o;
     LOOKUP3res_resok := g (LOOKUP3res_resok o);
     LOOKUP3res_resfail := LOOKUP3res_resfail o |}.
Definition upd_diropargs3_name (g : filename3 -> filename3) (o : diropargs3) : diropargs3 :=
  {| diropargs3_dir := diropargs3_dir o;
     diropargs3_name := g (diropargs3_name o) |}.
Definition upd_LOOKUP3args_what (g : diropargs3 -> diropargs3) (o : LOOKUP3args) : LOOKUP3args :=
  {| LOOKUP3args_what := g (LOOKUP3args_what o) |}.
Definition upd_diropargs3_dir (g : nfs_fh3 -> nfs_fh3) (o : diropargs3) : diropargs3 :=
  {| diropargs3_dir := g (diropargs3_dir o);
     diropargs3_name := diropargs3_name o |}.
Definition upd_GETATTR3args_object (g : nfs_fh3 -> nfs_fh3) (o : GETATTR3args) : GETATTR3args :=
  {| GETATTR3args_object := g (GETATTR3args_object o) |}.
Definition upd_SETATTR3args_object (g : nfs_fh3 -> nfs_fh3) (o : SETATTR3args) : SETATTR3args :=
  {| SETATTR3args_object := g (SETATTR3args_object o);
     SETATTR3args_new_attributes := SETATTR3args_new_attributes o;
     SETATTR3args_guard := SETATTR3args_guard o |}.
Definition upd_ACCESS3args_object (g : nfs_fh3 -> nfs_fh3) (o : ACCESS3args) : ACCESS3args :=
  {| ACCESS3args_object := g (ACCESS3args_object o);
     ACCESS3args_access := ACCESS3args_access o |}.
Definition upd_READLINK3resok_data (g : nfspath3 -> nfspath3) (o : READLINK3resok) : READLINK3resok :=
  {| READLINK3resok_symlink_attributes := READLINK3resok_symlink_attributes o;
     READLINK3resok_data := g (READLINK3resok_data o) |}.
Definition upd_READLINK3res_resok (g : READLINK3resok -> READLINK3resok) (o : READLINK3res) : READLINK3res :=
  {| READLINK3res_status := READLINK3res_status o;
     READLINK3res_resok := g (READLINK3res_resok o);
     READLINK3res_resfail := READLINK3res_resfail o |}.
Definition upd_READLINK3args_symlink (g : nfs_fh3 -> nfs_fh3) (o : READLINK3args) : READLINK3args :=
  {| READLINK3args_symlink := g (READLINK3args_symlink o) |}.
Definition upd_READ3resok_data (g : opaque_buf -> opaque_buf) (o : READ3resok) : READ3resok :=
  {| READ3resok_file_attributes := READ3resok_file_attributes o;
     READ3resok_count := READ3resok_count o;
     READ3resok_eof := READ3resok_eof o;
     READ3resok_data := g (READ3resok_data o) |}.
Definition upd_READ3res_resok (g : READ3resok -> READ3resok) (o : READ3res) : READ3res :=
  {| READ3res_status := READ3res_status o;
     READ3res_resok := g (READ3res_resok o);
     READ3res_resfail := READ3res_resfail o |}.
Definition upd_READ3args_file (g : nfs_fh3 -> nfs_fh3) (o : READ3args) : READ3args :=
  {| READ3args_file := g (READ3args_file o);
     READ3args_offset := READ3args_offset o;
     READ3args_count := READ3args_count o |}.
Definition upd_WRITE3args_file (g : nfs_fh3 -> nfs_fh3) (o : WRITE3args) : WRITE3args :=
  {| WRITE3args_file := g (WRITE3args_file o);
     WRITE3args_offset := WRITE3args_offset o;
     WRITE3args_count := WRITE3args_count o;
     WRITE3args_stable := WRITE3args_stable o;
     WRITE3args_data := WRITE3args_data o |}.
Definition upd_post_op_fh3_handle (g : nfs_fh3 -> nfs_fh3) (o : post_op_fh3) : post_op_fh3 :=
  {| post_op_fh3_handle_follows := post_op_fh3_handle_follows o;
     post_op_fh3_handle := g (post_op_fh3_handle o) |}.
Definition upd_CREATE3resok_obj (g : post_op_fh3 -> post_op_fh3) (o : CREATE3resok) : CREATE3resok :=
  {| CREATE3resok_obj := g (CREATE3resok_obj o);
     CREATE3resok_obj_attributes := CREATE3resok_obj_attributes o;
     CREATE3resok_dir_wcc := CREATE3resok_dir_wcc o |}.
Definition upd_CREATE3res_resok (g : CREATE3resok -> CREATE3resok) (o : CREATE3res) : CREATE3res :=
  {| CREATE3res_status := CREATE3res_status o;
     CREATE3res_resok := g (CREATE3res_resok o);
     CREATE3res_resfail := CREATE3res_resfail o |}.
Definition upd_CREATE3args_where (g : diropargs3 -> diropargs3) (o : CREATE3args) : CREATE3args :=
  {| CREATE3args_where := g (CREATE3args_where o);
     CREATE3args_how := CREATE3args_how o |}.
Definition upd_MKDIR3resok_obj (g : post_op_fh3 -> post_op_fh3) (o : MKDIR3resok) : MKDIR3resok :=
  {| MKDIR3resok_obj := g (MKDIR3resok_obj o);
     MKDIR3resok_obj_attributes := MKDIR3resok_obj_attributes o;
     MKDIR3resok_dir_wcc := MKDIR3resok_dir_wcc o |}.
Definition upd_MKDIR3res_resok (g : MKDIR3resok -> MKDIR3resok) (o : MKDIR3res) : MKDIR3res :=
  {| MKDIR3res_status := MKDIR3res_status o;
     MKDIR3res_resok := g (MKDIR3res_resok o);
     MKDIR3res_resfail := MKDIR3res_resfail o |}.
Definition upd_MKDIR3args_where (g : diropargs3 -> diropargs3) (o : MKDIR3args) : MKDIR3args :=
  {| MKDIR3args_where := g (MKDIR3args_where o);
     MKDIR3args_attributes := MKDIR3args_attributes o |}.
Definition upd_SYMLINK3resok_obj (g : post_op_fh3 -> post_op_fh3) (o : SYMLINK3resok) : SYMLINK3resok :=
  {| SYMLINK3resok_obj := g (SYMLINK3resok_obj o);
     SYMLINK3resok_obj_attributes := SYMLINK3resok_obj_attributes o;
     SYMLINK3resok_dir_wcc := SYMLINK3resok_dir_wcc o |}.
Definition upd_SYMLINK3res_resok (g : SYMLINK3resok -> SYMLINK3resok) (o : SYMLINK3res) : SYMLINK3res :=
  {| SYMLINK3res_status := SYMLINK3res_status o;
     SYMLINK3res_resok := g (SYMLINK3res_resok o);
     SYMLINK3res_resfail := SYMLINK3res_resfail o |}.
Definition upd_SYMLINK3args_where (g : diropargs3 -> diropargs3) (o : SYMLINK3args) : SYMLINK3args :=
  {| SYMLINK3args_where := g (SYMLINK3args_where o);
     SYMLINK3args_symlink := SYMLINK3args_symlink o |}.
Definition upd_symlinkdata3_symlink_data (g : nfspath3 -> nfspath3) (o : symlinkdata3) : symlinkdata3 :=
  {| symlinkdata3_symlink_attributes := symlinkdata3_symlink_attributes o;
     symlinkdata3_symlink_data := g (symlinkdata3_symlink_data o) |}.
Definition upd_SYMLINK3args_symlink (g : symlinkdata3 -> symlinkdata3) (o : SYMLINK3args) : SYMLINK3args :=
  {| SYMLINK3args_where := SYMLINK3args_where o;
     SYMLINK3args_symlink := g (SYMLINK3args_symlink o) |}.
Definition upd_MKNOD3resok_obj (g : post_op_fh3 -> post_op_fh3) (o : MKNOD3resok) : MKNOD3resok :=
  {| MKNOD3resok_obj := g (MKNOD3resok_obj o);
     MKNOD3resok_obj_attributes := MKNOD3resok_obj_attributes o;
     MKNOD3resok_dir_wcc := MKNOD3resok_dir_wcc o |}.
Definition upd_MKNOD3res_resok (g : MKNOD3resok -> MKNOD3resok) (o : MKNOD3res) : MKNOD3res :=
  {| MKNOD3res_status := MKNOD3res_status o;
     MKNOD3res_resok := g (MKNOD3res_resok o);
     MKNOD3res_resfail := MKNOD3res_resfail o |}.
Definition upd_MKNOD3args_where (g : diropargs3 -> diropargs3) (o : MKNOD3args) : MKNOD3args :=
  {| MKNOD3args_where := g (MKNOD3args_where o);
     MKNOD3args_what := MKNOD3args_what o |}.
Definition upd_REMOVE3args_object (g : diropargs3 -> diropargs3) (o : REMOVE3args) : REMOVE3args :=
  {| REMOVE3args_object := g (REMOVE3args_object o) |}.
Definition upd_RMDIR3args_object (g : diropargs3 -> diropargs3) (o : RMDIR3args) : RMDIR3args :=
  {| RMDIR3args_object := g (RMDIR3args_object o) |}.
Definition upd_RENAME3args_from (g : diropargs3 -> diropargs3) (o : RENAME3args) : RENAME3args :=
  {| RENAME3args_from := g (RENAME3args_from o);
     RENAME3args_to := RENAME3args_to o |}.
Definition upd_RENAME3args_to (g : diropargs3 -> diropargs3) (o : RENAME3args) : RENAME3args :=
  {| RENAME3args_from := RENAME3args_from o;
     RENAME3args_to := g (RENAME3args_to o) |}.
Definition upd_LINK3args_file (g : nfs_fh3 -> nfs_fh3) (o : LINK3args) : LINK3args :=
  {| LINK3args_file := g (LINK3args_file o);
     LINK3args_link := LINK3args_link o |}.
Definition upd_LINK3args_link (g : diropargs3 -> diropargs3) (o : LINK3args) : LINK3args :=
  {| LINK3args_file := LINK3args_file o;
     LINK3args_link := g (LINK3args_link o) |}.
Definition upd_dirlist3_entries (g : ptr entry3 -> ptr entry3) (o : dirlist3) : dirlist3 :=
  {| dirlist3_entries := g (dirlist3_entries o);
     dirlist3_eof := dirlist3_eof o |}.
Definition upd_READDIR3resok_reply (g : dirlist3 -> dirlist3) (o : READDIR3resok) : READDIR3resok :=
  {| READDIR3resok_dir_attributes := READDIR3resok_dir_attributes o;
     READDIR3resok_cookieverf := READDIR3resok_cookieverf o;
     READDIR3resok_reply := g (READDIR3resok_reply o) |}.
Definition upd_READDIR3res_resok (g : READDIR3resok -> READDIR3resok) (o : READDIR3res) : READDIR3res :=
  {| READDIR3res_status := READDIR3res_status o;
     READDIR3res_resok := g (READDIR3res_resok o);
     READDIR3res_resfail := READDIR3res_resfail o |}.
Definition upd_READDIR3args_dir (g : nfs_fh3 -> nfs_fh3) (o : READDIR3args) : READDIR3args :=
  {| READDIR3args_dir := g (READDIR3args_dir o);
     READDIR3args_cookie := READDIR3args_cookie o;
     READDIR3args_cookieverf := READDIR3args_cookieverf o;
     READDIR3args_count := READDIR3args_count o |}.
Definition upd_dirlistplus3_entries (g : ptr entryplus3 -> ptr entryplus3) (o : dirlistplus3) : dirlistplus3 :=
  {| dirlistplus3_entries := g (dirlistplus3_entries o);
     dirlistplus3_eof := dirlistplus3_eof o |}.
Definition upd_READDIRPLUS3resok_reply (g : dirlistplus3 -> dirlistplus3) (o : READDIRPLUS3resok) : READDIRPLUS3resok :=
  {| READDIRPLUS3resok_dir_attributes := READDIRPLUS3resok_dir_attributes o;
     READDIRPLUS3resok_cookieverf := READDIRPLUS3resok_cookieverf o;
     READDIRPLUS3resok_reply := g (READDIRPLUS3resok_reply o) |}.
Definition upd_READDIRPLUS3res_resok (g : READDIRPLUS3resok -> READDIRPLUS3resok) (o : READDIRPLUS3res) : READDIRPLUS3res :=
  {| READDIRPLUS3res_status := READDIRPLUS3res_status o;
     READDIRPLUS3res_resok := g (READDIRPLUS3res_resok o);
     READDIRPLUS3res_resfail := READDIRPLUS3res_resfail o |}.
Definition upd_READDIRPLUS3args_dir (g : nfs_fh3 -> nfs_fh3) (o : READDIRPLUS3args) : READDIRPLUS3args :=
  {| READDIRPLUS3args_dir := g (READDIRPLUS3args_dir o);
     READDIRPLUS3args_cookie := READDIRPLUS3args_cookie o;
     READDIRPLUS3args_cookieverf := READDIRPLUS3args_cookieverf o;
     READDIRPLUS3args_dircount := READDIRPLUS3args_dircount o;
     READDIRPLUS3args_maxcount := READDIRPLUS3args_maxcount o |}.
Definition upd_FSSTAT3args_fsroot (g : nfs_fh3 -> nfs_fh3) (o : FSSTAT3args) : FSSTAT3args :=
  {| FSSTAT3args_fsroot := g (FSSTAT3args_fsroot o) |}.
Definition upd_FSINFOargs_fsroot (g : nfs_fh3 -> nfs_fh3) (o : FSINFOargs) : FSINFOargs :=
  {| FSINFOargs_fsroot := g (FSINFOargs_fsroot o) |}.
Definition upd_PATHCONF3args_object (g : nfs_fh3 -> nfs_fh3) (o : PATHCONF3args) : PATHCONF3args :=
  {| PATHCONF3args_object := g (PATHCONF3args_object o) |}.
Definition upd_COMMIT3args_file (g : nfs_fh3 -> nfs_fh3) (o : COMMIT3args) : COMMIT3args :=
  {| COMMIT3args_file := g (COMMIT3args_file o);
     COMMIT3args_offset := COMMIT3args_offset o;
     COMMIT3args_count := COMMIT3args_count o |}.
Definition upd_mountres3_ok_auth_flavors (g : Z * ptr (list Z) -> Z * ptr (list Z)) (o : mountres3_ok) : mountres3_ok :=
  {| mountres3_ok_fhandle := mountres3_ok_fhandle o;
     mountres3_ok_auth_flavors := g (mountres3_ok_auth_flavors o) |}.
Definition upd_mountres3_mountinfo (g : mountres3_ok -> mountres3_ok) (o : mountres3) : mountres3 :=
  {| mountres3_fhs_status := mountres3_fhs_status o;
     mountres3_mountinfo := g (mountres3_mountinfo o) |}.
Definition upd_mountres3_ok_fhandle (g : fhandle3 -> fhandle3) (o : mountres3_ok) : mountres3_ok :=
  {| mountres3_ok_fhandle := g (mountres3_ok_fhandle o);
     mountres3_ok_auth_flavors := mountres3_ok_auth_flavors o |}.

Section messages.
Context {P : XdrPrims}.

(** The common body of the [xdr_to_] functions: [msg] is NULL or a buffer of
    [len] bytes; [init] is the assignments made before the decoder runs. *)
Definition xdr_to {T} (proc : xdrproc T) (init : T -> T) (junk : T) (x_public : Z)
    (msg : option (list Z)) (h : heap) : option (ptr T * heap) :=
  match msg with
  | None => Some (PNull, h)
  | Some buf =>
      let (ok, h) := mem_alloc h in
      if negb ok then Some (PNull, h)
      else
        let xdr := mk_XDR XDR_DECODE buf 0 x_public h in
        match proc xdr (init junk) with
        | XOk xdr res => Some (PTo res, x_heap xdr)
        | XFail xdr => h ← mem_free (PTo ()) (x_heap xdr); Some (PNull, h)
        | XUB | XFuel => None
        end
  end.

Definition xdr_to_LOOKUP3res (junk : LOOKUP3res) (x_public : Z) (msg : option (list Z))
    : heap -> option (ptr LOOKUP3res * heap) :=
  xdr_to xdr_LOOKUP3res
    (upd_LOOKUP3res_resok (upd_LOOKUP3resok_object (upd_nfs_fh3_data null_val)))
    junk x_public msg.

Definition free_LOOKUP3res (msg : ptr LOOKUP3res) (h : heap) : option heap :=
  match msg with
  | PNull => Some h
  | PWild => None
  | PTo res =>
      h ← (if LOOKUP3res_status res =? NFS3_OK
           then mem_free (data_val (nfs_fh3_data (LOOKUP3resok_object (LOOKUP3res_resok res)))) h
           else Some h);
      mem_free msg h
  end.

Definition xdr_to_LOOKUP3args (junk : LOOKUP3args) (x_public : Z) (msg : option (list Z))
    : heap -> option (ptr LOOKUP3args * heap) :=
  xdr_to xdr_LOOKUP3args (upd_LOOKUP3args_what (upd_diropargs3_dir (upd_nfs_fh3_data null_val)) ∘
    upd_LOOKUP3args_what (upd_diropargs3_name null)) junk x_public msg.

Definition free_LOOKUP3args (msg : ptr LOOKUP3args) (h : heap) : option heap :=
  match msg with
  | PNull => Some h
  | PWild => None
  | PTo args =>
      h ← mem_free (diropargs3_name (LOOKUP3args_what args)) h;
      h ← mem_free (data_val (nfs_fh3_data (diropargs3_dir (LOOKUP3args_what args)))) h;
      mem_free msg h
  end.

Definition xdr_to_GETATTR3res (junk : GETATTR3res) (x_public : Z) (msg : option (list Z))
    : heap -> option (ptr GETATTR3res * heap) :=
  xdr_to xdr_GETATTR3res (fun o => o) junk x_public msg.

Definition free_GETATTR3res (msg : ptr GETATTR3res) (h : heap) : option heap :=
  match msg with
  | PNull => Some h
  | PWild => None
  | PTo _ =>
      mem_free msg h
  end.

Definition xdr_to_GETATTR3args (junk : GETATTR3args) (x_public : Z) (msg : option (list Z))
    : heap -> option (ptr GETATTR3args * heap) :=
  xdr_to xdr_GETATTR3args (upd_GETATTR3args_object (upd_nfs_fh3_data null_val)) junk x_public msg.

Definition free_GETATTR3args (msg : ptr GETATTR3args) (h : heap) : option heap :=
  match msg with
  | PNull => Some h
  | PWild => None
  | PTo args =>
      h ← mem_free (data_val (nfs_fh3_data (GETATTR3args_object args))) h;
      mem_free msg h
  end.

Definition xdr_to_SETATTR3res (junk : SETATTR3res) (x_public : Z) (msg : option (list Z))
    : heap -> option (ptr SETATTR3res * heap) :=
  xdr_to xdr_SETATTR3res (fun o => o) junk x_public msg.

Definition free_SETATTR3res (msg : ptr SETATTR3res) (h : heap) : option heap :=
  match msg with
  | PNull => Some h
  | PWild => None
  | PTo _ =>
      mem_free msg h
  end.

Definition xdr_to_SETATTR3args (junk : SETATTR3args) (x_public : Z) (msg : option (list Z))
    : heap -> option (ptr SETATTR3args * heap) :=
  xdr_to xdr_SETATTR3args (upd_SETATTR3args_object (upd_nfs_fh3_data null_val)) junk x_public msg.

Definition free_SETATTR3args (msg : ptr SETATTR3args) (h : heap) : option heap :=
  match msg with
  | PNull => Some h
  | PWild => None
  | PTo args =>
      h ← mem_free (data_val (nfs_fh3_data (SETATTR3args_object args))) h;
      mem_free msg h
  end.

Definition xdr_to_ACCESS3res (junk : ACCESS3res) (x_public : Z) (msg : option (list Z))
    : heap -> option (ptr ACCESS3res * heap) :=
  xdr_to xdr_ACCESS3res (fun o => o) junk x_public msg.

Definition free_ACCESS3res (msg : ptr ACCESS3res) (h : heap) : option heap :=
  match msg with
  | PNull => Some h
  | PWild => None
  | PTo _ =>
      mem_free msg h
  end.

Definition xdr_to_ACCESS3args (junk : ACCESS3args) (x_public : Z) (msg : option (list Z))
    : heap -> option (ptr ACCESS3args * heap) :=
  xdr_to xdr_ACCESS3args (upd_ACCESS3args_object (upd_nfs_fh3_data null_val)) junk x_public msg.

Definition free_ACCESS3args (msg : ptr ACCESS3args) (h : heap) : option heap :=
  match msg with
  | PNull => Some h
  | PWild => None
  | PTo args =>
      h ← mem_free (data_val (nfs_fh3_data (ACCESS3args_object args))) h;
      mem_free msg h
  end.

Definition xdr_to_READLINK3res (junk : READLINK3res) (x_public : Z) (msg : option (list Z))
    : heap -> option (ptr READLINK3res * heap) :=
  xdr_to xdr_READLINK3res
    (upd_READLINK3res_resok (upd_READLINK3resok_data null))
    junk x_public msg.

Definition free_READLINK3res (msg : ptr READLINK3res) (h : heap) : option heap :=
  match msg with
  | PNull => Some h
  | PWild => None
  | PTo res =>
      h ← (if READLINK3res_status res =? NFS3_OK
           then mem_free (READLINK3resok_data (READLINK3res_resok res)) h
           else Some h);
      mem_free msg h
  end.

Definition xdr_to_READLINK3args (junk : READLINK3args) (x_public : Z) (msg : option (list Z))
    : heap -> option (ptr READLINK3args * heap) :=
  xdr_to xdr_READLINK3args
    (upd_READLINK3args_symlink (upd_nfs_fh3_data null_val))
    junk x_public msg.

Definition free_READLINK3args (msg : ptr READLINK3args) (h : heap) : option heap :=
  match msg with
  | PNull => Some h
  | PWild => None
  | PTo args =>
      h ← mem_free (data_val (nfs_fh3_data (READLINK3args_symlink args))) h;
      mem_free msg h
  end.

Definition xdr_to_READ3res (junk : READ3res) (msg : option (list Z)) (data_xdr : Z)
    : heap -> option (ptr READ3res * heap) :=
  xdr_to xdr_READ3res (upd_READ3res_resok (upd_READ3resok_data null_val)) junk
    (if data_xdr =? NFS3_DATA_NO_DEXDR then DISABLE_DATA_DEXDR_INTERNAL
     else ENABLE_DATA_DEXDR_INTERNAL) msg.

Definition free_READ3res (msg : ptr READ3res) (data_xdr : Z) (h : heap) : option heap :=
  match msg with
  | PNull => Some h
  | PWild => None
  | PTo res =>
      h ← (if (READ3res_status res =? NFS3_OK) && (data_xdr =? NFS3_DATA_DEXDR)
           then mem_free (data_val (READ3resok_data (READ3res_resok res))) h
           else Some h);
      mem_free msg h
  end.

Definition xdr_to_READ3args (junk : READ3args) (x_public : Z) (msg : option (list Z))
    : heap -> option (ptr READ3args * heap) :=
  xdr_to xdr_READ3args (upd_READ3args_file (upd_nfs_fh3_data null_val)) junk x_public msg.

Definition free_READ3args (msg : ptr READ3args) (h : heap) : option heap :=
  match msg with
  | PNull => Some h
  | PWild => None
  | PTo args =>
      h ← mem_free (data_val (nfs_fh3_data (READ3args_file args))) h;
      mem_free msg h
  end.

Definition xdr_to_WRITE3res (junk : WRITE3res) (x_public : Z) (msg : option (list Z))
    : heap -> option (ptr WRITE3res * heap) :=
  xdr_to xdr_WRITE3res (fun o => o) junk x_public msg.

Definition free_WRITE3res (msg : ptr WRITE3res) (h : heap) : option heap :=
  match msg with
  | PNull => Some h
  | PWild => None
  | PTo _ =>
      mem_free msg h
  end.

Definition xdr_to_WRITE3args (junk : WRITE3args) (msg : option (list Z)) (data_xdr : Z)
    : heap -> option (ptr WRITE3args * heap) :=
  xdr_to xdr_WRITE3args (upd_WRITE3args_file (upd_nfs_fh3_data null_val)) junk
    (if data_xdr =? NFS3_DATA_NO_DEXDR then DISABLE_DATA_DEXDR_INTERNAL
     else ENABLE_DATA_DEXDR_INTERNAL) msg.

Definition free_WRITE3args (msg : ptr WRITE3args) (data_xdr : Z) (h : heap) : option heap :=
  match msg with
  | PNull => Some h
  | PWild => None
  | PTo args =>
      h ← mem_free (data_val (nfs_fh3_data (WRITE3args_file args))) h;
      h ← (if data_xdr =? NFS3_DATA_DEXDR
           then mem_free (data_val (WRITE3args_data args)) h
           else Some h);
      mem_free msg h
  end.

Definition xdr_to_CREATE3res (junk : CREATE3res) (x_public : Z) (msg : option (list Z))
    : heap -> option (ptr CREATE3res * heap) :=
  xdr_to xdr_CREATE3res
    (upd_CREATE3res_resok (upd_CREATE3resok_obj (upd_post_op_fh3_handle (upd_nfs_fh3_data null_val))))
    junk x_public msg.

Definition free_CREATE3res (msg : ptr CREATE3res) (h : heap) : option heap :=
  match msg with
  | PNull => Some h
  | PWild => None
  | PTo res =>
      h ← (if CREATE3res_status res =? NFS3_OK
           then mem_free
                  (data_val (nfs_fh3_data (post_op_fh3_handle (CREATE3resok_obj (CREATE3res_resok res))))) h
           else Some h);
      mem_free msg h
  end.

Definition xdr_to_CREATE3args (junk : CREATE3args) (x_public : Z) (msg : option (list Z))
    : heap -> option (ptr CREATE3args * heap) :=
  xdr_to xdr_CREATE3args (upd_CREATE3args_where (upd_diropargs3_name null) ∘
    upd_CREATE3args_where (upd_diropargs3_dir (upd_nfs_fh3_data null_val))) junk x_public msg.

Definition free_CREATE3args (msg : ptr CREATE3args) (h : heap) : option heap :=
  match msg with
  | PNull => Some h
  | PWild => None
  | PTo args =>
      h ← mem_free (data_val (nfs_fh3_data (diropargs3_dir (CREATE3args_where args)))) h;
      h ← mem_free (diropargs3_name (CREATE3args_where args)) h;
      mem_free msg h
  end.

Definition xdr_to_MKDIR3res (junk : MKDIR3res) (x_public : Z) (msg : option (list Z))
    : heap -> option (ptr MKDIR3res * heap) :=
  xdr_to xdr_MKDIR3res
    (upd_MKDIR3res_resok (upd_MKDIR3resok_obj (upd_post_op_fh3_handle (upd_nfs_fh3_data null_val))))
    junk x_public msg.

Definition free_MKDIR3res (msg : ptr MKDIR3res) (h : heap) : option heap :=
  match msg with
  | PNull => Some h
  | PWild => None
  | PTo res =>
      h ← (if MKDIR3res_status res =? NFS3_OK
           then mem_free
                  (data_val (nfs_fh3_data (post_op_fh3_handle (MKDIR3resok_obj (MKDIR3res_resok res))))) h
           else Some h);
      mem_free msg h
  end.

Definition xdr_to_MKDIR3args (junk : MKDIR3args) (x_public : Z) (msg : option (list Z))
    : heap -> option (ptr MKDIR3args * heap) :=
  xdr_to xdr_MKDIR3args (upd_MKDIR3args_where (upd_diropargs3_dir (upd_nfs_fh3_data null_val)) ∘
    upd_MKDIR3args_where (upd_diropargs3_name null)) junk x_public msg.

Definition free_MKDIR3args (msg : ptr MKDIR3args) (h : heap) : option heap :=
  match msg with
  | PNull => Some h
  | PWild => None
  | PTo args =>
      h ← mem_free (diropargs3_name (MKDIR3args_where args)) h;
      h ← mem_free (data_val (nfs_fh3_data (diropargs3_dir (MKDIR3args_where args)))) h;
      mem_free msg h
  end.

Definition xdr_to_SYMLINK3res (junk : SYMLINK3res) (x_public : Z) (msg : option (list Z))
    : heap -> option (ptr SYMLINK3res * heap) :=
  xdr_to xdr_SYMLINK3res
    (upd_SYMLINK3res_resok (upd_SYMLINK3resok_obj (upd_post_op_fh3_handle (upd_nfs_fh3_data null_val))))
    junk x_public msg.

Definition free_SYMLINK3res (msg : ptr SYMLINK3res) (h : heap) : option heap :=
  match msg with
  | PNull => Some h
  | PWild => None
  | PTo res =>
      h ← (if SYMLINK3res_status res =? NFS3_OK
           then mem_free
                  (data_val (nfs_fh3_data (post_op_fh3_handle (SYMLINK3resok_obj (SYMLINK3res_resok res))))) h
           else Some h);
      mem_free msg h
  end.

Definition xdr_to_SYMLINK3args (junk : SYMLINK3args) (x_public : Z) (msg : option (list Z))
    : heap -> option (ptr SYMLINK3args * heap) :=
  xdr_to xdr_SYMLINK3args (upd_SYMLINK3args_symlink (upd_symlinkdata3_symlink_data null) ∘
    upd_SYMLINK3args_where (upd_diropargs3_name null) ∘
    upd_SYMLINK3args_where (upd_diropargs3_dir (upd_nfs_fh3_data null_val))) junk x_public msg.

Definition free_SYMLINK3args (msg : ptr SYMLINK3args) (h : heap) : option heap :=
  match msg with
  | PNull => Some h
  | PWild => None
  | PTo args =>
      h ← mem_free (data_val (nfs_fh3_data (diropargs3_dir (SYMLINK3args_where args)))) h;
      h ← mem_free (diropargs3_name (SYMLINK3args_where args)) h;
      h ← mem_free (symlinkdata3_symlink_data (SYMLINK3args_symlink args)) h;
      mem_free msg h
  end.

Definition xdr_to_MKNOD3res (junk : MKNOD3res) (x_public : Z) (msg : option (list Z))
    : heap -> option (ptr MKNOD3res * heap) :=
  xdr_to xdr_MKNOD3res
    (upd_MKNOD3res_resok (upd_MKNOD3resok_obj (upd_post_op_fh3_handle (upd_nfs_fh3_data null_val))))
    junk x_public msg.

Definition free_MKNOD3res (msg : ptr MKNOD3res) (h : heap) : option heap :=
  match msg with
  | PNull => Some h
  | PWild => None
  | PTo res =>
      h ← (if MKNOD3res_status res =? NFS3_OK
           then mem_free
                  (data_val (nfs_fh3_data (post_op_fh3_handle (MKNOD3resok_obj (MKNOD3res_resok res))))) h
           else Some h);
      mem_free msg h
  end.

Definition xdr_to_MKNOD3args (junk : MKNOD3args) (x_public : Z) (msg : option (list Z))
    : heap -> option (ptr MKNOD3args * heap) :=
  xdr_to xdr_MKNOD3args (upd_MKNOD3args_where (upd_diropargs3_name null) ∘
    upd_MKNOD3args_where (upd_diropargs3_dir (upd_nfs_fh3_data null_val))) junk x_public msg.

Definition free_MKNOD3args (msg : ptr MKNOD3args) (h : heap) : option heap :=
  match msg with
  | PNull => Some h
  | PWild => None
  | PTo args =>
      h ← mem_free (data_val (nfs_fh3_data (diropargs3_dir (MKNOD3args_where args)))) h;
      h ← mem_free (diropargs3_name (MKNOD3args_where args)) h;
      Some h
  end.

Definition xdr_to_REMOVE3res (junk : REMOVE3res) (x_public : Z) (msg : option (list Z))
    : heap -> option (ptr REMOVE3res * heap) :=
  xdr_to xdr_REMOVE3res (fun o => o) junk x_public msg.

Definition free_REMOVE3res (msg : ptr REMOVE3res) (h : heap) : option heap :=
  match msg with
  | PNull => Some h
  | PWild => None
  | PTo _ =>
      mem_free msg h
  end.

Definition xdr_to_REMOVE3args (junk : REMOVE3args) (x_public : Z) (msg : option (list Z))
    : heap -> option (ptr REMOVE3args * heap) :=
  xdr_to xdr_REMOVE3args (upd_REMOVE3args_object (upd_diropargs3_name null) ∘
    upd_REMOVE3args_object (upd_diropargs3_dir (upd_nfs_fh3_data null_val))) junk x_public msg.

Definition free_REMOVE3args (msg : ptr REMOVE3args) (h : heap) : option heap :=
  match msg with
  | PNull => Some h
  | PWild => None
  | PTo args =>
      h ← mem_free (data_val (nfs_fh3_data (diropargs3_dir (REMOVE3args_object args)))) h;
      h ← mem_free (diropargs3_name (REMOVE3args_object args)) h;
      mem_free msg h
  end.

Definition xdr_to_RMDIR3res (junk : RMDIR3res) (x_public : Z) (msg : option (list Z))
    : heap -> option (ptr RMDIR3res * heap) :=
  xdr_to xdr_RMDIR3res (fun o => o) junk x_public msg.

Definition free_RMDIR3res (msg : ptr RMDIR3res) (h : heap) : option heap :=
  match msg with
  | PNull => Some h
  | PWild => None
  | PTo _ =>
      mem_free msg h
  end.

Definition xdr_to_RMDIR3args (junk : RMDIR3args) (x_public : Z) (msg : option (list Z))
    : heap -> option (ptr RMDIR3args * heap) :=
  xdr_to xdr_RMDIR3args (upd_RMDIR3args_object (upd_diropargs3_name null) ∘
    upd_RMDIR3args_object (upd_diropargs3_dir (upd_nfs_fh3_data null_val))) junk x_public msg.

Definition free_RMDIR3args (msg : ptr RMDIR3args) (h : heap) : option heap :=
  match msg with
  | PNull => Some h
  | PWild => None
  | PTo args =>
      h ← mem_free (data_val (nfs_fh3_data (diropargs3_dir (RMDIR3args_object args)))) h;
      h ← mem_free (diropargs3_name (RMDIR3args_object args)) h;
      mem_free msg h
  end.

Definition xdr_to_RENAME3res (junk : RENAME3res) (x_public : Z) (msg : option (list Z))
    : heap -> option (ptr RENAME3res * heap) :=
  xdr_to xdr_RENAME3res (fun o => o) junk x_public msg.

Definition free_RENAME3res (msg : ptr RENAME3res) (h : heap) : option heap :=
  match msg with
  | PNull => Some h
  | PWild => None
  | PTo _ =>
      mem_free msg h
  end.

Definition xdr_to_RENAME3args (junk : RENAME3args) (x_public : Z) (msg : option (list Z))
    : heap -> option (ptr RENAME3args * heap) :=
  xdr_to xdr_RENAME3args (upd_RENAME3args_to (upd_diropargs3_name null) ∘
    upd_RENAME3args_to (upd_diropargs3_dir (upd_nfs_fh3_data null_val)) ∘
    upd_RENAME3args_from (upd_diropargs3_name null) ∘
    upd_RENAME3args_from (upd_diropargs3_dir (upd_nfs_fh3_data null_val))) junk x_public msg.

Definition free_RENAME3args (msg : ptr RENAME3args) (h : heap) : option heap :=
  match msg with
  | PNull => Some h
  | PWild => None
  | PTo args =>
      h ← mem_free (data_val (nfs_fh3_data (diropargs3_dir (RENAME3args_from args)))) h;
      h ← mem_free (diropargs3_name (RENAME3args_from args)) h;
      h ← mem_free (data_val (nfs_fh3_data (diropargs3_dir (RENAME3args_to args)))) h;
      h ← mem_free (diropargs3_name (RENAME3args_to args)) h;
      mem_free msg h
  end.

Definition xdr_to_LINK3res (junk : LINK3res) (x_public : Z) (msg : option (list Z))
    : heap -> option (ptr LINK3res * heap) :=
  xdr_to xdr_LINK3res (fun o => o) junk x_public msg.

Definition free_LINK3res (msg : ptr LINK3res) (h : heap) : option heap :=
  match msg with
  | PNull => Some h
  | PWild => None
  | PTo _ =>
      mem_free msg h
  end.

Definition xdr_to_LINK3args (junk : LINK3args) (x_public : Z) (msg : option (list Z))
    : heap -> option (ptr LINK3args * heap) :=
  xdr_to xdr_LINK3args (upd_LINK3args_link (upd_diropargs3_name null) ∘
    upd_LINK3args_link (upd_diropargs3_dir (upd_nfs_fh3_data null_val)) ∘
    upd_LINK3args_file (upd_nfs_fh3_data null_val)) junk x_public msg.

Definition free_LINK3args (msg : ptr LINK3args) (h : heap) : option heap :=
  match msg with
  | PNull => Some h
  | PWild => None
  | PTo args =>
      h ← mem_free (data_val (nfs_fh3_data (LINK3args_file args))) h;
      h ← mem_free (data_val (nfs_fh3_data (diropargs3_dir (LINK3args_link args)))) h;
      h ← mem_free (diropargs3_name (LINK3args_link args)) h;
      mem_free msg h
  end.

Definition xdr_to_READDIR3res (junk : READDIR3res) (x_public : Z) (msg : option (list Z))
    : heap -> option (ptr READDIR3res * heap) :=
  xdr_to xdr_READDIR3res
    (upd_READDIR3res_resok (upd_READDIR3resok_reply (upd_dirlist3_entries null)))
    junk x_public msg.

Definition xdr_to_READDIR3args (junk : READDIR3args) (x_public : Z) (msg : option (list Z))
    : heap -> option (ptr READDIR3args * heap) :=
  xdr_to xdr_READDIR3args (upd_READDIR3args_dir (upd_nfs_fh3_data null_val)) junk x_public msg.

Definition free_READDIR3args (msg : ptr READDIR3args) (h : heap) : option heap :=
  match msg with
  | PNull => Some h
  | PWild => None
  | PTo args =>
      h ← mem_free (data_val (nfs_fh3_data (READDIR3args_dir args))) h;
      mem_free msg h
  end.

Definition xdr_to_READDIRPLUS3res (junk : READDIRPLUS3res) (x_public : Z) (msg : option (list Z))
    : heap -> option (ptr READDIRPLUS3res * heap) :=
  xdr_to xdr_READDIRPLUS3res
    (upd_READDIRPLUS3res_resok (upd_READDIRPLUS3resok_reply (upd_dirlistplus3_entries null)))
    junk x_public msg.

Definition xdr_to_READDIRPLUS3args (junk : READDIRPLUS3args) (x_public : Z) (msg : option (list Z))
    : heap -> option (ptr READDIRPLUS3args * heap) :=
  xdr_to xdr_READDIRPLUS3args
    (upd_READDIRPLUS3args_dir (upd_nfs_fh3_data null_val))
    junk x_public msg.

Definition free_READDIRPLUS3args (msg : ptr READDIRPLUS3args) (h : heap) : option heap :=
  match msg with
  | PNull => Some h
  | PWild => None
  | PTo args =>
      h ← mem_free (data_val (nfs_fh3_data (READDIRPLUS3args_dir args))) h;
      mem_free msg h
  end.

Definition xdr_to_FSSTAT3res (junk : FSSTAT3res) (x_public : Z) (msg : option (list Z))
    : heap -> option (ptr FSSTAT3res * heap) :=
  xdr_to xdr_FSSTAT3res (fun o => o) junk x_public msg.

Definition free_FSSTAT3res (msg : ptr FSSTAT3res) (h : heap) : option heap :=
  match msg with
  | PNull => Some h
  | PWild => None
  | PTo _ =>
      mem_free msg h
  end.

Definition xdr_to_FSSTAT3args (junk : FSSTAT3args) (x_public : Z) (msg : option (list Z))
    : heap -> option (ptr FSSTAT3args * heap) :=
  xdr_to xdr_FSSTAT3args (upd_FSSTAT3args_fsroot (upd_nfs_fh3_data null_val)) junk x_public msg.

Definition free_FSSTAT3args (msg : ptr FSSTAT3args) (h : heap) : option heap :=
  match msg with
  | PNull => Some h
  | PWild => None
  | PTo args =>
      h ← mem_free (data_val (nfs_fh3_data (FSSTAT3args_fsroot args))) h;
      mem_free msg h
  end.

Definition xdr_to_FSINFO3res (junk : FSINFO3res) (x_public : Z) (msg : option (list Z))
    : heap -> option (ptr FSINFO3res * heap) :=
  xdr_to xdr_FSINFO3res (fun o => o) junk x_public msg.

Definition free_FSINFO3res (msg : ptr FSINFO3res) (h : heap) : option heap :=
  match msg with
  | PNull => Some h
  | PWild => None
  | PTo _ =>
      mem_free msg h
  end.

Definition xdr_to_FSINFOargs (junk : FSINFOargs) (x_public : Z) (msg : option (list Z))
    : heap -> option (ptr FSINFOargs * heap) :=
  xdr_to xdr_FSINFOargs (upd_FSINFOargs_fsroot (upd_nfs_fh3_data null_val)) junk x_public msg.

Definition free_FSINFOargs (msg : ptr FSINFOargs) (h : heap) : option heap :=
  match msg with
  | PNull => Some h
  | PWild => None
  | PTo args =>
      h ← mem_free (data_val (nfs_fh3_data (FSINFOargs_fsroot args))) h;
      mem_free msg h
  end.

Definition xdr_to_PATHCONF3res (junk : PATHCONF3res) (x_public : Z) (msg : option (list Z))
    : heap -> option (ptr PATHCONF3res * heap) :=
  xdr_to xdr_PATHCONF3res (fun o => o) junk x_public msg.

Definition free_PATHCONF3res (msg : ptr PATHCONF3res) (h : heap) : option heap :=
  match msg with
  | PNull => Some h
  | PWild => None
  | PTo _ =>
      mem_free msg h
  end.

Definition xdr_to_PATHCONF3args (junk : PATHCONF3args) (x_public : Z) (msg : option (list Z))
    : heap -> option (ptr PATHCONF3args * heap) :=
  xdr_to xdr_PATHCONF3args
    (upd_PATHCONF3args_object (upd_nfs_fh3_data null_val))
    junk x_public msg.

Definition free_PATHCONF3args (msg : ptr PATHCONF3args) (h : heap) : option heap :=
  match msg with
  | PNull => Some h
  | PWild => None
  | PTo args =>
      h ← mem_free (data_val (nfs_fh3_data (PATHCONF3args_object args))) h;
      mem_free msg h
  end.

Definition xdr_to_COMMIT3res (junk : COMMIT3res) (x_public : Z) (msg : option (list Z))
    : heap -> option (ptr COMMIT3res * heap) :=
  xdr_to xdr_COMMIT3res (fun o => o) junk x_public msg.

Definition free_COMMIT3res (msg : ptr COMMIT3res) (h : heap) : option heap :=
  match msg with
  | PNull => Some h
  | PWild => None
  | PTo _ =>
      mem_free msg h
  end.

Definition xdr_to_COMMIT3args (junk : COMMIT3args) (x_public : Z) (msg : option (list Z))
    : heap -> option (ptr COMMIT3args * heap) :=
  xdr_to xdr_COMMIT3args (upd_COMMIT3args_file (upd_nfs_fh3_data null_val)) junk x_public msg.

Definition free_COMMIT3args (msg : ptr COMMIT3args) (h : heap) : option heap :=
  match msg with
  | PNull => Some h
  | PWild => None
  | PTo args =>
      h ← mem_free (data_val (nfs_fh3_data (COMMIT3args_file args))) h;
      mem_free msg h
  end.

Definition xdr_to_mntres3 (junk : mountres3) (x_public : Z) (msg : option (list Z))
    : heap -> option (ptr mountres3 * heap) :=
  xdr_to xdr_mountres3 (upd_mountres3_mountinfo (upd_mountres3_ok_fhandle null_val) ∘
    upd_mountres3_mountinfo (upd_mountres3_ok_auth_flavors null_flavors)) junk x_public msg.

Definition free_mntres3 (msg : ptr mountres3) (h : heap) : option heap :=
  match msg with
  | PNull => Some h
  | PWild => None
  | PTo res =>
      h ← (if mountres3_fhs_status res =? MNT3_OK
           then mem_free (data_val (mountres3_ok_fhandle (mountres3_mountinfo res))) h
           else Some h);
      mem_free msg h
  end.

(** ** Lists *)

(** while (entry != NULL) { ... } *)
Fixpoint free_entries (entry : node entry3_body) (h : heap) : option heap :=
  match entry with
  | Node e nextentry =>
      h ← mem_free (entry3_body_name e) h;
      h ← mem_free (PTo entry) h;
      match nextentry with
      | PNull => Some h
      | PTo entry => free_entries entry h
      | PWild => None
      end
  end.

Definition free_READDIR3res (msg : ptr READDIR3res) (h : heap) : option heap :=
  match msg with
  | PNull => Some h
  | PWild => None
  | PTo res =>
      h ← (if READDIR3res_status res =? NFS3_OK
           then match dirlist3_entries (READDIR3resok_reply (READDIR3res_resok res)) with
                | PNull => Some h
                | PTo entry => free_entries entry h
                | PWild => None
                end
           else Some h);
      mem_free msg h
  end.

Fixpoint free_entriesplus (entry : node entryplus3_body) (h : heap) : option heap :=
  match entry with
  | Node e nextentry =>
      h ← mem_free (entryplus3_body_name e) h;
      h ← mem_free (data_val (nfs_fh3_data (post_op_fh3_handle
                     (entryplus3_body_name_handle e)))) h;
      h ← mem_free (PTo entry) h;
      match nextentry with
      | PNull => Some h
      | PTo entry => free_entriesplus entry h
      | PWild => None
      end
  end.

Definition free_READDIRPLUS3res (msg : ptr READDIRPLUS3res) (h : heap) : option heap :=
  match msg with
  | PNull => Some h
  | PWild => None
  | PTo res =>
      h ← (if READDIRPLUS3res_status res =? NFS3_OK
           then match dirlistplus3_entries
                        (READDIRPLUS3resok_reply (READDIRPLUS3res_resok res)) with
                | PNull => Some h
                | PTo entry => free_entriesplus entry h
                | PWild => None
                end
           else Some h);
      mem_free msg h
  end.

(** The node allocated here is the destination of the first element; its three
    members are cleared, which makes it [zero_mountbody] whatever it held. *)
Definition xdr_to_mountlist (x_public : Z) (msg : list Z) (h : heap)
    : option (mountlist * heap) :=
  let (ok, h) := mem_alloc h in
  if negb ok then Some (PNull, h)
  else
    let xdr := mk_XDR XDR_DECODE msg 0 x_public h in
    match xdr_mountlist xdr (PTo zero_mountbody) with
    | XOk xdr mb => Some (mb, x_heap xdr)
    | XFail xdr => h ← mem_free (PTo ()) (x_heap xdr); Some (PNull, h)
    | XUB | XFuel => None
    end.

Definition xdr_to_exports (x_public : Z) (msg : option (list Z)) (h : heap)
    : option (exports * heap) :=
  match msg with
  | None => Some (PNull, h)
  | Some buf =>
      let (ok, h) := mem_alloc h in
      if negb ok then Some (PNull, h)
      else
        let xdr := mk_XDR XDR_DECODE buf 0 x_public h in
        match xdr_exports xdr (PTo zero_exportnode) with
        | XOk xdr ex => Some (ex, x_heap xdr)
        | XFail xdr => h ← mem_free (PTo ()) (x_heap xdr); Some (PNull, h)
        | XUB | XFuel => None
        end
  end.

Fixpoint free_mountnode (list : node mountbody_body) (h : heap) : option heap :=
  match list with
  | Node b ml_next =>
      h ← mem_free (mountbody_body_ml_hostname b) h;
      h ← mem_free (mountbody_body_ml_directory b) h;
      h ← mem_free (PTo list) h;
      match ml_next with
      | PNull => Some h
      | PTo list => free_mountnode list h
      | PWild => None
      end
  end.
Definition free_mountlist (msg : mountlist) (h : heap) : option heap :=
  match msg with
  | PNull => Some h
  | PTo list => free_mountnode list h
  | PWild => None
  end.

Fixpoint free_groupnode (n : node groupnode_body) (h : heap) : option heap :=
  match n with
  | Node b gr_next =>
      h ← mem_free (groupnode_body_gr_name b) h;
      h ← mem_free (PTo n) h;
      match gr_next with
      | PNull => Some h
      | PTo n => free_groupnode n h
      | PWild => None
      end
  end.
Definition free_groups (gr : groups) (h : heap) : option heap :=
  match gr with
  | PNull => Some h
  | PTo n => free_groupnode n h
  | PWild => None
  end.

(** The loop frees the members of a node but not the node. *)
Fixpoint free_exportnode (en : node exportnode_body) (h : heap) : option heap :=
  match en with
  | Node b ex_next =>
      h ← mem_free (exportnode_body_ex_dir b) h;
      h ← free_groups (exportnode_body_ex_groups b) h;
      match ex_next with
      | PNull => Some h
      | PTo en => free_exportnode en h
      | PWild => None
      end
  end.
Definition free_exports (ex : exports) (h : heap) : option heap :=
  match ex with
  | PNull => Some h
  | PTo en => free_exportnode en h
  | PWild => None
  end.

(** ** [fhandle3_dup] *)

(** The copy of a file handle, into [newfh] or a fresh block.  Where an
    allocation fails the [assert] aborts; [None] also stands for that. *)
Definition fhandle3_dup (fh newfh : ptr fhandle3) (h : heap) : option (ptr fhandle3 * heap) :=
  match fh with
  | PNull => Some (PNull, h)
  | PWild => None
  | PTo fh =>
      h ← match newfh with
          | PNull => let (ok, h) := mem_alloc h in if ok then Some h else None
          | PTo _ => Some h
          | PWild => None
          end;
      let (ok, h) := mem_alloc h in
      if negb ok then None
      else
        match data_val fh with
        | PTo src =>
            if data_len fh <=? Z.of_nat (length src)
            then Some (PTo (mk_opaque_buf (data_len fh)
                              (PTo (take (Z.to_nat (data_len fh)) src))), h)
            else None
        | _ => if data_len fh =? 0
               then Some (PTo (mk_opaque_buf 0 (PTo [])), h) else None
        end
  end.

End messages.
