(* ===== verification/NfsMsgCorrect.v ===== *)
(** * The message functions neither corrupt nor leak memory

    For each pair [xdr_to_T], [free_T]: on any message, with any content of
    the fresh block and any allocation failures, decoding has no undefined
    behaviour, and freeing an object that it returned brings the number of live
    blocks back to what it was.  A message that is rejected may leave the blocks
    of its members behind.  The pairs for which more goes wrong have theorems of
    their own that say what happens. *)

From S2P Require Import Prelude Xdr XdrRfc XdrList NfsTypes NfsSpec NfsXdr NfsXdrCorrect NfsWire NfsMsg.

(** ** Freeing *)

(** [F] frees [n] blocks. *)
Definition Frees (F : heap -> option heap) (n : nat) : Prop :=
  forall h, (n <= h_live h)%nat ->
    exists h', F h = Some h' /\ (h_live h' + n = h_live h)%nat.

Lemma frees_ret : Frees Some 0.
Proof. intros h _. exists h. split; [done|lia]. Qed.

Lemma frees_ptr {A} (p : ptr A) : ptr_clean p -> Frees (mem_free p) (ptr_owned p).
Proof.
  destruct p as [|a|]; intros Hc h Hh; unfold mem_free; cbn in *; [by exists h; split; [|lia]| |done].
  destruct (h_live h) as [|n] eqn:E; [lia|]. eexists. split; [done|]. cbn. lia.
Qed.

Lemma frees_bind F G n m : Frees F n -> Frees G m -> Frees (fun h => h ← F h; G h) (n + m).
Proof.
  intros HF HG h Hh. destruct (HF h) as (h1 & E1 & H1); [lia|].
  destruct (HG h1) as (h2 & E2 & H2); [lia|]. exists h2. rewrite E1. cbn. split; [done|lia].
Qed.

Lemma frees_eq F n m : Frees F n -> n = m -> Frees F m.
Proof. by intros ? <-. Qed.

(** Freeing an object of type [T] frees its block and the blocks it owns. *)
Definition FreeOK {T} (w : wire T) (free : ptr T -> heap -> option heap) : Prop :=
  forall o, w_clean w o -> Frees (free (PTo o)) (S (w_owned w o)).

(** What the descriptions that hold pointers say of ownership. *)
Lemma filename3_owned p : w_owned filename3_w p = ptr_owned p. Proof. done. Qed.
Lemma nfspath3_owned p : w_owned nfspath3_w p = ptr_owned p. Proof. done. Qed.
Lemma nfs_fh3_owned o : w_owned nfs_fh3_w o = ptr_owned (data_val (nfs_fh3_data o)).
Proof. done. Qed.
Lemma nfs_fh3_clean o : w_clean nfs_fh3_w o = ptr_clean (data_val (nfs_fh3_data o)).
Proof. done. Qed.
Lemma post_op_fh3_ptr o : w_clean post_op_fh3_w o ->
  ptr_clean (data_val (nfs_fh3_data (post_op_fh3_handle o))) /\
  w_owned post_op_fh3_w o = ptr_owned (data_val (nfs_fh3_data (post_op_fh3_handle o))).
Proof. unfold post_op_fh3_w. cbn. repeat case_match; done. Qed.

(** Descriptions without pointers. *)
Ltac no_ptr :=
  cbn; repeat match goal with |- context [if ?b then _ else _] => destruct b end; reflexivity.
Lemma post_op_attr_no_ptr o : w_owned post_op_attr_w o = 0%nat.
Proof. unfold post_op_attr_w. no_ptr. Qed.
Lemma pre_op_attr_no_ptr o : w_owned pre_op_attr_w o = 0%nat.
Proof. unfold pre_op_attr_w. no_ptr. Qed.
Lemma wcc_data_no_ptr o : w_owned wcc_data_w o = 0%nat.
Proof. unfold wcc_data_w. cbn. by rewrite pre_op_attr_no_ptr, post_op_attr_no_ptr. Qed.
Lemma sattr3_no_ptr o : w_owned sattr3_w o = 0%nat.
Proof.
  unfold sattr3_w, set_mode3_w, set_uid3_w, set_gid3_w, set_size3_w, set_atime_w, set_mtime_w.
  no_ptr.
Qed.

(** Expands what an object owns into a sum over its pointers. *)
Ltac owned_sum :=
  repeat first
    [ progress rewrite ?filename3_owned, ?nfspath3_owned, ?nfs_fh3_owned, ?post_op_attr_no_ptr,
        ?wcc_data_no_ptr, ?sattr3_no_ptr
    | progress xdr_owned
    | match goal with
      | |- context [w_owned (if ?b then _ else _) _] => destruct b
      | |- context [w_owned ?w _] => words_head w
      end; cbn
    | progress cbn ].

(** Frees a sequence of members, then the block. *)
Ltac frees :=
  lazymatch goal with
  | |- Frees (fun h => mbind _ _) _ => eapply frees_bind; [frees|frees]
  | |- Frees (fun h => mem_free _ h) _ => apply frees_ptr; solve [done | eauto]
  | |- Frees (mem_free _) _ => apply frees_ptr; solve [done | eauto]
  | |- Frees _ _ => apply frees_ret
  end.
Ltac free_ok :=
  cbn in *; rewrite ?nfs_fh3_clean in *;
  xdr_if; repeat (xdr_case; xdr_if); cbn in *; destruct_and?; rewrite ?nfs_fh3_clean in *;
  repeat match goal with
  | H : w_clean post_op_fh3_w _ |- _ =>
      let E := fresh "Eown" in apply post_op_fh3_ptr in H as [? E]; rewrite ?E
  end;
  (eapply frees_eq;
   [ frees
   | owned_sum; lia ]).
Lemma free_LOOKUP3res_ok : FreeOK LOOKUP3res_w free_LOOKUP3res.
Proof. intros [] Hc. unfold free_LOOKUP3res, LOOKUP3res_w, LOOKUP3resok_w in *. free_ok. Qed.
Lemma free_LOOKUP3args_ok : FreeOK LOOKUP3args_w free_LOOKUP3args.
Proof. intros [] Hc. unfold free_LOOKUP3args, LOOKUP3args_w, diropargs3_w in *. free_ok. Qed.
Lemma free_GETATTR3res_ok : FreeOK GETATTR3res_w free_GETATTR3res.
Proof. intros [] Hc. unfold free_GETATTR3res, GETATTR3res_w, GETATTR3resok_w in *. free_ok. Qed.
Lemma free_GETATTR3args_ok : FreeOK GETATTR3args_w free_GETATTR3args.
Proof. intros [] Hc. unfold free_GETATTR3args, GETATTR3args_w in *. free_ok. Qed.
Lemma free_SETATTR3res_ok : FreeOK SETATTR3res_w free_SETATTR3res.
Proof. intros [] Hc. unfold free_SETATTR3res, SETATTR3res_w, SETATTR3resok_w in *. free_ok. Qed.
Lemma free_SETATTR3args_ok : FreeOK SETATTR3args_w free_SETATTR3args.
Proof. intros [] Hc. unfold free_SETATTR3args, SETATTR3args_w in *. free_ok. Qed.
Lemma free_ACCESS3res_ok : FreeOK ACCESS3res_w free_ACCESS3res.
Proof. intros [] Hc. unfold free_ACCESS3res, ACCESS3res_w, ACCESS3resok_w in *. free_ok. Qed.
Lemma free_ACCESS3args_ok : FreeOK ACCESS3args_w free_ACCESS3args.
Proof. intros [] Hc. unfold free_ACCESS3args, ACCESS3args_w in *. free_ok. Qed.
Lemma free_READLINK3res_ok : FreeOK READLINK3res_w free_READLINK3res.
Proof. intros [] Hc. unfold free_READLINK3res, READLINK3res_w, READLINK3resok_w in *. free_ok. Qed.
Lemma free_READLINK3args_ok : FreeOK READLINK3args_w free_READLINK3args.
Proof. intros [] Hc. unfold free_READLINK3args, READLINK3args_w in *. free_ok. Qed.
Lemma free_READ3args_ok : FreeOK READ3args_w free_READ3args.
Proof. intros [] Hc. unfold free_READ3args, READ3args_w in *. free_ok. Qed.
Lemma free_WRITE3res_ok : FreeOK WRITE3res_w free_WRITE3res.
Proof. intros [] Hc. unfold free_WRITE3res, WRITE3res_w, WRITE3resok_w in *. free_ok. Qed.
Lemma free_CREATE3res_ok : FreeOK CREATE3res_w free_CREATE3res.
Proof. intros [] Hc. unfold free_CREATE3res, CREATE3res_w, CREATE3resok_w in *. free_ok. Qed.
Lemma free_CREATE3args_ok : FreeOK CREATE3args_w free_CREATE3args.
Proof. intros [] Hc. unfold free_CREATE3args, CREATE3args_w, diropargs3_w in *. free_ok. Qed.
Lemma free_MKDIR3res_ok : FreeOK MKDIR3res_w free_MKDIR3res.
Proof. intros [] Hc. unfold free_MKDIR3res, MKDIR3res_w, MKDIR3resok_w in *. free_ok. Qed.
Lemma free_MKDIR3args_ok : FreeOK MKDIR3args_w free_MKDIR3args.
Proof. intros [] Hc. unfold free_MKDIR3args, MKDIR3args_w, diropargs3_w in *. free_ok. Qed.
Lemma free_SYMLINK3res_ok : FreeOK SYMLINK3res_w free_SYMLINK3res.
Proof. intros [] Hc. unfold free_SYMLINK3res, SYMLINK3res_w, SYMLINK3resok_w in *. free_ok. Qed.
Lemma free_SYMLINK3args_ok : FreeOK SYMLINK3args_w free_SYMLINK3args.
Proof. intros [] Hc. unfold free_SYMLINK3args, SYMLINK3args_w, symlinkdata3_w, diropargs3_w in *. free_ok. Qed.
Lemma free_MKNOD3res_ok : FreeOK MKNOD3res_w free_MKNOD3res.
Proof. intros [] Hc. unfold free_MKNOD3res, MKNOD3res_w, MKNOD3resok_w in *. free_ok. Qed.
Lemma free_REMOVE3res_ok : FreeOK REMOVE3res_w free_REMOVE3res.
Proof. intros [] Hc. unfold free_REMOVE3res, REMOVE3res_w, REMOVE3resok_w in *. free_ok. Qed.
Lemma free_REMOVE3args_ok : FreeOK REMOVE3args_w free_REMOVE3args.
Proof. intros [] Hc. unfold free_REMOVE3args, REMOVE3args_w, diropargs3_w in *. free_ok. Qed.
Lemma free_RMDIR3res_ok : FreeOK RMDIR3res_w free_RMDIR3res.
Proof. intros [] Hc. unfold free_RMDIR3res, RMDIR3res_w, RMDIR3resok_w in *. free_ok. Qed.
Lemma free_RMDIR3args_ok : FreeOK RMDIR3args_w free_RMDIR3args.
Proof. intros [] Hc. unfold free_RMDIR3args, RMDIR3args_w, diropargs3_w in *. free_ok. Qed.
Lemma free_RENAME3res_ok : FreeOK RENAME3res_w free_RENAME3res.
Proof. intros [] Hc. unfold free_RENAME3res, RENAME3res_w, RENAME3resok_w in *. free_ok. Qed.
Lemma free_RENAME3args_ok : FreeOK RENAME3args_w free_RENAME3args.
Proof. intros [] Hc. unfold free_RENAME3args, RENAME3args_w, diropargs3_w in *. free_ok. Qed.
Lemma free_LINK3res_ok : FreeOK LINK3res_w free_LINK3res.
Proof. intros [] Hc. unfold free_LINK3res, LINK3res_w, LINK3resok_w in *. free_ok. Qed.
Lemma free_LINK3args_ok : FreeOK LINK3args_w free_LINK3args.
Proof. intros [] Hc. unfold free_LINK3args, LINK3args_w, diropargs3_w in *. free_ok. Qed.
Lemma free_READDIR3args_ok : FreeOK READDIR3args_w free_READDIR3args.
Proof. intros [] Hc. unfold free_READDIR3args, READDIR3args_w in *. free_ok. Qed.
Lemma free_READDIRPLUS3args_ok : FreeOK READDIRPLUS3args_w free_READDIRPLUS3args.
Proof. intros [] Hc. unfold free_READDIRPLUS3args, READDIRPLUS3args_w in *. free_ok. Qed.
Lemma free_FSSTAT3res_ok : FreeOK FSSTAT3res_w free_FSSTAT3res.
Proof. intros [] Hc. unfold free_FSSTAT3res, FSSTAT3res_w, FSSTAT3resok_w in *. free_ok. Qed.
Lemma free_FSSTAT3args_ok : FreeOK FSSTAT3args_w free_FSSTAT3args.
Proof. intros [] Hc. unfold free_FSSTAT3args, FSSTAT3args_w in *. free_ok. Qed.
Lemma free_FSINFO3res_ok : FreeOK FSINFO3res_w free_FSINFO3res.
Proof. intros [] Hc. unfold free_FSINFO3res, FSINFO3res_w, FSINFO3resok_w in *. free_ok. Qed.
Lemma free_FSINFOargs_ok : FreeOK FSINFOargs_w free_FSINFOargs.
Proof. intros [] Hc. unfold free_FSINFOargs, FSINFOargs_w in *. free_ok. Qed.
Lemma free_PATHCONF3res_ok : FreeOK PATHCONF3res_w free_PATHCONF3res.
Proof. intros [] Hc. unfold free_PATHCONF3res, PATHCONF3res_w, PATHCONF3resok_w in *. free_ok. Qed.
Lemma free_PATHCONF3args_ok : FreeOK PATHCONF3args_w free_PATHCONF3args.
Proof. intros [] Hc. unfold free_PATHCONF3args, PATHCONF3args_w in *. free_ok. Qed.
Lemma free_COMMIT3res_ok : FreeOK COMMIT3res_w free_COMMIT3res.
Proof. intros [] Hc. unfold free_COMMIT3res, COMMIT3res_w, COMMIT3resok_w in *. free_ok. Qed.
Lemma free_COMMIT3args_ok : FreeOK COMMIT3args_w free_COMMIT3args.
Proof. intros [] Hc. unfold free_COMMIT3args, COMMIT3args_w in *. free_ok. Qed.

(** ** Freeing lists *)

Section free_chain.
Context {A : Type} (w : wire A) (Fb : A -> heap -> option heap) (f : node A -> heap -> option heap).
Hypothesis HFb : forall b, w_clean w b -> Frees (Fb b) (w_owned w b).
Hypothesis Hf : forall b nx h, f (Node b nx) h =
  (h ← Fb b h; h ← mem_free (PTo (Node b nx)) h;
   match nx with PNull => Some h | PTo n => f n h | PWild => None end).

Lemma free_chain : forall n, node_clean w n -> Frees (f n) (S (node_owned w n)).
Proof.
  fix IH 1. intros [b nx] [Hb Hnx] h Hh. rewrite Hf. revert h Hh.
  change (Frees (fun h => h ← Fb b h; (fun h => h ← mem_free (PTo (Node b nx)) h;
    match nx with PNull => Some h | PTo n => f n h | PWild => None end) h)
    (S (node_owned w (Node b nx)))).
  eapply frees_eq; [apply frees_bind; [by apply HFb|]; apply frees_bind; [by apply frees_ptr|]|].
  - instantiate (1 := chain_owned w nx).
    destruct nx as [|n|]; [apply frees_ret|by apply IH|done].
  - cbn. unfold chain_owned. lia.
Qed.

(** The same through the pointer to the first node. *)
Lemma free_list p : chain_clean w p ->
  Frees (fun h => match p with PNull => Some h | PTo n => f n h | PWild => None end)
    (chain_owned w p).
Proof. destruct p as [|n|]; intros Hp; [apply frees_ret|by apply free_chain|done]. Qed.
End free_chain.

Lemma free_entries_ok p : chain_clean entry3_body_w p ->
  Frees (fun h => match p with PNull => Some h | PTo n => free_entries n h | PWild => None end)
    (chain_owned entry3_body_w p).
Proof.
  apply (free_list _ (fun b => mem_free (entry3_body_name b))); [|done].
  intros b Hb. unfold entry3_body_w in *. cbn in *. destruct_and?.
  eapply frees_eq; [by apply frees_ptr|owned_sum; lia].
Qed.

Lemma free_entriesplus_ok p : chain_clean entryplus3_body_w p ->
  Frees (fun h => match p with PNull => Some h | PTo n => free_entriesplus n h | PWild => None end)
    (chain_owned entryplus3_body_w p).
Proof.
  apply (free_list _ (fun b h => h ← mem_free (entryplus3_body_name b) h;
    mem_free (data_val (nfs_fh3_data (post_op_fh3_handle (entryplus3_body_name_handle b)))) h)).
  - intros b Hb. unfold entryplus3_body_w in *. cbn in *. destruct_and?.
    match goal with H : w_clean post_op_fh3_w _ |- _ => apply post_op_fh3_ptr in H as [? Eown] end.
    eapply frees_eq; [frees|]. rewrite Eown. owned_sum. lia.
  - intros b nx h. cbn. by destruct (mem_free (entryplus3_body_name b) h).
Qed.

Lemma free_READDIR3res_ok : FreeOK READDIR3res_w free_READDIR3res.
Proof.
  intros [st ok fl] Hc. unfold free_READDIR3res, READDIR3res_w, READDIR3resok_w, dirlist3_w in *.
  cbn in *. xdr_case; destruct_and?.
  - eapply frees_eq; [apply frees_bind; [by apply free_entries_ok|by apply frees_ptr]|].
    cbn. unfold chain_w. cbn. owned_sum. lia.
  - eapply frees_eq; [frees|owned_sum; lia].
Qed.

Lemma free_READDIRPLUS3res_ok : FreeOK READDIRPLUS3res_w free_READDIRPLUS3res.
Proof.
  intros [st ok fl] Hc.
  unfold free_READDIRPLUS3res, READDIRPLUS3res_w, READDIRPLUS3resok_w, dirlistplus3_w in *.
  cbn in *. xdr_case; destruct_and?.
  - eapply frees_eq; [apply frees_bind; [by apply free_entriesplus_ok|by apply frees_ptr]|].
    cbn. unfold chain_w. cbn. owned_sum. lia.
  - eapply frees_eq; [frees|owned_sum; lia].
Qed.

(** ** The payload *)

(** The user field [xdr_to_READ3res] and [xdr_to_WRITE3args] put in the handle. *)
Definition data_public (data_xdr : Z) : Z :=
  if data_xdr =? NFS3_DATA_NO_DEXDR then DISABLE_DATA_DEXDR_INTERNAL else ENABLE_DATA_DEXDR_INTERNAL.

Lemma free_READ3res_ok data_xdr :
  data_xdr = NFS3_DATA_DEXDR \/ data_xdr = NFS3_DATA_NO_DEXDR ->
  FreeOK (READ3res_w (data_public data_xdr)) (fun msg => free_READ3res msg data_xdr).
Proof.
  intros [-> | ->] [st ok fl] Hc; unfold free_READ3res, READ3res_w, READ3resok_w, payload_w in *.
  all: cbn in *; destruct (st =? NFS3_OK); cbn in *; destruct_and?; (eapply frees_eq; [frees|owned_sum; lia]).
Qed.

Lemma free_WRITE3args_ok data_xdr :
  data_xdr = NFS3_DATA_DEXDR \/ data_xdr = NFS3_DATA_NO_DEXDR ->
  FreeOK (WRITE3args_w (data_public data_xdr)) (fun msg => free_WRITE3args msg data_xdr).
Proof.
  intros [-> | ->] [] Hc; unfold free_WRITE3args, WRITE3args_w, payload_w in *.
  all: cbn in *; destruct_and?; (eapply frees_eq; [frees|owned_sum; lia]).
Qed.

(** ** Decoding and freeing *)

(** [decode] and [free] fit together: no undefined behaviour, and when [decode]
    accepts a message, no block is left behind after [free].  When it gives NULL,
    no fewer blocks are live than before; and exactly as many if there was no
    message, or no memory for the object.  (When the message is rejected later, what its
    members took stays: [rejected_message_leaks].) *)
Definition balanced {T} (decode : T -> Z -> option (list Z) -> heap -> option (ptr T * heap))
    (free : ptr T -> heap -> option heap) : Prop :=
  forall junk pub msg h,
    match decode junk pub msg h with
    | Some (PTo o, h') => exists h'', free (PTo o) h' = Some h'' /\ h_live h'' = h_live h
    | Some (PNull, h') => (h_live h <= h_live h')%nat /\
        (msg = None \/ h_ok h (h_requests h) = false -> h_live h' = h_live h)
    | Some (PWild, _) | None => False
    end.

(** [decode], given a block whose content is [fresh], reads what the protocol
    says, and rejects what is cut short. *)
Definition decodes_from {T} (fresh : T -> Prop)
    (decode : T -> Z -> option (list Z) -> heap -> option (ptr T * heap)) (w : wire T) : Prop :=
  forall junk pub o h, fresh junk -> w_wf w o -> mem_ample h ->
    (forall rest, exists o' h',
       decode junk pub (Some (w_enc w o ++ rest)) h = Some (PTo o', h') /\ w_sim w o o') /\
    (forall bs more, more <> [] -> bs ++ more = w_enc w o ->
       exists h', decode junk pub (Some bs) h = Some (PNull, h')).

(** Whatever the block holds. *)
Definition decodes {T} (decode : T -> Z -> option (list Z) -> heap -> option (ptr T * heap))
    (w : wire T) : Prop := decodes_from (fun _ => True) decode w.

(** The same for a list, whose empty form is NULL. *)
Definition decodes_list {A} (decode : Z -> list Z -> heap -> option (ptr (node A) * heap))
    (w : wire (ptr (node A))) : Prop :=
  forall pub p h, w_wf w p -> mem_ample h ->
    (forall rest, exists q h', decode pub (w_enc w p ++ rest) h = Some (q, h') /\ w_sim w p q) /\
    (forall bs more, more <> [] -> bs ++ more = w_enc w p -> exists h', decode pub bs h = Some (PNull, h')).

(** Whatever bytes come, [decode] makes a value of the type. *)
Definition decodes_typed {T} (decode : T -> Z -> option (list Z) -> heap -> option (ptr T * heap)) (w : wire T) : Prop :=
  forall junk pub bs h o h', bytes_ok bs -> decode junk pub (Some bs) h = Some (PTo o, h') -> w_typed w o.

(** The block and everything the object owns is live. *)
Definition decoded {T} (w : wire T) (h : heap) (r : option (ptr T * heap)) : Prop :=
  match r with
  | Some (PTo o, h') => w_clean w o /\ h_live h' = (h_live h + S (w_owned w o))%nat /\ h_ok h' = h_ok h
  | Some (PNull, h') => (h_live h <= h_live h')%nat
  | Some (PWild, _) | None => False
  end.

Lemma xdr_to_decoded `{P : XdrPrims} {T} (w : wire T) proc init junk pub msg h :
  Codec pub proc w -> w_fresh w (init junk) -> decoded w h (xdr_to proc init junk pub msg h).
Proof.
  intros Hc Hfresh. destruct msg as [buf|]; cbn; [|lia].
  unfold mem_alloc. destruct (h_ok h (h_requests h)); cbn; [|lia].
  set (h1 := mk_heap _ _ _).
  pose proof (codec_safe _ _ _ Hc (init junk) _ Hfresh
    (mk_XDR XDR_DECODE buf 0 pub h1) eq_refl eq_refl (le_n _)) as Hs. cbn in Hs.
  destruct (proc _ _) as [s' o|s'| |]; try done.
  - destruct Hs as (_ & _ & Hok & _ & Hl & Hcl). split; [done|]. split; [lia|done].
  - destruct Hs as [_ Hl]. unfold mem_free. destruct (h_live (x_heap s')); cbn; lia.
Qed.

(** Freeing after decoding. *)
Lemma decoded_freed {T} (w : wire T) free h r :
  decoded w h r -> FreeOK w free ->
  match r with
  | Some (PTo o, h') => exists h'', free (PTo o) h' = Some h'' /\ h_live h'' = h_live h
  | Some (PNull, h') => (h_live h <= h_live h')%nat
  | Some (PWild, _) | None => False
  end.
Proof.
  destruct r as [[[|o|] h']|]; intros Hd Hfree; cbn in *; try done.
  destruct Hd as (Hcl & Hl & _). destruct (Hfree o Hcl h') as (h2 & E & Hh2); [lia|].
  exists h2. split; [done|]. lia.
Qed.

(** Without a message, or without memory for the object, nothing is taken. *)
Lemma xdr_to_nothing `{P : XdrPrims} {T} (proc : xdrproc T) init junk pub msg h :
  msg = None \/ h_ok h (h_requests h) = false ->
  exists h', xdr_to proc init junk pub msg h = Some (PNull, h') /\ h_live h' = h_live h.
Proof.
  intros Hno. destruct msg as [buf|]; cbn; [|by exists h]. unfold mem_alloc.
  destruct Hno as [?| ->]; [done|]. by eexists.
Qed.

(** Decoding a message that the description covers. *)
Lemma xdr_to_reads `{HP : XdrPrims} {T} (w : wire T) proc init junk pub o h :
  Codec pub proc w -> w_fresh w (init junk) -> w_wf w o -> mem_ample h ->
  (forall rest, exists o' h',
     xdr_to proc init junk pub (Some (w_enc w o ++ rest)) h = Some (PTo o', h') /\ w_sim w o o') /\
  (forall bs more, more <> [] -> bs ++ more = w_enc w o ->
     exists h', xdr_to proc init junk pub (Some bs) h = Some (PNull, h')).
Proof.
  intros Hc Hfresh Hwf Hh.
  assert (Hdec : forall bs : list Z, DecOK pub (length bs) (fun s => proc s (init junk)) (w_enc w o) (w_sim w o))
    by (intros bs; by apply (codec_dec _ _ _ Hc)).
  split.
  - intros rest. cbn. unfold mem_alloc. rewrite Hh. cbn.
    set (s := mk_XDR _ _ _ _ _).
    destruct (Hdec (w_enc w o ++ rest) s) as [Hd _]; [done..|].
    destruct (Hd rest eq_refl) as (s' & o' & E & _ & Hsim). rewrite E.
    by exists o', (x_heap s').
  - intros bs more Hne Heq. cbn. unfold mem_alloc. rewrite Hh. cbn.
    set (s := mk_XDR XDR_DECODE bs 0 pub (mk_heap (S (h_live h)) (S (h_requests h)) (h_ok h))).
    destruct (Hdec bs s) as [_ Ht]; [done..|].
    destruct (Ht more Hne Heq) as [s' E]. rewrite E.
    pose proof (codec_safe _ _ _ Hc (init junk) _ Hfresh s
      eq_refl eq_refl (le_n _)) as Hs. cbn in Hs. rewrite E in Hs. destruct Hs as [_ Hl].
    unfold mem_free. destruct (h_live (x_heap s')); cbn in *; [lia|]. by eexists.
Qed.

Section xdr_to.
Context `{HP : XdrPrims} {T : Type} (w : wire T) (proc : xdrproc T) (init : T -> T) (pub : T -> Z -> Z).
Hypothesis Hc : forall junk x, Codec (pub junk x) proc w.
Hypothesis Hfresh : forall junk, w_fresh w (init junk).

Lemma xdr_to_balanced free : FreeOK w free ->
  balanced (fun junk x => xdr_to proc init junk (pub junk x)) free.
Proof.
  intros Hfree junk x msg h.
  pose proof (decoded_freed w free h _ (xdr_to_decoded w proc init junk (pub junk x) msg h (Hc junk x) (Hfresh junk)) Hfree) as H.
  pose proof (xdr_to_nothing proc init junk (pub junk x) msg h) as Hno.
  destruct (xdr_to _ _ _ _ _ _) as [[[|o|] h']|]; try done.
  split; [done|]. intros Hn. destruct (Hno Hn) as (h2 & E & ?). by injection E as ->.
Qed.

Lemma xdr_to_decodes : decodes (fun junk x => xdr_to proc init junk (pub junk x)) w.
Proof. intros junk x o h _ Hwf Hh. by apply xdr_to_reads. Qed.

Lemma xdr_to_typed : decodes_typed (fun junk x => xdr_to proc init junk (pub junk x)) w.
Proof.
  intros junk x bs h o h' Hb. cbn. unfold mem_alloc. destruct (h_ok h (h_requests h)); cbn; [|done].
  set (h1 := mk_heap _ _ _).
  pose proof (codec_typed _ _ _ (Hc junk x) (init junk) (Hfresh junk) (mk_XDR XDR_DECODE bs 0 (pub junk x) h1) eq_refl eq_refl Hb) as Ht.
  cbv beta in Ht. destruct (proc _ _) as [s' o'|s'| |]; try done.
  - intros [= <- _]. apply Ht.
  - destruct (mem_free _ _); discriminate.
Qed.

Lemma xdr_to_message free : FreeOK w free ->
  balanced (fun junk x => xdr_to proc init junk (pub junk x)) free /\
  decodes (fun junk x => xdr_to proc init junk (pub junk x)) w /\
  decodes_typed (fun junk x => xdr_to proc init junk (pub junk x)) w.
Proof. split; [by apply xdr_to_balanced|split; [apply xdr_to_decodes|apply xdr_to_typed]]. Qed.
End xdr_to.

(** A message of the library: how it is decoded and freed. *)
Record message `{P : XdrPrims} := mk_message {
  m_type : Type;
  m_decode : m_type -> Z -> option (list Z) -> heap -> option (ptr m_type * heap);
  m_free : ptr m_type -> heap -> option heap;
  m_wire : wire m_type
}.
Arguments mk_message {P m_type}.

Definition nfs3_messages `{P : XdrPrims} : list message := [
  mk_message xdr_to_LOOKUP3res free_LOOKUP3res LOOKUP3res_w;
  mk_message xdr_to_LOOKUP3args free_LOOKUP3args LOOKUP3args_w;
  mk_message xdr_to_GETATTR3res free_GETATTR3res GETATTR3res_w;
  mk_message xdr_to_GETATTR3args free_GETATTR3args GETATTR3args_w;
  mk_message xdr_to_SETATTR3res free_SETATTR3res SETATTR3res_w;
  mk_message xdr_to_SETATTR3args free_SETATTR3args SETATTR3args_w;
  mk_message xdr_to_ACCESS3res free_ACCESS3res ACCESS3res_w;
  mk_message xdr_to_ACCESS3args free_ACCESS3args ACCESS3args_w;
  mk_message xdr_to_READLINK3res free_READLINK3res READLINK3res_w;
  mk_message xdr_to_READLINK3args free_READLINK3args READLINK3args_w;
  mk_message (fun junk _ msg => xdr_to_READ3res junk msg NFS3_DATA_DEXDR)
    (fun msg => free_READ3res msg NFS3_DATA_DEXDR) (READ3res_w (data_public NFS3_DATA_DEXDR));
  mk_message (fun junk _ msg => xdr_to_READ3res junk msg NFS3_DATA_NO_DEXDR)
    (fun msg => free_READ3res msg NFS3_DATA_NO_DEXDR) (READ3res_w (data_public NFS3_DATA_NO_DEXDR));
  mk_message xdr_to_READ3args free_READ3args READ3args_w;
  mk_message xdr_to_WRITE3res free_WRITE3res WRITE3res_w;
  mk_message (fun junk _ msg => xdr_to_WRITE3args junk msg NFS3_DATA_NO_DEXDR)
    (fun msg => free_WRITE3args msg NFS3_DATA_NO_DEXDR) (WRITE3args_w (data_public NFS3_DATA_NO_DEXDR));
  mk_message xdr_to_CREATE3res free_CREATE3res CREATE3res_w;
  mk_message xdr_to_CREATE3args free_CREATE3args CREATE3args_w;
  mk_message xdr_to_MKDIR3res free_MKDIR3res MKDIR3res_w;
  mk_message xdr_to_MKDIR3args free_MKDIR3args MKDIR3args_w;
  mk_message xdr_to_SYMLINK3res free_SYMLINK3res SYMLINK3res_w;
  mk_message xdr_to_SYMLINK3args free_SYMLINK3args SYMLINK3args_w;
  mk_message xdr_to_MKNOD3res free_MKNOD3res MKNOD3res_w;
  mk_message xdr_to_REMOVE3res free_REMOVE3res REMOVE3res_w;
  mk_message xdr_to_REMOVE3args free_REMOVE3args REMOVE3args_w;
  mk_message xdr_to_RMDIR3res free_RMDIR3res RMDIR3res_w;
  mk_message xdr_to_RMDIR3args free_RMDIR3args RMDIR3args_w;
  mk_message xdr_to_RENAME3res free_RENAME3res RENAME3res_w;
  mk_message xdr_to_RENAME3args free_RENAME3args RENAME3args_w;
  mk_message xdr_to_LINK3res free_LINK3res LINK3res_w;
  mk_message xdr_to_LINK3args free_LINK3args LINK3args_w;
  mk_message xdr_to_READDIR3res free_READDIR3res READDIR3res_w;
  mk_message xdr_to_READDIR3args free_READDIR3args READDIR3args_w;
  mk_message xdr_to_READDIRPLUS3res free_READDIRPLUS3res READDIRPLUS3res_w;
  mk_message xdr_to_READDIRPLUS3args free_READDIRPLUS3args READDIRPLUS3args_w;
  mk_message xdr_to_FSSTAT3res free_FSSTAT3res FSSTAT3res_w;
  mk_message xdr_to_FSSTAT3args free_FSSTAT3args FSSTAT3args_w;
  mk_message xdr_to_FSINFO3res free_FSINFO3res FSINFO3res_w;
  mk_message xdr_to_FSINFOargs free_FSINFOargs FSINFOargs_w;
  mk_message xdr_to_PATHCONF3res free_PATHCONF3res PATHCONF3res_w;
  mk_message xdr_to_PATHCONF3args free_PATHCONF3args PATHCONF3args_w;
  mk_message xdr_to_COMMIT3res free_COMMIT3res COMMIT3res_w;
  mk_message xdr_to_COMMIT3args free_COMMIT3args COMMIT3args_w
].

(** ** The theorems *)

Ltac message lem :=
  apply List.Forall_cons;
    [ cbn; eapply xdr_to_message; [intros ??; auto with xdr|intros junk; zero_fresh|apply lem] | ].

Lemma nfs3_messages_ok `{HL : XdrLaws} :
  Forall (fun m => balanced (m_decode m) (m_free m) /\ decodes (m_decode m) (m_wire m) /\
    decodes_typed (m_decode m) (m_wire m)) nfs3_messages.
Proof.
  unfold nfs3_messages.
  message free_LOOKUP3res_ok.
  message free_LOOKUP3args_ok.
  message free_GETATTR3res_ok.
  message free_GETATTR3args_ok.
  message free_SETATTR3res_ok.
  message free_SETATTR3args_ok.
  message free_ACCESS3res_ok.
  message free_ACCESS3args_ok.
  message free_READLINK3res_ok.
  message free_READLINK3args_ok.
  message (free_READ3res_ok NFS3_DATA_DEXDR ltac:(auto)).
  message (free_READ3res_ok NFS3_DATA_NO_DEXDR ltac:(auto)).
  message free_READ3args_ok.
  message free_WRITE3res_ok.
  message (free_WRITE3args_ok NFS3_DATA_NO_DEXDR ltac:(auto)).
  message free_CREATE3res_ok.
  message free_CREATE3args_ok.
  message free_MKDIR3res_ok.
  message free_MKDIR3args_ok.
  message free_SYMLINK3res_ok.
  message free_SYMLINK3args_ok.
  message free_MKNOD3res_ok.
  message free_REMOVE3res_ok.
  message free_REMOVE3args_ok.
  message free_RMDIR3res_ok.
  message free_RMDIR3args_ok.
  message free_RENAME3res_ok.
  message free_RENAME3args_ok.
  message free_LINK3res_ok.
  message free_LINK3args_ok.
  message free_READDIR3res_ok.
  message free_READDIR3args_ok.
  message free_READDIRPLUS3res_ok.
  message free_READDIRPLUS3args_ok.
  message free_FSSTAT3res_ok.
  message free_FSSTAT3args_ok.
  message free_FSINFO3res_ok.
  message free_FSINFOargs_ok.
  message free_PATHCONF3res_ok.
  message free_PATHCONF3args_ok.
  message free_COMMIT3res_ok.
  message free_COMMIT3args_ok.
  apply List.Forall_nil.
Qed.

(** What the callers of the library see is in bounds. *)
Lemma nfs3_messages_typed `{HL : XdrLaws} m : m ∈ nfs3_messages -> decodes_typed (m_decode m) (m_wire m).
Proof.
  intros Hm. pose proof nfs3_messages_ok as H. rewrite Forall_forall in H. by apply H.
Qed.

(** [C15] No corruption, and no leak where a message is accepted: for every
    message type (but those of the theorems below) decoding any message, into a
    block with any content, with allocations failing or not, has no undefined
    behaviour; if the message is accepted, the [free_] function takes the result
    and leaves exactly the blocks that were live before.  If the result is NULL,
    no fewer blocks are live than before, and exactly as many when there was no
    message, or no memory for the object.  A message that is rejected later
    loses what its members took ([rejected_message_leaks]). *)
Theorem nfs3_messages_balanced `{HL : XdrLaws} m :
  m ∈ nfs3_messages -> balanced (m_decode m) (m_free m).
Proof.
  intros Hm. pose proof nfs3_messages_ok as H. rewrite Forall_forall in H. by apply H.
Qed.

(** The messages whose [free_] function leaks. *)
Definition leaking_messages `{P : XdrPrims} : list message := [
  mk_message xdr_to_MKNOD3args free_MKNOD3args MKNOD3args_w;
  mk_message xdr_to_mntres3 free_mntres3 mountres3_w
].

Lemma leaking_messages_decode `{HL : XdrLaws} : Forall (fun m => decodes (m_decode m) (m_wire m)) leaking_messages.
Proof.
  repeat apply List.Forall_cons; [..|apply List.Forall_nil].
  - apply (xdr_to_decodes (HP:=P) MKNOD3args_w xdr_MKNOD3args (upd_MKNOD3args_where (upd_diropargs3_name null) ∘
      upd_MKNOD3args_where (upd_diropargs3_dir (upd_nfs_fh3_data null_val))) (fun _ x => x));
      [intros ??; auto with xdr|intros junk; zero_fresh].
  - apply (xdr_to_decodes (HP:=P) mountres3_w xdr_mountres3 (upd_mountres3_mountinfo (upd_mountres3_ok_fhandle null_val) ∘
      upd_mountres3_mountinfo (upd_mountres3_ok_auth_flavors null_flavors)) (fun _ x => x));
      [intros ??; auto with xdr|intros junk; zero_fresh].
Qed.

(** WRITE operands with their data, when the fresh block holds NULL for it. *)
Lemma WRITE3args_decodes `{HL : XdrLaws} :
  decodes_from (fun junk => data_val (WRITE3args_data junk) = PNull)
    (fun junk _ msg => xdr_to_WRITE3args junk msg NFS3_DATA_DEXDR) (WRITE3args_w (data_public NFS3_DATA_DEXDR)).
Proof.
  intros junk x o h Hnull Hwf Hh. apply (xdr_to_reads (HP:=P)); [auto with xdr| |done|done].
  repeat first [done | split].
Qed.

(** Decoding a list into the node the caller allocated. *)
Lemma prealloc_list `{HL : XdrLaws} {A} (w : wire A) (f : nat -> xdrproc (node A)) (za : A) pub s :
  ChainCodec pub f w (Node za PNull) -> x_op s = XDR_DECODE -> x_public s = pub ->
  match xdr_pointer (Node za PNull) (f (chain_fuel s (PTo (Node za PNull)))) s (PTo (Node za PNull)) with
  | XOk s' q => h_live (x_heap s') = (h_live (x_heap s) + pred (chain_owned w q))%nat /\ chain_clean w q
  | XFail s' => (h_live (x_heap s) <= h_live (x_heap s'))%nat
  | XUB | XFuel => False
  end.
Proof.
  intros Hch Ho Hp. unfold chain_fuel.
  pose proof (pointer_safe_prealloc w pub (Node za PNull) (length (x_buf s))
    (f (S (length (x_buf s)) + chain_depth (PTo (Node za PNull)))%nat) (Node za PNull)) as H.
  assert (Hlen : forall m, (m < length (x_buf s))%nat ->
    (m < S (length (x_buf s)) + chain_depth (PTo (Node za PNull)))%nat) by (cbn; lia).
  specialize (H (fun m Hm => chain_codec_safe _ _ _ _ Hch _ m (Hlen m Hm)) s Ho Hp (le_n _)). cbv beta in H.
  destruct (xdr_pointer _ _ _ _) as [s' q|s'| |]; try done.
  - destruct H as (_ & _ & _ & _ & Hl & Hq). split; [lia|done].
  - by destruct H.
Qed.

(** Lists, decoded into the node that was allocated for their first element. *)
Section lists.
Context `{HL : XdrLaws} {A : Type} (w : wire A) (f : nat -> xdrproc (node A)) (za : A).
Hypothesis Hch : forall pub, ChainCodec pub f w (Node za PNull).

Lemma prealloc_dec pub n p : chain_wf w p ->
  DecOK pub n (fun s => xdr_pointer (Node za PNull) (f (chain_fuel s (PTo (Node za PNull)))) s (PTo (Node za PNull)))
    (chain_enc w p) (chain_sim w p).
Proof.
  intros Hwf s Ho Hp Hm Hn.
  apply (pointer_dec_prealloc w pub (Node za PNull) (length (x_buf s))
    (f (chain_fuel s (PTo (Node za PNull)))) (Node za PNull) p Hwf); try done.
  intros m q Hlt ->. apply (chain_codec_dec _ _ _ _ (Hch pub)); [done|]. unfold chain_fuel. cbn. lia.
Qed.

Lemma list_decodes (decode : Z -> list Z -> heap -> option (ptr (node A) * heap)) :
  (forall pub msg h, decode pub msg h =
     let (ok, h) := mem_alloc h in
     if negb ok then Some (PNull, h)
     else let s := mk_XDR XDR_DECODE msg 0 pub h in
       match xdr_pointer (Node za PNull) (f (chain_fuel s (PTo (Node za PNull)))) s (PTo (Node za PNull)) with
       | XOk s q => Some (q, x_heap s)
       | XFail s => h ← mem_free (PTo ()) (x_heap s); Some (PNull, h)
       | XUB | XFuel => None
       end) ->
  decodes_list decode (chain_w w).
Proof.
  intros Hdec pub p h Hwf Hh.
  assert (Hd : forall msg, decode pub msg h =
    let s := mk_XDR XDR_DECODE msg 0 pub (mk_heap (S (h_live h)) (S (h_requests h)) (h_ok h)) in
    match xdr_pointer (Node za PNull) (f (chain_fuel s (PTo (Node za PNull)))) s (PTo (Node za PNull)) with
    | XOk s q => Some (q, x_heap s)
    | XFail s => h ← mem_free (PTo ()) (x_heap s); Some (PNull, h)
    | XUB | XFuel => None
    end) by (intros msg; rewrite Hdec; unfold mem_alloc; by rewrite Hh).
  split.
  - intros rest. rewrite Hd. cbv zeta. set (s := mk_XDR _ _ _ _ _).
    destruct (prealloc_dec pub _ p Hwf s eq_refl eq_refl Hh (le_n _)) as [Hok _].
    destruct (Hok rest eq_refl) as (s' & q & -> & _ & Hsim). by exists q, (x_heap s').
  - intros bs more Hne Heq. rewrite Hd. cbv zeta. set (s := mk_XDR _ _ _ _ _).
    destruct (prealloc_dec pub _ p Hwf s eq_refl eq_refl Hh (le_n _)) as [_ Hcut].
    destruct (Hcut more Hne Heq) as [s' E].
    pose proof (prealloc_list w f za pub s (Hch pub) eq_refl eq_refl) as Hl. rewrite E in Hl |- *.
    unfold mem_free. destruct (h_live (x_heap s')); cbn in *; [lia|]. by eexists.
Qed.
End lists.

(** [C16] Every [xdr_to_] function returns the object that a well-formed message
    describes, and NULL for a message that has been cut short, when there is
    memory: [xdr_to_] of every NFS message, of MKNOD operands and of a MOUNT reply
    whatever the fresh block held; of WRITE operands with their data if it held
    NULL where the data goes ([xdr_to_WRITE3args_wild] shows what happens
    otherwise); of the mount list and of the export list, whose empty form is
    NULL. *)
Theorem nfs3_messages_decode `{HL : XdrLaws} :
  (forall m, m ∈ nfs3_messages ++ leaking_messages -> decodes (m_decode m) (m_wire m)) /\
  decodes_from (fun junk => data_val (WRITE3args_data junk) = PNull)
    (fun junk _ msg => xdr_to_WRITE3args junk msg NFS3_DATA_DEXDR) (WRITE3args_w (data_public NFS3_DATA_DEXDR)) /\
  decodes_list xdr_to_mountlist mountlist_w /\
  decodes_list (fun pub msg => xdr_to_exports pub (Some msg)) exports_w.
Proof.
  split_and!.
  - intros m [Hm|Hm]%elem_of_app.
    + pose proof nfs3_messages_ok as H. rewrite Forall_forall in H. by apply H.
    + pose proof leaking_messages_decode as H. rewrite Forall_forall in H. by apply H.
  - apply WRITE3args_decodes.
  - apply (list_decodes _ _ _ xdr_mountbody_chain). intros pub msg h. unfold xdr_to_mountlist, xdr_mountlist.
    destruct (mem_alloc h) as [[] h1]; cbn [negb]; [|done]. cbv zeta. rewrite xbind_ret. done.
  - apply (list_decodes _ _ _ xdr_exportnode_chain). intros pub msg h. unfold xdr_to_exports, xdr_exports.
    destruct (mem_alloc h) as [[] h1]; cbn [negb]; [|done]. cbv zeta. rewrite xbind_ret. done.
Qed.

(** ** Where the library leaks or worse *)

Lemma free_groups_ok p : chain_clean groupnode_body_w p ->
  Frees (free_groups p) (chain_owned groupnode_body_w p).
Proof.
  apply (free_list _ (fun b => mem_free (groupnode_body_gr_name b))); [|done].
  intros b Hb. unfold groupnode_body_w in *. cbn in *. by apply frees_ptr.
Qed.

(** All of a list of exports but its nodes. *)
Lemma free_exportnode_ok : forall n, node_clean exportnode_body_w n ->
  forall h, (S (node_owned exportnode_body_w n) <= h_live h)%nat ->
  exists h', free_exportnode n h = Some h' /\
    (h_live h' + S (node_owned exportnode_body_w n) = h_live h + node_depth n)%nat.
Proof.
  fix IH 1. intros [b nx] [[Hd Hg] Hnx] h Hh.
  assert (Hown : w_owned exportnode_body_w b =
    (ptr_owned (exportnode_body_ex_dir b) +
     chain_owned groupnode_body_w (exportnode_body_ex_groups b))%nat) by done.
  cbn in Hh |- *. rewrite Hown in *.
  destruct (frees_ptr (exportnode_body_ex_dir b) Hd h) as (h1 & E1 & H1); [lia|]. rewrite E1. cbn.
  destruct (free_groups_ok (exportnode_body_ex_groups b) Hg h1) as (h2 & E2 & H2); [lia|].
  rewrite E2. cbn. destruct nx as [|n|]; cbn in *; [|destruct (IH n Hnx h2) as (h3 & E3 & H3)|done].
  - exists h2. split; [done|]. lia.
  - lia.
  - exists h3. split; [done|]. lia.
Qed.

Section defects.
Context `{HL : XdrLaws}.

Lemma mntres3_freed junk pub msg h :
  match xdr_to_mntres3 junk pub msg h with
  | Some (PTo o, h') => exists h'', free_mntres3 (PTo o) h' = Some h'' /\
      h_live h'' = (h_live h +
        if (mountres3_fhs_status o =? MNT3_OK)%Z then
          ptr_owned (snd (mountres3_ok_auth_flavors (mountres3_mountinfo o))) else 0)%nat
  | Some (PNull, h') => (h_live h <= h_live h')%nat
  | Some (PWild, _) | None => False
  end.
Proof.
  pose proof (xdr_to_decoded mountres3_w xdr_mountres3
    (upd_mountres3_mountinfo (upd_mountres3_ok_fhandle null_val) ∘
     upd_mountres3_mountinfo (upd_mountres3_ok_auth_flavors null_flavors))
    junk pub msg h ltac:(auto with xdr) ltac:(zero_fresh)) as Hd.
  unfold xdr_to_mntres3. destruct (xdr_to _ _ _ _ _ _) as [[[|o|] h']|]; try done.
  destruct Hd as (Hcl & Hl & _). destruct o as [st [fh fl]].
  unfold free_mntres3, mountres3_w, mountres3_ok_w in *. cbn in *.
  assert (Hf : Frees (fun h => h ← (if st =? MNT3_OK then mem_free (data_val fh) h else Some h);
     mem_free (PTo (mk_mountres3 st (mk_mountres3_ok fh fl))) h)
     (if (st =? MNT3_OK)%Z then ptr_owned (data_val fh) + 1 else 1)%nat).
  { destruct (st =? MNT3_OK); cbn in *; destruct_and?; frees. }
  destruct (Hf h') as (h2 & E & Hh2).
  { destruct (st =? MNT3_OK); cbn in *; unfold fhandle3_w, bytes_w in *; cbn in *; lia. }
  exists h2. split; [done|].
  destruct (st =? MNT3_OK); cbn in *; unfold fhandle3_w, bytes_w, ints_w in *; cbn in *; lia.
Qed.

(** [free_mntres3] frees the file handle but not the authentication
    flavours: after a successful MOUNT reply with flavours, one block stays. *)
Theorem free_mntres3_leaks junk pub msg h :
  match xdr_to_mntres3 junk pub msg h with
  | Some (PTo o, h') => exists h'', free_mntres3 (PTo o) h' = Some h'' /\
      h_live h'' = (h_live h +
        if (mountres3_fhs_status o =? MNT3_OK)%Z then
          ptr_owned (snd (mountres3_ok_auth_flavors (mountres3_mountinfo o))) else 0)%nat
  | Some (PNull, h') => (h_live h <= h_live h')%nat
  | Some (PWild, _) | None => False
  end.
Proof. apply mntres3_freed. Qed.

(** [free_MKNOD3args] frees the members and not the structure: one block
    stays, for every message. *)
Theorem free_MKNOD3args_leaks junk pub msg h :
  match xdr_to_MKNOD3args junk pub msg h with
  | Some (PTo o, h') => exists h'', free_MKNOD3args (PTo o) h' = Some h'' /\ h_live h'' = S (h_live h)
  | Some (PNull, h') => (h_live h <= h_live h')%nat
  | Some (PWild, _) | None => False
  end.
Proof.
  pose proof (xdr_to_decoded MKNOD3args_w xdr_MKNOD3args
    (upd_MKNOD3args_where (upd_diropargs3_name null) ∘
     upd_MKNOD3args_where (upd_diropargs3_dir (upd_nfs_fh3_data null_val)))
    junk pub msg h ltac:(auto with xdr) ltac:(zero_fresh)) as Hd.
  unfold xdr_to_MKNOD3args. destruct (xdr_to _ _ _ _ _ _) as [[[|o|] h']|]; try done.
  destruct Hd as (Hcl & Hl & _). destruct o as [[dir nm] what].
  unfold free_MKNOD3args, MKNOD3args_w, diropargs3_w in *. cbn in *. destruct_and?.
  assert (Hw : w_owned mknoddata3_w what = 0%nat).
  { unfold mknoddata3_w, devicedata3_w. cbn.
    repeat match goal with |- context [if ?b then _ else _] => destruct b end; cbn;
      by rewrite ?sattr3_no_ptr. }
  assert (Hf : Frees (fun h => h ← mem_free (data_val (nfs_fh3_data dir)) h;
    h ← mem_free nm h; Some h)
    (ptr_owned (data_val (nfs_fh3_data dir)) + (ptr_owned nm + 0))%nat) by frees.
  rewrite Hw, nfs_fh3_owned, filename3_owned in Hl.
  destruct (Hf h') as (h2 & E & Hh2); [lia|]. exists h2. split; [done|]. lia.
Qed.

(** A mount list that is decoded is freed without residue. *)
Theorem xdr_to_mountlist_balanced pub msg h :
  match xdr_to_mountlist pub msg h with
  | Some (PTo n, h') => exists h'', free_mountlist (PTo n) h' = Some h'' /\ h_live h'' = h_live h
  | Some (PNull, h') => (h_live h <= h_live h')%nat
  | Some (PWild, _) | None => False
  end.
Proof.
  unfold xdr_to_mountlist, mem_alloc. destruct (h_ok h (h_requests h)); cbn; [|lia].
  set (s := mk_XDR _ _ _ _ _).
  pose proof (prealloc_list _ _ _ pub s (xdr_mountbody_chain pub) eq_refl eq_refl) as H.
  unfold xdr_mountlist. change (Node _ PNull) with zero_mountbody in H.
  destruct (xdr_pointer _ _ _ _) as [s' [|n|]|s'| |]; cbn in H |- *; try done.
  - lia.
  - destruct H as [Hl Hq].
    destruct (free_list mountbody_body_w
      (fun b h => h ← mem_free (mountbody_body_ml_hostname b) h;
                  mem_free (mountbody_body_ml_directory b) h) free_mountnode) with (p := PTo n) (h := x_heap s')
      as (h2 & E & Hh2); [| |done|cbn; lia|].
    + intros b Hb. unfold mountbody_body_w in *. cbn in *. destruct_and?.
      eapply frees_eq; [frees|done].
    + intros b nx h0. cbn. by destruct (mem_free (mountbody_body_ml_hostname b) h0).
    + exists h2. split; [done|]. cbn in Hh2. lia.
  - by destruct H.
  - unfold mem_free. destruct (h_live (x_heap s')); cbn; lia.
Qed.

(** An empty mount list (a server with no mounts) is returned as NULL and
    the node allocated for its first element is lost. *)
Theorem xdr_to_mountlist_empty_leaks pub h :
  mem_ample h ->
  exists h', xdr_to_mountlist pub (w_enc mountlist_w PNull) h = Some (PNull, h') /\
             h_live h' = S (h_live h).
Proof.
  intros Hh. unfold xdr_to_mountlist, mem_alloc. rewrite Hh. cbn.
  set (s := mk_XDR _ _ _ _ _).
  pose proof (prealloc_list _ _ _ pub s (xdr_mountbody_chain pub) eq_refl eq_refl) as H.
  unfold xdr_mountlist. change (Node _ PNull) with zero_mountbody in H.
  destruct (pointer_dec_empty mountbody_body_w pub zero_mountbody (length (x_buf s))
    (xdr_mountbody (chain_fuel s (PTo zero_mountbody))) zero_mountbody s) as [Hd _]; [done..|].
  destruct (Hd []) as (s' & q & E & _ & ->); [by rewrite app_nil_r|].
  unfold mountbody in *. rewrite E in H |- *. cbn in H |- *. exists (x_heap s'). split; [done|]. destruct H. lia.
Qed.

(** [free_exports] frees what the nodes of an export list point to, but
    not the nodes: as many blocks stay as the list has elements. *)
Theorem free_exports_leaks pub msg h :
  match xdr_to_exports pub msg h with
  | Some (PTo n, h') => exists h'', free_exports (PTo n) h' = Some h'' /\
      h_live h'' = (h_live h + node_depth n)%nat
  | Some (PNull, h') => (h_live h <= h_live h')%nat
  | Some (PWild, _) | None => False
  end.
Proof.
  destruct msg as [buf|]; cbn; [|lia].
  unfold mem_alloc. destruct (h_ok h (h_requests h)); cbn; [|lia].
  set (s := mk_XDR _ _ _ _ _).
  pose proof (prealloc_list _ _ _ pub s (xdr_exportnode_chain pub) eq_refl eq_refl) as H.
  unfold xdr_exports. change (Node _ PNull) with zero_exportnode in H.
  destruct (xdr_pointer _ _ _ _) as [s' [|n|]|s'| |]; cbn in H |- *; try done.
  - lia.
  - destruct H as [Hl Hq].
    destruct (free_exportnode_ok n Hq (x_heap s')) as (h2 & E & Hh2); [lia|].
    exists h2. split; [done|]. lia.
  - by destruct H.
  - unfold mem_free. destruct (h_live (x_heap s')); cbn; lia.
Qed.
End defects.

(** ** WRITE operands with their data *)

(** [xdr_to_WRITE3args] does not clear [data.data_val].  If the fresh block
    happens to hold NULL there, decoding with the data is as safe as for the
    other messages ... *)
Theorem xdr_to_WRITE3args_null `{HL : XdrLaws} junk msg h :
  data_val (WRITE3args_data junk) = PNull ->
  match xdr_to_WRITE3args junk msg NFS3_DATA_DEXDR h with
  | Some (PTo o, h') =>
      exists h'', free_WRITE3args (PTo o) NFS3_DATA_DEXDR h' = Some h'' /\ h_live h'' = h_live h
  | Some (PNull, h') => (h_live h <= h_live h')%nat
  | Some (PWild, _) | None => False
  end.
Proof.
  intros Hnull.
  apply (decoded_freed (WRITE3args_w (data_public NFS3_DATA_DEXDR)) (fun msg => free_WRITE3args msg NFS3_DATA_DEXDR)).
  - apply (xdr_to_decoded (P:=P)); [auto with xdr|]. repeat first [done | split].
  - apply free_WRITE3args_ok. auto.
Qed.

(** WRITE(handle 1, offset 0, count 1, UNSTABLE, data "A"). *)
Definition sample_write : list Z :=
  [0;0;0;1; 1;0;0;0; 0;0;0;0;0;0;0;0; 0;0;0;1; 0;0;0;0; 0;0;0;1; 65;0;0;0].
Definition blank_write (data_val : ptr (list Z)) : WRITE3args :=
  {| WRITE3args_file := mk_nfs_fh3 (mk_opaque_buf 0 PNull);
     WRITE3args_offset := 0; WRITE3args_count := 0; WRITE3args_stable := 0;
     WRITE3args_data := mk_opaque_buf 0 data_val |}.

(** ... and if it holds anything else, a well-formed message makes the
    decoder store through that indeterminate pointer. *)
Theorem xdr_to_WRITE3args_wild :
  xdr_to_WRITE3args (blank_write PWild) (Some sample_write) NFS3_DATA_DEXDR ample_heap = None /\
  xdr_to_WRITE3args (blank_write PNull) (Some sample_write) NFS3_DATA_DEXDR ample_heap =
    Some (PTo {| WRITE3args_file := mk_nfs_fh3 (mk_opaque_buf 1 (PTo [1]));
                 WRITE3args_offset := 0; WRITE3args_count := 1; WRITE3args_stable := UNSTABLE;
                 WRITE3args_data := mk_opaque_buf 1 (PTo [65]) |},
          mk_heap 3 3 (fun _ => true)).
Proof. by vm_compute. Qed.

(** [fhandle3_dup] returns a copy of the handle that owns its own data:
    one new block for the bytes, and one for the structure if the caller
    supplied none. *)
Theorem fhandle3_dup_copies (src : list Z) (newfh : ptr fhandle3) h :
  newfh <> PWild -> mem_ample h ->
  let fh := mk_opaque_buf (Z.of_nat (length src)) (PTo src) in
  exists h', fhandle3_dup (PTo fh) newfh h = Some (PTo fh, h') /\
    h_live h' = (h_live h + 1 + match newfh with PNull => 1 | _ => 0 end)%nat.
Proof.
  intros Hw Hh. unfold fhandle3_dup, mem_alloc.
  destruct newfh as [|o|]; [|cbn|done]; rewrite Hh; cbn; rewrite ?Hh; cbn;
    rewrite Z.leb_refl, Nat2Z.id, firstn_all; eexists; (split; [done|]; cbn; lia).
Qed.

(** ** Witnesses *)

(** The LOOKUP operands of [sample_lookup], as they arrive. *)
Definition lookup_msg : list Z := [0;0;0;5; 1;2;3;4; 255;0;0;0; 0;0;0;2; 97;98;0;0].
Definition lookup_message : @message rfc_prims :=
  mk_message xdr_to_LOOKUP3args free_LOOKUP3args LOOKUP3args_w.
Lemma lookup_message_in : lookup_message ∈ @nfs3_messages rfc_prims.
Proof. apply (list_elem_of_lookup_2 _ 1). reflexivity. Qed.

(** A message that is rejected after some of its members were decoded: the block
    of the handle's bytes and the one of the name stay. *)
Lemma rejected_message_leaks :
  (fun r => (fst r, h_live (snd r))) <$> xdr_to_LOOKUP3args blank_lookup 0 (Some (take 18 lookup_msg)) ample_heap =
  Some (PNull, 2%nat).
Proof. vm_compute. reflexivity. Qed.

Lemma nfs3_messages_balanced_witness :
  match xdr_to_LOOKUP3args blank_lookup 0 (Some lookup_msg) ample_heap with
  | Some (PTo o, h') => h_live h' = 3%nat /\
      exists h'', free_LOOKUP3args (PTo o) h' = Some h'' /\ h_live h'' = 0%nat
  | _ => False
  end.
Proof.
  pose proof (nfs3_messages_balanced lookup_message lookup_message_in blank_lookup 0
                (Some lookup_msg) ample_heap) as H.
  vm_compute in H |- *. by split.
Defined.

(** A MOUNT reply: handle [7], one flavour, AUTH_UNIX. *)
Definition mnt_msg : list Z := [0;0;0;0; 0;0;0;1; 7;0;0;0; 0;0;0;1; 0;0;0;1].
Definition blank_mnt : mountres3 := mk_mountres3 0 (mk_mountres3_ok (mk_opaque_buf 0 PWild) (0, PWild)).
Lemma free_mntres3_leaks_witness :
  match xdr_to_mntres3 blank_mnt 0 (Some mnt_msg) ample_heap with
  | Some (PTo o, h') => exists h'', free_mntres3 (PTo o) h' = Some h'' /\ h_live h'' = 1%nat
  | _ => False
  end.
Proof.
  pose proof (free_mntres3_leaks blank_mnt 0 (Some mnt_msg) ample_heap) as H.
  vm_compute in H |- *. exact H.
Defined.

(** MKNOD operands: handle [7], name "p", a regular file (no device data). *)
Definition mknod_msg : list Z := [0;0;0;1; 7;0;0;0; 0;0;0;1; 112;0;0;0; 0;0;0;1].
Definition blank_mknod : MKNOD3args :=
  let tm := mk_nfstime3 0 0 in
  let sattr := mk_sattr3 (mk_set_mode3 0 0) (mk_set_uid3 0 0) (mk_set_gid3 0 0) (mk_set_size3 0 0)
                 (mk_set_atime 0 tm) (mk_set_mtime 0 tm) in
  mk_MKNOD3args (mk_diropargs3 (mk_nfs_fh3 (mk_opaque_buf 0 PWild)) PWild)
    (mk_mknoddata3 0 (mk_devicedata3 sattr (mk_specdata3 0 0)) sattr).
Lemma free_MKNOD3args_leaks_witness :
  match xdr_to_MKNOD3args blank_mknod 0 (Some mknod_msg) ample_heap with
  | Some (PTo o, h') => exists h'', free_MKNOD3args (PTo o) h' = Some h'' /\ h_live h'' = 1%nat
  | _ => False
  end.
Proof.
  pose proof (free_MKNOD3args_leaks blank_mknod 0 (Some mknod_msg) ample_heap) as H.
  vm_compute in H |- *. exact H.
Defined.

(** A list of one mount: host "h", directory "/". *)
Definition dump_msg : list Z := [0;0;0;1; 0;0;0;1; 104;0;0;0; 0;0;0;1; 47;0;0;0; 0;0;0;0].
Lemma xdr_to_mountlist_balanced_witness :
  match xdr_to_mountlist 0 dump_msg ample_heap with
  | Some (PTo n, h') => h_live h' = 3%nat /\
      exists h'', free_mountlist (PTo n) h' = Some h'' /\ h_live h'' = 0%nat
  | _ => False
  end.
Proof.
  pose proof (xdr_to_mountlist_balanced 0 dump_msg ample_heap) as H.
  vm_compute in H |- *. by split.
Defined.

Lemma xdr_to_mountlist_empty_leaks_witness :
  exists h', xdr_to_mountlist 0 [0;0;0;0] ample_heap = Some (PNull, h') /\ h_live h' = 1%nat.
Proof. apply (xdr_to_mountlist_empty_leaks 0 ample_heap ample_heap_ok). Defined.

(** One export: directory "/", no groups. *)
Definition export_msg : list Z := [0;0;0;1; 0;0;0;1; 47;0;0;0; 0;0;0;0; 0;0;0;0].
Lemma free_exports_leaks_witness :
  match xdr_to_exports 0 (Some export_msg) ample_heap with
  | Some (PTo n, h') => exists h'', free_exports (PTo n) h' = Some h'' /\ h_live h'' = 1%nat
  | _ => False
  end.
Proof.
  pose proof (free_exports_leaks 0 (Some export_msg) ample_heap) as H.
  vm_compute in H |- *. exact H.
Defined.

Lemma xdr_to_WRITE3args_null_witness :
  match xdr_to_WRITE3args (blank_write PNull) (Some sample_write) NFS3_DATA_DEXDR ample_heap with
  | Some (PTo o, h') =>
      exists h'', free_WRITE3args (PTo o) NFS3_DATA_DEXDR h' = Some h'' /\ h_live h'' = 0%nat
  | _ => False
  end.
Proof.
  pose proof (xdr_to_WRITE3args_null (blank_write PNull) (Some sample_write) ample_heap eq_refl) as H.
  vm_compute in H |- *. exact H.
Defined.

(** A LOOKUP and its operands cut short; the WRITE above; a list of one mount
    that is followed by other bytes, and the same list cut short. *)
Definition sample_mounts : mountlist :=
  PTo (Node {| mountbody_body_ml_hostname := PTo [104]; mountbody_body_ml_directory := PTo [47] |} PNull).
Definition write_value : WRITE3args :=
  {| WRITE3args_file := mk_nfs_fh3 (mk_opaque_buf 1 (PTo [1]));
     WRITE3args_offset := 0; WRITE3args_count := 1; WRITE3args_stable := UNSTABLE;
     WRITE3args_data := mk_opaque_buf 1 (PTo [65]) |}.

Lemma nfs3_messages_decode_witness :
  (exists o h', xdr_to_LOOKUP3args blank_lookup 0 (Some (w_enc LOOKUP3args_w sample_lookup ++ [])) ample_heap =
     Some (PTo o, h') /\ w_sim LOOKUP3args_w sample_lookup o) /\
  (exists h', xdr_to_LOOKUP3args blank_lookup 0 (Some (take 10 lookup_msg)) ample_heap = Some (PNull, h')) /\
  (exists o h', xdr_to_WRITE3args (blank_write PNull) (Some (sample_write ++ [])) NFS3_DATA_DEXDR ample_heap =
     Some (PTo o, h') /\ w_sim (WRITE3args_w (data_public NFS3_DATA_DEXDR)) write_value o) /\
  (exists q h', xdr_to_mountlist 0 (dump_msg ++ [9; 9]) ample_heap = Some (q, h') /\ w_sim mountlist_w sample_mounts q) /\
  (exists h', xdr_to_mountlist 0 (take 12 dump_msg) ample_heap = Some (PNull, h')).
Proof.
  destruct nfs3_messages_decode as (Hmsg & Hwrite & Hmounts & _).
  assert (Hin : lookup_message ∈ nfs3_messages ++ leaking_messages) by (apply elem_of_app; left; apply lookup_message_in).
  assert (Hww : w_wf (WRITE3args_w (data_public NFS3_DATA_DEXDR)) write_value) by (vm_compute; repeat first [done|split|constructor]).
  assert (Hwm : w_wf mountlist_w sample_mounts) by (vm_compute; repeat first [done|split|constructor]).
  destruct (Hmsg lookup_message Hin blank_lookup 0 sample_lookup ample_heap I sample_lookup_wf ample_heap_ok) as [Hl Hc].
  destruct (Hwrite (blank_write PNull) 0 write_value ample_heap eq_refl Hww ample_heap_ok) as [Hw _].
  destruct (Hmounts 0 sample_mounts ample_heap Hwm ample_heap_ok) as [Hm Hmc].
  split_and!; [exact (Hl [])| |exact (Hw [])|exact (Hm [9; 9])|].
  - apply (Hc _ (drop 10 lookup_msg)); [done|reflexivity].
  - apply (Hmc _ (drop 12 dump_msg)); [done|reflexivity].
Defined.

Lemma fhandle3_dup_copies_witness : exists h',
  fhandle3_dup (PTo (mk_opaque_buf 2 (PTo [8; 9]))) PNull ample_heap =
    Some (PTo (mk_opaque_buf 2 (PTo [8; 9])), h') /\ h_live h' = 2%nat.
Proof. by apply (fhandle3_dup_copies [8; 9] PNull ample_heap). Defined.
