(* ===== verification/NfsCalls.v ===== *)
(** * NFS and MOUNT calls: [src/src/nfsv3/nfs3.c], [src/src/nfsv3/mount3.c], [src/src/nfsclient.c]

    A context holds the connections to the two servers of a mount.  Each of the
    procedures of the protocols has a function that hands its number and its
    XDR routine to [nfs3_call] or [mount3_call], which connect when there is no
    connection yet and make the call ([RpcClient]). *)

From S2P Require Import Prelude Xdr NfsTypes NfsXdr GhtIface RpcRecord RpcClient.

Definition NFS_PROGRAM : Z := 100003.
Definition NFS_V3 : Z := 3.
Definition NFS3_NULL : Z := 0.
Definition NFS3_GETATTR : Z := 1.
Definition NFS3_SETATTR : Z := 2.
Definition NFS3_LOOKUP : Z := 3.
Definition NFS3_ACCESS : Z := 4.
Definition NFS3_READLINK : Z := 5.
Definition NFS3_READ : Z := 6.
Definition NFS3_WRITE : Z := 7.
Definition NFS3_CREATE : Z := 8.
Definition NFS3_MKDIR : Z := 9.
Definition NFS3_SYMLINK : Z := 10.
Definition NFS3_MKNOD : Z := 11.
Definition NFS3_REMOVE : Z := 12.
Definition NFS3_RMDIR : Z := 13.
Definition NFS3_RENAME : Z := 14.
Definition NFS3_LINK : Z := 15.
Definition NFS3_READDIR : Z := 16.
Definition NFS3_READDIRPLUS : Z := 17.
Definition NFS3_FSSTAT : Z := 18.
Definition NFS3_FSINFO : Z := 19.
Definition NFS3_PATHCONF : Z := 20.
Definition NFS3_COMMIT : Z := 21.

Definition MOUNT_PROGRAM : Z := 100005.
Definition MOUNT_V3 : Z := 3.
Definition MOUNT3_NULL : Z := 0.
Definition MOUNT3_MNT : Z := 1.
Definition MOUNT3_DUMP : Z := 2.
Definition MOUNT3_UMNT : Z := 3.
Definition MOUNT3_UMNTALL : Z := 4.
Definition MOUNT3_EXPORT : Z := 5.

Definition NFSC_CFL_NONBLOCKING : Z := 0x01.
Definition NFSC_CFL_BLOCKING : Z := 0x02.
Definition NFSC_CFL_DISABLE_NAGLE : Z := 0x04.

(** Of the C library: [RPC_ANYSOCK], [IPPROTO_TCP], [IPPROTO_UDP]. *)
Definition RPC_ANYSOCK : Z := -1.
Definition IPPROTO_TCP : Z := 6.
Definition IPPROTO_UDP : Z := 17.

(** The context.  [nfs_srv] and [nfs_mnt] point to socket addresses, of which
    the port is what the code looks at; [nfs_errno], which nothing uses, is left
    out. *)
Record nfs_ctx (T X : Type) := mk_nfs_ctx {
  nfs_srv : Z;
  nfs_mnt : Z;
  nfs_transport : Z;
  nfs_mnt_cl : option (clnt T X);
  nfs_cl : option (clnt T X);
  nfs_connflags : Z;
  nfs_rsize : Z;
  nfs_wsize : Z
}.
Arguments mk_nfs_ctx {T X}.
Arguments nfs_srv {T X} n.
Arguments nfs_mnt {T X} n.
Arguments nfs_transport {T X} n.
Arguments nfs_mnt_cl {T X} n.
Arguments nfs_cl {T X} n.
Arguments nfs_connflags {T X} n.
Arguments nfs_rsize {T X} n.
Arguments nfs_wsize {T X} n.

Section calls.
Context {P : XdrPrims} {T : Type} `{GT : Ght T callback_info} {X : Type} `{XR : Xdrrec X}.
Context (junk : Z) (xdr_replymsg : list Z -> option (Z * list Z)) (auth : list Z).
Context (xdr_callhdr : Z -> Z -> Z -> option (list Z)).

(** The user field of the record stream's handle, and a bound on what it takes
    (the stream flushes, so that any bound will do). *)
Context (pub : Z) (room : nat).

(** What a connection that has to be made will find: the answers of the system,
    the table [ght_create] returns, the stream [xdrrec_create] makes, the heap. *)
Record network := mk_network {
  net_sys : system;
  net_table : option T;
  net_xdrs : X;
  net_heap : heap
}.
Context (net : network).
Implicit Types (ctx : nfs_ctx T X).

Definition set_nfs_cl ctx (srv : Z) (cl : option (clnt T X)) : nfs_ctx T X :=
  mk_nfs_ctx srv (nfs_mnt ctx) (nfs_transport ctx) (nfs_mnt_cl ctx) cl (nfs_connflags ctx)
    (nfs_rsize ctx) (nfs_wsize ctx).
Definition set_nfs_mnt_cl ctx (mnt : Z) (cl : option (clnt T X)) : nfs_ctx T X :=
  mk_nfs_ctx (nfs_srv ctx) mnt (nfs_transport ctx) cl (nfs_cl ctx) (nfs_connflags ctx)
    (nfs_rsize ctx) (nfs_wsize ctx).

(** ** Contexts *)

(** [srv] may be NULL. *)
Definition nfs_init (srv : option Z) (proto connflags : Z) (h : heap)
    : option (option (nfs_ctx T X) * heap) :=
  match srv with
  | None => Some (None, h)
  | Some port =>
      let (ok, h) := mem_alloc h in
      if negb ok then Some (None, h)
      else
        let (ok, h) := mem_alloc h in
        if negb ok then h ← mem_free (PTo tt) h; Some (None, h)
        else
          let (ok, h) := mem_alloc h in
          if negb ok then h ← mem_free (PTo port) h; h ← mem_free (PTo tt) h; Some (None, h)
          else Some (Some (mk_nfs_ctx port port proto None None connflags 0 0), h)
  end.

Definition check_ctx (ctx : option (nfs_ctx T X)) : bool :=
  match ctx with
  | None => false
  | Some ctx =>
      negb (negb (nfs_transport ctx =? IPPROTO_UDP) && negb (nfs_transport ctx =? IPPROTO_TCP))
  end.

Definition nfs_destroy (ctx : option (nfs_ctx T X)) (h : heap) : option heap :=
  match ctx with
  | None => Some h
  | Some ctx =>
      h ← mem_free (PTo (nfs_srv ctx)) h;
      h ← mem_free (PTo (nfs_mnt ctx)) h;
      mem_free (PTo tt) h
  end.

Definition mnt_complete (ctx : option (nfs_ctx T X)) : option (nfs_ctx T X) * outcome unit :=
  match ctx with
  | None => (None, Returns tt)
  | Some ctx =>
      let (cl, r) := clnttcp_nb_receive junk xdr_replymsg (nfs_mnt_cl ctx) 0 in
      (Some (set_nfs_mnt_cl ctx (nfs_mnt ctx) cl),
       match r with Returns _ => Returns tt | Waits => Waits | Undefined => Undefined | Spins => Spins end)
  end.
Definition nfs_complete (ctx : option (nfs_ctx T X)) (flag : Z) : option (nfs_ctx T X) * outcome Z :=
  match ctx with
  | None => (None, Returns 0)
  | Some ctx =>
      let (cl, r) := clnttcp_nb_receive junk xdr_replymsg (nfs_cl ctx) flag in
      (Some (set_nfs_cl ctx (nfs_srv ctx) cl), r)
  end.

(** ** Calls *)

(** An XDR routine on the record stream: the bytes it puts there and whether it
    succeeds; [None] is undefined behaviour. *)
Definition marshal {A} (xdr_proc : xdrproc A) (arg : A) : option (list Z * bool) :=
  match xdr_proc (mk_XDR XDR_ENCODE [] room pub (net_heap net)) arg with
  | XOk s _ => Some (x_buf s, true)
  | XFail s => Some (x_buf s, false)
  | _ => None
  end.

(** The call on a connection, if there is one. *)
Definition call_on {A} (proc : Z) (xdr_proc : xdrproc A) (arg : A) (cl : option (clnt T X))
    (u_cb : option Z) (priv callflag : Z) : option (clnt T X) * outcome Z :=
  match cl with
  | None => (None, Returns RPC_SYSTEMERROR)
  | Some c =>
      match marshal xdr_proc arg with
      | None => (Some c, Undefined)
      | Some (bs, ok) =>
          clnttcp_nb_call junk xdr_replymsg auth (Some c) (mk_rpc_proc_info proc bs ok)
            (mk_callback_info u_cb priv) callflag
      end
  end.

(** [if(ctx->nfs_cl == NULL)]: connect.  [setsockopt] is not modelled. *)
Definition connect_nfs ctx : option (nfs_ctx T X) :=
  match nfs_cl ctx with
  | Some _ => Some ctx
  | None =>
      let create := if negb (Z.land (nfs_connflags ctx) NFSC_CFL_NONBLOCKING =? 0)
                    then clnttcp_nb_create else clnttcp_b_create in
      cr ← create junk xdr_callhdr (net_sys net) (nfs_srv ctx) NFS_PROGRAM NFS_V3 RPC_ANYSOCK
             (nfs_wsize ctx) (nfs_rsize ctx) (net_table net) (net_xdrs net) (net_heap net);
      Some (set_nfs_cl ctx (cr_port cr) (cr_handle cr))
  end.

Definition nfs3_call {A} (proc : Z) (arg : A) (xdr_proc : xdrproc A) (ctx : option (nfs_ctx T X))
    (u_cb : option Z) (priv callflag : Z) : option (nfs_ctx T X) * outcome Z :=
  if negb (check_ctx ctx) then (ctx, Returns RPC_SYSTEMERROR)
  else
    match c ← ctx; connect_nfs c with
    | None => (ctx, Undefined)
    | Some ctx =>
        let (cl, r) := call_on proc xdr_proc arg (nfs_cl ctx) u_cb priv callflag in
        (Some (set_nfs_cl ctx (nfs_srv ctx) cl), r)
    end.

Definition connect_mount ctx : option (nfs_ctx T X) :=
  match nfs_mnt_cl ctx with
  | Some _ => Some ctx
  | None =>
      cr ← clnttcp_nb_create junk xdr_callhdr (net_sys net) (nfs_mnt ctx) MOUNT_PROGRAM MOUNT_V3 RPC_ANYSOCK
             0 0 (net_table net) (net_xdrs net) (net_heap net);
      Some (set_nfs_mnt_cl ctx (cr_port cr) (cr_handle cr))
  end.

Definition mount3_call {A} (proc : Z) (arg : A) (xdr_proc : xdrproc A) (ctx : option (nfs_ctx T X))
    (u_cb : option Z) (priv callflag : Z) : option (nfs_ctx T X) * outcome Z :=
  if negb (check_ctx ctx) then (ctx, Returns RPC_SYSTEMERROR)
  else
    match c ← ctx; connect_mount c with
    | None => (ctx, Undefined)
    | Some ctx =>
        let (cl, r) := call_on proc xdr_proc arg (nfs_mnt_cl ctx) u_cb priv callflag in
        (Some (set_nfs_mnt_cl ctx (nfs_mnt ctx) cl), r)
    end.

(** [xdr_void] of the C library. *)
Definition xdr_void : xdrproc unit := fun s a => XOk s a.

(** ** The procedures *)

Definition nfs3_null (args : unit) := nfs3_call NFS3_NULL args xdr_void.
Definition nfs3_lookup (args : LOOKUP3args) := nfs3_call NFS3_LOOKUP args xdr_LOOKUP3args.
Definition nfs3_getattr (args : GETATTR3args) := nfs3_call NFS3_GETATTR args xdr_GETATTR3args.
Definition nfs3_setattr (args : SETATTR3args) := nfs3_call NFS3_SETATTR args xdr_SETATTR3args.
Definition nfs3_access (args : ACCESS3args) := nfs3_call NFS3_ACCESS args xdr_ACCESS3args.
Definition nfs3_readlink (args : READLINK3args) := nfs3_call NFS3_READLINK args xdr_READLINK3args.
Definition nfs3_read (args : READ3args) := nfs3_call NFS3_READ args xdr_READ3args.
Definition nfs3_write (args : WRITE3args) := nfs3_call NFS3_WRITE args xdr_WRITE3args.
Definition nfs3_create (args : CREATE3args) := nfs3_call NFS3_CREATE args xdr_CREATE3args.
Definition nfs3_mkdir (args : MKDIR3args) := nfs3_call NFS3_MKDIR args xdr_MKDIR3args.
Definition nfs3_symlink (args : SYMLINK3args) := nfs3_call NFS3_SYMLINK args xdr_SYMLINK3args.
Definition nfs3_rename (args : RENAME3args) := nfs3_call NFS3_RENAME args xdr_RENAME3args.
Definition nfs3_mknod (args : MKNOD3args) := nfs3_call NFS3_MKNOD args xdr_MKNOD3args.
Definition nfs3_remove (args : REMOVE3args) := nfs3_call NFS3_REMOVE args xdr_REMOVE3args.
Definition nfs3_rmdir (args : RMDIR3args) := nfs3_call NFS3_RMDIR args xdr_RMDIR3args.
Definition nfs3_link (args : LINK3args) := nfs3_call NFS3_LINK args xdr_LINK3args.
Definition nfs3_readdir (args : READDIR3args) := nfs3_call NFS3_READDIR args xdr_READDIR3args.
Definition nfs3_fsstat (args : FSSTAT3args) := nfs3_call NFS3_FSSTAT args xdr_FSSTAT3args.
Definition nfs3_readdirplus (args : READDIRPLUS3args) :=
  nfs3_call NFS3_READDIRPLUS args xdr_READDIRPLUS3args.
Definition nfs3_fsinfo (args : FSINFOargs) := nfs3_call NFS3_FSINFO args xdr_FSINFOargs.
Definition nfs3_pathconf (args : PATHCONF3args) := nfs3_call NFS3_PATHCONF args xdr_PATHCONF3args.
Definition nfs3_commit (args : COMMIT3args) := nfs3_call NFS3_COMMIT args xdr_COMMIT3args.

Definition mount3_mnt (dirp : dirpath) := mount3_call MOUNT3_MNT dirp xdr_dirpath.
Definition mount3_null (arg : unit) := mount3_call MOUNT3_NULL arg xdr_void.
Definition mount3_dump (arg : unit) := mount3_call MOUNT3_DUMP arg xdr_void.
Definition mount3_umnt (dirp : dirpath) := mount3_call MOUNT3_UMNT dirp xdr_dirpath.
Definition mount3_umntall (arg : unit) := mount3_call MOUNT3_UMNTALL arg xdr_void.
Definition mount3_export (arg : unit) := mount3_call MOUNT3_EXPORT arg xdr_void.
End calls.
