(* ===== verification/NfsCallsCorrect.v ===== *)
(** * Every procedure sends the right message

    The functions of [NfsCalls], one for each procedure of NFS version 3 and of
    the MOUNT protocol, against the procedure numbers and arguments of RFC 1813:
    the XDR routines of [NfsXdr], the record stream and the RPC client put
    together. *)

From S2P Require Import Prelude Xdr XdrRfc NfsTypes NfsSpec NfsXdr NfsXdrCorrect NfsWire GhtIface RpcRecord RpcRecordCorrect RpcClient RpcSend RpcClientCorrect NfsCalls.

Section procedures.
Context `{HL : XdrLaws} {T : Type} `{GL : GhtLaws T callback_info} {X : Type} `{XL : XdrrecLaws X}.
Context (junk : Z) (xdr_replymsg : list Z -> option (Z * list Z)) (auth : list Z).
Context (xdr_callhdr : Z -> Z -> Z -> option (list Z)) (pub : Z) (room : nat) (net : @network T X).
Context (replymsg_word : forall m xid payload, xdr_replymsg m = Some (xid, payload) -> is_u 32 xid).

(** A procedure: the number of its program, of which the version is 3, its own
    number, its arguments as the protocol describes them, the function that calls
    it and the connection that function uses. *)
Record procedure := mk_procedure {
  pr_arg : Type;
  pr_program : Z;
  pr_number : Z;
  pr_wire : wire pr_arg;
  pr_handle : nfs_ctx T X -> option (clnt T X);
  pr_call : pr_arg -> option (nfs_ctx T X) -> option Z -> Z -> Z -> option (nfs_ctx T X) * outcome Z
}.

Let nfs {A} n (w : wire A)
    (f : A -> option (nfs_ctx T X) -> option Z -> Z -> Z -> option (nfs_ctx T X) * outcome Z) : procedure :=
  mk_procedure A 100003 n w nfs_cl f.
Let mount {A} n (w : wire A)
    (f : A -> option (nfs_ctx T X) -> option Z -> Z -> Z -> option (nfs_ctx T X) * outcome Z) : procedure :=
  mk_procedure A 100005 n w nfs_mnt_cl f.

(** The procedures of RFC 1813 (sections 3.3 and 5.2), in order. *)
Definition procedures : list procedure := [
  nfs 0 void_w (nfs3_null junk xdr_replymsg auth xdr_callhdr pub room net);
  nfs 1 GETATTR3args_w (nfs3_getattr junk xdr_replymsg auth xdr_callhdr pub room net);
  nfs 2 SETATTR3args_w (nfs3_setattr junk xdr_replymsg auth xdr_callhdr pub room net);
  nfs 3 LOOKUP3args_w (nfs3_lookup junk xdr_replymsg auth xdr_callhdr pub room net);
  nfs 4 ACCESS3args_w (nfs3_access junk xdr_replymsg auth xdr_callhdr pub room net);
  nfs 5 READLINK3args_w (nfs3_readlink junk xdr_replymsg auth xdr_callhdr pub room net);
  nfs 6 READ3args_w (nfs3_read junk xdr_replymsg auth xdr_callhdr pub room net);
  nfs 7 (WRITE3args_w pub) (nfs3_write junk xdr_replymsg auth xdr_callhdr pub room net);
  nfs 8 CREATE3args_w (nfs3_create junk xdr_replymsg auth xdr_callhdr pub room net);
  nfs 9 MKDIR3args_w (nfs3_mkdir junk xdr_replymsg auth xdr_callhdr pub room net);
  nfs 10 SYMLINK3args_w (nfs3_symlink junk xdr_replymsg auth xdr_callhdr pub room net);
  nfs 11 MKNOD3args_w (nfs3_mknod junk xdr_replymsg auth xdr_callhdr pub room net);
  nfs 12 REMOVE3args_w (nfs3_remove junk xdr_replymsg auth xdr_callhdr pub room net);
  nfs 13 RMDIR3args_w (nfs3_rmdir junk xdr_replymsg auth xdr_callhdr pub room net);
  nfs 14 RENAME3args_w (nfs3_rename junk xdr_replymsg auth xdr_callhdr pub room net);
  nfs 15 LINK3args_w (nfs3_link junk xdr_replymsg auth xdr_callhdr pub room net);
  nfs 16 READDIR3args_w (nfs3_readdir junk xdr_replymsg auth xdr_callhdr pub room net);
  nfs 17 READDIRPLUS3args_w (nfs3_readdirplus junk xdr_replymsg auth xdr_callhdr pub room net);
  nfs 18 FSSTAT3args_w (nfs3_fsstat junk xdr_replymsg auth xdr_callhdr pub room net);
  nfs 19 FSINFOargs_w (nfs3_fsinfo junk xdr_replymsg auth xdr_callhdr pub room net);
  nfs 20 PATHCONF3args_w (nfs3_pathconf junk xdr_replymsg auth xdr_callhdr pub room net);
  nfs 21 COMMIT3args_w (nfs3_commit junk xdr_replymsg auth xdr_callhdr pub room net);
  mount 0 void_w (mount3_null junk xdr_replymsg auth xdr_callhdr pub room net);
  mount 1 dirpath_w (mount3_mnt junk xdr_replymsg auth xdr_callhdr pub room net);
  mount 2 void_w (mount3_dump junk xdr_replymsg auth xdr_callhdr pub room net);
  mount 3 dirpath_w (mount3_umnt junk xdr_replymsg auth xdr_callhdr pub room net);
  mount 4 void_w (mount3_umntall junk xdr_replymsg auth xdr_callhdr pub room net);
  mount 5 void_w (mount3_export junk xdr_replymsg auth xdr_callhdr pub room net)
].

(** Marshalling what the protocol can express gives the bytes it prescribes. *)
Lemma marshal_ok {A} (p : xdrproc A) (w : wire A) arg :
  Codec pub p w -> w_wf w arg -> (length (w_enc w arg) <= room)%nat ->
  marshal pub room net p arg = Some (w_enc w arg, true).
Proof.
  intros Hc Hwf Hl. unfold marshal.
  destruct (codec_enc _ _ _ Hc arg Hwf (mk_XDR XDR_ENCODE [] room pub (net_heap net)) eq_refl eq_refl) as [E _].
  by rewrite E.
Qed.

Lemma xdr_void_codec : Codec pub xdr_void void_w.
Proof.
  split.
  - intros a _. apply enc_ret.
  - intros a d n _ _. by apply dec_ret.
  - intros d n _. by apply safe_ret.
  - intros d _. by apply typed_ret.
Qed.

(** The call is done: the message, header first, went out as one record on the
    connection, behind [before]. *)
Definition sends (before header : list Z) (p : procedure) (arg : pr_arg p) (r : outcome Z)
    (handle : option (clnt T X)) : Prop :=
  exists c', handle = Some c' /\ io_ok r (fun v => v = RPC_SUCCESS /\
    exists w, framed (header ++ be 4 (pr_number p) ++ auth ++ w_enc (pr_wire p) arg) w /\
      outgoing c' = before ++ w).

(** What is called on a connection. *)
Definition request (p : procedure) (arg : pr_arg p) : rpc_proc_info :=
  mk_rpc_proc_info (pr_number p) (w_enc (pr_wire p) arg) true.

Definition expressible (p : procedure) (arg : pr_arg p) : Prop :=
  w_wf (pr_wire p) arg /\ (length (w_enc (pr_wire p) arg) <= room)%nat.

Lemma call_on_ok k st c s p (xp : xdrproc (pr_arg p)) arg u_cb priv flag :
  Codec pub xp (pr_wire p) -> expressible p arg ->
  client_ok k st c s -> cuts st (so_reads (ct_sock c)) ->
  callable c s (request p arg) (mk_callback_info u_cb priv) ->
  exists h r, call_on junk xdr_replymsg auth pub room net (pr_number p) xp arg (Some c) u_cb priv flag = (h, r) /\
    sends (outgoing c) (take (ct_mpos c) (decrement_xid (ct_mcall c))) p arg r h.
Proof.
  intros Hp [Hwf Hl] Hc Hcut Hca. unfold call_on, request in *. rewrite (marshal_ok xp (pr_wire p)) by done.
  destruct (call_ok junk xdr_replymsg replymsg_word auth k st c s _ _ flag Hc Hca Hcut) as (c' & r & -> & Hio).
  eexists _, r. split; [done|]. exists c'. split; [done|]. destruct r; try done. cbn in Hio |- *.
  destruct Hio as (-> & (w' & Hw & Ho) & _). split; [done|]. by exists w'.
Qed.

(** A call of NFS on a connection is the RPC call of its message. *)
Lemma nfs3_call_on {A} n (xp : xdrproc A) (w : wire A) arg ctx c u_cb priv flag :
  Codec pub xp w -> w_wf w arg -> (length (w_enc w arg) <= room)%nat ->
  check_ctx (Some ctx) = true -> nfs_cl ctx = Some c ->
  nfs3_call junk xdr_replymsg auth xdr_callhdr pub room net n arg xp (Some ctx) u_cb priv flag =
    (let (c', r) := call_ct junk xdr_replymsg auth (mk_rpc_proc_info n (w_enc w arg) true)
       (mk_callback_info u_cb priv) flag c in
     (Some (set_nfs_cl ctx (nfs_srv ctx) (Some c')), r)).
Proof.
  intros Hp Hwf Hl Hctx Hcl. unfold nfs3_call. rewrite Hctx. cbn [negb mbind option_bind]. unfold connect_nfs.
  rewrite Hcl. unfold call_on. rewrite Hcl, (marshal_ok xp w) by done.
  unfold clnttcp_nb_call, on_handle. by destruct (call_ct _ _ _ _ _ _ _).
Qed.

(** Without a connection it is the call on the context with the connection made,
    or an error. *)
Lemma nfs3_call_connects {A} n (xp : xdrproc A) arg ctx ctx1 u_cb priv flag :
  check_ctx (Some ctx) = true -> connect_nfs junk xdr_callhdr net ctx = Some ctx1 ->
  nfs3_call junk xdr_replymsg auth xdr_callhdr pub room net n arg xp (Some ctx) u_cb priv flag =
    match nfs_cl ctx1 with
    | None => (Some ctx1, Returns RPC_SYSTEMERROR)
    | Some _ => nfs3_call junk xdr_replymsg auth xdr_callhdr pub room net n arg xp (Some ctx1) u_cb priv flag
    end.
Proof.
  intros Hctx Hcon. assert (Hctx1 : check_ctx (Some ctx1) = true).
  { unfold connect_nfs in Hcon. destruct (nfs_cl ctx); [by injection Hcon as <-|].
    apply bind_Some in Hcon as (cr & _ & [= <-]). exact Hctx. }
  unfold nfs3_call. rewrite Hctx, Hctx1. cbn [negb mbind option_bind]. rewrite Hcon.
  destruct (nfs_cl ctx1) as [c|] eqn:Hcl.
  - unfold connect_nfs. by rewrite Hcl, Hcl.
  - unfold call_on. cbn. by destruct ctx1; cbn in Hcl; subst.
Qed.

(** The same for the MOUNT program. *)
Lemma mount3_call_on {A} n (xp : xdrproc A) (w : wire A) arg ctx c u_cb priv flag :
  Codec pub xp w -> w_wf w arg -> (length (w_enc w arg) <= room)%nat ->
  check_ctx (Some ctx) = true -> nfs_mnt_cl ctx = Some c ->
  mount3_call junk xdr_replymsg auth xdr_callhdr pub room net n arg xp (Some ctx) u_cb priv flag =
    (let (c', r) := call_ct junk xdr_replymsg auth (mk_rpc_proc_info n (w_enc w arg) true)
       (mk_callback_info u_cb priv) flag c in
     (Some (set_nfs_mnt_cl ctx (nfs_mnt ctx) (Some c')), r)).
Proof.
  intros Hp Hwf Hl Hctx Hcl. unfold mount3_call. rewrite Hctx. cbn [negb mbind option_bind]. unfold connect_mount.
  rewrite Hcl. unfold call_on. rewrite Hcl, (marshal_ok xp w) by done.
  unfold clnttcp_nb_call, on_handle. by destruct (call_ct _ _ _ _ _ _ _).
Qed.

Lemma mount3_call_connects {A} n (xp : xdrproc A) arg ctx ctx1 u_cb priv flag :
  check_ctx (Some ctx) = true -> connect_mount junk xdr_callhdr net ctx = Some ctx1 ->
  mount3_call junk xdr_replymsg auth xdr_callhdr pub room net n arg xp (Some ctx) u_cb priv flag =
    match nfs_mnt_cl ctx1 with
    | None => (Some ctx1, Returns RPC_SYSTEMERROR)
    | Some _ => mount3_call junk xdr_replymsg auth xdr_callhdr pub room net n arg xp (Some ctx1) u_cb priv flag
    end.
Proof.
  intros Hctx Hcon. assert (Hctx1 : check_ctx (Some ctx1) = true).
  { unfold connect_mount in Hcon. destruct (nfs_mnt_cl ctx); [by injection Hcon as <-|].
    apply bind_Some in Hcon as (cr & _ & [= <-]). exact Hctx. }
  unfold mount3_call. rewrite Hctx, Hctx1. cbn [negb mbind option_bind]. rewrite Hcon.
  destruct (nfs_mnt_cl ctx1) as [c|] eqn:Hcl.
  - unfold connect_mount. by rewrite Hcl, Hcl.
  - unfold call_on. cbn. by destruct ctx1; cbn in Hcl; subst.
Qed.

(** Nobody can connect, or everybody. *)
Definition refuses : Prop := forall ctx, nfs_cl ctx = None ->
  exists ctx1, connect_nfs junk xdr_callhdr net ctx = Some ctx1 /\ nfs_cl ctx1 = None.
Definition accepts : Prop := forall ctx, nfs_cl ctx = None ->
  exists ctx1 c, connect_nfs junk xdr_callhdr net ctx = Some ctx1 /\ nfs_cl ctx1 = Some c.
Definition accepts_mount : Prop := forall ctx, nfs_mnt_cl ctx = None ->
  exists ctx1 c, connect_mount junk xdr_callhdr net ctx = Some ctx1 /\ nfs_mnt_cl ctx1 = Some c.

Lemma connect_keeps ctx ctx1 :
  connect_nfs junk xdr_callhdr net ctx = Some ctx1 -> check_ctx (Some ctx) = true -> check_ctx (Some ctx1) = true.
Proof.
  unfold connect_nfs. destruct (nfs_cl ctx); [by intros [= <-]|]. intros (cr & _ & [= <-])%bind_Some Hctx. exact Hctx.
Qed.

(** A procedure is a call through one of the two connections. *)
Inductive calls_through (p : procedure) (xp : xdrproc (pr_arg p)) : Prop :=
  | through_nfs : pr_program p = NFS_PROGRAM -> pr_handle p = nfs_cl ->
      pr_call p = (fun arg => nfs3_call junk xdr_replymsg auth xdr_callhdr pub room net (pr_number p) arg xp) ->
      calls_through p xp
  | through_mount : pr_program p = MOUNT_PROGRAM -> pr_handle p = nfs_mnt_cl ->
      pr_call p = (fun arg => mount3_call junk xdr_replymsg auth xdr_callhdr pub room net (pr_number p) arg xp) ->
      calls_through p xp.

Lemma procedures_through :
  Forall (fun p => exists xp, Codec pub xp (pr_wire p) /\ calls_through p xp) procedures.
Proof.
  pose proof xdr_void_codec as Hv. unfold procedures, nfs, mount. clear nfs mount.
  repeat apply Forall_cons_2; [..|done]; cbn [pr_wire pr_arg];
    (eexists; split; [eauto with xdr|first [by apply through_nfs|by apply through_mount]]).
Qed.

Lemma procedure_sends p arg ctx k st c s u_cb priv flag :
  p ∈ procedures -> expressible p arg -> check_ctx (Some ctx) = true -> pr_handle p ctx = Some c ->
  client_ok k st c s -> cuts st (so_reads (ct_sock c)) ->
  callable c s (request p arg) (mk_callback_info u_cb priv) ->
  exists ctx' r, pr_call p arg (Some ctx) u_cb priv flag = (Some ctx', r) /\
    sends (outgoing c) (take (ct_mpos c) (decrement_xid (ct_mcall c))) p arg r (pr_handle p ctx').
Proof.
  intros Hp He Hctx Hh Hc Hcut Hca. pose proof procedures_through as HF. rewrite Forall_forall in HF.
  destruct (HF p Hp) as (xp & Hcod & Hthr).
  destruct (call_on_ok k st c s p xp arg u_cb priv flag Hcod He Hc Hcut Hca) as (h & r & E & Hs).
  destruct Hthr as [_ Hpr ->|_ Hpr ->]; rewrite Hpr in Hh |- *; unfold nfs3_call, mount3_call; rewrite Hctx;
    cbn [negb mbind option_bind]; unfold connect_nfs, connect_mount; rewrite Hh, Hh, E; by eexists _, r.
Qed.

(** [C7] Every one of the 22 procedures of NFS version 3 and of the 6 procedures of
    the MOUNT protocol, called on a connection that works: the message that goes
    out, as one record behind whatever was sent before, is the header with a new
    transaction id, the number that RFC 1813 gives the procedure, the
    credentials and the arguments in the representation of RFC 1813. *)
Theorem procedures_send p arg ctx k st c s u_cb priv flag :
  p ∈ procedures -> expressible p arg -> check_ctx (Some ctx) = true -> pr_handle p ctx = Some c ->
  client_ok k st c s -> cuts st (so_reads (ct_sock c)) ->
  callable c s (request p arg) (mk_callback_info u_cb priv) ->
  exists ctx' r, pr_call p arg (Some ctx) u_cb priv flag = (Some ctx', r) /\
    sends (outgoing c) (take (ct_mpos c) (decrement_xid (ct_mcall c))) p arg r (pr_handle p ctx').
Proof. apply procedure_sends. Qed.

(** ** The first call *)

Context (callhdr_fits : forall xid prog vers hdr, xdr_callhdr xid prog vers = Some hdr ->
  (4 <= length hdr <= Z.to_nat MCALL_MSG_SIZE)%nat /\ bytes_ok hdr).
Context (table_memory : forall (t : T) x v, ght_ok t -> is_u 32 x ->
  Z.of_nat (length (ght_entries t)) < 2 ^ 31 - 1 -> snd (ght_insert t x v) <> -2).

(** A network to connect to: fresh table and stream, memory, a stream of replies,
    no failing write. *)
Record network_ok : Prop := {
  no_table : ght_ok (net_table net);
  no_empty : ght_entries (net_table net) = [];
  no_stream : x_rec (net_xdrs net) [] [];
  no_junk : byte_ok junk;
  no_memory : mem_ample (net_heap net);
  no_reads : cuts None (so_reads (sys_script (net_sys net)));
  no_writes : write_error ∉ so_writes (sys_script (net_sys net))
}.

(** A connection that has just been made. *)
Definition brand_new (program : Z) (c : clnt T X) : Prop :=
  ct_pendingcalls c = 0 /\ ct_sock c = sys_script (net_sys net) /\
  prefix_of xdr_callhdr c (net_sys net) program NFS_V3 /\ ct_sndlist c = [] /\
  exists k, client_ok k None c (mk_session [] []).

Lemma connect_nfs_ok ctx : network_ok -> nfs_cl ctx = None ->
  exists ctx1, connect_nfs junk xdr_callhdr net ctx = Some ctx1 /\
    forall c, nfs_cl ctx1 = Some c -> brand_new NFS_PROGRAM c.
Proof.
  intros [] Hcl. unfold connect_nfs. rewrite Hcl. case_match.
  - destruct (nb_create_ok junk xdr_callhdr callhdr_fits (net_sys net) (nfs_srv ctx) NFS_PROGRAM NFS_V3 RPC_ANYSOCK
      (nfs_wsize ctx) (nfs_rsize ctx) (net_table net) (net_xdrs net) (net_heap net)) as (cr & -> & Hcr); try done.
    eexists. split; [done|]. cbn. intros c Hc. destruct (Hcr c Hc) as (? & ? & ? & ? & Hok).
    split_and!; try done. eexists. by apply Hok.
  - destruct (b_create_client junk xdr_callhdr callhdr_fits (net_sys net) (nfs_srv ctx) NFS_PROGRAM NFS_V3 RPC_ANYSOCK
      (nfs_wsize ctx) (nfs_rsize ctx) (net_table net) (net_xdrs net) (net_heap net)) as (cr & -> & Hcr); try done.
    eexists. split; [done|]. cbn. intros c Hc. destruct (Hcr c Hc) as (? & ? & ? & ? & Hok).
    split_and!; try done. eexists. by apply Hok.
Qed.

Lemma connect_mount_ok ctx : network_ok -> nfs_mnt_cl ctx = None ->
  exists ctx1, connect_mount junk xdr_callhdr net ctx = Some ctx1 /\
    forall c, nfs_mnt_cl ctx1 = Some c -> brand_new MOUNT_PROGRAM c.
Proof.
  intros [] Hcl. unfold connect_mount. rewrite Hcl.
  destruct (nb_create_ok junk xdr_callhdr callhdr_fits (net_sys net) (nfs_mnt ctx) MOUNT_PROGRAM MOUNT_V3 RPC_ANYSOCK
    0 0 (net_table net) (net_xdrs net) (net_heap net)) as (cr & -> & Hcr); try done.
  eexists. split; [done|]. cbn. intros c Hc. destruct (Hcr c Hc) as (? & ? & ? & ? & Hok).
  split_and!; try done. eexists. by apply Hok.
Qed.

Lemma take_decrement n m : (4 <= n)%nat -> take n (decrement_xid m) = decrement_xid (take n m).
Proof.
  intros Hn. unfold decrement_xid. rewrite take_app, length_rev, length_be, take_take, Nat.min_l by done.
  rewrite firstn_all2 by (rewrite length_rev, length_be; lia). by rewrite skipn_firstn_comm.
Qed.

Lemma call_brand_new c p (xp : xdrproc (pr_arg p)) arg u_cb priv flag :
  Codec pub xp (pr_wire p) -> expressible p arg -> network_ok -> brand_new (pr_program p) c ->
  exists h r hdr, call_on junk xdr_replymsg auth pub room net (pr_number p) xp arg (Some c) u_cb priv flag = (h, r) /\
    xdr_callhdr (create_xid (net_sys net)) (pr_program p) NFS_V3 = Some hdr /\
    sends (so_sent (sys_script (net_sys net))) (decrement_xid hdr) p arg r h.
Proof.
  intros Hp He [] (Hpc & Hsock & [Hpos Hhdr] & Hsnd & k & Hok).
  assert (Hcut : cuts None (so_reads (ct_sock c))) by (by rewrite Hsock).
  pose proof (co_rep _ _ _ _ Hok) as HR.
  assert (Ht : ght_ok (ct_xid_to_ucb (ct_recv c)) /\ ght_entries (ct_xid_to_ucb (ct_recv c)) = []).
  { destruct HR as (_ & Ht1 & Ht2 & _). by split. }
  assert (Hca : callable c (mk_session [] []) (request p arg) (mk_callback_info u_cb priv)).
  { constructor; try done; [by rewrite Hsock|cbn; set_solver| |by rewrite Hpc].
    apply (ptr_memory table_memory); [apply Ht|by apply mcall_word, decrement_ok, Hok|by rewrite (proj2 Ht)]. }
  destruct (call_on_ok k None c _ p xp arg u_cb priv flag Hp He Hok Hcut Hca) as (h & r & E & Hs).
  exists h, r, (take (ct_mpos c) (ct_mcall c)). split_and!; [done|done|].
  rewrite take_decrement in Hs by done. unfold outgoing, pending in Hs.
  by rewrite Hsnd, Hsock, app_nil_r in Hs.
Qed.

(** The first call of any procedure makes the connection: it returns
    RPC_SYSTEMERROR and there is none, or the message is the first record on the
    new connection, and its header is the one encoded for the program of the
    procedure. *)
Theorem first_call_connects p arg ctx u_cb priv flag :
  p ∈ procedures -> expressible p arg -> check_ctx (Some ctx) = true -> pr_handle p ctx = None -> network_ok ->
  exists ctx' r, pr_call p arg (Some ctx) u_cb priv flag = (Some ctx', r) /\
    ((r = Returns RPC_SYSTEMERROR /\ pr_handle p ctx' = None) \/
     exists hdr, xdr_callhdr (create_xid (net_sys net)) (pr_program p) NFS_V3 = Some hdr /\
       sends (so_sent (sys_script (net_sys net))) (decrement_xid hdr) p arg r (pr_handle p ctx')).
Proof.
  intros Hp He Hctx Hh Hnet. pose proof procedures_through as HF. rewrite Forall_forall in HF.
  destruct (HF p Hp) as (xp & Hcod & [Hprog Hpr ->|Hprog Hpr ->]); rewrite Hpr in Hh |- *;
    unfold nfs3_call, mount3_call; rewrite Hctx; cbn [negb mbind option_bind].
  - destruct (connect_nfs_ok ctx Hnet Hh) as (ctx1 & -> & Hnew). destruct (nfs_cl ctx1) as [c|].
    + destruct (call_brand_new c p xp arg u_cb priv flag) as (h & r & hdr & -> & Hhdr & Hs); [done..|by rewrite Hprog; apply Hnew|].
      eexists _, r. split; [done|]. right. by exists hdr.
    + eexists _, _. split; [done|]. by left.
  - destruct (connect_mount_ok ctx Hnet Hh) as (ctx1 & -> & Hnew). destruct (nfs_mnt_cl ctx1) as [c|].
    + destruct (call_brand_new c p xp arg u_cb priv flag) as (h & r & hdr & -> & Hhdr & Hs); [done..|by rewrite Hprog; apply Hnew|].
      eexists _, r. split; [done|]. right. by exists hdr.
    + eexists _, _. split; [done|]. by left.
Qed.
End procedures.

(** ** Headers *)

Lemma take_after_calls n k mcall : (4 <= n)%nat -> take n (after_calls k mcall) = after_calls k (take n mcall).
Proof.
  intros Hn. induction k as [|k IH]; [done|]. change (take n (decrement_xid (after_calls k mcall)) = decrement_xid (after_calls k (take n mcall))).
  by rewrite take_decrement, IH.
Qed.

(** The transaction ids are in the header. *)
Lemma xids_take n k mcall : (4 <= n)%nat -> xids k (take n mcall) = xids k mcall.
Proof.
  intros Hn. unfold xids. apply list_fmap_ext. intros d j _. rewrite <- take_after_calls by done.
  unfold xid_host. by rewrite take_take, Nat.min_l.
Qed.

(** ** Contexts *)

Section contexts.
Context {T X : Type}.

(** A context takes three blocks, and none when one of them cannot be had;
    [nfs_destroy] frees exactly these, whatever connections were made in
    between: the connections are not destroyed. *)
Theorem context_lifetime srv proto connflags h :
  exists ctx h1, @nfs_init T X (Some srv) proto connflags h = Some (ctx, h1) /\
    match ctx with
    | None => h_live h1 = h_live h /\ ~ mem_ample h
    | Some c =>
        h_live h1 = (h_live h + 3)%nat /\ nfs_cl c = None /\ nfs_mnt_cl c = None /\
        (check_ctx ctx = true <-> proto = IPPROTO_UDP \/ proto = IPPROTO_TCP) /\
        forall cl mcl, exists h2,
          nfs_destroy (Some (set_nfs_cl (set_nfs_mnt_cl c srv mcl) srv cl)) h1 = Some h2 /\ h_live h2 = h_live h
    end.
Proof.
  unfold nfs_init, mem_alloc.
  destruct (h_ok h (h_requests h)) eqn:E1; cbn.
  2: { eexists None, _. split; [done|]. split; [done|]. intros Ha. by rewrite Ha in E1. }
  destruct (h_ok h (S (h_requests h))) eqn:E2; cbn.
  2: { eexists None, _. split; [done|]. split; [done|]. intros Ha. by rewrite Ha in E2. }
  destruct (h_ok h (S (S (h_requests h)))) eqn:E3; cbn.
  2: { eexists None, _. split; [done|]. split; [done|]. intros Ha. by rewrite Ha in E3. }
  eexists (Some _), _. split; [done|]. split_and!; cbn; [lia|done|done|..].
  - destruct (Z.eqb_spec proto IPPROTO_UDP), (Z.eqb_spec proto IPPROTO_TCP); cbn; naive_solver.
  - intros cl mcl. by eexists.
Qed.
End contexts.
