(* ===== verification/NfsCallsExamples.v ===== *)
(** * Calls of NFS procedures, made

    The theorems of [NfsCallsCorrect] for a LOOKUP call, with the pointer-level
    hash table, the RFC 4506 primitives and the connections of
    [RpcClientExamples]. *)

From S2P Require Import Prelude Xdr XdrRfc NfsTypes NfsSpec NfsXdr NfsWire HashTable GhtIface RpcRecord RpcRecordCorrect RpcClient RpcSend RpcClientCorrect RpcClientExamples NfsCalls NfsCallsCorrect.

#[local] Existing Instances table_ght table_laws.

Definition net_ex : @network table (list Z) := mk_network system_ex (Some table_ex) [] ample_heap.

(** A context, connected or not. *)
Definition ctx_ex (cl : option (clnt table (list Z))) : nfs_ctx table (list Z) :=
  mk_nfs_ctx 2049 2049 IPPROTO_TCP None cl NFSC_CFL_NONBLOCKING 0 0.

Definition lookup_ex : @procedure table (list Z) :=
  mk_procedure LOOKUP3args NFS_PROGRAM 3 LOOKUP3args_w nfs_cl
    (nfs3_lookup 0 replymsg4 auth_ex callhdr_ex 0 100 net_ex).

Lemma lookup_ex_in : lookup_ex ∈ procedures 0 replymsg4 auth_ex callhdr_ex 0 100 net_ex.
Proof. apply (list_elem_of_lookup_2 _ 3). reflexivity. Qed.

Lemma sample_expressible : expressible 100 lookup_ex sample_lookup.
Proof. split; [exact sample_lookup_wf|]. apply Nat.leb_le. vm_compute. reflexivity. Qed.

(** The connection can carry any call. *)
Lemma callable_ex n args cbi :
  callable (client_ex [write_taken 100] [read_bytes (mark reply1)] 0) (mk_session [] []) (mk_rpc_proc_info n args true) cbi.
Proof. constructor; [reflexivity|cbn; set_solver|apply not_elem_of_nil|reflexivity|apply insert_ex|discriminate]. Qed.

Lemma procedures_send_witness :
  exists ctx' r,
    nfs3_lookup 0 replymsg4 auth_ex callhdr_ex 0 100 net_ex sample_lookup
      (Some (ctx_ex (Some (client_ex [write_taken 100] [read_bytes (mark reply1)] 0)))) (Some 100) 1 RPC_DEFAULT_FLAGS =
      (Some ctx', r) /\
    sends auth_ex [] (take 20 (decrement_xid mcall_ex)) lookup_ex sample_lookup r (nfs_cl ctx').
Proof.
  apply (procedures_send 0 replymsg4 auth_ex callhdr_ex 0 100 net_ex replymsg4_word lookup_ex sample_lookup
    (ctx_ex (Some (client_ex [write_taken 100] [read_bytes (mark reply1)] 0))) 3 None
    (client_ex [write_taken 100] [read_bytes (mark reply1)] 0) (mk_session [] []) (Some 100) 1 RPC_DEFAULT_FLAGS).
  - apply lookup_ex_in.
  - apply sample_expressible.
  - reflexivity.
  - reflexivity.
  - apply client_ex_ok.
  - apply (reads_cut [reply1]). by repeat constructor.
  - apply callable_ex.
Defined.

Lemma net_ex_ok : network_ok 0 net_ex.
Proof. destruct table_ex_ok as [H1 H2]. constructor; try done. cbn. set_solver. Qed.

Lemma first_call_connects_witness :
  exists ctx' r,
    nfs3_lookup 0 replymsg4 auth_ex callhdr_ex 0 100 net_ex sample_lookup (Some (ctx_ex None)) None 0 RPC_NO_RX =
      (Some ctx', r) /\
    ((r = Returns RPC_SYSTEMERROR /\ nfs_cl ctx' = None) \/
     exists hdr, callhdr_ex (create_xid system_ex) 100003 3 = Some hdr /\
       sends auth_ex [] (decrement_xid hdr) lookup_ex sample_lookup r (nfs_cl ctx')).
Proof.
  apply (first_call_connects 0 replymsg4 auth_ex callhdr_ex 0 100 net_ex replymsg4_word callhdr_ex_fits table_memory_ex
    lookup_ex sample_lookup (ctx_ex None) None 0 RPC_NO_RX).
  - apply lookup_ex_in.
  - apply sample_expressible.
  - reflexivity.
  - reflexivity.
  - apply net_ex_ok.
Defined.

(** ** Networks *)

(** The system answers with socket [fd] and the script. *)
Definition net_of (fd : Z) (script : socket) : @network table (list Z) :=
  mk_network (mk_system 2049 fd 0 2 (fun _ => 0) 1200000000 250000 script) (Some table_ex) [] ample_heap.

Lemma net_refuses script : refuses 0 callhdr_ex (net_of (-1) script).
Proof.
  intros ctx Hcl. unfold connect_nfs. rewrite Hcl.
  assert (H : forall port prog vers n m, exists cr,
    clnttcp_b_create 0 callhdr_ex (net_sys (net_of (-1) script)) port prog vers RPC_ANYSOCK n m (Some table_ex) ([] : list Z) ample_heap = Some cr /\
    cr_handle cr = None).
  { intros port prog vers n m. unfold clnttcp_b_create, connect_socket. cbn. destruct (port =? 0); cbn; by eexists. }
  case_match; [unfold clnttcp_nb_create|]; destruct (H (nfs_srv ctx) NFS_PROGRAM NFS_V3 (nfs_wsize ctx) (nfs_rsize ctx)) as (cr & E & Hn);
    cbn [net_table net_xdrs net_heap net_of]; rewrite E; cbn [mbind option_bind]; [rewrite Hn; cbn [mbind option_bind]|]; by eexists.
Qed.

Lemma net_accepts script : accepts 0 callhdr_ex (net_of 4 script).
Proof.
  intros ctx Hcl. unfold connect_nfs. rewrite Hcl.
  assert (H : forall port prog vers n m, exists cr c,
    clnttcp_b_create 0 callhdr_ex (net_sys (net_of 4 script)) port prog vers RPC_ANYSOCK n m (Some table_ex) ([] : list Z) ample_heap = Some cr /\
    cr_handle cr = Some c).
  { intros port prog vers n m. unfold clnttcp_b_create, connect_socket. cbn. destruct (port =? 0); cbn; by eexists _, _. }
  case_match; [unfold clnttcp_nb_create|]; destruct (H (nfs_srv ctx) NFS_PROGRAM NFS_V3 (nfs_wsize ctx) (nfs_rsize ctx)) as (cr & c & E & Hn);
    cbn [net_table net_xdrs net_heap net_of]; rewrite E; cbn [mbind option_bind]; [rewrite Hn; cbn|]; by eexists _, _.
Qed.

Lemma net_accepts_mount script : accepts_mount 0 callhdr_ex (net_of 4 script).
Proof.
  intros ctx Hcl. unfold connect_mount. rewrite Hcl. unfold clnttcp_nb_create, clnttcp_b_create, connect_socket. cbn.
  destruct (nfs_mnt ctx =? 0); cbn; by eexists _, _.
Qed.

Lemma net_of_ok selects writes reads : write_error ∉ writes -> cuts None reads ->
  network_ok 0 (net_of 4 (mk_socket selects writes reads [])).
Proof. intros Hw Hc. destruct table_ex_ok as [H1 H2]. by constructor. Qed.

(** The headers of the two programs, and the transaction ids of the first calls. *)
Definition nfs_header : list Z := be 4 (create_xid (net_sys (net_of 4 (mk_socket [] [] [] [])))) ++ be 4 0 ++ be 4 2 ++ be 4 100003 ++ be 4 3.
Definition n1 : Z := Eval vm_compute in xid_host (after_calls 1 nfs_header).
Definition n2 : Z := Eval vm_compute in xid_host (after_calls 2 nfs_header).
Definition mount_header : list Z := be 4 (create_xid (net_sys (net_of 4 (mk_socket [] [] [] [])))) ++ be 4 0 ++ be 4 2 ++ be 4 100005 ++ be 4 3.
Definition m1 : Z := Eval vm_compute in xid_host (decrement_xid mount_header).
