(* ===== verification/Flist.v ===== *)
(** * Linked lists: [src/include/flist.h]

    Circular doubly-linked lists whose nodes are embedded in the objects that
    are listed.  The model has the two pointers of every node; a node's address
    stands for the object it is part of ([flist_entry] is pointer arithmetic).
    [FlistCorrect] shows what the operations do. *)

From S2P Require Import Prelude.

(** ** The memory of nodes *)

(** NULL is [None]. *)
Record flist_head := mk_flist_head {
  fl_next : option nat;
  fl_prev : option nat
}.
Abbreviation fmem := (gmap nat flist_head).

(** [p->next], [p->prev], and assignments to them; NULL and what is not a node
    cannot be accessed. *)
Definition get_next (p : option nat) (m : fmem) : option (option nat) :=
  a ← p; e ← m !! a; Some (fl_next e).
Definition get_prev (p : option nat) (m : fmem) : option (option nat) :=
  a ← p; e ← m !! a; Some (fl_prev e).
Definition set_next (p v : option nat) (m : fmem) : option fmem :=
  a ← p; e ← m !! a; Some (<[a := mk_flist_head v (fl_prev e)]> m).
Definition set_prev (p v : option nat) (m : fmem) : option fmem :=
  a ← p; e ← m !! a; Some (<[a := mk_flist_head (fl_next e) v]> m).

Arguments get_next : simpl never.
Arguments get_prev : simpl never.
Arguments set_next : simpl never.
Arguments set_prev : simpl never.

(** ** Operations *)

(** The initial value of a head at the address [name]. *)
Definition FLIST_HEAD_INIT (name : nat) : flist_head := mk_flist_head (Some name) (Some name).

Definition INIT_FLIST_HEAD (ptr : option nat) (m : fmem) : option fmem :=
  m ← set_next ptr ptr m; set_prev ptr ptr m.

Definition __flist_add (new_entry prev next : option nat) (m : fmem) : option fmem :=
  m ← set_prev next new_entry m;
  m ← set_next new_entry next m;
  m ← set_prev new_entry prev m;
  set_next prev new_entry m.

Definition flist_add (new_entry head : option nat) (m : fmem) : option fmem :=
  next ← get_next head m; __flist_add new_entry head next m.
Definition flist_add_tail (new_entry head : option nat) (m : fmem) : option fmem :=
  prev ← get_prev head m; __flist_add new_entry prev head m.

Definition __flist_del (prev next : option nat) (m : fmem) : option fmem :=
  m ← set_prev next prev m; set_next prev next m.

Definition flist_del (entry : option nat) (m : fmem) : option fmem :=
  prev ← get_prev entry m; next ← get_next entry m;
  m ← __flist_del prev next m;
  m ← set_next entry None m;
  set_prev entry None m.
Definition flist_del_init (entry : option nat) (m : fmem) : option fmem :=
  prev ← get_prev entry m; next ← get_next entry m;
  m ← __flist_del prev next m;
  INIT_FLIST_HEAD entry m.

Definition flist_empty (head : option nat) (m : fmem) : option bool :=
  next ← get_next head m; Some (bool_decide (next = head)).
Definition flist_first (head : option nat) (m : fmem) : option (option nat) := get_next head m.

(** The loops, around a body that works on a state with the nodes in it. *)
Section loops.
Context {S : Type} (nodes : S -> fmem) (body : option nat -> S -> option S).

Fixpoint flist_for_each (fuel : nat) (pos head : option nat) (s : S) : option S :=
  if decide (pos = head) then Some s
  else match fuel with
       | O => None
       | Datatypes.S fuel =>
           s ← body pos s;
           pos ← get_next pos (nodes s);
           flist_for_each fuel pos head s
       end.

Fixpoint flist_for_each_safe (fuel : nat) (pos n head : option nat) (s : S) : option S :=
  if decide (pos = head) then Some s
  else match fuel with
       | O => None
       | Datatypes.S fuel =>
           s ← body pos s;
           n' ← get_next n (nodes s);
           flist_for_each_safe fuel n n' head s
       end.
End loops.
