(* ===== verification/FlistCorrect.v ===== *)
(** * The linked lists are lists

    [Flist m h xs] says that the list with head [h] holds the nodes [xs], in
    order.  Each operation of [Flist] is shown to be the list operation it is
    meant to be, and to leave every other node alone; the loops visit the nodes
    in order. *)

From S2P Require Import Prelude Flist.

(** ** What is a list *)

Definition nxt (m : fmem) (a b : nat) : Prop := exists e, m !! a = Some e /\ fl_next e = Some b.
Definition prv (m : fmem) (b a : nat) : Prop := exists e, m !! b = Some e /\ fl_prev e = Some a.

(** Consecutive nodes point at each other. *)
Fixpoint links (m : fmem) (l : list nat) : Prop :=
  match l with
  | a :: (b :: _) as t => nxt m a b /\ prv m b a /\ links m t
  | _ => True
  end.

Definition Flist (m : fmem) (h : nat) (xs : list nat) : Prop :=
  NoDup (h :: xs) /\ links m (h :: xs ++ [h]).

(** The nodes outside [own] are as they were. *)
Definition frame (own : list nat) (m m' : fmem) : Prop := forall a, a ∉ own -> m' !! a = m !! a.

Lemma node_links_cons m a b l : links m (a :: b :: l) <-> nxt m a b /\ prv m b a /\ links m (b :: l).
Proof. done. Qed.

Lemma links_split m l1 a l2 : links m (l1 ++ a :: l2) <-> links m (l1 ++ [a]) /\ links m (a :: l2).
Proof.
  induction l1 as [|x l1 IH]; cbn [app]; [by split; [|intros [_ ?]]|].
  destruct l1 as [|y l1]; cbn [app] in *; rewrite !node_links_cons; [cbn; tauto|]. rewrite IH. tauto.
Qed.

Lemma links_frame m m' l :
  (forall a b, a ∈ removelast l -> nxt m a b -> nxt m' a b) ->
  (forall a b, b ∈ tail l -> prv m b a -> prv m' b a) -> links m l -> links m' l.
Proof.
  induction l as [|a [|b l] IH]; intros Hn Hp; [done..|]. rewrite !node_links_cons. intros (H1 & H2 & H3). split_and!.
  - apply Hn; [by left|done].
  - apply Hp; [by left|done].
  - apply IH; [|intros x y Hy; apply Hp; by right|done].
    intros x y Hx. apply Hn. change (removelast (a :: b :: l)) with (a :: removelast (b :: l)). by right.
Qed.

(** Writes that are not on the list. *)
Lemma links_outside m m' l : (forall a, a ∈ l -> m' !! a = m !! a) -> links m l -> links m' l.
Proof.
  intros Hf. apply links_frame.
  - intros a b Ha (e & He & Hb). exists e. rewrite Hf; [done|].
    destruct (decide (l = [])) as [->|Hl]; [by apply not_elem_of_nil in Ha|].
    rewrite (app_removelast_last O Hl). apply elem_of_app. by left.
  - intros a b Hb (e & He & Ha). exists e. rewrite Hf; [done|]. destruct l; [done|by right].
Qed.

Lemma Flist_frame own m m' h xs :
  frame own m m' -> own ## h :: xs -> Flist m h xs -> Flist m' h xs.
Proof.
  intros Hf Hd [Hnd Hl]. split; [done|]. apply (links_outside m); [|done]. intros a Ha. apply Hf.
  intros Ho. apply (Hd a Ho). set_solver.
Qed.

Lemma Flist_nodes m h xs a : Flist m h xs -> a ∈ h :: xs -> is_Some (m !! a).
Proof.
  intros [_ Hl] Ha. apply list_elem_of_split in Ha as (l1 & l2 & E).
  assert (Hl' : links m (l1 ++ a :: (l2 ++ [h]))) by (by rewrite app_comm_cons, app_assoc, <- E).
  apply links_split in Hl' as [_ Hl']. destruct (l2 ++ [h]) as [|b l] eqn:El; [by destruct l2|].
  destruct Hl' as ((e & -> & _) & _). by eexists.
Qed.

(** ** Single writes *)

Definition next_at (m : fmem) (x : nat) : option (option nat) := fl_next <$> m !! x.
Definition prev_at (m : fmem) (x : nat) : option (option nat) := fl_prev <$> m !! x.

Lemma nxt_at m a b : nxt m a b <-> next_at m a = Some (Some b).
Proof. unfold nxt, next_at. destruct (m !! a) as [e|]; cbn; split; [by intros (? & [= ->] & ->)|intros [= H]; by exists e|by intros (? & ? & _)|done]. Qed.
Lemma prv_at m b a : prv m b a <-> prev_at m b = Some (Some a).
Proof. unfold prv, prev_at. destruct (m !! b) as [e|]; cbn; split; [by intros (? & [= ->] & ->)|intros [= H]; by exists e|by intros (? & ? & _)|done]. Qed.

Lemma at_eq m m' x : next_at m' x = next_at m x -> prev_at m' x = prev_at m x -> m' !! x = m !! x.
Proof. unfold next_at, prev_at. destruct (m !! x) as [[]|], (m' !! x) as [[]|]; cbn; congruence. Qed.

Lemma get_next_at a m : get_next (Some a) m = next_at m a.
Proof. unfold get_next, next_at. cbn. by destruct (m !! a). Qed.
Lemma get_prev_at a m : get_prev (Some a) m = prev_at m a.
Proof. unfold get_prev, prev_at. cbn. by destruct (m !! a). Qed.

(** What a sequence of writes leaves: [wrote m m' N P] says that the pointers
    listed in [N] and [P] have the values given there, the others those they
    had. *)
Definition update (l : list (nat * option nat)) (f : nat -> option (option nat)) (x : nat) : option (option nat) :=
  match list_find (fun e => e.1 = x) l with Some (_, (_, v)) => Some v | None => f x end.
Definition wrote (m m' : fmem) (N P : list (nat * option nat)) : Prop :=
  (forall x, is_Some (m' !! x) <-> is_Some (m !! x)) /\
  (forall x, next_at m' x = update N (next_at m) x) /\ (forall x, prev_at m' x = update P (prev_at m) x).

Lemma wrote_nil m : wrote m m [] [].
Proof. done. Qed.

Lemma update_cons a v l f x : update ((a, v) :: l) f x = if decide (a = x) then Some v else update l f x.
Proof.
  unfold update. cbn. destruct (decide (a = x)); [done|].
  by destruct (list_find (fun e => e.1 = x) l) as [[i [? ?]]|].
Qed.

Lemma write_next m m0 N P a v : wrote m0 m N P -> is_Some (m0 !! a) ->
  exists m', set_next (Some a) v m = Some m' /\ wrote m0 m' ((a, v) :: N) P.
Proof.
  intros (Hd & HN & HP) Ha. apply Hd in Ha as [e He]. eexists. unfold set_next. cbn. rewrite He. split; [done|].
  split_and!; intros x.
  - rewrite <- Hd, lookup_insert_is_Some'. rewrite He || idtac. split; [intros [->|]; [by exists e|done]|by right].
  - rewrite update_cons, <- HN. unfold next_at. destruct (decide (a = x)) as [<-|Hx].
    + by rewrite lookup_insert_eq. + by rewrite lookup_insert_ne.
  - rewrite <- HP. unfold prev_at. destruct (decide (a = x)) as [<-|Hx].
    + by rewrite lookup_insert_eq, He. + by rewrite lookup_insert_ne.
Qed.

Lemma write_prev m m0 N P a v : wrote m0 m N P -> is_Some (m0 !! a) ->
  exists m', set_prev (Some a) v m = Some m' /\ wrote m0 m' N ((a, v) :: P).
Proof.
  intros (Hd & HN & HP) Ha. apply Hd in Ha as [e He]. eexists. unfold set_prev. cbn. rewrite He. split; [done|].
  split_and!; intros x.
  - rewrite <- Hd, lookup_insert_is_Some'. split; [intros [->|]; [by exists e|done]|by right].
  - rewrite <- HN. unfold next_at. destruct (decide (a = x)) as [<-|Hx].
    + by rewrite lookup_insert_eq, He. + by rewrite lookup_insert_ne.
  - rewrite update_cons, <- HP. unfold prev_at. destruct (decide (a = x)) as [<-|Hx].
    + by rewrite lookup_insert_eq. + by rewrite lookup_insert_ne.
Qed.

(** Execute one assignment of a sequence. *)
Ltac write :=
  match goal with
  | W : wrote ?m0 ?m ?N ?P |- context [set_next (Some ?a) ?v ?m] =>
      let m' := fresh "m" in let E := fresh "E" in let W' := fresh "W" in
      destruct (write_next m m0 N P a v W) as (m' & E & W'); [by auto|rewrite E; clear E W]
  | W : wrote ?m0 ?m ?N ?P |- context [set_prev (Some ?a) ?v ?m] =>
      let m' := fresh "m" in let E := fresh "E" in let W' := fresh "W" in
      destruct (write_prev m m0 N P a v W) as (m' & E & W'); [by auto|rewrite E; clear E W]
  end; cbn [mbind option_bind].

Lemma init_writes a m : is_Some (m !! a) ->
  exists m', INIT_FLIST_HEAD (Some a) m = Some m' /\ wrote m m' [(a, Some a)] [(a, Some a)].
Proof. intros Ha. pose proof (wrote_nil m). unfold INIT_FLIST_HEAD. do 2 write. by eexists. Qed.

Lemma add_writes e p n m : is_Some (m !! e) -> is_Some (m !! p) -> is_Some (m !! n) ->
  exists m', __flist_add (Some e) (Some p) (Some n) m = Some m' /\
    wrote m m' [(p, Some e); (e, Some n)] [(e, Some p); (n, Some e)].
Proof. intros He Hp Hn. pose proof (wrote_nil m). unfold __flist_add. do 4 write. by eexists. Qed.

Lemma del_writes p n m : is_Some (m !! p) -> is_Some (m !! n) ->
  exists m', __flist_del (Some p) (Some n) m = Some m' /\ wrote m m' [(p, Some n)] [(n, Some p)].
Proof. intros Hp Hn. pose proof (wrote_nil m). unfold __flist_del. do 2 write. by eexists. Qed.

(** ** A list cut in two *)

(** The list [ys ++ zs] at a cut: [p] is the node before it, [n] the node after. *)
Inductive cut (h : nat) (ys zs : list nat) (p n : nat) : Prop :=
  | a_cut l r : h :: ys = l ++ [p] -> zs ++ [h] = n :: r -> cut h ys zs p n.

Lemma cut_exists h ys zs : exists p n, cut h ys zs p n.
Proof.
  destruct (exists_last (l := h :: ys)) as (l & p & E); [done|].
  destruct (zs ++ [h]) as [|n r] eqn:E'; [by destruct zs|]. exists p, n. by econstructor.
Qed.

Lemma cut_nodes h ys zs p n : cut h ys zs p n -> p ∈ h :: ys /\ n ∈ h :: zs.
Proof.
  intros [l r E1 E2]. split; [rewrite E1; apply elem_of_app; right; by left|].
  assert (H : n ∈ zs ++ [h]) by (rewrite E2; by left). set_solver.
Qed.

(** The two parts of the ring. *)
Definition before (m : fmem) (h : nat) (ys : list nat) : Prop := links m (h :: ys).
Definition after (m : fmem) (h : nat) (zs : list nat) : Prop := links m (zs ++ [h]).

Lemma links_cut m h ys zs p n : cut h ys zs p n ->
  links m (h :: (ys ++ zs) ++ [h]) <-> before m h ys /\ nxt m p n /\ prv m n p /\ after m h zs.
Proof.
  intros [l r E1 E2]. unfold before, after.
  replace (h :: (ys ++ zs) ++ [h]) with (l ++ p :: n :: r).
  2: { rewrite <- app_assoc, app_comm_cons, E1, E2, <- app_assoc. done. }
  rewrite E1, E2, links_split, node_links_cons. done.
Qed.

(** The parts survive writes of the pointers across the cut. *)
Lemma patch m m' h ys zs p n :
  cut h ys zs p n -> NoDup (h :: ys ++ zs) ->
  (forall x, x ∈ h :: ys ++ zs -> x <> p -> next_at m' x = next_at m x) ->
  (forall x, x ∈ h :: ys ++ zs -> x <> n -> prev_at m' x = prev_at m x) ->
  before m h ys -> after m h zs -> before m' h ys /\ after m' h zs.
Proof.
  intros [l r E1 E2] Hnd HN HP HB HA. unfold before, after in *.
  rewrite app_comm_cons, E1 in Hnd. pose proof Hnd as (Hl & Hd & Hz)%NoDup_app. apply NoDup_app in Hl as (_ & Hlp & _).
  assert (Hall : forall x, x ∈ h :: ys ++ zs <-> x ∈ l \/ x = p \/ x ∈ zs).
  { intros x. rewrite app_comm_cons, E1. set_solver. }
  assert (Hh : h ∈ l ++ [p]) by (rewrite <- E1; by left).
  assert (Hn : n ∈ zs \/ (n = h /\ zs = [])).
  { destruct zs; injection E2 as -> _; [by right|left; by left]. }
  split.
  - rewrite E1 in HB |- *. revert HB. apply links_frame.
    + intros a b Ha. rewrite removelast_last in Ha. rewrite !nxt_at, HN; [done|apply Hall; by left|].
      intros ->. apply (Hlp p Ha). by left.
    + intros a b Hb. rewrite <- E1 in Hb. cbn in Hb. rewrite !prv_at, HP; [done|set_solver|].
      intros ->. assert (Hby : n ∈ l ++ [p]) by (rewrite <- E1; by right). destruct Hn as [Hn|[-> ->]].
      * by apply (Hd n).
      * rewrite app_nil_r, <- E1 in Hnd. apply NoDup_cons in Hnd as [Hnd _]. done.
  - revert HA. apply links_frame.
    + intros a b Ha. rewrite removelast_last in Ha. rewrite !nxt_at, HN; [done|apply Hall; tauto|].
      intros ->. apply (Hd p); [set_solver|done].
    + intros a b Hb. rewrite E2 in Hb. cbn in Hb. rewrite !prv_at.
      assert (Hb' : b ∈ zs ++ [h]) by (rewrite E2; by right).
      rewrite HP; [done|set_solver|]. intros ->.
      assert (Hnr : NoDup (n :: r)).
      { rewrite <- E2. apply NoDup_app. split_and!; [done| |apply NoDup_singleton].
        intros x Hx. intros ->%list_elem_of_singleton. by apply (Hd h). }
      by apply NoDup_cons in Hnr as [? _].
Qed.

Lemma update_out l f x : x ∉ l.*1 -> update l f x = f x.
Proof.
  induction l as [|[a v] l IH]; [done|]. cbn. intros Hx. rewrite update_cons.
  destruct (decide (a = x)) as [->|]; [set_solver|]. apply IH. set_solver.
Qed.

Lemma wrote_frame m m' N P own : wrote m m' N P -> N.*1 ⊆ own -> P.*1 ⊆ own -> frame own m m'.
Proof.
  intros (_ & HN & HP) H1 H2 a Ha. apply at_eq; [rewrite HN|rewrite HP]; apply update_out; set_solver.
Qed.

Lemma ring_perm (h e : nat) ys zs : h :: ys ++ e :: zs ≡ₚ e :: h :: ys ++ zs.
Proof. rewrite <- Permutation_middle. apply Permutation_swap. Qed.

(** A new node between two parts. *)
Lemma insert_links m m' h ys zs p n e :
  cut h ys zs p n -> e ∉ h :: ys ++ zs -> Flist m h (ys ++ zs) ->
  wrote m m' [(p, Some e); (e, Some n)] [(e, Some p); (n, Some e)] -> Flist m' h (ys ++ e :: zs).
Proof.
  intros Hc He [Hnd Hl] (_ & HN & HP). pose proof (cut_nodes _ _ _ _ _ Hc) as [Hp Hn].
  rewrite (links_cut _ _ _ _ _ _ Hc) in Hl. destruct Hl as (HB & _ & _ & HA).
  assert (Hpe : p <> e) by set_solver. assert (Hne : n <> e) by set_solver.
  destruct (patch m m' h ys zs p n) as [HB' HA']; [done..| | |done|done|].
  { intros x Hx Hxp. rewrite HN, update_out; [done|]. cbn. set_solver. }
  { intros x Hx Hxp. rewrite HP, update_out; [done|]. cbn. set_solver. }
  split.
  { rewrite ring_perm. by apply NoDup_cons. }
  destruct Hc as [l r E1 E2]. unfold before, after in *.
  replace (h :: (ys ++ e :: zs) ++ [h]) with (l ++ p :: e :: n :: r).
  2: { rewrite <- app_assoc, <- app_comm_cons, E2, app_comm_cons, E1, <- app_assoc. done. }
  rewrite links_split, <- E1. split; [done|]. rewrite !node_links_cons, <- E2. split_and!; [..|done].
  - rewrite nxt_at, HN, update_cons. by rewrite decide_True.
  - rewrite prv_at, HP, update_cons. by rewrite decide_True.
  - rewrite nxt_at, HN, !update_cons, decide_False, decide_True by done. done.
  - rewrite prv_at, HP, !update_cons, decide_False, decide_True by done. done.
Qed.

(** The same backwards: the node [e] taken out. *)
Lemma delete_links m m' h ys zs p n e N P :
  cut h ys zs p n -> Flist m h (ys ++ e :: zs) -> N.*1 ⊆ [p; e] -> P.*1 ⊆ [n; e] ->
  wrote m m' N P -> update N (next_at m) p = Some (Some n) -> update P (prev_at m) n = Some (Some p) ->
  Flist m' h (ys ++ zs).
Proof.
  intros Hc [Hnd Hl] HNs HPs (_ & HN & HP) Hpn Hnp.
  rewrite ring_perm in Hnd. apply NoDup_cons in Hnd as [He Hnd].
  assert (HBA : before m h ys /\ after m h zs).
  { destruct Hc as [l r E1 E2]. unfold before, after. rewrite E1, E2.
    replace (h :: (ys ++ e :: zs) ++ [h]) with (l ++ p :: e :: n :: r) in Hl.
    2: { rewrite <- app_assoc, <- app_comm_cons, E2, app_comm_cons, E1, <- app_assoc. done. }
    apply links_split in Hl as [H1 H2]. rewrite !node_links_cons in H2. tauto. }
  destruct HBA as [HB HA].
  destruct (patch m m' h ys zs p n) as [HB' HA']; [done..| | |done|done|].
  { intros x Hx Hxp. rewrite HN, update_out; [done|]. intros Hin. apply HNs in Hin. set_solver. }
  { intros x Hx Hxp. rewrite HP, update_out; [done|]. intros Hin. apply HPs in Hin. set_solver. }
  split; [done|]. apply (links_cut _ _ _ _ _ _ Hc). split_and!; [done| | |done].
  - by rewrite nxt_at, HN. - by rewrite prv_at, HP.
Qed.

(** ** The operations *)

Section operations.
Implicit Types (m : fmem) (h e : nat) (xs ys zs : list nat).

(** What an operation on the list of [h] leaves: the list [xs], the nodes that
    are not in [own] as they were, and the same nodes. *)
Definition leaves m (own : list nat) h xs (r : option fmem) : Prop :=
  exists m', r = Some m' /\ Flist m' h xs /\ frame own m m' /\ (forall x, is_Some (m' !! x) <-> is_Some (m !! x)).

Lemma init_flist_head_ok m h : is_Some (m !! h) -> leaves m [h] h [] (INIT_FLIST_HEAD (Some h) m).
Proof.
  intros Hh. destruct (init_writes h m Hh) as (m' & E & W). exists m'. pose proof W as (Hd & HN & HP).
  split_and!; [done| |by eapply wrote_frame|done].
  split; [apply NoDup_singleton|]. split_and!; [|..|done].
  - rewrite nxt_at, HN, update_cons. by rewrite decide_True.
  - rewrite prv_at, HP, update_cons. by rewrite decide_True.
Qed.

Lemma cut_ends m h ys zs p n : cut h ys zs p n -> Flist m h (ys ++ zs) ->
  next_at m p = Some (Some n) /\ prev_at m n = Some (Some p).
Proof. intros Hc [_ Hl]. apply (links_cut _ _ _ _ _ _ Hc) in Hl as (_ & H1 & H2 & _). by rewrite <- nxt_at, <- prv_at. Qed.

Lemma add_between m h ys zs p n e :
  cut h ys zs p n -> Flist m h (ys ++ zs) -> e ∉ h :: ys ++ zs -> is_Some (m !! e) ->
  leaves m (e :: h :: ys ++ zs) h (ys ++ e :: zs) (__flist_add (Some e) (Some p) (Some n) m).
Proof.
  intros Hc Hf He Hn. destruct (cut_nodes _ _ _ _ _ Hc) as [Hp Hnn].
  destruct (add_writes e p n m) as (m' & E & W); [done|eapply Flist_nodes; [done|set_solver]..|].
  exists m'. split_and!; [done|by eapply insert_links| |apply W].
  eapply wrote_frame; [done|cbn; set_solver..].
Qed.

Lemma cut_front h xs : exists n, cut h [] xs h n /\ (forall m, Flist m h xs -> next_at m h = Some (Some n)).
Proof.
  destruct (cut_exists h [] xs) as (p & n & Hc). assert (p = h) as -> by (destruct Hc as [[|? []] r [=] _]; done).
  exists n. split; [done|]. intros m Hf. by destruct (cut_ends m h [] xs h n Hc Hf).
Qed.
Lemma cut_back h xs : exists p, cut h xs [] p h /\ (forall m, Flist m h xs -> prev_at m h = Some (Some p)).
Proof.
  destruct (cut_exists h xs []) as (p & n & Hc). assert (n = h) as -> by (by destruct Hc as [l r _ [= -> _]]).
  exists p. split; [done|]. intros m Hf. rewrite <- (app_nil_r xs) in Hf. by destruct (cut_ends m h xs [] p h Hc Hf).
Qed.

Lemma flist_add_ok m h xs e : Flist m h xs -> e ∉ h :: xs -> is_Some (m !! e) ->
  leaves m (e :: h :: xs) h (e :: xs) (flist_add (Some e) (Some h) m).
Proof.
  intros Hf He Hn. destruct (cut_front h xs) as (n & Hc & Hnx). unfold flist_add.
  rewrite get_next_at, (Hnx m Hf). by apply (add_between m h [] xs h n e).
Qed.

Lemma flist_add_tail_ok m h xs e : Flist m h xs -> e ∉ h :: xs -> is_Some (m !! e) ->
  leaves m (e :: h :: xs) h (xs ++ [e]) (flist_add_tail (Some e) (Some h) m).
Proof.
  intros Hf He Hn. destruct (cut_back h xs) as (p & Hc & Hpr). unfold flist_add_tail.
  rewrite get_prev_at, (Hpr m Hf).
  pose proof (add_between m h xs [] p h e Hc) as HA. rewrite app_nil_r in HA. by apply HA.
Qed.

Lemma flist_empty_ok m h xs : Flist m h xs -> flist_empty (Some h) m = Some (bool_decide (xs = [])).
Proof.
  intros Hf. destruct (cut_front h xs) as (n & Hc & Hnx). unfold flist_empty. rewrite get_next_at, (Hnx m Hf). cbn.
  f_equal. destruct Hc as [l r _ E2]. destruct Hf as [Hnd _]. destruct xs as [|x xs].
  - injection E2 as -> _. by rewrite !bool_decide_true.
  - injection E2 as -> _. rewrite !bool_decide_false; [done|done|]. intros [= ->]. apply NoDup_cons in Hnd as [Hnd _]. set_solver.
Qed.

Lemma flist_first_ok m h xs : Flist m h xs ->
  flist_first (Some h) m = Some (match xs with [] => Some h | x :: _ => Some x end).
Proof.
  intros Hf. destruct (cut_front h xs) as (n & Hc & Hnx). unfold flist_first. rewrite get_next_at, (Hnx m Hf).
  destruct Hc as [l r _ E2]. by destruct xs; injection E2 as -> _.
Qed.

(** The neighbours of a node. *)
Lemma flist_neighbours m h ys e zs : Flist m h (ys ++ e :: zs) ->
  exists p n, cut h ys zs p n /\ prev_at m e = Some (Some p) /\ next_at m e = Some (Some n).
Proof.
  intros Hf. destruct (cut_exists h ys (e :: zs)) as (p & e' & Hc).
  destruct (cut_ends _ _ _ _ _ _ Hc Hf) as [_ Hp]. destruct Hc as [l r E1 E2]. injection E2 as <- _.
  destruct (cut_exists h (ys ++ [e]) zs) as (e' & n & Hc). pose proof Hf as Hf'.
  change (e :: zs) with ([e] ++ zs) in Hf'. rewrite app_assoc in Hf'. destruct (cut_ends _ _ _ _ _ _ Hc Hf') as [Hn _].
  destruct Hc as [l' r' E3 E4]. assert (e' = e) as ->.
  { rewrite app_comm_cons in E3. by apply app_inj_tail in E3 as [_ ?]. }
  exists p, n. split_and!; [by econstructor|done|done].
Qed.

(** Unlinking, whatever is then stored in the node. *)
Lemma unlink m h ys e zs : Flist m h (ys ++ e :: zs) ->
  exists p n, get_prev (Some e) m = Some (Some p) /\ get_next (Some e) m = Some (Some n) /\
    forall v w, exists m', (m ← __flist_del (Some p) (Some n) m; m ← set_next (Some e) v m; set_prev (Some e) w m) = Some m' /\
      Flist m' h (ys ++ zs) /\ frame (h :: ys ++ e :: zs) m m' /\ (forall x, is_Some (m' !! x) <-> is_Some (m !! x)) /\
      next_at m' e = Some v /\ prev_at m' e = Some w.
Proof.
  intros Hf. destruct (flist_neighbours m h ys e zs Hf) as (p & n & Hc & Hp & Hn). exists p, n.
  destruct (cut_nodes _ _ _ _ _ Hc) as [Hpi Hni].
  assert (He : e <> p /\ e <> n). { destruct Hf as [Hnd _]. rewrite ring_perm in Hnd. apply NoDup_cons in Hnd as [Hnd _]. set_solver. }
  rewrite get_prev_at, get_next_at. split_and!; [done|done|]. intros v w.
  destruct (del_writes p n m) as (m1 & -> & W); [eapply Flist_nodes; [done|set_solver]..|]. cbn [mbind option_bind].
  assert (is_Some (m !! e)) by (eapply Flist_nodes; [done|set_solver]). do 2 write. eexists. split; [done|].
  match goal with W : wrote _ _ _ _ |- _ => rename W into HW end. pose proof HW as (Hd & HN & HP). split_and!.
  - refine (delete_links _ _ _ _ _ _ _ _ _ _ Hc Hf _ _ HW _ _); [cbn; set_solver..| |];
      rewrite !update_cons, decide_False by tauto; by rewrite decide_True.
  - eapply wrote_frame; [done|cbn; set_solver..].
  - done.
  - rewrite HN, update_cons. by rewrite decide_True.
  - rewrite HP, update_cons. by rewrite decide_True.
Qed.

Lemma flist_del_ok m h ys e zs : Flist m h (ys ++ e :: zs) ->
  leaves m (h :: ys ++ e :: zs) h (ys ++ zs) (flist_del (Some e) m).
Proof.
  intros Hf. destruct (unlink m h ys e zs Hf) as (p & n & Hp & Hn & Hu). unfold flist_del. rewrite Hp, Hn.
  destruct (Hu None None) as (m' & E & H1 & H2 & H3 & _). by exists m'.
Qed.

Lemma flist_del_init_ok m h ys e zs : Flist m h (ys ++ e :: zs) ->
  leaves m (h :: ys ++ e :: zs) h (ys ++ zs) (flist_del_init (Some e) m) /\
  forall m', flist_del_init (Some e) m = Some m' -> Flist m' e [].
Proof.
  intros Hf. destruct (unlink m h ys e zs Hf) as (p & n & Hp & Hn & Hu). unfold flist_del_init, INIT_FLIST_HEAD.
  rewrite Hp, Hn. destruct (Hu (Some e) (Some e)) as (m' & E & H1 & H2 & H3 & H4 & H5).
  cbn [mbind option_bind] in E |- *. rewrite E. split; [by exists m'|]. intros ? [= <-].
  split; [apply NoDup_singleton|]. cbn. by rewrite nxt_at, prv_at.
Qed.
End operations.

(** ** The loops *)

Section iteration.
Context {S : Type} (nodes : S -> fmem) (body : option nat -> S -> option S) (h : nat).

(** Where a loop stands when [zs] are still to be visited. *)
Definition position_of (zs : list nat) : option nat := Some (default h (head zs)).

Lemma next_of m ys x zs : Flist m h (ys ++ x :: zs) -> get_next (Some x) m = Some (position_of zs).
Proof.
  intros Hf. destruct (flist_neighbours m h ys x zs Hf) as (p & n & Hc & _ & Hn). rewrite get_next_at, Hn.
  destruct Hc as [l r _ E2]. by destruct zs; injection E2 as <- _.
Qed.
Lemma next_of_head m xs : Flist m h xs -> get_next (Some h) m = Some (position_of xs).
Proof. intros Hf. fold (flist_first (Some h) m). rewrite (flist_first_ok m h xs Hf). by destruct xs. Qed.

Lemma not_head m ys x zs : Flist m h (ys ++ x :: zs) -> x <> h.
Proof. intros [Hnd _] ->. rewrite ring_perm in Hnd. apply NoDup_cons in Hnd as [Hnd _]. set_solver. Qed.

(** The loop visits the nodes in order, each once, when the body keeps the list. *)
Lemma flist_for_each_ok (I : list nat -> S -> Prop) xs :
  (forall ys s, I ys s -> Flist (nodes s) h xs) ->
  (forall ys x zs s, xs = ys ++ x :: zs -> I ys s -> exists s', body (Some x) s = Some s' /\ I (ys ++ [x]) s') ->
  forall zs ys s, xs = ys ++ zs -> I ys s ->
  exists s', flist_for_each nodes body (length zs) (position_of zs) (Some h) s = Some s' /\ I xs s'.
Proof.
  intros Hf Hb. induction zs as [|x zs IH]; intros ys s E Hi; cbn.
  - rewrite decide_True by done. exists s. split; [done|]. by rewrite E, app_nil_r.
  - pose proof (Hf _ _ Hi) as Hl. rewrite E in Hl. pose proof (not_head _ _ _ _ Hl) as Hx.
    change (position_of (x :: zs)) with (Some x). rewrite decide_False by (intros [= ->]; done). destruct (Hb ys x zs s E Hi) as (s' & -> & Hi'). cbn [mbind option_bind].
    pose proof (Hf _ _ Hi') as Hl'. rewrite E in Hl'. rewrite (next_of _ _ _ _ Hl'). cbn [mbind option_bind].
    apply (IH (ys ++ [x])); [|done]. by rewrite E, <- app_assoc.
Qed.

(** The safe loop allows the body to take out the node it visits, and nodes
    before it. *)
Lemma flist_for_each_safe_ok (I : list nat -> S -> Prop) :
  (forall zs s, I zs s -> exists ys, Flist (nodes s) h (ys ++ zs)) ->
  (forall x zs s, I (x :: zs) s -> exists s', body (Some x) s = Some s' /\ I zs s') ->
  forall zs s, I zs s ->
  exists s', flist_for_each_safe nodes body (length zs) (position_of zs) (position_of (tail zs)) (Some h) s = Some s' /\ I [] s'.
Proof.
  intros Hf Hb. induction zs as [|x zs IH]; intros s Hi; cbn.
  - rewrite decide_True by done. by exists s.
  - destruct (Hf _ _ Hi) as [ys Hl]. pose proof (not_head _ _ _ _ Hl) as Hx.
    change (position_of (x :: zs)) with (Some x). rewrite decide_False by (intros [= ->]; done). destruct (Hb x zs s Hi) as (s' & -> & Hi'). cbn [mbind option_bind].
    assert (Hn : exists q, get_next (position_of zs) (nodes s') = Some q /\ (zs <> [] -> q = position_of (tail zs))).
    { destruct (Hf _ _ Hi') as [ys' Hl']. destruct zs as [|y zs].
      - eexists. split; [by apply next_of_head|done].
      - eexists. split; [by apply (next_of _ ys')|done]. }
    destruct Hn as (q & -> & Hq). cbn [mbind option_bind]. destruct zs as [|y zs].
    + cbn. rewrite decide_True by done. by exists s'.
    + rewrite Hq by done. by apply IH.
Qed.
End iteration.

(** ** Lists as an abstract data type *)

Inductive flist_op := Add (e : nat) | Add_tail (e : nat) | Del (e : nat) | Del_init (e : nat).

Definition run_op (h : nat) (op : flist_op) (m : fmem) : option fmem :=
  match op with
  | Add e => flist_add (Some e) (Some h) m
  | Add_tail e => flist_add_tail (Some e) (Some h) m
  | Del e => flist_del (Some e) m
  | Del_init e => flist_del_init (Some e) m
  end.
Definition spec_op (op : flist_op) (xs : list nat) : list nat :=
  match op with
  | Add e => e :: xs
  | Add_tail e => xs ++ [e]
  | Del e | Del_init e => filter (fun x => x <> e) xs
  end.
(** What the caller has to see to. *)
Definition op_allowed (m : fmem) (h : nat) (op : flist_op) (xs : list nat) : Prop :=
  match op with
  | Add e | Add_tail e => e ∉ h :: xs /\ is_Some (m !! e)
  | Del e | Del_init e => e ∈ xs
  end.

Fixpoint run_ops (h : nat) (ops : list flist_op) (m : fmem) : option fmem :=
  match ops with [] => Some m | op :: ops => m ← run_op h op m; run_ops h ops m end.
Fixpoint ops_allowed (m : fmem) (h : nat) (ops : list flist_op) (xs : list nat) : Prop :=
  match ops with [] => True | op :: ops => op_allowed m h op xs /\ ops_allowed m h ops (spec_op op xs) end.

(** The nodes a list has and will have. *)
Fixpoint footprint (ops : list flist_op) : list nat :=
  match ops with
  | [] => []
  | (Add e | Add_tail e | Del e | Del_init e) :: ops => e :: footprint ops
  end.

Lemma filter_out (ys zs : list nat) e : NoDup (ys ++ e :: zs) -> filter (fun x => x <> e) (ys ++ e :: zs) = ys ++ zs.
Proof.
  intros Hnd. rewrite <- Permutation_middle in Hnd. apply NoDup_cons in Hnd as [He _].
  rewrite filter_app, filter_cons_False by tauto.
  assert (Hid : forall l : list nat, e ∉ l -> filter (fun x => x <> e) l = l).
  { induction l as [|a l IH]; [done|]. intros Ha. rewrite filter_cons_True by set_solver. rewrite IH; [done|set_solver]. }
  rewrite !Hid; [done|set_solver..].
Qed.

Lemma run_op_ok m h op xs : Flist m h xs -> op_allowed m h op xs ->
  exists m', run_op h op m = Some m' /\ Flist m' h (spec_op op xs) /\ frame (footprint [op] ++ h :: xs) m m' /\
    forall x, is_Some (m' !! x) <-> is_Some (m !! x).
Proof.
  intros Hf Ha.
  assert (Hdel : forall e r, e ∈ xs -> (forall ys zs, xs = ys ++ e :: zs -> leaves m (h :: xs) h (ys ++ zs) r) ->
    leaves m (e :: h :: xs) h (filter (fun x => x <> e) xs) r).
  { intros e r He Hr. apply list_elem_of_split in He as (ys & zs & E). destruct (Hr ys zs E) as (m' & -> & H1 & H2 & H3).
    exists m'. split_and!; [done| |intros a Ha'; apply H2; set_solver|done].
    rewrite E, filter_out; [done|]. rewrite <- E. by destruct Hf as [[_ Hnd]%NoDup_cons _]. }
  destruct op as [e|e|e|e]; cbn in *.
  - destruct Ha as [H1 H2]. by apply flist_add_ok.
  - destruct Ha as [H1 H2]. by apply flist_add_tail_ok.
  - apply (Hdel e); [done|]. intros ys zs ->. by apply flist_del_ok.
  - apply (Hdel e); [done|]. intros ys zs ->. by apply flist_del_init_ok.
Qed.

(** [C9] The pointer operations implement lists: from the list [xs], any sequence of
    additions of new nodes at either end and removals of nodes that are there
    runs without an access through a wrong pointer and ends with the list the
    same sequence gives on plain lists; nodes outside it, so also every other
    list, are left alone. *)
Theorem flist_refines m h ops xs : Flist m h xs -> ops_allowed m h ops xs ->
  exists m', run_ops h ops m = Some m' /\ Flist m' h (foldl (fun l op => spec_op op l) xs ops) /\
    forall h' ys, Flist m h' ys -> h' :: ys ## footprint ops ++ h :: xs -> Flist m' h' ys.
Proof.
  revert m xs. induction ops as [|op ops IH]; intros m xs Hf Ha; cbn [run_ops foldl]; [by exists m|].
  destruct Ha as [Ha Has]. destruct (run_op_ok m h op xs Hf Ha) as (m1 & -> & Hf1 & Hfr & Hdom). cbn [mbind option_bind].
  assert (Has' : ops_allowed m1 h ops (spec_op op xs)).
  { revert Has. generalize (spec_op op xs). clear -Hdom. induction ops as [|op ops IH]; [done|].
    intros l [H1 H2]. split; [|by apply IH]. destruct op; cbn in *; try done; by rewrite Hdom. }
  destruct (IH m1 (spec_op op xs) Hf1 Has') as (m' & -> & Hf' & Hother). exists m'. split_and!; [done|done|].
  intros h' ys Hl Hd. assert (Hsub : forall x, x ∈ spec_op op xs -> x ∈ footprint [op] ++ xs).
  { intros x. destruct op; cbn; rewrite ?elem_of_app, ?list_elem_of_filter; set_solver. }
  apply Hother.
  - eapply Flist_frame; [exact Hfr| |done]. destruct op; cbn in *; set_solver.
  - destruct op; cbn in *; set_solver.
Qed.

(** A list of one node, another list next to it. *)
Definition memory_ex : fmem :=
  list_to_map ((fun a => (a, mk_flist_head (Some a) (Some a))) <$> [1; 2; 3; 4; 5]%nat).

Lemma flist_refines_witness :
  exists m', run_ops 1 [Add 2; Add_tail 3; Add 4; Del 2]%nat memory_ex = Some m' /\ Flist m' 1 [4; 3]%nat /\
    forall h' ys, Flist memory_ex h' ys -> h' :: ys ## [2; 3; 4; 2; 1]%nat -> Flist m' h' ys.
Proof.
  apply (flist_refines memory_ex 1 [Add 2; Add_tail 3; Add 4; Del 2]%nat []).
  - split; [apply NoDup_singleton|]. cbn. split_and!; by eexists.
  - cbn. split_and!; try (by eexists); try set_solver.
Defined.
