(* ===== verification/Daemon.v ===== *)
(** * The daemon's data: [src/include/nfsclientd.h], [src/src/nfsclientd.c]

    The requests the FUSE library hands to the daemon, its options and the set-up
    of its context.  Objects of the FUSE library ([fuse_req_t],
    [struct fuse_file_info], [struct stat]) are only passed on: they are numbers
    here, as are the inode and mode words. *)

From S2P Require Import Prelude Flist.

Definition DEFAULT_CTXPOOL_SIZE : Z := 1.
Definition MAX_CTXPOOL_SIZE : Z := 20.
Definition DEFAULT_THREADPOOL_SIZE : Z := 1.
Definition MAX_THREADPOOL_SIZE : Z := 20.
Definition DEFAULT_EXIT_STATUS : Z := -1.

(** ** Requests *)

Record nfscd_fuse_lookup_args := mk_nfscd_fuse_lookup_args {
  lookup_parent : Z;
  lookup_name : ptr (list Z)
}.
Record nfscd_fuse_forget_args := mk_nfscd_fuse_forget_args {
  forget_ino : Z;
  forget_nlookup : Z
}.
Record nfscd_fuse_getattr_args := mk_nfscd_fuse_getattr_args {
  getattr_ino : Z;
  getattr_fi : Z
}.
Record nfscd_fuse_setattr_args := mk_nfscd_fuse_setattr_args {
  setattr_ino : Z;
  setattr_attr : Z;
  setattr_to_set : Z;
  setattr_fi : Z
}.
Record nfscd_fuse_readlink_args := mk_nfscd_fuse_readlink_args {
  readlink_ino : Z
}.
Record nfscd_fuse_mknod_args := mk_nfscd_fuse_mknod_args {
  mknod_parent : Z;
  mknod_name : ptr (list Z);
  mknod_mode : Z;
  mknod_rdev : Z
}.
Record nfscd_fuse_mkdir_args := mk_nfscd_fuse_mkdir_args {
  mkdir_parent : Z;
  mkdir_name : ptr (list Z);
  mkdir_mode : Z
}.
Record nfscd_fuse_unlink_args := mk_nfscd_fuse_unlink_args {
  unlink_parent : Z;
  unlink_name : ptr (list Z)
}.
Record nfscd_fuse_rmdir_args := mk_nfscd_fuse_rmdir_args {
  rmdir_parent : Z;
  rmdir_name : ptr (list Z)
}.
Record nfscd_fuse_symlink_args := mk_nfscd_fuse_symlink_args {
  symlink_link : ptr (list Z);
  symlink_parent : Z;
  symlink_name : ptr (list Z)
}.
Record nfscd_fuse_rename_args := mk_nfscd_fuse_rename_args {
  rename_parent : Z;
  rename_name : ptr (list Z);
  rename_newparent : Z;
  rename_newname : ptr (list Z)
}.
Record nfscd_fuse_link_args := mk_nfscd_fuse_link_args {
  link_ino : Z;
  link_newparent : Z;
  link_newname : ptr (list Z)
}.
Record nfscd_fuse_open_args := mk_nfscd_fuse_open_args {
  open_ino : Z;
  open_fi : Z
}.
Record nfscd_fuse_read_args := mk_nfscd_fuse_read_args {
  read_ino : Z;
  read_size : Z;
  read_off : Z;
  read_fi : Z
}.
Record nfscd_fuse_write_args := mk_nfscd_fuse_write_args {
  write_ino : Z;
  write_buf : ptr (list Z);
  write_size : Z;
  write_off : Z;
  write_fi : Z
}.
Record nfscd_fuse_flush_args := mk_nfscd_fuse_flush_args {
  flush_ino : Z;
  flush_fi : Z
}.
Record nfscd_fuse_release_args := mk_nfscd_fuse_release_args {
  release_ino : Z;
  release_fi : Z
}.
Record nfscd_fuse_fsync_args := mk_nfscd_fuse_fsync_args {
  fsync_ino : Z;
  fsync_datasync : Z;
  fsync_fi : Z
}.
Record nfscd_fuse_opendir_args := mk_nfscd_fuse_opendir_args {
  opendir_ino : Z;
  opendir_fi : Z
}.
Record nfscd_fuse_readdir_args := mk_nfscd_fuse_readdir_args {
  readdir_ino : Z;
  readdir_size : Z;
  readdir_off : Z;
  readdir_fi : Z
}.
Record nfscd_fuse_releasedir_args := mk_nfscd_fuse_releasedir_args {
  releasedir_ino : Z;
  releasedir_fi : Z
}.
Record nfscd_fuse_fsyncdir_args := mk_nfscd_fuse_fsyncdir_args {
  fsyncdir_ino : Z;
  fsyncdir_datasync : Z;
  fsyncdir_fi : Z
}.
Record nfscd_fuse_statfs_args := mk_nfscd_fuse_statfs_args {
  statfs_ino : Z
}.
Record nfscd_fuse_access_args := mk_nfscd_fuse_access_args {
  access_ino : Z;
  access_mask : Z
}.
Record nfscd_fuse_create_args := mk_nfscd_fuse_create_args {
  create_parent : Z;
  create_name : ptr (list Z);
  create_mode : Z;
  create_fi : Z
}.

Definition nflookup_args := nfscd_fuse_lookup_args.
Definition nfforget_args := nfscd_fuse_forget_args.
Definition nfgetattr_args := nfscd_fuse_getattr_args.
Definition nfsetattr_args := nfscd_fuse_setattr_args.
Definition nfreadlink_args := nfscd_fuse_readlink_args.
Definition nfmknod_args := nfscd_fuse_mknod_args.
(** Of [mknod], not of [mkdir], as the source has it. *)
Definition nfmkdir_args := nfscd_fuse_mknod_args.
Definition nfunlink_args := nfscd_fuse_unlink_args.
Definition nfrmdir_args := nfscd_fuse_rmdir_args.
Definition nfsymlink_args := nfscd_fuse_symlink_args.
Definition nfrename_args := nfscd_fuse_rename_args.
Definition nflink_args := nfscd_fuse_link_args.
Definition nfopen_args := nfscd_fuse_open_args.
Definition nfread_args := nfscd_fuse_read_args.
Definition nfwrite_args := nfscd_fuse_write_args.
Definition nfflush_args := nfscd_fuse_flush_args.
Definition nfrelease_args := nfscd_fuse_release_args.
Definition nffsync_args := nfscd_fuse_fsync_args.
Definition nfopendir_args := nfscd_fuse_opendir_args.
Definition nfreaddir_args := nfscd_fuse_readdir_args.
Definition nfreleasedir_args := nfscd_fuse_releasedir_args.
Definition nffsyncdir_args := nfscd_fuse_fsyncdir_args.
Definition nfstatfs_args := nfscd_fuse_statfs_args.
Definition nfaccess_args := nfscd_fuse_access_args.
Definition nfcreate_args := nfscd_fuse_create_args.

(** [enum fuse_opcode]. *)
Definition fuse_opcode := Z.
Definition FUSE_LOOKUP : fuse_opcode := 1.
Definition FUSE_FORGET : fuse_opcode := 2.
Definition FUSE_GETATTR : fuse_opcode := 3.
Definition FUSE_SETATTR : fuse_opcode := 4.
Definition FUSE_READLINK : fuse_opcode := 5.
Definition FUSE_SYMLINK : fuse_opcode := 6.
Definition FUSE_MKNOD : fuse_opcode := 8.
Definition FUSE_MKDIR : fuse_opcode := 9.
Definition FUSE_UNLINK : fuse_opcode := 10.
Definition FUSE_RMDIR : fuse_opcode := 11.
Definition FUSE_RENAME : fuse_opcode := 12.
Definition FUSE_LINK : fuse_opcode := 13.
Definition FUSE_OPEN : fuse_opcode := 14.
Definition FUSE_READ : fuse_opcode := 15.
Definition FUSE_WRITE : fuse_opcode := 16.
Definition FUSE_STATFS : fuse_opcode := 17.
Definition FUSE_RELEASE : fuse_opcode := 18.
Definition FUSE_FSYNC : fuse_opcode := 20.
Definition FUSE_SETXATTR : fuse_opcode := 21.
Definition FUSE_GETXATTR : fuse_opcode := 22.
Definition FUSE_LISTXATTR : fuse_opcode := 23.
Definition FUSE_REMOVEXATTR : fuse_opcode := 24.
Definition FUSE_FLUSH : fuse_opcode := 25.
Definition FUSE_INIT : fuse_opcode := 26.
Definition FUSE_OPENDIR : fuse_opcode := 27.
Definition FUSE_READDIR : fuse_opcode := 28.
Definition FUSE_RELEASEDIR : fuse_opcode := 29.
Definition FUSE_FSYNCDIR : fuse_opcode := 30.
Definition FUSE_GETLK : fuse_opcode := 31.
Definition FUSE_SETLK : fuse_opcode := 32.
Definition FUSE_SETLKW : fuse_opcode := 33.
Definition FUSE_ACCESS : fuse_opcode := 34.
Definition FUSE_CREATE : fuse_opcode := 35.
Definition FUSE_INTERRUPT : fuse_opcode := 36.
Definition FUSE_BMAP : fuse_opcode := 37.
Definition FUSE_DESTROY : fuse_opcode := 38.

(** The union [args_u]: the member that was stored last. *)
Inductive nfscd_args :=
  | lookupargs (a : nflookup_args)
  | forgetargs (a : nfforget_args)
  | getattrargs (a : nfgetattr_args)
  | setattrargs (a : nfsetattr_args)
  | readlinkargs (a : nfreadlink_args)
  | mknodargs (a : nfmknod_args)
  | mkdirargs (a : nfmkdir_args)
  | unlinkargs (a : nfunlink_args)
  | rmdirargs (a : nfrmdir_args)
  | symlinkargs (a : nfsymlink_args)
  | renameargs (a : nfrename_args)
  | openargs (a : nfopen_args)
  | readargs (a : nfread_args)
  | writeargs (a : nfwrite_args)
  | flushargs (a : nfflush_args)
  | releaseargs (a : nfrelease_args)
  | opendirargs (a : nfopendir_args)
  | readdirargs (a : nfreaddir_args)
  | releasedirargs (a : nfreleasedir_args)
  | fsyncdirargs (a : nffsyncdir_args)
  | statfsargs (a : nfstatfs_args)
  | accessargs (a : nfaccess_args)
  | createargs (a : nfcreate_args).

(** [list], the node by which a request is queued, is in the memory of [Flist]
    at the request's address. *)
Record nfscd_request := mk_nfscd_request {
  fuserq : Z;
  request : fuse_opcode;
  actordata : option nat;
  args_u : nfscd_args
}.

(** ** Options *)

(** [srvaddr] points to a socket address, of which the port is what the code
    looks at; it may be NULL. *)
Record nfsclientd_opts := mk_nfsclientd_opts {
  server : ptr (list Z);
  remotedir : ptr (list Z);
  mountpoint : ptr (list Z);
  srvaddr : option Z;
  ctxpoolsize : Z;
  threadpool : Z
}.

(** [strdup]: NULL when there is no memory; a pointer to no string is undefined
    behaviour. *)
Definition strdup (s : ptr (list Z)) (h : heap) : option (ptr (list Z) * heap) :=
  match s with
  | PTo bs => let (ok, h) := mem_alloc h in Some (if ok then PTo bs else PNull, h)
  | _ => None
  end.

(** The options of the context that is made, if any; the outer [None] is a failed
    assertion or undefined behaviour. *)
Definition init_nfsclientd_context (opts : nfsclientd_opts) (h : heap) : option (option nfsclientd_opts * heap) :=
  let (ok, h) := mem_alloc h in
  if negb ok then None
  else
    '(srv, h) ← strdup (server opts) h;
    '(dir, h) ← strdup (remotedir opts) h;
    '(mnt, h) ← strdup (mountpoint opts) h;
    let o := mk_nfsclientd_opts srv dir mnt (srvaddr opts) (ctxpoolsize opts) (threadpool opts) in
    if (ctxpoolsize opts <=? 0) || (ctxpoolsize opts >? MAX_CTXPOOL_SIZE) then Some (None, h)
    else if (threadpool opts <=? 0) || (threadpool opts >? MAX_THREADPOOL_SIZE) then Some (None, h)
    else Some (Some o, h).

(** A pool size out of bounds is refused, and what was allocated is lost. *)
Lemma init_nfsclientd_context_ok opts s d m h : mem_ample h ->
  server opts = PTo s -> remotedir opts = PTo d -> mountpoint opts = PTo m ->
  exists r h', init_nfsclientd_context opts h = Some (r, h') /\ h_live h' = (h_live h + 4)%nat /\
    r = (if decide (1 <= ctxpoolsize opts <= MAX_CTXPOOL_SIZE /\ 1 <= threadpool opts <= MAX_THREADPOOL_SIZE)
         then Some opts else None).
Proof.
  intros Ha Hs Hd Hm. unfold init_nfsclientd_context, strdup, mem_alloc. rewrite Hs, Hd, Hm, Ha. cbn [negb h_requests h_ok h_live].
  rewrite Ha. cbn [mbind option_bind negb h_requests h_ok h_live]. rewrite Ha. cbn [mbind option_bind negb h_requests h_ok h_live].
  rewrite Ha. cbn [mbind option_bind]. destruct opts as [? ? ? a c t]. cbn in *. subst.
  repeat case_match; try case_decide; (eexists _, _; split; [done|split; [cbn; lia|]]); rewrite ?decide_True by done;
    unfold MAX_CTXPOOL_SIZE, MAX_THREADPOOL_SIZE in *; try done; lia.
Qed.
