(* ===== verification/Requests.v ===== *)
(** * The request queues: [src/src/nfscd_ops.c]

    The threads of the FUSE library queue requests; the threads of the protocol
    actors take them out.  Each of the two queues, of metadata and of data
    requests, is a linked list under a mutex with a semaphore that counts its
    requests.  A function here is the list of the statements it executes, and
    the threads' statements interleave in any order. *)

From S2P Require Import Prelude Flist Daemon.

(** ** Threads *)

Inductive which := MD | RW.
#[export] Instance which_eq_dec : EqDecision which.
Proof. solve_decision. Defined.

(** Statements, one at a time; those that only touch the thread's own variables
    go with the one before. *)
Inductive op :=
  | Init (rq : nat)             (* INIT_FLIST_HEAD(&rq->list) *)
  | Lock (k : which)            (* pthread_mutex_lock(&ctx->k_lock) *)
  | Add_tail (k : which) (rq : nat) (* flist_add_tail(&rq->list, &ctx->k_rq) *)
  | Post (k : which)            (* sem_post(&ctx->k_notify) *)
  | Unlock (k : which)          (* pthread_mutex_unlock(&ctx->k_lock) *)
  | Wait (k : which)            (* sem_wait(&ctx->k_notify) *)
  | First (k : which)           (* elem = flist_first(&ctx->k_rq) *)
  | Del (k : which).            (* flist_del(elem) *)

Definition nfscd_enqueue_metadata_request (rq : nat) : list op :=
  [Init rq; Lock MD; Add_tail MD rq; Post MD; Unlock MD].
Definition nfscd_enqueue_data_request (rq : nat) : list op :=
  [Init rq; Lock RW; Add_tail RW rq; Post RW; Unlock RW].
Definition nfscd_dequeue_metadata_request : list op :=
  [Wait MD; Lock MD; First MD; Del MD; Unlock MD].
Definition nfscd_dequeue_data_request : list op :=
  [Wait RW; Lock RW; First RW; Del RW; Unlock RW].

(** What a thread has yet to do, and its variable [elem], which is also the
    result of a dequeue. *)
Record thread := mk_thread {
  th_elem : option nat;
  th_code : list op
}.

(** ** The queues *)

(** [q_notify], [q_lock] and [q_rq] are the semaphore, the owner of the mutex and
    the head of the list; [q_added] and [q_taken] record the requests that have
    been queued and taken out so far. *)
Record queue := mk_queue {
  q_notify : nat;
  q_lock : option nat;
  q_rq : nat;
  q_added : list nat;
  q_taken : list nat
}.

Record state := mk_state {
  st_md : queue;
  st_rw : queue;
  st_mem : fmem;
  st_requests : gmap nat nfscd_request;
  st_threads : list thread
}.

Definition q_of (k : which) (s : state) : queue :=
  match k with MD => st_md s | RW => st_rw s end.
Definition set_q (k : which) (q : queue) (s : state) : state :=
  match k with
  | MD => mk_state q (st_rw s) (st_mem s) (st_requests s) (st_threads s)
  | RW => mk_state (st_md s) q (st_mem s) (st_requests s) (st_threads s)
  end.
Definition set_mem (m : fmem) (s : state) : state :=
  mk_state (st_md s) (st_rw s) m (st_requests s) (st_threads s).
Definition set_thread (t : nat) (th : thread) (s : state) : state :=
  mk_state (st_md s) (st_rw s) (st_mem s) (st_requests s) (<[t := th]> (st_threads s)).

Definition set_notify (n : nat) (q : queue) : queue := mk_queue n (q_lock q) (q_rq q) (q_added q) (q_taken q).
Definition set_lock (o : option nat) (q : queue) : queue := mk_queue (q_notify q) o (q_rq q) (q_added q) (q_taken q).
Definition set_added (l : list nat) (q : queue) : queue := mk_queue (q_notify q) (q_lock q) (q_rq q) l (q_taken q).
Definition set_taken (l : list nat) (q : queue) : queue := mk_queue (q_notify q) (q_lock q) (q_rq q) (q_added q) l.

(** The two heads are part of the context. *)
Definition init_nfsclient_queues (md_rq rw_rq : nat) (m : fmem) (threads : nat) : option state :=
  m ← INIT_FLIST_HEAD (Some md_rq) m;
  m ← INIT_FLIST_HEAD (Some rw_rq) m;
  Some (mk_state (mk_queue 0 None md_rq [] []) (mk_queue 0 None rw_rq [] []) m ∅
          (replicate threads (mk_thread None []))).

(** ** Execution *)

Inductive result :=
  | Goes (s : state)    (* the statement was executed *)
  | Blocked             (* it has to wait *)
  | Faults.             (* undefined behaviour *)

(** One statement of thread [t].  When [interrupted], a signal handler makes
    [sem_wait] return early; its result is not looked at. *)
Definition exec_op (t : nat) (interrupted : bool) (th : thread) (o : op) (code : list op) (s : state) : result :=
  let next s := Goes (set_thread t (mk_thread (th_elem th) code) s) in
  match o with
  | Init rq =>
      match INIT_FLIST_HEAD (Some rq) (st_mem s) with
      | Some m => next (set_mem m s)
      | None => Faults
      end
  | Lock k =>
      match q_lock (q_of k s) with
      | None => next (set_q k (set_lock (Some t) (q_of k s)) s)
      | Some _ => Blocked
      end
  | Add_tail k rq =>
      match flist_add_tail (Some rq) (Some (q_rq (q_of k s))) (st_mem s) with
      | Some m => next (set_mem m (set_q k (set_added (q_added (q_of k s) ++ [rq]) (q_of k s)) s))
      | None => Faults
      end
  | Post k => next (set_q k (set_notify (S (q_notify (q_of k s))) (q_of k s)) s)
  | Unlock k => next (set_q k (set_lock None (q_of k s)) s)
  | Wait k =>
      match q_notify (q_of k s) with
      | S n => next (set_q k (set_notify n (q_of k s)) s)
      | O => if interrupted then next s else Blocked
      end
  | First k =>
      match flist_first (Some (q_rq (q_of k s))) (st_mem s) with
      | Some elem => Goes (set_thread t (mk_thread elem code) s)
      | None => Faults
      end
  | Del k =>
      match flist_del (th_elem th) (st_mem s), th_elem th with
      | Some m, Some elem => next (set_mem m (set_q k (set_taken (q_taken (q_of k s) ++ [elem]) (q_of k s)) s))
      | _, _ => Faults
      end
  end.

(** The next statement of a thread; a thread that is done waits to be called. *)
Definition exec (t : nat) (interrupted : bool) (s : state) : result :=
  match st_threads s !! t with
  | Some th =>
      match th_code th with
      | o :: code => exec_op t interrupted th o code s
      | [] => Blocked
      end
  | None => Blocked
  end.

(** A thread that is done calls a function of which the rest of this file is
    about. *)
Definition call (t : nat) (code : list op) (s : state) : option state :=
  match st_threads s !! t with
  | Some (mk_thread elem []) => Some (set_thread t (mk_thread elem code) s)
  | _ => None
  end.

(** The block [rq] that [malloc] returns, with a node in it that has not been
    initialised, becomes the request [r]. *)
Definition new_request (rq : nat) (r : nfscd_request) (node : flist_head) (s : state) : option state :=
  match st_mem s !! rq with
  | Some _ => None
  | None => Some (mk_state (st_md s) (st_rw s) (<[rq := node]> (st_mem s)) (<[rq := r]> (st_requests s)) (st_threads s))
  end.

(** FUSE asks for a lookup, in thread [t]; [name] is what [strdup] makes of it. *)
Definition nfscd_lookup (t : nat) (req parent : Z) (name : ptr (list Z)) (rq : nat) (node : flist_head) (s : state)
    : option state :=
  s ← new_request rq (mk_nfscd_request req FUSE_LOOKUP None (lookupargs (mk_nfscd_fuse_lookup_args parent name))) node s;
  call t (nfscd_enqueue_metadata_request rq) s.

Inductive step : state -> state -> Prop :=
  | step_exec t s s' : exec t false s = Goes s' -> step s s'
  | step_lookup t req parent name rq node s s' :
      nfscd_lookup t req parent name rq node s = Some s' -> step s s'
  | step_enqueue_data t r rq node s s' :
      (s ← new_request rq r node s; call t (nfscd_enqueue_data_request rq) s) = Some s' -> step s s'
  | step_dequeue_metadata t s s' : call t nfscd_dequeue_metadata_request s = Some s' -> step s s'
  | step_dequeue_data t s s' : call t nfscd_dequeue_data_request s = Some s' -> step s s'.

(** A schedule: the threads whose statements are executed, one after the other. *)
Fixpoint run (schedule : list (nat * bool)) (s : state) : result :=
  match schedule with
  | [] => Goes s
  | (t, i) :: schedule =>
      match exec t i s with Goes s => run schedule s | r => r end
  end.
