(* ===== verification/RequestsCorrect.v ===== *)
(** * The request queues are queues

    Whatever the interleaving of the threads: the mutexes exclude, the semaphores
    count, no thread follows a wrong pointer, requests are taken out in the order
    they were queued, each once, and no request is left lying while a thread
    waits for one.  All of this needs [sem_wait] to wait: when a signal
    interrupts it, the queue is destroyed. *)

From S2P Require Import Prelude Flist FlistCorrect Daemon Requests.

(** ** Where a thread stands *)

Definition enqueue (k : which) (rq : nat) : list op := [Init rq; Lock k; Add_tail k rq; Post k; Unlock k].
Definition dequeue (k : which) : list op := [Wait k; Lock k; First k; Del k; Unlock k].

(** The rest of one of the functions. *)
Inductive ok_code : list op -> Prop :=
  | ok_done : ok_code []
  | ok_enq k rq i : ok_code (drop i (enqueue k rq))
  | ok_deq k i : ok_code (drop i (dequeue k)).

(** It has the mutex; it is promised a request; it has queued a request but not
    announced it; it is about to queue a request. *)
Definition holds (k : which) (code : list op) : bool :=
  match code with
  | (Add_tail k' _ | Post k' | Unlock k' | First k' | Del k') :: _ => bool_decide (k = k')
  | _ => false
  end.
Definition credit (k : which) (code : list op) : nat :=
  match code with
  | Lock k' :: First _ :: _ | First k' :: _ | Del k' :: _ => if decide (k = k') then 1 else 0
  | _ => 0
  end.
Definition unposted (k : which) (code : list op) : nat :=
  match code with Post k' :: _ => if decide (k = k') then 1 else 0 | _ => 0 end.
Definition inflight (code : list op) : list nat :=
  match code with Init rq :: _ | Lock _ :: Add_tail _ rq :: _ | Add_tail _ rq :: _ => [rq] | _ => [] end.

Definition total (f : list op -> nat) (l : list thread) : nat := sum_list (f ∘ th_code <$> l).
Definition flying (l : list thread) : list nat := l ≫= inflight ∘ th_code.
Arguments total : simpl never.
Arguments flying : simpl never.

(** Every node of the program, each in one place. *)
Definition owned (s : state) : list nat :=
  q_rq (st_md s) :: q_rq (st_rw s) :: q_added (st_md s) ++ q_added (st_rw s) ++ flying (st_threads s).

Section invariant.
Implicit Types (s : state) (k : which) (c : which -> list nat) (t : nat) (th : thread).

(** [c k]: what is in queue [k]. *)
Record Inv_at s c : Prop := {
  inv_code : Forall (ok_code ∘ th_code) (st_threads s);
  inv_lock : forall k t, q_lock (q_of k s) = Some t <->
    exists th, st_threads s !! t = Some th /\ holds k (th_code th) = true;
  inv_list : forall k, Flist (st_mem s) (q_rq (q_of k s)) (c k);
  inv_fifo : forall k, q_added (q_of k s) = q_taken (q_of k s) ++ c k;
  inv_count : forall k, (q_notify (q_of k s) + total (credit k) (st_threads s) + total (unposted k) (st_threads s) =
    length (c k))%nat;
  inv_owned : NoDup (owned s);
  inv_nodes : forall a, a ∈ owned s -> is_Some (st_mem s !! a);
  inv_elem : forall th k code, th ∈ st_threads s -> th_code th = Del k :: code ->
    exists x, th_elem th = Some x /\ head (c k) = Some x
}.

Definition Inv s : Prop := exists c, Inv_at s c.

Definition content k s : list nat := drop (length (q_taken (q_of k s))) (q_added (q_of k s)).

Lemma Inv_content s c k : Inv_at s c -> content k s = c k.
Proof. intros HI. unfold content. rewrite (inv_fifo _ _ HI k). by apply drop_app_length. Qed.

Lemma q_of_set_q k k' q s : q_of k' (set_q k q s) = if decide (k' = k) then q else q_of k' s.
Proof. by destruct k, k'. Qed.
Lemma q_of_set_mem k m s : q_of k (set_mem m s) = q_of k s.
Proof. by destruct k. Qed.
Lemma q_of_set_thread k t th s : q_of k (set_thread t th s) = q_of k s.
Proof. by destruct k. Qed.

Lemma total_cons f l1 th l2 : total f (l1 ++ th :: l2) = (total f l1 + (f (th_code th) + total f l2))%nat.
Proof. unfold total. rewrite fmap_app, fmap_cons. induction (f ∘ th_code <$> l1); cbn in *; lia. Qed.
Lemma flying_cons l1 th l2 : flying (l1 ++ th :: l2) = flying l1 ++ inflight (th_code th) ++ flying l2.
Proof. unfold flying. by rewrite bind_app. Qed.

(** The state after a statement. *)
Definition after t th k q m s : state := set_thread t th (set_mem m (set_q k q s)).

Lemma q_of_after k' t th k q m s : q_of k' (after t th k q m s) = if decide (k' = k) then q else q_of k' s.
Proof. unfold after. by rewrite q_of_set_thread, q_of_set_mem, q_of_set_q. Qed.
Lemma mem_after t th k q m s : st_mem (after t th k q m s) = m.
Proof. by destruct k. Qed.
Lemma threads_after t th k q m s : st_threads (after t th k q m s) = <[t := th]> (st_threads s).
Proof. by destruct k. Qed.
Lemma set_q_same k s : set_q k (q_of k s) s = s.
Proof. by destruct k, s. Qed.
Lemma set_mem_same s : set_mem (st_mem s) s = s.
Proof. by destruct s. Qed.

Lemma owned_after t th' k q m s l1 th l2 :
  st_threads s = l1 ++ th :: l2 -> t = length l1 -> q_rq q = q_rq (q_of k s) ->
  q_added q ++ inflight (th_code th') ≡ₚ q_added (q_of k s) ++ inflight (th_code th) ->
  owned (after t th' k q m s) ≡ₚ owned s.
Proof.
  intros El -> Hq Hp. unfold owned. rewrite threads_after, El, insert_app_r_alt, Nat.sub_diag by done. cbn [insert list_insert].
  rewrite !flying_cons. change (q_rq (st_md ?x)) with (q_rq (q_of MD x)). change (q_rq (st_rw ?x)) with (q_rq (q_of RW x)).
  change (q_added (st_md ?x)) with (q_added (q_of MD x)). change (q_added (st_rw ?x)) with (q_added (q_of RW x)).
  rewrite !q_of_after.
  assert (HP : forall A B C D E : list nat, A ++ B ≡ₚ C ++ D -> forall X, A ++ X ++ B ++ E ≡ₚ C ++ X ++ D ++ E).
  { intros A B C D E H X. rewrite (app_assoc A), (Permutation_app_comm A X), <- app_assoc, (app_assoc A), H.
    rewrite (app_assoc C), (Permutation_app_comm C X), <- !app_assoc. done. }
  destruct k; repeat (case_decide; [|try done]); try done; rewrite Hq; cbn [q_of] in Hp |- *; do 2 f_equiv.
  - rewrite !(app_assoc (q_added (st_rw s))). by apply HP.
  - f_equiv. by apply HP.
Qed.

Lemma inv_update s c t l1 th l2 k th' q m xs :
  Inv_at s c -> st_threads s = l1 ++ th :: l2 -> t = length l1 ->
  ok_code (th_code th') ->
  (forall k', k' <> k -> holds k' (th_code th') = holds k' (th_code th) /\
    credit k' (th_code th') = credit k' (th_code th) /\ unposted k' (th_code th') = unposted k' (th_code th)) ->
  q_rq q = q_rq (q_of k s) ->
  q_lock q = (if holds k (th_code th') then Some t else if holds k (th_code th) then None else q_lock (q_of k s)) ->
  (holds k (th_code th') = true -> holds k (th_code th) = false -> q_lock (q_of k s) = None) ->
  Flist m (q_rq q) xs -> (forall k', k' <> k -> Flist m (q_rq (q_of k' s)) (c k')) ->
  q_added q = q_taken q ++ xs ->
  (q_notify q + credit k (th_code th') + unposted k (th_code th') + length (c k) =
    q_notify (q_of k s) + credit k (th_code th) + unposted k (th_code th) + length xs)%nat ->
  q_added q ++ inflight (th_code th') ≡ₚ q_added (q_of k s) ++ inflight (th_code th) ->
  (forall a, is_Some (st_mem s !! a) -> is_Some (m !! a)) ->
  (forall k' code, th_code th' = Del k' :: code -> k' = k /\ exists x, th_elem th' = Some x /\ head xs = Some x) ->
  (holds k (th_code th) = true \/ forall x, head (c k) = Some x -> head xs = Some x) ->
  Inv_at (after t th' k q m s) (fun k' => if decide (k' = k) then xs else c k').
Proof.
  intros [Hcode Hlock Hlist Hfifo Hcount Hown Hnodes Helem] El Et Hok Hother Hrq Hl Hl' Hx Hlo Hf Hn Hp Hm He Hh.
  assert (Et' : st_threads (after t th' k q m s) = l1 ++ th' :: l2).
  { rewrite threads_after, El, insert_app_r_alt, Et, Nat.sub_diag by lia. done. }
  assert (Hth : st_threads s !! t = Some th) by (by rewrite El, Et, list_lookup_middle).
  pose proof (owned_after t th' k q m s l1 th l2 El Et Hrq Hp) as HO.
  constructor.
  - rewrite Et'. rewrite El in Hcode. apply Forall_app in Hcode as [H1 [_ H2]%Forall_cons]. by rewrite Forall_app, Forall_cons.
  - intros k' t'. rewrite q_of_after, threads_after. pose proof (Hlock k' t') as HL. pose proof (Hlock k' t) as HLt.
    destruct (decide (t' = t)) as [->|Htt].
    + rewrite list_lookup_insert_eq by (by eapply lookup_lt_Some).
      destruct (decide (k' = k)) as [->|Hk].
      * rewrite Hl. destruct (holds k (th_code th')) eqn:E1; [split; [by exists th'|done]|].
        destruct (holds k (th_code th)) eqn:E2; [by split; [|intros (? & [= <-] & ?); congruence]|].
        rewrite HL. split; intros (x & [= Ex] & E); [rewrite Hth in Ex; congruence|subst; congruence].
      * destruct (Hother k' Hk) as [E _]. rewrite HLt, Hth. split; intros (x & [= <-] & Ex); eexists; split; try done; congruence.
    + rewrite list_lookup_insert_ne by done. destruct (decide (k' = k)) as [->|Hk]; [|done]. rewrite Hl, <- HL.
      destruct (holds k (th_code th')) eqn:E1; [|destruct (holds k (th_code th)) eqn:E2; [|done]].
      * split; [congruence|]. intros E. destruct (holds k (th_code th)) eqn:E2.
        -- assert (HE : q_lock (q_of k s) = Some t) by (apply HLt; by exists th). congruence.
        -- rewrite Hl' in E; done.
      * split; [done|]. intros E. assert (HE : q_lock (q_of k s) = Some t) by (apply HLt; by exists th). congruence.
  - intros k'. rewrite q_of_after, mem_after. destruct (decide (k' = k)) as [->|]; [done|by apply Hlo].
  - intros k'. rewrite q_of_after. destruct (decide (k' = k)); [done|apply Hfifo].
  - intros k'. rewrite q_of_after, Et', !total_cons. pose proof (Hcount k') as HC. rewrite El, !total_cons in HC.
    destruct (decide (k' = k)) as [->|Hk]; [lia|]. destruct (Hother k' Hk) as (_ & -> & ->). done.
  - by rewrite HO.
  - intros a. rewrite HO, mem_after. intros Ha. by apply Hm, Hnodes.
  - intros th0 k' code Hin E0. rewrite Et' in Hin.
    assert (Hin' : th0 = th' \/ exists j, j <> t /\ st_threads s !! j = Some th0).
    { apply elem_of_app in Hin as [Hin|[->|Hin]%elem_of_cons]; [right|by left|right].
      - apply list_elem_of_lookup in Hin as [j Hj]. exists j. pose proof (lookup_lt_Some _ _ _ Hj).
        rewrite El. split; [lia|]. by rewrite lookup_app_l.
      - apply list_elem_of_lookup in Hin as [j Hj]. exists (S (length l1) + j)%nat. rewrite El. split; [lia|].
        rewrite lookup_app_r by lia. replace (S (length l1) + j - length l1)%nat with (S j) by lia. done. }
    destruct Hin' as [->|Hin'].
    { destruct (He k' code E0) as [-> Hx']. by rewrite decide_True. }
    destruct Hin' as (j & Hjt & Hj). assert (Hin0 : th0 ∈ st_threads s) by (by eapply list_elem_of_lookup_2).
    destruct (Helem th0 k' code Hin0 E0) as (x & E1 & E2).
    destruct (decide (k' = k)) as [->|]; [|by exists x]. exists x. split; [done|].
    destruct Hh as [Hh|Hh]; [|by apply Hh].
    assert (H1 : q_lock (q_of k s) = Some t) by (apply Hlock; by exists th).
    assert (H2 : q_lock (q_of k s) = Some j).
    { apply Hlock. exists th0. split; [done|]. rewrite E0. cbn. by rewrite bool_decide_true. }
    congruence.
Qed.
End invariant.

(** ** Every statement keeps the invariant *)

Section statements.
Context (s : state) (c : which -> list nat) (t : nat) (th : thread) (HI : Inv_at s c)
  (Hth : st_threads s !! t = Some th).

(** Each node is in one place. *)
Lemma flying_apart rq k : rq ∈ flying (st_threads s) -> rq ∉ q_rq (q_of k s) :: c k.
Proof.
  intros Ho Hk. pose proof (inv_owned _ _ HI) as Hnd. unfold owned in Hnd.
  pose proof (inv_fifo _ _ HI MD) as F1. pose proof (inv_fifo _ _ HI RW) as F2. cbn in F1, F2.
  rewrite !NoDup_cons, !NoDup_app in Hnd. destruct Hnd as (N1 & N2 & _ & N3 & _ & N4 & _).
  destruct k; cbn in Hk; apply elem_of_cons in Hk as [->|Hk]; [set_solver| |set_solver|].
  - apply (N3 rq); [rewrite F1|]; set_solver.
  - apply (N4 rq); [rewrite F2|]; set_solver.
Qed.

Lemma lists_apart k k' : k' <> k -> q_rq (q_of k s) :: c k ## q_rq (q_of k' s) :: c k'.
Proof.
  intros Hk x Hx Hx'. pose proof (inv_owned _ _ HI) as Hnd. unfold owned in Hnd.
  pose proof (inv_fifo _ _ HI MD) as F1. pose proof (inv_fifo _ _ HI RW) as F2. cbn in F1, F2.
  rewrite !NoDup_cons, !NoDup_app in Hnd. destruct Hnd as (N1 & N2 & _ & N3 & _).
  rewrite F1, F2 in *. destruct k, k'; try done; cbn in Hx, Hx';
    apply elem_of_cons in Hx as [->|Hx], Hx' as [Hx'|Hx']; subst; set_solver.
Qed.

(** A statement that goes well. *)
Definition sound (r : result) : Prop :=
  match r with Goes s' => Inv s' | Blocked => True | Faults => False end.

Lemma own_lock k : holds k (th_code th) = true -> q_lock (q_of k s) = Some t.
Proof. intros H. apply (inv_lock _ _ HI). by exists th. Qed.

Lemma others_kept k own m : frame own (st_mem s) m ->
  (forall k', k' <> k -> own ## q_rq (q_of k' s) :: c k') ->
  forall k', k' <> k -> Flist m (q_rq (q_of k' s)) (c k').
Proof. intros Hf Hd k' Hk. eapply Flist_frame; [done|by apply Hd|apply (inv_list _ _ HI)]. Qed.

(** [inv_update] with what does not depend on the statement. *)
Lemma update_ok k th' q m xs :
  ok_code (th_code th') ->
  (forall k', k' <> k -> holds k' (th_code th') = holds k' (th_code th) /\
    credit k' (th_code th') = credit k' (th_code th) /\ unposted k' (th_code th') = unposted k' (th_code th)) ->
  q_rq q = q_rq (q_of k s) ->
  q_lock q = (if holds k (th_code th') then Some t else if holds k (th_code th) then None else q_lock (q_of k s)) ->
  (holds k (th_code th') = true -> holds k (th_code th) = false -> q_lock (q_of k s) = None) ->
  Flist m (q_rq (q_of k s)) xs -> (forall k', k' <> k -> Flist m (q_rq (q_of k' s)) (c k')) ->
  q_added q = q_taken q ++ xs ->
  (q_notify q + credit k (th_code th') + unposted k (th_code th') + length (c k) =
    q_notify (q_of k s) + credit k (th_code th) + unposted k (th_code th) + length xs)%nat ->
  q_added q ++ inflight (th_code th') ≡ₚ q_added (q_of k s) ++ inflight (th_code th) ->
  (forall a, is_Some (st_mem s !! a) -> is_Some (m !! a)) ->
  (forall k' code, th_code th' = Del k' :: code -> k' = k /\ exists x, th_elem th' = Some x /\ head xs = Some x) ->
  (holds k (th_code th) = true \/ forall x, head (c k) = Some x -> head xs = Some x) ->
  Inv (after t th' k q m s).
Proof.
  intros H1 H2 H3 H4 H5 H6 H7 H8 H9 H10 H11 H12 H13.
  apply list_elem_of_split_length in Hth as (l1 & l2 & El & Et).
  eexists. eapply (inv_update s c t l1 th l2 k th' q m xs); try done. by rewrite H3.
Qed.

(** The statements that leave memory and list as they are. *)
Lemma quiet_ok k th' q :
  ok_code (th_code th') ->
  (forall k', k' <> k -> holds k' (th_code th') = holds k' (th_code th) /\
    credit k' (th_code th') = credit k' (th_code th) /\ unposted k' (th_code th') = unposted k' (th_code th)) ->
  q_rq q = q_rq (q_of k s) -> q_added q = q_added (q_of k s) -> q_taken q = q_taken (q_of k s) ->
  q_lock q = (if holds k (th_code th') then Some t else if holds k (th_code th) then None else q_lock (q_of k s)) ->
  (holds k (th_code th') = true -> holds k (th_code th) = false -> q_lock (q_of k s) = None) ->
  (q_notify q + credit k (th_code th') + unposted k (th_code th') =
    q_notify (q_of k s) + credit k (th_code th) + unposted k (th_code th))%nat ->
  inflight (th_code th') = inflight (th_code th) ->
  (forall k' code, th_code th' = Del k' :: code -> k' = k /\ exists x, th_elem th' = Some x /\ head (c k) = Some x) ->
  Inv (set_thread t th' (set_q k q s)).
Proof.
  intros H1 H2 H3 H4 H5 H6 H7 H8 H9 H10.
  replace (set_thread t th' (set_q k q s)) with (after t th' k q (st_mem s) s) by (unfold after; by destruct k).
  apply (update_ok k th' q (st_mem s) (c k)); try done.
  - apply (inv_list _ _ HI).
  - intros k' _. apply (inv_list _ _ HI).
  - rewrite H4, H5. apply (inv_fifo _ _ HI).
  - lia.
  - by rewrite H4, H9.
  - by right.
Qed.

(** Goals about the other queue, and about the code that is left. *)
Ltac elsewhere := intros k' Hk; cbn; rewrite ?bool_decide_false, ?decide_False by done; done.
Ltac here := cbn; rewrite ?bool_decide_true, ?decide_True by done; try done.

Lemma ok_enq_at k rq i l : l = drop i (enqueue k rq) -> ok_code l.
Proof. intros ->. constructor. Qed.
Lemma ok_deq_at k i l : l = drop i (dequeue k) -> ok_code l.
Proof. intros ->. constructor. Qed.

Lemma init_ok k rq : th_code th = enqueue k rq -> sound (exec t false s).
Proof.
  intros E. unfold exec. rewrite Hth, E. cbn [enqueue exec_op].
  assert (Ho : rq ∈ flying (st_threads s)).
  { apply list_elem_of_bind. exists th. split; [by cbn; rewrite E; left|by eapply list_elem_of_lookup_2]. }
  assert (Hin : rq ∈ owned s) by (unfold owned; set_solver).
  destruct (init_flist_head_ok (st_mem s) rq) as (m & -> & _ & Hfr & Hd); [by apply (inv_nodes _ _ HI)|].
  assert (Hl : forall k', Flist m (q_rq (q_of k' s)) (c k')).
  { intros k'. eapply Flist_frame; [done| |apply (inv_list _ _ HI)]. pose proof (flying_apart rq k' Ho). set_solver. }
  cbn [sound]. replace (set_thread _ _ _) with (after t (mk_thread (th_elem th) (drop 1 (enqueue k rq))) k (q_of k s) m s)
    by (unfold after; by rewrite set_q_same).
  apply (update_ok k _ _ m (c k)); rewrite ?E; try (by here).
  all: first [by apply (ok_enq_at k rq 1)|by elsewhere|by apply Hl|by intros k' _; apply Hl|apply (inv_fifo _ _ HI)
             |intros a; by rewrite Hd|by right|idtac].
Qed.

Lemma lock_enq_ok k rq : th_code th = drop 1 (enqueue k rq) -> sound (exec t false s).
Proof.
  intros E. unfold exec. rewrite Hth, E. cbn [enqueue drop exec_op]. destruct (q_lock (q_of k s)) eqn:El; [done|]. cbn [sound].
  apply (quiet_ok k); rewrite ?E, ?El; try (by here).
  all: first [by apply (ok_enq_at k rq 2)|by elsewhere|idtac].
Qed.

Lemma add_ok k rq : th_code th = drop 2 (enqueue k rq) -> sound (exec t false s).
Proof.
  intros E. unfold exec. rewrite Hth, E. cbn [enqueue drop exec_op].
  pose proof (inv_owned _ _ HI) as Hnd. unfold owned in Hnd.
  assert (Ho : rq ∈ flying (st_threads s)).
  { apply list_elem_of_bind. exists th. split; [by cbn; rewrite E; left|by eapply list_elem_of_lookup_2]. }
  assert (Hin : rq ∈ owned s) by (unfold owned; set_solver).
  destruct (flist_add_tail_ok (st_mem s) (q_rq (q_of k s)) (c k) rq) as (m & -> & Hl & Hfr & Hd).
  { apply (inv_list _ _ HI). }
  { by apply flying_apart. }
  { by apply (inv_nodes _ _ HI). }
  cbn [sound]. replace (set_thread _ _ _) with (after t (mk_thread (th_elem th) (drop 3 (enqueue k rq))) k
    (set_added (q_added (q_of k s) ++ [rq]) (q_of k s)) m s) by done.
  apply (update_ok k _ _ m (c k ++ [rq])); rewrite ?E; try (by here).
  all: first [by apply (ok_enq_at k rq 3)|by elsewhere
             |intros a; by rewrite Hd|idtac].
  - here. apply own_lock. rewrite E. by here.
  - apply (others_kept k (rq :: q_rq (q_of k s) :: c k)); [done|]. intros k' Hk.
    pose proof (lists_apart k k' Hk). pose proof (flying_apart rq k' Ho). set_solver.
  - cbn. by rewrite (inv_fifo _ _ HI), app_assoc.
  - here. rewrite length_app. cbn. lia.
  - cbn. by rewrite app_nil_r.
  - left. by here.
Qed.

Lemma post_ok k rq : th_code th = drop 3 (enqueue k rq) -> sound (exec t false s).
Proof.
  intros E. unfold exec. rewrite Hth, E. cbn [enqueue drop exec_op sound].
  apply (quiet_ok k); rewrite ?E; try (by here).
  all: first [by apply (ok_enq_at k rq 4)|by elsewhere|here; first [lia|apply own_lock; rewrite E; by here]].
Qed.

Lemma unlock_ok k : th_code th = [Unlock k] -> sound (exec t false s).
Proof.
  intros E. unfold exec. rewrite Hth, E. cbn [exec_op sound].
  apply (quiet_ok k); rewrite ?E; try (by here).
  all: first [by constructor|by elsewhere|idtac].
Qed.

Lemma wait_ok k : th_code th = dequeue k -> sound (exec t false s).
Proof.
  intros E. unfold exec. rewrite Hth, E. cbn [dequeue exec_op]. destruct (q_notify (q_of k s)) eqn:En; [done|]. cbn [sound].
  apply (quiet_ok k); rewrite ?E, ?En; try (by here).
  all: first [by apply (ok_deq_at k 1)|by elsewhere|idtac].
  here. lia.
Qed.

Lemma lock_deq_ok k : th_code th = drop 1 (dequeue k) -> sound (exec t false s).
Proof.
  intros E. unfold exec. rewrite Hth, E. cbn [dequeue drop exec_op]. destruct (q_lock (q_of k s)) eqn:El; [done|]. cbn [sound].
  apply (quiet_ok k); rewrite ?E, ?El; try (by here).
  all: first [by apply (ok_deq_at k 2)|by elsewhere|idtac].
Qed.

Lemma total_pos f l i th0 : l !! i = Some th0 -> (f (th_code th0) <= total f l)%nat.
Proof. intros (l1 & l2 & -> & _)%list_elem_of_split_length. rewrite total_cons. lia. Qed.

(** A thread with a credit finds a request. *)
Lemma credit_content k : credit k (th_code th) = 1%nat -> exists x xs, c k = x :: xs.
Proof.
  intros Hc. pose proof (inv_count _ _ HI k) as HC. pose proof (total_pos (credit k) _ _ _ Hth).
  destruct (c k) as [|x xs]; [cbn in HC; lia|by eexists _, _].
Qed.

Lemma first_ok k : th_code th = drop 2 (dequeue k) -> sound (exec t false s).
Proof.
  intros E. unfold exec. rewrite Hth, E. cbn [dequeue drop exec_op].
  destruct (credit_content k) as (x & xs & Ec); [rewrite E; by here|].
  rewrite (flist_first_ok _ _ _ (inv_list _ _ HI k)), Ec. cbn [sound]. rewrite <- (set_q_same k s).
  apply (quiet_ok k); rewrite ?E; try (by here).
  all: first [by apply (ok_deq_at k 3)|by elsewhere|idtac].
  - here. apply own_lock. rewrite E. by here.
  - intros k' code [= -> _]. split; [done|]. exists x. by rewrite Ec.
Qed.

Lemma del_ok k : th_code th = drop 3 (dequeue k) -> sound (exec t false s).
Proof.
  intros E. unfold exec. rewrite Hth, E. cbn [dequeue drop exec_op].
  destruct (inv_elem _ _ HI th k [Unlock k]) as (x & -> & Hx); [by eapply list_elem_of_lookup_2|by rewrite E|].
  destruct (c k) as [|y xs] eqn:Ec; [done|]. injection Hx as ->.
  pose proof (inv_list _ _ HI k) as Hlist. rewrite Ec in Hlist.
  destruct (flist_del_ok (st_mem s) (q_rq (q_of k s)) [] x xs Hlist) as (m & -> & Hl & Hfr & Hd).
  cbn [sound]. replace (set_thread _ _ _) with (after t (mk_thread (Some x) (drop 4 (dequeue k))) k
    (set_taken (q_taken (q_of k s) ++ [x]) (q_of k s)) m s) by done.
  apply (update_ok k _ _ m xs); rewrite ?E; try (by here).
  all: first [by apply (ok_deq_at k 4)|by elsewhere|intros a; by rewrite Hd|idtac].
  - here. apply own_lock. rewrite E. by here.
  - apply (others_kept k (q_rq (q_of k s) :: c k)); [by rewrite Ec|]. intros k' Hk. by apply lists_apart.
  - cbn. by rewrite (inv_fifo _ _ HI), Ec, <- app_assoc.
  - rewrite Ec. here. lia.
  - left. by here.
Qed.
End statements.

(** ** Every step keeps the invariant *)

Lemma exec_sound s t : Inv s -> sound (exec t false s).
Proof.
  intros [c HI]. destruct (st_threads s !! t) as [th|] eqn:Hth.
  2: { unfold exec. by rewrite Hth. }
  assert (Hok : ok_code (th_code th)).
  { apply (Forall_lookup_1 _ _ _ _ (inv_code _ _ HI) Hth). }
  inversion Hok as [E|k rq i E|k i E]; symmetry in E.
  - unfold exec. by rewrite Hth, E.
  - destruct i as [|[|[|[|[|i]]]]].
    + exact (init_ok _ _ _ _ HI Hth k rq E).
    + exact (lock_enq_ok _ _ _ _ HI Hth k rq E).
    + exact (add_ok _ _ _ _ HI Hth k rq E).
    + exact (post_ok _ _ _ _ HI Hth k rq E).
    + exact (unlock_ok _ _ _ _ HI Hth k E).
    + unfold exec. by rewrite Hth, E; destruct i.
  - destruct i as [|[|[|[|[|i]]]]].
    + exact (wait_ok _ _ _ _ HI Hth k E).
    + exact (lock_deq_ok _ _ _ _ HI Hth k E).
    + exact (first_ok _ _ _ _ HI Hth k E).
    + exact (del_ok _ _ _ _ HI Hth k E).
    + exact (unlock_ok _ _ _ _ HI Hth k E).
    + unfold exec. by rewrite Hth, E; destruct i.
Qed.

Lemma total_replicate f n e : f [] = O -> total f (replicate n (mk_thread e [])) = O.
Proof. intros Hf. unfold total. induction n as [|n IH]; [done|]. cbn. by rewrite Hf. Qed.

Lemma init_inv md rw m n s : md <> rw -> is_Some (m !! md) -> is_Some (m !! rw) ->
  init_nfsclient_queues md rw m n = Some s -> Inv s.
Proof.
  intros Hne H1 H2. unfold init_nfsclient_queues.
  destruct (init_flist_head_ok m md H1) as (m1 & -> & Hl1 & _ & Hd1). cbn [mbind option_bind].
  destruct (init_flist_head_ok m1 rw) as (m2 & -> & Hl2 & Hf2 & Hd2); [by apply Hd1|]. intros [= <-].
  exists (fun _ => []).
  assert (Hno : forall th, th ∈ replicate n (mk_thread None []) -> th = mk_thread None []).
  { intros th H. by apply elem_of_replicate_inv in H. }
  assert (Hfly : flying (replicate n (mk_thread None [])) = []).
  { unfold flying. clear. by induction n. }
  constructor; cbn.
  - apply Forall_forall. intros th ->%Hno. constructor.
  - intros k t. split; [by destruct k|]. intros (th & H & E). apply list_elem_of_lookup_2, Hno in H as ->. done.
  - intros k. destruct k; cbn; [|done]. eapply Flist_frame; [done| |exact Hl1]. set_solver.
  - by intros [].
  - intros k. rewrite !total_replicate by done. by destruct k.
  - unfold owned. cbn. rewrite Hfly. repeat constructor; set_solver.
  - unfold owned. cbn. rewrite Hfly. intros a Ha. apply Hd2, Hd1. set_solver.
  - intros th k code ->%Hno. done.
Qed.

Lemma call_split t code s s' : call t code s = Some s' ->
  exists l1 th l2, st_threads s = l1 ++ th :: l2 /\ t = length l1 /\ th_code th = [] /\
    s' = set_thread t (mk_thread (th_elem th) code) s /\
    st_threads s' = l1 ++ mk_thread (th_elem th) code :: l2.
Proof.
  unfold call. destruct (st_threads s !! t) as [[e [|]]|] eqn:E; try done. intros [= <-].
  apply list_elem_of_split_length in E as (l1 & l2 & El & Et). exists l1, (mk_thread e []), l2. split_and!; try done.
  cbn. rewrite El, insert_app_r_alt, Et, Nat.sub_diag by lia. done.
Qed.

Lemma owned_shuffle (x y : nat) A B F1 N F2 :
  x :: y :: A ++ B ++ F1 ++ N ++ F2 ≡ₚ N ++ x :: y :: A ++ B ++ F1 ++ [] ++ F2.
Proof.
  transitivity ((x :: y :: A ++ B ++ F1) ++ N ++ F2); [by rewrite <- !app_comm_cons, <- !app_assoc|].
  rewrite Permutation_app_swap_app. by rewrite <- !app_comm_cons, <- !app_assoc.
Qed.

(** A call by a thread that holds nothing yet; a new node may come with it. *)
Lemma call_inv t code s s' : Inv s -> call t code s = Some s' -> ok_code code ->
  (forall k, holds k code = false /\ credit k code = O /\ unposted k code = O) ->
  (forall k c', code <> Del k :: c') ->
  (forall a, a ∈ inflight code -> a ∉ owned s /\ is_Some (st_mem s !! a)) -> NoDup (inflight code) -> Inv s'.
Proof.
  intros [c HI] Hcall Hok Hq Hdel Hfl Hnd. destruct (call_split _ _ _ _ Hcall) as (l1 & th & l2 & El & Et & Eth & -> & El').
  exists c. destruct HI as [Hcode Hlock Hlist Hfifo Hcount Hown Hnodes Helem].
  assert (HO : owned (set_thread t (mk_thread (th_elem th) code) s) ≡ₚ inflight code ++ owned s).
  { unfold owned at 1. rewrite El', flying_cons. unfold owned. cbn [st_md st_rw set_thread]. rewrite El, flying_cons, Eth.
    apply owned_shuffle. }
  constructor; cbn [st_mem set_thread].
  - rewrite El'. rewrite El in Hcode. apply Forall_app in Hcode as [H1 [_ H2]%Forall_cons]. by rewrite Forall_app, Forall_cons.
  - intros k t'. rewrite q_of_set_thread, Hlock. cbn. rewrite El, Et. destruct (decide (t' = length l1)) as [->|Hne].
    + rewrite list_lookup_insert_eq by (rewrite length_app; cbn; lia). rewrite list_lookup_middle by done.
      destruct (Hq k) as (Hh & _). split; intros (x & [= <-] & Ex); [by rewrite Eth in Ex|by cbn in Ex; rewrite Hh in Ex].
    + by rewrite list_lookup_insert_ne.
  - intros k. rewrite q_of_set_thread. apply Hlist.
  - intros k. rewrite q_of_set_thread. apply Hfifo.
  - intros k. rewrite q_of_set_thread, <- Hcount. destruct (Hq k) as (_ & H1 & H2). rewrite El', El, !total_cons, Eth. cbn [th_code].
    by rewrite H1, H2.
  - rewrite HO. apply NoDup_app. split_and!; [done| |done]. intros a Ha. by apply Hfl.
  - intros a. rewrite HO, elem_of_app. intros [Ha|Ha]; [by apply Hfl|by apply Hnodes].
  - intros th0 k c0 Hin E. rewrite El' in Hin. apply elem_of_app in Hin as [Hin|[->|Hin]%elem_of_cons].
    + eapply Helem; [|done]. rewrite El. apply elem_of_app. by left.
    + by destruct (Hdel k c0).
    + eapply Helem; [|done]. rewrite El. apply elem_of_app. right. by right.
Qed.

Lemma new_request_inv rq r node s s' : Inv s -> new_request rq r node s = Some s' ->
  Inv s' /\ rq ∉ owned s' /\ is_Some (st_mem s' !! rq).
Proof.
  intros [c HI]. unfold new_request. destruct (st_mem s !! rq) eqn:E; [done|]. intros [= <-].
  assert (Hn : rq ∉ owned s). { intros Ha. apply (inv_nodes _ _ HI) in Ha. rewrite E in Ha. by destruct Ha. }
  split; [|by split; [|cbn; rewrite lookup_insert_eq; eexists]].
  exists c. destruct HI as [Hcode Hlock Hlist Hfifo Hcount Hown Hnodes Helem].
  assert (Hm : forall a, is_Some (st_mem s !! a) -> <[rq := node]> (st_mem s) !! a = st_mem s !! a).
  { intros a Ha. rewrite lookup_insert_ne; [done|]. intros ->. rewrite E in Ha. by destruct Ha. }
  constructor; try done.
  - intros k. assert (HF : Flist (<[rq := node]> (st_mem s)) (q_rq (q_of k s)) (c k)); [|by destruct k].
    pose proof (Hlist k) as HF. apply (Flist_frame [rq] (st_mem s)); [|intros a ->%list_elem_of_singleton Ha|done].
    + intros a Ha. rewrite lookup_insert_ne; [done|set_solver].
    + eapply Flist_nodes in Ha; [|done]. rewrite E in Ha. by destruct Ha.
  - intros a Ha. cbn. rewrite Hm; by apply Hnodes.
Qed.

Lemma step_inv s s' : Inv s -> step s s' -> Inv s'.
Proof.
  assert (Henq : forall k t r rq node s s', Inv s ->
    (s ← new_request rq r node s; call t (enqueue k rq) s) = Some s' -> Inv s').
  { intros k t r rq node s0 s1 HI E. destruct (new_request rq r node s0) as [s2|] eqn:En; [|done].
    destruct (new_request_inv _ _ _ _ _ HI En) as (HI2 & Hn & Hs).
    refine (call_inv t _ _ _ HI2 E (ok_enq k rq 0) _ _ _ (NoDup_singleton _)); try done.
    intros a ->%list_elem_of_singleton. done. }
  assert (Hdeq : forall k t s s', Inv s -> call t (dequeue k) s = Some s' -> Inv s').
  { intros k t s0 s1 HI E. refine (call_inv t _ _ _ HI E (ok_deq k 0) _ _ _ _); try done.
    - intros a Ha. by apply not_elem_of_nil in Ha.
    - constructor. }
  intros HI Hs. revert HI. destruct Hs as [t s0 s1 E|t req parent name rq node s0 s1 E|t r rq node s0 s1 E|t s0 s1 E|t s0 s1 E];
    intros HI.
  - pose proof (exec_sound s0 t HI) as H. by rewrite E in H.
  - exact (Henq MD t _ rq node s0 s1 HI E).
  - exact (Henq RW t r rq node s0 s1 HI E).
  - exact (Hdeq MD t s0 s1 HI E).
  - exact (Hdeq RW t s0 s1 HI E).
Qed.

(** What the daemon's threads can bring about. *)
Definition reachable (s : state) : Prop :=
  exists md rw m n s0, md <> rw /\ is_Some (m !! md) /\ is_Some (m !! rw) /\
    init_nfsclient_queues md rw m n = Some s0 /\ rtc step s0 s.

Lemma reachable_inv s : reachable s -> Inv s.
Proof.
  intros (md & rw & m & n & s0 & Hne & H1 & H2 & E & Hr). pose proof (init_inv _ _ _ _ _ Hne H1 H2 E) as HI.
  clear E. induction Hr; [done|]. by eapply IHHr, step_inv.
Qed.

(** ** What the queues promise *)

(** [C8] In every state the daemon's threads can reach, whatever their number and
    however their statements interleave: no statement has undefined behaviour;
    at most one thread is inside a critical section of a queue; the requests
    taken out are the first of those queued, in the same order, each once; the
    linked list holds exactly the others; and the semaphore never promises more
    than there is. *)
Theorem requests_fifo s k : reachable s ->
  (forall t, exec t false s <> Faults) /\
  (forall t t' th th', st_threads s !! t = Some th -> st_threads s !! t' = Some th' ->
     holds k (th_code th) = true -> holds k (th_code th') = true -> t = t') /\
  NoDup (q_added (q_of k s)) /\ q_added (q_of k s) = q_taken (q_of k s) ++ content k s /\
  Flist (st_mem s) (q_rq (q_of k s)) (content k s) /\
  (q_notify (q_of k s) <= length (content k s))%nat.
Proof.
  intros Hr. pose proof (reachable_inv s Hr) as HIs. pose proof HIs as [c HI]. rewrite (Inv_content _ _ _ HI). split_and!.
  - intros t E. pose proof (exec_sound s t HIs) as H. by rewrite E in H.
  - intros t t' th th' H1 H2 E1 E2. assert (L1 : q_lock (q_of k s) = Some t) by (apply (inv_lock _ _ HI); by exists th).
    assert (L2 : q_lock (q_of k s) = Some t') by (apply (inv_lock _ _ HI); by exists th'). congruence.
  - pose proof (inv_owned _ _ HI) as Hnd. unfold owned in Hnd. rewrite !NoDup_cons, !NoDup_app in Hnd.
    destruct Hnd as (_ & _ & N1 & _ & N2 & _). by destruct k.
  - apply (inv_fifo _ _ HI).
  - apply (inv_list _ _ HI).
  - pose proof (inv_count _ _ HI k). lia.
Qed.

(** What a blocked thread waits for. *)
Lemma blocked_at s c t th : Inv_at s c -> st_threads s !! t = Some th -> exec t false s = Blocked ->
  th_code th = [] \/ (exists k, th_code th = dequeue k /\ q_notify (q_of k s) = O) \/
  exists k code, th_code th = Lock k :: code /\ is_Some (q_lock (q_of k s)).
Proof.
  intros HI Hth. assert (Hok : ok_code (th_code th)) by (apply (Forall_lookup_1 _ _ _ _ (inv_code _ _ HI) Hth)).
  unfold exec. rewrite Hth.
  assert (Hlk : forall k code, exec_op t false th (Lock k) code s = Blocked -> is_Some (q_lock (q_of k s))).
  { intros k code. cbn. destruct (q_lock (q_of k s)); [by eexists|done]. }
  destruct Hok as [|k rq i|k i]; [by left|..];
    destruct i as [|[|[|[|[|i]]]]]; cbn [enqueue dequeue drop]; intros Hb.
  all: try (right; right; eexists _, _; split; [reflexivity|exact (Hlk _ _ Hb)]).
  all: try (cbn in Hb; repeat case_match; done).
  all: try (left; by destruct i).
  right; left. exists k. split; [done|]. cbn in Hb. by destruct (q_notify (q_of k s)).
Qed.

Lemma holder_runs s t th k : st_threads s !! t = Some th -> holds k (th_code th) = true -> exec t false s <> Blocked.
Proof.
  intros Hth Hh E. unfold exec in E. rewrite Hth in E.
  destruct (th_code th) as [|[] code]; try done; cbn in E; repeat case_match; done.
Qed.

(** [C20] No request is left lying and no thread is left behind: when every thread
    is done or blocked, the blocked ones are at the beginning of a dequeue, of a
    queue that is empty. *)
Theorem requests_no_deadlock s : reachable s ->
  (forall t, (t < length (st_threads s))%nat -> exec t false s = Blocked) ->
  forall t th, st_threads s !! t = Some th ->
    th_code th = [] \/ exists k, th_code th = dequeue k /\ content k s = [].
Proof.
  intros Hr Hb t th Hth. destruct (reachable_inv s Hr) as [c HI].
  assert (Hb' : forall t th, st_threads s !! t = Some th -> th_code th = [] \/ exists k, th_code th = dequeue k /\ q_notify (q_of k s) = O).
  { intros t0 th0 H0. pose proof (Hb t0 (lookup_lt_Some _ _ _ H0)) as B.
    destruct (blocked_at s c t0 th0 HI H0 B) as [?|[?|(k & code & E & t1 & Hl)]]; [by left|by right|].
    apply (inv_lock _ _ HI) in Hl as (th1 & H1 & Hh). destruct (holder_runs s t1 th1 k H1 Hh).
    by apply Hb, (lookup_lt_Some _ _ _ H1). }
  destruct (Hb' t th Hth) as [?|(k & E & Hn)]; [by left|]. right. exists k. split; [done|].
  rewrite (Inv_content _ _ _ HI). pose proof (inv_count _ _ HI k) as HC. rewrite Hn in HC.
  assert (Hz : forall f, (forall k', f (dequeue k') = O) -> f [] = O -> total f (st_threads s) = O).
  { intros f H1 H2. clear HC Hth. revert Hb'. generalize (st_threads s) as l. induction l as [|th0 l IH]; [done|]. intros Hl.
    change (th0 :: l) with ([] ++ th0 :: l). rewrite total_cons, IH by (intros t0 th1 H; by apply (Hl (S t0))).
    destruct (Hl O th0 eq_refl) as [-> | (k' & -> & _)]; by rewrite ?H1, ?H2. }
  rewrite !Hz in HC by done. symmetry in HC. by apply length_zero_iff_nil in HC.
Qed.

(** ** When the wait is interrupted *)

(** Taking the head out of an empty list destroys it: nothing can be added any more. *)
Lemma del_head m h : Flist m h [] -> exists m', flist_del (Some h) m = Some m' /\
  next_at m' h = Some None /\ prev_at m' h = Some None /\
  forall e, is_Some (m' !! e) <-> is_Some (m !! e).
Proof.
  intros Hf. pose proof (wrote_nil m) as W. assert (Hh : is_Some (m !! h)) by (eapply Flist_nodes; [done|by left]).
  destruct (cut_front h []) as (n & Hc & Hn). destruct (cut_back h []) as (p & Hc' & Hp).
  assert (n = h) as -> by (by destruct Hc as [l r _ [= ->]]).
  assert (p = h) as -> by (by destruct Hc' as [[|? []] r [=] _]).
  unfold flist_del, __flist_del. rewrite get_prev_at, get_next_at, (Hp m Hf), (Hn m Hf). cbn [mbind option_bind].
  do 4 write. eexists. split; [done|]. match goal with W : wrote _ _ _ _ |- _ => rename W into HW end.
  pose proof HW as (_ & HN & HP). split_and!.
  - rewrite HN, update_cons. by rewrite decide_True.
  - rewrite HP, update_cons. by rewrite decide_True.
  - apply HW.
Qed.

Lemma add_to_destroyed m h e : e <> h -> prev_at m h = Some None -> is_Some (m !! h) -> is_Some (m !! e) ->
  flist_add_tail (Some e) (Some h) m = None.
Proof.
  intros Hne Hp Hh He. unfold flist_add_tail, __flist_add. rewrite get_prev_at, Hp. cbn [mbind option_bind].
  pose proof (wrote_nil m) as W. do 3 write. done.
Qed.

Lemma exec_at s t i th o code : st_threads s !! t = Some th -> th_code th = o :: code ->
  exec t i s = exec_op t i th o code s.
Proof. unfold exec. by intros -> ->. Qed.

Lemma threads_set_q k q s : st_threads (set_q k q s) = st_threads s.
Proof. by destruct k. Qed.
Lemma mem_set_q k q s : st_mem (set_q k q s) = st_mem s.
Proof. by destruct k. Qed.
Lemma threads_set_mem m s : st_threads (set_mem m s) = st_threads s.
Proof. done. Qed.
Lemma threads_set_thread t th s : st_threads (set_thread t th s) = <[t := th]> (st_threads s).
Proof. done. Qed.
Lemma mem_set_mem m s : st_mem (set_mem m s) = m.
Proof. done. Qed.
Lemma mem_set_thread t th s : st_mem (set_thread t th s) = st_mem s.
Proof. done. Qed.
#[local] Hint Rewrite q_of_set_q q_of_set_mem q_of_set_thread threads_set_q mem_set_q threads_set_mem
  threads_set_thread mem_set_mem mem_set_thread : queue.

(** The next statement of a thread that has just run. *)
Ltac statement Hlt :=
  erewrite exec_at; [|autorewrite with queue; rewrite list_lookup_insert_eq by (rewrite ?length_insert; exact Hlt); reflexivity|reflexivity];
  cbn [exec_op th_elem]; autorewrite with queue; rewrite ?decide_True by done; cbn [set_lock set_notify q_lock q_rq q_notify].

(** [C35] The result of [sem_wait] is not looked at: when a signal interrupts thread
    [t], which waits for a request of an empty queue, it takes the head of the
    list for a request; the next thread that queues a request, [t2], then stores
    through a null pointer. *)
Theorem interrupted_wait_faults s k t t2 rq elem elem2 : reachable s ->
  content k s = [] -> q_lock (q_of k s) = None -> q_notify (q_of k s) = O ->
  st_threads s !! t = Some (mk_thread elem (dequeue k)) ->
  st_threads s !! t2 = Some (mk_thread elem2 (drop 1 (enqueue k rq))) ->
  (exists s', run [(t, true); (t, false); (t, false); (t, false); (t, false)] s = Goes s' /\
     th_elem <$> st_threads s' !! t = Some (Some (q_rq (q_of k s)))) /\
  run [(t, true); (t, false); (t, false); (t, false); (t, false); (t2, false); (t2, false)] s = Faults.
Proof.
  intros Hr Hc Hl Hn Ht Ht2. destruct (reachable_inv s Hr) as [c HI]. rewrite (Inv_content _ _ _ HI) in Hc.
  assert (Hne : t <> t2) by (intros <-; rewrite Ht in Ht2; done).
  pose proof (inv_list _ _ HI k) as Hf. rewrite Hc in Hf.
  assert (Hfly : rq ∈ flying (st_threads s)).
  { apply list_elem_of_bind. eexists. split; [|by eapply list_elem_of_lookup_2]. by left. }
  assert (Hrq : is_Some (st_mem s !! rq) /\ rq <> q_rq (q_of k s)).
  { split; [apply (inv_nodes _ _ HI); unfold owned; set_solver|].
    assert (Hap : rq ∉ q_rq (q_of k s) :: c k) by (by eapply flying_apart). set_solver. }
  destruct Hrq as [Hrq Hrqh]. assert (Hh : is_Some (st_mem s !! q_rq (q_of k s))) by (eapply Flist_nodes; [done|by left]).
  destruct (del_head _ _ Hf) as (m & Edel & _ & Hprev & Hm).
  pose proof (flist_first_ok _ _ _ Hf) as Efirst.
  assert (Hlt : (t < length (st_threads s))%nat) by (by eapply lookup_lt_Some).
  assert (Hrun : forall rest, exists s', run ([(t, true); (t, false); (t, false); (t, false); (t, false)] ++ rest) s = run rest s' /\
    th_elem <$> st_threads s' !! t = Some (Some (q_rq (q_of k s))) /\ st_threads s' !! t2 = st_threads s !! t2 /\
    st_mem s' = m /\ q_lock (q_of k s') = None /\ q_rq (q_of k s') = q_rq (q_of k s)).
  { intros rest. eexists. cbn [app run].
    rewrite (exec_at s t true _ (Wait k) _ Ht eq_refl). cbn [exec_op]. rewrite Hn.
    statement Hlt. rewrite Hl. statement Hlt. rewrite Efirst. statement Hlt. rewrite Edel. statement Hlt.
    split; [done|]. autorewrite with queue; try done. rewrite list_lookup_insert_eq by (by rewrite !length_insert).
    rewrite !list_lookup_insert_ne by done. rewrite decide_True by done. done. }
  split.
  - destruct (Hrun []) as (s' & E & He & _). exists s'. by rewrite app_nil_r in E.
  - destruct (Hrun [(t2, false); (t2, false)]) as (s' & E & _ & Et2 & Em & Hl' & Hq'). cbn [app] in E. rewrite E.
    rewrite Ht2 in Et2. cbn [run]. rewrite (exec_at s' t2 false _ (Lock k) _ Et2 eq_refl). cbn [exec_op]. rewrite Hl'.
    assert (Hlt2 : (t2 < length (st_threads s'))%nat) by (by eapply lookup_lt_Some).
    statement Hlt2. rewrite Em, Hq', add_to_destroyed; try done.
    + by apply Hm.
    + by apply Hm.
Qed.
