(* ===== verification/RequestsExamples.v ===== *)
(** * Requests, queued and taken out

    The theorems of [RequestsCorrect] in states that two threads reach. *)

From S2P Require Import Prelude Flist Daemon Requests RequestsCorrect.

(** The blocks at 0 and 1 hold the heads. *)
Definition blocks_ex : fmem := {[0%nat := mk_flist_head None None; 1%nat := mk_flist_head None None]}.
Definition start_ex : option state := init_nfsclient_queues 0 1 blocks_ex 2.

(** Thread 0 queues a lookup at 2 and is stopped after its first statement;
    thread 1 has called a dequeue. *)
Definition lookup_and_dequeue : option state :=
  s ← start_ex;
  s ← nfscd_lookup 0 77 1 (PTo [97]) 2 (mk_flist_head None None) s;
  s ← call 1 nfscd_dequeue_metadata_request s;
  match exec 0 false s with Goes s => Some s | _ => None end.

Lemma lookup_and_dequeue_reachable s : lookup_and_dequeue = Some s -> reachable s.
Proof.
  unfold lookup_and_dequeue. intros (s0 & E0 & (s1 & E1 & (s2 & E2 & E3)%bind_Some)%bind_Some)%bind_Some.
  exists 0%nat, 1%nat, blocks_ex, 2%nat, s0. split_and!; [done|by eexists..|done|].
  destruct (exec 0 false s2) as [s3| |] eqn:Ex; [|done..]. injection E3 as <-.
  eapply rtc_l; [by eapply step_lookup|]. eapply rtc_l; [by eapply step_dequeue_metadata|].
  by eapply rtc_once, step_exec.
Qed.

(** Thread 0 and then thread 1 to the end. *)
Definition all_done : option state :=
  s ← lookup_and_dequeue;
  match run (repeat (0%nat, false) 4 ++ repeat (1%nat, false) 5) s with Goes s => Some s | _ => None end.

Lemma run_reachable l : forall s s', reachable s -> Forall (fun e => e.2 = false) l -> run l s = Goes s' -> reachable s'.
Proof.
  induction l as [|[t i] l IH]; intros s s' Hr Hf E; cbn in E; [by injection E as <-|].
  apply Forall_cons in Hf as [Hi Hf]. cbn in Hi. subst i. destruct (exec t false s) as [s1| |] eqn:Ex; [|done..].
  apply (IH s1); [|done|done]. destruct Hr as (md & rw & m & n & s0 & H1 & H2 & H3 & H4 & H5).
  exists md, rw, m, n, s0. split_and!; try done. eapply rtc_r; [done|]. by eapply step_exec.
Qed.

Lemma all_done_reachable s : all_done = Some s -> reachable s.
Proof.
  unfold all_done. intros (s1 & E1 & E2)%bind_Some.
  destruct (run _ s1) as [s2| |] eqn:Ex; [|done..]. injection E2 as <-.
  eapply run_reachable; [by eapply lookup_and_dequeue_reachable| |done].
  apply Forall_app. split; by repeat constructor.
Qed.

(** The request went through the queue. *)
Example request_taken : (fun s => (q_taken (st_md s), th_elem <$> st_threads s !! 1%nat)) <$> all_done =
  Some ([2%nat], Some (Some 2%nat)).
Proof. vm_compute. reflexivity. Qed.

Lemma requests_fifo_witness :
  exists s, all_done = Some s /\
    (forall t, exec t false s <> Faults) /\
    (forall t t' th th', st_threads s !! t = Some th -> st_threads s !! t' = Some th' ->
       holds MD (th_code th) = true -> holds MD (th_code th') = true -> t = t') /\
    NoDup (q_added (st_md s)) /\ q_added (st_md s) = q_taken (st_md s) ++ content MD s /\
    FlistCorrect.Flist (st_mem s) (q_rq (st_md s)) (content MD s) /\
    (q_notify (st_md s) <= length (content MD s))%nat.
Proof.
  destruct all_done as [s|] eqn:E; [|by vm_compute in E]. exists s. split; [done|].
  apply (requests_fifo s MD). by apply all_done_reachable.
Defined.

(** Thread 1 would wait; thread 0 is done. *)
Definition one_waits : option state :=
  s ← all_done; call 1 nfscd_dequeue_metadata_request s.

Lemma requests_no_deadlock_witness :
  exists s, one_waits = Some s /\
    forall t th, st_threads s !! t = Some th ->
      th_code th = [] \/ exists k, th_code th = dequeue k /\ content k s = [].
Proof.
  destruct one_waits as [s|] eqn:E; [|by vm_compute in E]. exists s. split; [done|].
  apply (requests_no_deadlock s).
  - apply bind_Some in E as (s1 & E1 & E2). apply all_done_reachable in E1 as (md & rw & m & n & s0 & H1 & H2 & H3 & H4 & H5).
    exists md, rw, m, n, s0. split_and!; try done. eapply rtc_r; [done|]. by eapply step_dequeue_metadata.
  - assert (Eb : (fun s => (length (st_threads s), (exec 0 false s, exec 1 false s))) <$> one_waits =
      Some (2%nat, (Blocked, Blocked))) by (vm_compute; reflexivity).
    rewrite E in Eb. cbn in Eb. injection Eb as En E0 E1. intros [|[|t]] Ht; [done|done|lia].
Defined.

Lemma interrupted_wait_faults_witness :
  exists s, lookup_and_dequeue = Some s /\
    (exists s', run [(1, true); (1, false); (1, false); (1, false); (1, false)]%nat s = Goes s' /\
       th_elem <$> st_threads s' !! 1%nat = Some (Some 0%nat)) /\
    run [(1, true); (1, false); (1, false); (1, false); (1, false); (0, false); (0, false)]%nat s = Faults.
Proof.
  destruct lookup_and_dequeue as [s|] eqn:E; [|by vm_compute in E]. exists s. split; [done|].
  assert (Es : (fun s => (content MD s, q_lock (st_md s), q_notify (st_md s), q_rq (st_md s), st_threads s)) <$> lookup_and_dequeue =
    Some ([], None, O, O, [mk_thread None (drop 1 (enqueue MD 2)); mk_thread None (dequeue MD)])) by (vm_compute; reflexivity).
  rewrite E in Es. cbn in Es. injection Es as Ec El En Eq Et.
  pose proof (interrupted_wait_faults s MD 1 0 2 None None) as H. cbn [q_of] in H. rewrite Eq in H. apply H; try done.
  - by apply lookup_and_dequeue_reachable.
  - by rewrite Et.
  - by rewrite Et.
Defined.
