(* ===== verification/Debug.v ===== *)
(** * Debug output: [src/src/debug_print.c], [src/include/debug_print.h]

    Which statements of the daemon print is decided by the options of the build
    ([src/SConstruct]): they define preprocessor symbols, and these decide what
    [debug_print] is and which of the levels [nfscdlvl] and [nfsactlvl] exist. *)

From S2P Require Import Prelude.

#[local] Open Scope Z_scope.

(** ** Builds *)

(** The options debug_print, nfsclientd_debug and nfsactor_debug. *)
Record build := mk_build {
  debug_print_option : bool;
  nfsclientd_debug : bool;
  nfsactor_debug : bool
}.

(** The symbols they define for the daemon. *)
Definition DEBUG_PRINT (b : build) : bool := debug_print_option b || nfsclientd_debug b || nfsactor_debug b.
Definition NFSCLIENTD_DEBUG (b : build) : bool := nfsclientd_debug b.
Definition NFSACTOR_DEBUG (b : build) : bool := nfsactor_debug b.

(** The levels; [None] is an identifier that is not declared. *)
Definition nfscdlvl (b : build) : option Z := if NFSCLIENTD_DEBUG b then Some 1 else None.
Definition nfsactlvl (b : build) : option Z := if NFSACTOR_DEBUG b then Some 1 else None.

(** ** Printing *)

Section printing.
(** The arguments of a format, and what [vfprintf] writes for it. *)
Context {A : Type} (vfprintf : list Z -> A -> list Z).

(** On what has been written to [stderr]. *)
Definition debug_print (level : Z) (fmt : list Z) (args : A) (stderr : list Z) : list Z :=
  if negb (level =? 0) then stderr ++ vfprintf fmt args else stderr.

(** A statement [debug_print(lvl, fmt, args)]: without [DEBUG_PRINT] the macro
    leaves nothing of it, and otherwise it is a call; [None] does not compile. *)
Definition debug_statement (b : build) (lvl : build -> option Z) (fmt : list Z) (args : A) (stderr : list Z)
    : option (list Z) :=
  if DEBUG_PRINT b then level ← lvl b; Some (debug_print level fmt args stderr) else Some stderr.

(** What a statement does when it compiles: it prints, or nothing. *)
Lemma debug_statement_spec b lvl fmt args stderr :
  lvl = nfscdlvl \/ lvl = nfsactlvl ->
  debug_statement b lvl fmt args stderr =
    if negb (DEBUG_PRINT b) then Some stderr
    else match lvl b with Some _ => Some (stderr ++ vfprintf fmt args) | None => None end.
Proof. unfold debug_statement. by intros [-> | ->]; destruct b as [[] [] []]. Qed.

(** The daemon, which has statements of both levels, can be built without debug
    output or with that of both parts; with debug_print alone, or with that of
    one part, it cannot. *)
Theorem debug_builds b fmt args stderr :
  (is_Some (debug_statement b nfscdlvl fmt args stderr) /\ is_Some (debug_statement b nfsactlvl fmt args stderr)) <->
  (DEBUG_PRINT b = false \/ (nfsclientd_debug b = true /\ nfsactor_debug b = true)).
Proof.
  destruct b as [d n a]. split.
  - intros [[x Hx] [y Hy]]. destruct d, n, a; first [by left | by right | discriminate].
  - intros [H | [Hn Ha]].
    + unfold debug_statement. rewrite H. by split; eexists.
    + cbn in Hn, Ha. subst. destruct d; by split; eexists.
Qed.
End printing.
