(* ===== verification/Floating.v ===== *)
(** * Floating point

    [double] and [float] of C on a machine with IEEE 754 arithmetic that rounds to
    nearest and keeps no excess precision: the operations are those of the Standard
    Library's [SpecFloat] at the two formats.  A conversion of a value that the
    integer type cannot hold, or of a NaN, is undefined behaviour. *)

From S2P Require Import Prelude.
From Stdlib Require Import SpecFloat.

(** A format: the bits of the mantissa and the exponent of the infinities. *)
Record format := mk_format {
  prec : Z;
  emax : Z
}.
Definition binary64 : format := mk_format 53 1024.
Definition binary32 : format := mk_format 24 128.

(** Conversions from integers and between the formats round. *)
Definition of_int (f : format) (n : Z) : spec_float := binary_normalize (prec f) (emax f) n 0 false.
Definition to_format (f : format) (x : spec_float) : spec_float :=
  match x with
  | S754_finite s m e => binary_normalize (prec f) (emax f) (cond_Zopp s (Z.pos m)) e s
  | _ => x
  end.

Definition fadd (f : format) : spec_float -> spec_float -> spec_float := SFadd (prec f) (emax f).
Definition fsub (f : format) : spec_float -> spec_float -> spec_float := SFsub (prec f) (emax f).
Definition fmul (f : format) : spec_float -> spec_float -> spec_float := SFmul (prec f) (emax f).
Definition fdiv (f : format) : spec_float -> spec_float -> spec_float := SFdiv (prec f) (emax f).

(** The value without its fraction. *)
Definition truncate (x : spec_float) : option Z :=
  match x with
  | S754_zero _ => Some 0
  | S754_finite s m e => Some (cond_Zopp s (Z.shiftl (Z.pos m) e))
  | _ => None
  end.
Definition to_int (lo hi : Z) (x : spec_float) : option Z :=
  n ← truncate x; if (lo <=? n) && (n <? hi) then Some n else None.
Definition to_u64 : spec_float -> option Z := to_int 0 (2 ^ 64).
Definition to_u32 : spec_float -> option Z := to_int 0 (2 ^ 32).
Definition to_s64 : spec_float -> option Z := to_int (- 2 ^ 63) (2 ^ 63).

(** ** Zero and infinity *)

Definition is_zero (x : spec_float) : Prop := exists s, x = S754_zero s.

(** What is not a number, or infinite, is not converted. *)
Lemma to_int_special lo hi x : match x with S754_zero _ | S754_finite _ _ _ => False | _ => True end -> to_int lo hi x = None.
Proof. by destruct x. Qed.

(** A quotient by zero. *)
Lemma fdiv_zero f lo hi x y : is_zero y -> to_int lo hi (fdiv f x y) = None.
Proof. intros [s ->]. by destruct x. Qed.

Lemma of_int_zero f : is_zero (of_int f 0).
Proof. by exists false. Qed.

(** Zero divided by a finite number. *)
Lemma fdiv_of_zero f x y : is_zero x -> (exists s m e, y = S754_finite s m e) -> is_zero (fdiv f x y).
Proof. intros [s ->] (s' & m & e & ->). by eexists. Qed.

Lemma fdiv_nan f lo hi y : to_int lo hi (fdiv f S754_nan y) = None.
Proof. by destruct y. Qed.

Lemma fdiv_by_nan f lo hi x : to_int lo hi (fdiv f x S754_nan) = None.
Proof. by destruct x. Qed.

Lemma fdiv_zero_zero f x y : is_zero x -> is_zero y -> fdiv f x y = S754_nan.
Proof. by intros [s ->] [s' ->]. Qed.

(** ** Integers that are exact *)

Lemma digits2_log2 p : Z.pos (digits2_pos p) = Z.log2 (Z.pos p) + 1.
Proof.
  induction p as [p IH|p IH|]; cbn [digits2_pos]; [..|done]; rewrite Pos2Z.inj_succ, IH.
  - rewrite (Pos2Z.inj_xI p). rewrite Z.log2_succ_double by lia. lia.
  - rewrite (Pos2Z.inj_xO p). rewrite Z.log2_double by lia. lia.
Qed.

(** A mantissa of exactly the format's width stays as it is. *)
Lemma round_full f m e : 0 < prec f -> Z.pos (digits2_pos m) = prec f -> 3 - emax f - prec f <= e <= emax f - prec f ->
  binary_round_aux (prec f) (emax f) false (Z.pos m) e loc_Exact = S754_finite false m e.
Proof.
  intros Hp Hd He. unfold binary_round_aux, shr_fexp. cbn [Zdigits2].
  assert (Hs : fexp (prec f) (emax f) (Z.pos (digits2_pos m) + e) - e = 0) by (unfold fexp, emin; lia).
  rewrite Hs. cbn [shr shr_record_of_loc shr_m loc_of_shr_record round_nearest_even Zdigits2]. rewrite Hs. cbn [shr shr_m].
  by rewrite (proj2 (Z.leb_le e _)) by lia.
Qed.

Lemma iter_xO m d : Z.pos (Pos.iter xO m d) = Z.pos m * 2 ^ Z.pos d.
Proof.
  rewrite <- (Z.shiftl_mul_pow2 (Z.pos m) (Z.pos d)) by lia. unfold Z.shiftl.
  by rewrite (Pos.iter_swap_gen _ _ Z.pos xO (Z.mul 2)).
Qed.

(** Integers with no more digits than the mantissa are represented exactly. *)
Lemma of_int_exact f n : 2 < prec f -> prec f < emax f -> 0 <= n < 2 ^ prec f -> truncate (of_int f n) = Some n.
Proof.
  intros Hp He Hn. unfold of_int. destruct n as [|n|n]; [done| |lia]. cbn [binary_normalize]. unfold binary_round.
  pose proof (digits2_log2 n) as Hd. set (d := Z.pos (digits2_pos n)) in *.
  assert (Hlog : Z.log2 (Z.pos n) < prec f) by (apply Z.log2_lt_pow2; lia). pose proof (Z.log2_nonneg (Z.pos n)) as Hlog0.
  rewrite Z.add_0_r. assert (Hf : fexp (prec f) (emax f) d = d - prec f) by (unfold fexp, emin; lia). rewrite Hf.
  unfold shl_align. rewrite Z.sub_0_r. destruct (d - prec f) as [|k|k] eqn:Ek; [|lia|].
  - rewrite round_full by (unfold d in *; lia). cbn. done.
  - assert (Hm : Z.pos (digits2_pos (Pos.iter xO n k)) = prec f).
    { rewrite digits2_log2, iter_xO, Z.log2_mul_pow2 by lia. lia. }
    rewrite round_full by (try done; lia). unfold truncate. cbn [cond_Zopp]. f_equal.
    rewrite iter_xO. change (Z.neg k) with (- Z.pos k). rewrite Z.shiftl_opp_r.
    rewrite Z.shiftr_div_pow2 by lia. apply Z.div_mul. lia.
Qed.

Lemma to_u64_of_int n : 0 <= n < 2 ^ 53 -> to_u64 (of_int binary64 n) = Some n.
Proof.
  intros Hn. unfold to_u64, to_int. rewrite of_int_exact by (cbn; lia). cbn [mbind option_bind].
  rewrite (proj2 (Z.leb_le 0 n)), (proj2 (Z.ltb_lt n (2 ^ 64))) by lia. done.
Qed.
