(* ===== verification/NfsStat.v ===== *)
(** * Statistics: [src/src/nfsv3/nfs3stat.c], [src/include/nfs3stat.h]

    Counters of requests, replies and response times, kept by procedure, and the
    rates computed from them.  What is printed is a list of lines with the numbers
    in them, some of them in floating point; how [printf] and [ctime] write a number
    is left out. *)

From S2P Require Import Prelude NfsTypes Floating.
From Stdlib Require Import String SpecFloat.

#[local] Open Scope Z_scope.

(** ** Data *)

Record timeval := mk_timeval {
  tv_sec : Z;
  tv_usec : Z
}.

Definition timeval_to_usecs (ts : timeval) : Z := u64 (u64 (u64 (tv_sec ts) * 1000000) + u64 (tv_usec ts)).

Definition NFSSTAT_ROWS : nat := 22.
Definition NFSSTAT_COLS : nat := 4.
Definition NFSSTAT_COL_TOTAL : nat := 0.
Definition NFSSTAT_COL_SUCCESS : nat := 1.
Definition NFSSTAT_COL_FAILED : nat := 2.
Definition NFSSTAT_COL_RESTIME : nat := 3.
Definition NFSSTAT_TELEMETRY_ON : Z := 1.
Definition NFSSTAT_TELEMETRY_OFF : Z := 0.

Definition NFSSTAT_TM_BUFSZ : Z := 10 * 1024 * 1024.

Definition usecs_to_usec (t : Z) : Z := t mod 1000000.
Definition usecs_to_sec (t : Z) : spec_float := fdiv binary64 (of_int binary64 t) (of_int binary64 1000000).
Definition usecs_to_msec (t : Z) : spec_float := fdiv binary64 (of_int binary64 t) (of_int binary64 1000).

(** A line of the statistics file. *)
Inductive line :=
  | Response (procval : Z) (msecs diff : spec_float)
  | Traffic_stats
  | Packet_count (n : Z)
  | Row (proc : string) (count success failed : Z) (average : option spec_float)  (* 0 is printed for None *)
  | Successful (percent : spec_float)
  | Failed (percent : spec_float)
  | Start_time (t : Z)
  | End_time (t : Z)
  | Client_operations (per_sec : Z)
  | Server_operations (per_sec : Z)
  | Average_response (msecs : spec_float).

Record nfsstat_ctx := mk_nfsstat_ctx {
  packet_count : Z;
  proc_pkt_count : list (list Z);
  starttime : timeval;
  endtime : timeval;
  restime_packet_count : Z;
  restime_usecs : Z;
  telemetry : Z;
  statsfile : list line
}.

Definition TELEMETRY_ON (stats : nfsstat_ctx) : bool := telemetry stats =? NFSSTAT_TELEMETRY_ON.

Definition set_packets (n : Z) (s : nfsstat_ctx) : nfsstat_ctx :=
  mk_nfsstat_ctx n (proc_pkt_count s) (starttime s) (endtime s) (restime_packet_count s) (restime_usecs s) (telemetry s) (statsfile s).
Definition set_counts (l : list (list Z)) (s : nfsstat_ctx) : nfsstat_ctx :=
  mk_nfsstat_ctx (packet_count s) l (starttime s) (endtime s) (restime_packet_count s) (restime_usecs s) (telemetry s) (statsfile s).
Definition set_times (t1 t2 : timeval) (s : nfsstat_ctx) : nfsstat_ctx :=
  mk_nfsstat_ctx (packet_count s) (proc_pkt_count s) t1 t2 (restime_packet_count s) (restime_usecs s) (telemetry s) (statsfile s).
Definition set_restime (n usecs : Z) (s : nfsstat_ctx) : nfsstat_ctx :=
  mk_nfsstat_ctx (packet_count s) (proc_pkt_count s) (starttime s) (endtime s) n usecs (telemetry s) (statsfile s).
Definition fprintf (l : list line) (s : nfsstat_ctx) : nfsstat_ctx :=
  mk_nfsstat_ctx (packet_count s) (proc_pkt_count s) (starttime s) (endtime s) (restime_packet_count s) (restime_usecs s) (telemetry s)
    (statsfile s ++ l).

(** [proc_pkt_count[procval][col] += v]; [None] outside the table. *)
Definition add_count (procval : Z) (col : nat) (v : Z) (s : nfsstat_ctx) : option nfsstat_ctx :=
  if (0 <=? procval) && (procval <? Z.of_nat NFSSTAT_ROWS)
  then Some (set_counts (alter (alter (fun c => u64 (c + v)) col) (Z.to_nat procval) (proc_pkt_count s)) s)
  else None.

(** ** Operations

    The pointer [stats] may be NULL; the outer [None] is undefined behaviour. *)

(** The buffer for telemetry is the file's, and never freed; without one the C
    library makes its own. *)
Definition nfsstat_init (file : list line) (tmetry : Z) (h : heap) : option nfsstat_ctx * heap :=
  let (ok, h) := mem_alloc h in
  if negb ok then (None, h)
  else
    let stats := mk_nfsstat_ctx 0 (replicate NFSSTAT_ROWS (replicate NFSSTAT_COLS 0))
                   (mk_timeval 0 0) (mk_timeval 0 0) 0 0 tmetry file in
    let h := if TELEMETRY_ON stats then snd (mem_alloc h) else h in
    (Some stats, h).

Definition nfsstat_update_packet_counter (stats : option nfsstat_ctx) (procval : Z) : option (option nfsstat_ctx) :=
  match stats with
  | None => Some None
  | Some s => s ← add_count procval NFSSTAT_COL_TOTAL 1 (set_packets (u64 (packet_count s + 1)) s); Some (Some s)
  end.

Definition nfsstat_update_status_counter (stats : option nfsstat_ctx) (procval status : Z) : option (option nfsstat_ctx) :=
  match stats with
  | None => Some None
  | Some s =>
      s ← (if status =? NFS3_OK then add_count procval NFSSTAT_COL_SUCCESS 1 s
           else add_count procval NFSSTAT_COL_FAILED 1 s);
      Some (Some s)
  end.

Definition nfsstat_update_ops_per_sec (stats : option nfsstat_ctx) (frametime : timeval) : option nfsstat_ctx :=
  match stats with
  | None => None
  | Some s =>
      if (tv_sec (starttime s) =? 0) && (tv_usec (starttime s) =? 0)
      then Some (set_times frametime (endtime s) s)
      else Some (set_times (starttime s) frametime s)
  end.

Definition nfsstat_update_response_times (stats : option nfsstat_ctx) (procval : Z) (call reply : timeval)
    : option (option nfsstat_ctx) :=
  match stats with
  | None => Some None
  | Some s =>
      let ct := timeval_to_usecs call in
      let rt := timeval_to_usecs reply in
      let s := set_restime (u64 (restime_packet_count s + 1)) (u64 (restime_usecs s + u64 (rt - ct))) s in
      s ← add_count procval NFSSTAT_COL_RESTIME (u64 (rt - ct)) s;
      Some (Some (if TELEMETRY_ON s then fprintf [Response procval (usecs_to_msec ct) (usecs_to_msec (u64 (rt - ct)))] s else s))
  end.

Definition nfsv3_proc_vals : list string :=
  ["NULL"; "GETATTR"; "SETATTR"; "LOOKUP"; "ACCESS"; "READLINK"; "READ"; "WRITE"; "CREATE"; "MKDIR"; "SYMLINK";
   "MKNOD"; "REMOVE"; "RMDIR"; "RENAME"; "LINK"; "READDIR"; "READDIRPLUS"; "FSSTAT"; "FSINFO"; "PATHCONF";
   "COMMIT"]%string.

(** [usecs_to_msec(usecs) / count]. *)
Definition average (usecs count : Z) : spec_float := fdiv binary64 (usecs_to_msec usecs) (of_int binary64 count).

(** [(n/(float)out_of)*100]. *)
Definition percent (n out_of : Z) : spec_float :=
  fmul binary32 (fdiv binary32 (of_int binary32 n) (of_int binary32 out_of)) (of_int binary32 100).

(** The loop over the procedures from [i] on, with the totals so far. *)
Fixpoint dump_rows (n i : nat) (success failed : Z) (s : nfsstat_ctx) : option (Z * Z * nfsstat_ctx) :=
  match n with
  | O => Some (success, failed, s)
  | S n =>
      row ← proc_pkt_count s !! i;
      ok ← row !! NFSSTAT_COL_SUCCESS;
      bad ← row !! NFSSTAT_COL_FAILED;
      usecs ← row !! NFSSTAT_COL_RESTIME;
      count ← row !! NFSSTAT_COL_TOTAL;
      name ← nfsv3_proc_vals !! i;
      dump_rows n (S i) (u64 (success + ok)) (u64 (failed + bad))
        (fprintf [Row name count ok bad (if negb (count =? 0) then Some (average usecs count) else None)] s)
  end.

Definition dump_packet_counter (stats : option nfsstat_ctx) : option (option nfsstat_ctx) :=
  match stats with
  | None => Some None
  | Some s =>
      '(success, failed, s) ← dump_rows 22 0 0 0 (fprintf [Packet_count (packet_count s)] s);
      Some (Some (fprintf [Successful (percent success (packet_count s)); Failed (percent failed (packet_count s))] s))
  end.

(** [((float) restime_usecs/1000) / (float)restime_packet_count]. *)
Definition avg_restime_msecs (s : nfsstat_ctx) : spec_float :=
  fdiv binary32 (fdiv binary32 (of_int binary32 (restime_usecs s)) (of_int binary32 1000))
    (of_int binary32 (restime_packet_count s)).

Definition nfsstat_dump_response_time (stats : option nfsstat_ctx) : option (option nfsstat_ctx) :=
  match stats with
  | None => Some None
  | Some s => Some (Some (fprintf [Average_response (avg_restime_msecs s)] s))
  end.

Definition nfsstat_dump_ops_per_sec (stats : option nfsstat_ctx) : option (option nfsstat_ctx) :=
  match stats with
  | None => Some None
  | Some s =>
      let diffusecs := u64 (timeval_to_usecs (endtime s) - timeval_to_usecs (starttime s)) in
      opsec ← to_u64 (fdiv binary64 (of_int binary64 (packet_count s)) (usecs_to_sec diffusecs));
      stime ← to_s64 (usecs_to_sec (timeval_to_usecs (starttime s)));
      etime ← to_s64 (usecs_to_sec (timeval_to_usecs (endtime s)));
      server ← to_u64 (fdiv binary32 (of_int binary32 1000) (avg_restime_msecs s));
      Some (Some (fprintf [Start_time stime; End_time etime; Client_operations opsec; Server_operations server] s))
  end.

Definition nfsstat_dump (stats : option nfsstat_ctx) : option (option nfsstat_ctx) :=
  match stats with
  | None => Some None
  | Some s =>
      stats ← dump_packet_counter (Some (fprintf [Traffic_stats] s));
      stats ← nfsstat_dump_ops_per_sec stats;
      nfsstat_dump_response_time stats
  end.

(** ** What the counters count *)

Inductive event :=
  | Sent (procval : Z)
  | Answered (procval status : Z)
  | Frame (t : timeval)
  | Timed (procval : Z) (call reply : timeval).

Definition handle (e : event) (stats : option nfsstat_ctx) : option (option nfsstat_ctx) :=
  match e with
  | Sent p => nfsstat_update_packet_counter stats p
  | Answered p st => nfsstat_update_status_counter stats p st
  | Frame t => Some (nfsstat_update_ops_per_sec stats t)
  | Timed p c r => nfsstat_update_response_times stats p c r
  end.
Definition handle_all (es : list event) (stats : option nfsstat_ctx) : option (option nfsstat_ctx) :=
  foldl (fun acc e => stats ← acc; handle e stats) (Some stats) es.

(** The procedure of an event is one of the 22. *)
Definition known (e : event) : Prop :=
  match e with Sent p | Answered p _ | Timed p _ _ => 0 <= p < 22 | Frame _ => True end.

(** What an event adds to a cell of the table, and what a history adds up to. *)
Definition adds (p : Z) (col : nat) (e : event) : Z :=
  match e, col with
  | Sent q, 0%nat => if q =? p then 1 else 0
  | Answered q st, 1%nat => if (q =? p) && (st =? NFS3_OK) then 1 else 0
  | Answered q st, 2%nat => if (q =? p) && negb (st =? NFS3_OK) then 1 else 0
  | Timed q c r, 3%nat => if q =? p then timeval_to_usecs r - timeval_to_usecs c else 0
  | _, _ => 0
  end.
Definition total (f : event -> Z) (es : list event) : Z := foldl (fun n e => n + f e) 0 es.
Definition tally (f : event -> Z) (es : list event) : Z := u64 (total f es).

Definition is_sent (e : event) : Z := match e with Sent _ => 1 | _ => 0 end.
Definition is_timed (e : event) : Z := match e with Timed _ _ _ => 1 | _ => 0 end.
Definition duration (e : event) : Z :=
  match e with Timed _ c r => timeval_to_usecs r - timeval_to_usecs c | _ => 0 end.
Definition is_ok (e : event) : Z := match e with Answered _ st => if st =? NFS3_OK then 1 else 0 | _ => 0 end.
Definition is_failed (e : event) : Z := match e with Answered _ st => if st =? NFS3_OK then 0 else 1 | _ => 0 end.

(** The frames from the first whose time is set, which is what the code takes for
    the first. *)
Definition frames (es : list event) : list timeval := omap (fun e => match e with Frame t => Some t | _ => None end) es.
Fixpoint from_set (ts : list timeval) : list timeval :=
  match ts with
  | [] => []
  | t :: ts' => if (tv_sec t =? 0) && (tv_usec t =? 0) then from_set ts' else t :: ts'
  end.
Definition zero_time : timeval := mk_timeval 0 0.
Definition first_last (ts : list timeval) : timeval * timeval :=
  match ts with
  | [] => (zero_time, zero_time)
  | t :: ts => (t, default zero_time (last ts))
  end.

(** The table of a dump. *)
Definition dumped (es : list event) : list line :=
  [Packet_count (tally is_sent es)] ++
  imap (fun i name =>
          let p := Z.of_nat i in
          let count := tally (adds p 0) es in
          Row name count (tally (adds p 1) es) (tally (adds p 2) es)
            (if negb (count =? 0) then Some (average (tally (adds p 3) es) count) else None)) nfsv3_proc_vals ++
  [Successful (percent (tally is_ok es) (tally is_sent es)); Failed (percent (tally is_failed es) (tally is_sent es))].
