(* ===== verification/NfsStatCorrect.v ===== *)
(** * The statistics are right

    The counters of [NfsStat] against the history of the calls that update
    them. *)

From S2P Require Import Prelude NfsTypes Floating NfsStat.
From Stdlib Require Import String SpecFloat.

#[local] Open Scope Z_scope.

(** ** Tallies *)

Lemma total_snoc f es e : total f (es ++ [e]) = total f es + f e.
Proof. unfold total. by rewrite foldl_app. Qed.

Lemma tally_snoc f es e : tally f (es ++ [e]) = u64 (tally f es + f e).
Proof. unfold tally, wrap. by rewrite total_snoc, Zplus_mod_idemp_l. Qed.

Lemma tally_same f es e : f e = 0 -> tally f (es ++ [e]) = tally f es.
Proof. intros He. unfold tally. rewrite total_snoc, He. by rewrite Z.add_0_r. Qed.

Lemma u64_add_r a b : u64 (a + u64 b) = u64 (a + b).
Proof. unfold wrap. by rewrite Zplus_mod_idemp_r. Qed.

Lemma u64_add_l a b : u64 (u64 a + b) = u64 (a + b).
Proof. unfold wrap. by rewrite Zplus_mod_idemp_l. Qed.

(** ** The table *)

Definition table (f : nat -> nat -> Z) : list (list Z) := (fun p => f p <$> seq 0 NFSSTAT_COLS) <$> seq 0 NFSSTAT_ROWS.
Definition counts (es : list event) : nat -> nat -> Z := fun p col => tally (adds (Z.of_nat p) col) es.

Lemma table_ext f g : (forall p col, (p < 22)%nat -> (col < 4)%nat -> f p col = g p col) -> table f = table g.
Proof.
  intros H. unfold table, NFSSTAT_ROWS, NFSSTAT_COLS. apply list_fmap_ext. intros p x Hx.
  apply lookup_seq in Hx as [-> Hx]. apply list_fmap_ext. intros c y Hy. apply lookup_seq in Hy as [-> Hy].
  apply H; lia.
Qed.

Lemma alter_seq {A} (g : A -> A) (f : nat -> A) k n :
  alter g k (f <$> seq 0 n) = (fun i => if Nat.eqb i k then g (f i) else f i) <$> seq 0 n.
Proof.
  apply list_eq. intros i. rewrite list_lookup_fmap. destruct (decide (i = k)) as [->|Hne].
  - rewrite list_lookup_alter_eq, list_lookup_fmap. destruct (seq 0 n !! k) as [j|] eqn:E; [|done].
    apply lookup_seq in E as [-> _]. cbn. by rewrite Nat.eqb_refl.
  - rewrite list_lookup_alter_ne by done. rewrite list_lookup_fmap.
    destruct (seq 0 n !! i) as [j|] eqn:E; [|done]. apply lookup_seq in E as [-> _]. cbn.
    by rewrite (proj2 (Nat.eqb_neq i k)).
Qed.

Lemma alter_table v p col f :
  alter (alter (fun c => u64 (c + v)) col) p (table f) =
  table (fun q c => if Nat.eqb q p && Nat.eqb c col then u64 (f q c + v) else f q c).
Proof.
  unfold table. rewrite alter_seq. apply list_fmap_ext. intros i q _.
  destruct (Nat.eqb q p); cbn [andb]; [by rewrite alter_seq|done].
Qed.

(** ** The invariant *)

Definition responses (tmetry : Z) (es : list event) : list line :=
  if tmetry =? NFSSTAT_TELEMETRY_ON
  then omap (fun e => match e with
                      | Timed p c r => Some (Response p (usecs_to_msec (timeval_to_usecs c))
                                                          (usecs_to_msec (u64 (timeval_to_usecs r - timeval_to_usecs c))))
                      | _ => None end) es
  else [].

(** The state that the history [es] leads to. *)
Definition after (file : list line) (tmetry : Z) (es : list event) : nfsstat_ctx :=
  mk_nfsstat_ctx (tally is_sent es) (table (counts es))
    (fst (first_last (from_set (frames es)))) (snd (first_last (from_set (frames es))))
    (tally is_timed es) (tally duration es) tmetry (file ++ responses tmetry es).

Lemma add_count_spec p col v es e s :
  0 <= p < 22 -> proc_pkt_count s = table (counts es) ->
  (forall q c, (q < 22)%nat -> (c < 4)%nat ->
     u64 (adds (Z.of_nat q) c e) = if Nat.eqb q (Z.to_nat p) && Nat.eqb c col then u64 v else 0) ->
  add_count p col v s = Some (set_counts (table (counts (es ++ [e]))) s).
Proof.
  intros Hp Hs He. unfold add_count. change (Z.of_nat NFSSTAT_ROWS) with 22. rewrite (proj2 (Z.leb_le 0 p)), (proj2 (Z.ltb_lt p 22)) by lia. cbn [andb].
  rewrite Hs, alter_table. do 2 f_equal. apply table_ext. intros q c Hq Hc. unfold counts. rewrite tally_snoc.
  rewrite <- (u64_add_r _ (adds _ _ _)), (He q c Hq Hc). destruct (_ && _); [by rewrite u64_add_r|].
  rewrite Z.add_0_r. unfold tally. symmetry. apply wrap_small, wrap_is_u. lia.
Qed.

Lemma counts_same es e : (forall q c, adds q c e = 0) -> table (counts (es ++ [e])) = table (counts es).
Proof. intros He. apply table_ext. intros p c _ _. by apply tally_same. Qed.

Lemma frames_snoc es e : frames (es ++ [e]) = frames es ++ frames [e].
Proof. unfold frames. by rewrite omap_app. Qed.

Lemma responses_snoc tm es e : responses tm (es ++ [e]) = responses tm es ++ responses tm [e].
Proof. unfold responses. case_match; [by rewrite omap_app|done]. Qed.

Lemma is_zero_time t : (tv_sec t =? 0) && (tv_usec t =? 0) = true -> t = zero_time.
Proof. intros H. apply andb_true_iff in H as [H1%Z.eqb_eq H2%Z.eqb_eq]. destruct t. cbn in *. by subst. Qed.

Lemma from_set_snoc ts t :
  first_last (from_set (ts ++ [t])) =
  (let '(t1, t2) := first_last (from_set ts) in
   if (tv_sec t1 =? 0) && (tv_usec t1 =? 0) then (t, t2) else (t1, t)).
Proof.
  induction ts as [|t0 ts IH]; cbn [from_set app].
  - cbn. destruct (_ && _) eqn:E; [by rewrite (is_zero_time t E)|done].
  - destruct (_ && _) eqn:E; [done|]. cbn. by rewrite E, last_snoc.
Qed.

(** The cells an event about procedure [p] touches. *)
Ltac each_cell p :=
  intros q c Hq Hc; destruct c as [|[|[|[|c]]]]; [..|lia]; cbn -[Z.of_nat];
  destruct (Nat.eqb_spec q (Z.to_nat p)); cbn [andb]; subst;
  rewrite ?Z2Nat.id, ?Z.eqb_refl by lia; try rewrite (proj2 (Z.eqb_neq p (Z.of_nat q))) by lia; try done.

#[local] Opaque wrap.

Lemma no_frame es e : (forall t, e <> Frame t) -> frames (es ++ [e]) = frames es.
Proof. intros He. rewrite frames_snoc. destruct e; try apply (right_id_L [] app). by destruct (He t). Qed.

Lemma no_response tm es e : is_timed e = 0 -> responses tm (es ++ [e]) = responses tm es.
Proof. intros He. rewrite responses_snoc. unfold responses. destruct e, (tm =? _); try done; apply (right_id_L [] app). Qed.

Lemma handle_spec file tm es e : known e ->
  handle e (Some (after file tm es)) = Some (Some (after file tm (es ++ [e]))).
Proof.
  intros Hk. unfold after at 2.
  destruct e as [p|p st|t|p ca re]; cbn [known] in Hk;
    cbn [handle nfsstat_update_packet_counter nfsstat_update_status_counter nfsstat_update_response_times nfsstat_update_ops_per_sec].
  - rewrite (add_count_spec p NFSSTAT_COL_TOTAL 1 es (Sent p)) by first [reflexivity | lia | each_cell p].
    rewrite tally_snoc, (tally_same is_timed), (tally_same duration), no_frame, no_response by done. done.
  - destruct (st =? NFS3_OK) eqn:E.
    + rewrite (add_count_spec p NFSSTAT_COL_SUCCESS 1 es (Answered p st)) by first [reflexivity | lia | each_cell p; by rewrite E].
      rewrite !tally_same, no_frame, no_response by done. done.
    + rewrite (add_count_spec p NFSSTAT_COL_FAILED 1 es (Answered p st)) by first [reflexivity | lia | each_cell p; by rewrite E].
      rewrite !tally_same, no_frame, no_response by done. done.
  - rewrite !tally_same, counts_same, no_response by (done || (intros ? [|[|[|[|?]]]]; done)). rewrite frames_snoc.
    change (frames [Frame t]) with [t]. rewrite from_set_snoc. unfold set_times, after.
    cbn [packet_count proc_pkt_count starttime endtime restime_packet_count restime_usecs telemetry statsfile].
    destruct (first_last (from_set (frames es))) as [t1 t2]. cbn [fst snd]. by destruct (_ && _).
  - cbv zeta. rewrite (add_count_spec p NFSSTAT_COL_RESTIME _ es (Timed p ca re))
      by first [reflexivity | lia | each_cell p; symmetry; apply wrap_small, wrap_is_u; lia].
    rewrite (tally_same is_sent), !tally_snoc, no_frame, responses_snoc by done.
    unfold after, set_counts, set_restime, TELEMETRY_ON, fprintf, responses.
    cbn [mbind option_bind packet_count proc_pkt_count starttime endtime restime_packet_count restime_usecs telemetry statsfile].
    rewrite u64_add_r. destruct (tm =? _); cbn; rewrite <- ?(assoc_L app); done.
Qed.

Lemma handle_all_after file tm es : Forall known es ->
  handle_all es (Some (after file tm [])) = Some (Some (after file tm es)).
Proof.
  induction es as [|e es IH] using rev_ind; intros Hk; [done|]. apply Forall_app in Hk as [Hk He].
  unfold handle_all in *. rewrite foldl_app, IH by done. apply handle_spec. by inversion He.
Qed.

(** ** Dumps *)

Fixpoint sum (f : nat -> Z) (i n : nat) : Z :=
  match n with O => 0 | S n => f i + sum f (S i) n end.

Lemma sum_add f g i n : sum (fun p => f p + g p) i n = sum f i n + sum g i n.
Proof. revert i. induction n as [|n IH]; intros i; cbn [sum]; [done|]. rewrite IH. lia. Qed.

Lemma sum_ext f g i n : (forall p, (i <= p < i + n)%nat -> f p = g p) -> sum f i n = sum g i n.
Proof.
  revert i. induction n as [|n IH]; intros i H; cbn [sum]; [done|].
  rewrite (H i), (IH (S i)) by (intros; apply H; lia) || lia. done.
Qed.

Lemma sum_0 i n : sum (fun _ => 0) i n = 0.
Proof. revert i. induction n as [|n IH]; intros i; cbn [sum]; [done|]. by rewrite IH. Qed.

Lemma sum_one p v i n : sum (fun q => if Nat.eqb p q then v else 0) i n = if decide (i <= p < i + n)%nat then v else 0.
Proof.
  revert i. induction n as [|n IH]; intros i; cbn [sum]; [by rewrite decide_False by lia|].
  rewrite IH. destruct (Nat.eqb_spec p i); repeat case_decide; lia.
Qed.

Lemma sum_wrap f i n : u64 (sum (fun p => u64 (f p)) i n) = u64 (sum f i n).
Proof.
  revert i. induction n as [|n IH]; intros i; cbn [sum]; [done|].
  by rewrite u64_add_l, <- u64_add_r, IH, u64_add_r.
Qed.

(** What all procedures together have in a column. *)
Lemma column_total col f es : (forall e, known e -> sum (fun p => adds (Z.of_nat p) col e) 0 22 = f e) ->
  Forall known es -> u64 (sum (fun p => counts es p col) 0 22) = tally f es.
Proof.
  intros Hf Hk. unfold counts, tally. rewrite sum_wrap. f_equal. revert Hk.
  induction es as [|e es IH] using rev_ind; intros Hk; [apply sum_0|].
  apply Forall_app in Hk as [Hk He]. rewrite total_snoc, <- IH, <- (Hf e) by (done || by inversion He).
  rewrite <- sum_add. apply sum_ext. intros p _. apply total_snoc.
Qed.

Lemma adds_ok e : known e -> sum (fun p => adds (Z.of_nat p) 1 e) 0 22 = is_ok e.
Proof.
  intros Hk. destruct e as [p|p st|t|p ca re]; try apply sum_0. cbn [known is_ok adds] in *.
  rewrite (sum_ext _ (fun q => if Nat.eqb (Z.to_nat p) q then (if st =? NFS3_OK then 1 else 0) else 0)).
  - rewrite sum_one, decide_True by lia. done.
  - intros q _. destruct (Nat.eqb_spec (Z.to_nat p) q), (Z.eqb_spec p (Z.of_nat q)); try lia; done.
Qed.

Lemma adds_failed e : known e -> sum (fun p => adds (Z.of_nat p) 2 e) 0 22 = is_failed e.
Proof.
  intros Hk. destruct e as [p|p st|t|p ca re]; try apply sum_0. cbn [known is_failed adds] in *.
  rewrite (sum_ext _ (fun q => if Nat.eqb (Z.to_nat p) q then (if st =? NFS3_OK then 0 else 1) else 0)).
  - rewrite sum_one, decide_True by lia. done.
  - intros q _. destruct (Nat.eqb_spec (Z.to_nat p) q), (Z.eqb_spec p (Z.of_nat q)), (st =? NFS3_OK); try lia; done.
Qed.

Lemma table_lookup f p : (p < 22)%nat -> table f !! p = Some (f p <$> seq 0 NFSSTAT_COLS).
Proof. intros Hp. unfold table. by rewrite list_lookup_fmap, lookup_seq_lt. Qed.

Definition row_of (es : list event) (i : nat) (name : string) : line :=
  let p := Z.of_nat i in
  let count := tally (adds p 0) es in
  Row name count (tally (adds p 1) es) (tally (adds p 2) es)
    (if negb (count =? 0) then Some (average (tally (adds p 3) es) count) else None).

Lemma fprintf_fprintf l l' s : fprintf l' (fprintf l s) = fprintf (l ++ l') s.
Proof. unfold fprintf. cbn. by rewrite (assoc_L app). Qed.

Lemma dump_rows_spec es n i ok bad s : (i + n = 22)%nat -> proc_pkt_count s = table (counts es) ->
  is_u 64 ok -> is_u 64 bad ->
  dump_rows n i ok bad s =
    Some (u64 (ok + sum (fun p => counts es p 1) i n), u64 (bad + sum (fun p => counts es p 2) i n),
          fprintf (imap (fun k => row_of es (i + k)) (drop i nfsv3_proc_vals)) s).
Proof.
  revert i ok bad s. induction n as [|n IH]; intros i ok bad s Hi Hs Hok Hbad.
  - assert (i = 22)%nat as -> by lia. cbn [sum dump_rows]. rewrite !Z.add_0_r, !wrap_small by done.
    unfold fprintf. cbn [drop nfsv3_proc_vals imap]. rewrite (right_id_L [] app). by destruct s.
  - destruct (lookup_lt_is_Some_2 nfsv3_proc_vals i) as [name Hname]; [cbn; lia|].
    cbn [dump_rows sum]. rewrite Hs, table_lookup, Hname by lia. cbn [mbind option_bind].
    change (counts es i <$> seq 0 NFSSTAT_COLS) with [counts es i 0; counts es i 1; counts es i 2; counts es i 3].
    cbn [lookup list_lookup NFSSTAT_COL_SUCCESS NFSSTAT_COL_FAILED NFSSTAT_COL_RESTIME NFSSTAT_COL_TOTAL mbind option_bind].
    rewrite IH by (lia || done || (apply wrap_is_u; lia)). rewrite fprintf_fprintf, !u64_add_l, !Z.add_assoc.
    do 3 f_equal. rewrite (drop_S _ name i Hname), imap_cons. cbn [app]. f_equal; [by rewrite Nat.add_0_r|].
    apply imap_ext. intros k x _. cbn. by rewrite Nat.add_succ_r.
Qed.

(** [C23] The counters are the history's: after any sequence of updates, from the
    state [nfsstat_init] makes, the packets, the replies by procedure and status,
    the response times in all and by procedure, and the times of the first and
    the last frame are those of the updates, modulo 2^64; telemetry has a line for
    every response time; and a dump prints these numbers, with totals over the 22
    procedures.  When there is no memory the pointer is NULL and every update is a
    no-op. *)
Theorem nfsstat_counts file tm h stats h' es : nfsstat_init file tm h = (stats, h') -> Forall known es ->
  match stats with
  | None => handle_all es None = Some None
  | Some _ => exists s s', handle_all es stats = Some (Some s) /\ dump_packet_counter (Some s) = Some (Some s') /\
      packet_count s = tally is_sent es /\
      (forall p col, (p < 22)%nat -> (col < 4)%nat ->
         (row ← proc_pkt_count s !! p; row !! col) = Some (tally (adds (Z.of_nat p) col) es)) /\
      restime_packet_count s = tally is_timed es /\ restime_usecs s = tally duration es /\
      (starttime s, endtime s) = first_last (from_set (frames es)) /\
      statsfile s = file ++ responses tm es /\ statsfile s' = statsfile s ++ dumped es
  end.
Proof.
  unfold nfsstat_init. intros Hi Hk. destruct (mem_alloc h) as [[] h1]; cbn [negb] in Hi; injection Hi as <- <-.
  - match goal with |- context [handle_all es (Some ?s)] => replace s with (after file tm []) end.
    2: { unfold after, responses. cbn. destruct (tm =? _); rewrite (right_id_L [] app); done. }
    rewrite handle_all_after by done. exists (after file tm es), (fprintf (dumped es) (after file tm es)).
    split; [done|split; [|split_and!; try done]].
    + unfold dump_packet_counter. rewrite (dump_rows_spec es) by (lia || done).
      rewrite !Z.add_0_l, (column_total 1 is_ok), (column_total 2 is_failed) by auto using adds_ok, adds_failed.
      cbn [mbind option_bind]. rewrite !fprintf_fprintf. done.
    + intros p col Hp Hc. cbn [after proc_pkt_count]. rewrite table_lookup by done. cbn [mbind option_bind].
      by rewrite list_lookup_fmap, lookup_seq_lt.
    + symmetry. apply surjective_pairing.
  - clear. induction es as [|e es IH] using rev_ind; [done|]. unfold handle_all in *. rewrite foldl_app, IH. by destruct e.
Qed.

(** Two packets, an answer of each kind, two frames and a response time. *)
Definition history : list event :=
  [Sent 3; Frame (mk_timeval 10 5); Answered 3 NFS3_OK; Timed 3 (mk_timeval 10 5) (mk_timeval 12 0);
   Sent 6; Answered 6 NFS3ERR_IO; Frame (mk_timeval 13 0)].
Lemma nfsstat_counts_witness : Forall known history /\ exists s s' h',
  nfsstat_init [] 1 (mk_heap 0 0 (fun _ => true)) = (Some s, h') /\ h_live h' = 2%nat /\
  handle_all history (Some s) = Some (Some s') /\ tally is_sent history = 2 /\ packet_count s' = 2 /\
  restime_usecs s' = 1999995 /\ (starttime s', endtime s') = (mk_timeval 10 5, mk_timeval 13 0).
Proof.
  assert (Hk : Forall known history) by (repeat constructor; cbn; lia). split; [done|].
  pose proof (nfsstat_counts [] 1 (mk_heap 0 0 (fun _ => true)) _ _ history eq_refl Hk) as H.
  destruct H as (s & s' & Hs & _ & Hp & _ & _ & Hu & Ht & _).
  eexists _, s, _. split; [reflexivity|]. split; [reflexivity|]. split; [exact Hs|]. split; [reflexivity|].
  split; [by rewrite Hp|]. split; [by rewrite Hu|]. by rewrite Ht.
Defined.

(** ** Rates *)










