(* ===== verification/Tickrate.v ===== *)
(** * The tick rate: [src/src/tickrate.c], [src/include/tickrate.h]

    The rate of the processor's tick counter against the clock, by linear
    regression.  What the clock, the counter and [drand48] return is the input. *)

From S2P Require Import Prelude Floating NfsStat.
From Stdlib Require Import SpecFloat QArith.
#[local] Open Scope Z_scope.

(** ** Readings *)

(** [gettimeofday] in microseconds. *)
Definition timeofday_usecs (t : timeval) : Z := u64 (u64 (u64 (tv_sec t) * 1000000) + u64 (tv_usec t)).

(** [tick_count] on amd64 puts the two halves together; where the counter cannot be
    read it is the clock. *)
Definition tick_count_amd64 (a d : Z) : Z := Z.lor a (u64 (Z.shiftl d 32)).
Definition tick_count_other (t : timeval) : Z := timeofday_usecs t.

(** What [select] is to wait. *)
Definition selectsleep (us : Z) : timeval := mk_timeval 0 us.

Definition ticks_to_usecs (ticks : Z) (tickrate : spec_float) : option Z :=
  to_u64 (fdiv binary64 (of_int binary64 ticks) tickrate).

(** ** Calibration *)

(** The arithmetic of the sums. *)
Class Arith (R : Type) := {
  a_int : Z -> R;
  a_add : R -> R -> R;
  a_sub : R -> R -> R;
  a_mul : R -> R -> R;
  a_div : R -> R -> R
}.
#[export] Instance double_arith : Arith spec_float := {|
  a_int := of_int binary64; a_add := fadd binary64; a_sub := fsub binary64; a_mul := fmul binary64; a_div := fdiv binary64
|}.

(** The answers in one round: [drand48], then clock and counter before and after
    the sleep; the counter is read first. *)
Record round := mk_round {
  r_ran : spec_float;
  r_now : timeval;
  r_start : Z;
  r_ticks : Z;
  r_time : timeval
}.

(** [100000 + ran * 200000], as the [unsigned] that is slept. *)
Definition sleeptime (ran : spec_float) : option Z :=
  to_u32 (fadd binary64 (of_int binary64 100000) (fmul binary64 ran (of_int binary64 200000))).

(** [real] and [ticks] of a round; [None] when the sleep is not defined. *)
Definition measure (r : round) : option (Z * Z) :=
  _ ← sleeptime (r_ran r);
  let ticks := u64 (r_ticks r - r_start r) in
  let real := u64 (timeofday_usecs (r_time r) - timeofday_usecs (r_now r)) in
  Some (real, ticks).

Section calibrate.
Context {R : Type} `{Arith R}.

Record sums := mk_sums {
  sumx : R;
  sumy : R;
  sumxx : R;
  sumxy : R
}.
Definition no_sums : sums := mk_sums (a_int 0) (a_int 0) (a_int 0) (a_int 0).

Definition add_round (s : sums) (m : Z * Z) : sums :=
  let real := a_int m.1 in
  let ticks := a_int m.2 in
  mk_sums (a_add (sumx s) real) (a_add (sumy s) ticks) (a_add (sumxx s) (a_mul real real)) (a_add (sumxy s) (a_mul real ticks)).

Definition slope (runs : Z) (s : sums) : R :=
  a_div (a_sub (sumxy s) (a_div (a_mul (sumx s) (sumy s)) (a_int runs)))
        (a_sub (sumxx s) (a_div (a_mul (sumx s) (sumx s)) (a_int runs))).

(** [for (i = 0; i < runs; i++)] compares as [unsigned]. *)
Definition rounds (runs : Z) : nat := Z.to_nat (u32 runs).

Fixpoint calibrate_loop (n i : nat) (answers : nat -> round) (s : sums) : option sums :=
  match n with
  | O => Some s
  | S n => m ← measure (answers i); calibrate_loop n (S i) answers (add_round s m)
  end.

Definition calibrate_with (runs : Z) (answers : nat -> round) : option R :=
  s ← calibrate_loop (rounds runs) 0 answers no_sums; Some (slope runs s).
End calibrate.
Arguments sums : clear implicits.

Definition calibrate_tickrate (runs : Z) (answers : nat -> round) : option spec_float :=
  calibrate_with (R := spec_float) runs answers.

(** ** The counter *)

(** The two halves do not overlap. *)
Lemma tick_count_amd64_ok a d : is_u 32 a -> is_u 32 d ->
  tick_count_amd64 a d = a + d * 2 ^ 32 /\ is_u 64 (tick_count_amd64 a d).
Proof.
  unfold is_u, tick_count_amd64. intros Ha Hd. rewrite Z.shiftl_mul_pow2, (wrap_small 64) by (unfold is_u; lia).
  assert (E : Z.land a (d * 2 ^ 32) = 0).
  { apply Z.bits_inj'. intros i Hi. rewrite Z.land_spec, Z.bits_0. destruct (Z.lt_ge_cases i 32).
    - by rewrite Z.mul_pow2_bits_low, andb_false_r.
    - by rewrite (testbit_is_u_high 32) by (done || lia). }
  rewrite <- Z.lxor_lor, <- Z.add_nocarry_lxor by done. lia.
Qed.

(** ** Calibration is a linear regression *)

(** With exact arithmetic. *)
#[export] Instance rational_arith : Arith Q := {|
  a_int := inject_Z; a_add := Qplus; a_sub := Qminus; a_mul := Qmult; a_div := Qdiv
|}.

(** Integer sums over the measurements [l]. *)
Definition zsum (f : Z * Z -> Z) (l : list (Z * Z)) : Z := foldr (fun m n => f m + n) 0 l.
Definition Sx := zsum (fun m => m.1).
Definition Sy := zsum (fun m => m.2).
Definition Sxx := zsum (fun m => m.1 * m.1).
Definition Sxy := zsum (fun m => m.1 * m.2).

Definition sums_are (s : sums Q) (x y xx xy : Z) : Prop :=
  (sumx s == inject_Z x /\ sumy s == inject_Z y /\ sumxx s == inject_Z xx /\ sumxy s == inject_Z xy)%Q.

Lemma add_round_sums s x y xx xy m : sums_are s x y xx xy ->
  sums_are (add_round s m) (x + m.1) (y + m.2) (xx + m.1 * m.1) (xy + m.1 * m.2).
Proof.
  intros (H1 & H2 & H3 & H4). unfold sums_are, add_round. cbn. rewrite H1, H2, H3, H4, !inject_Z_plus, !inject_Z_mult. done.
Qed.

(** The measurements of the rounds from [i] on. *)
Fixpoint measurements (n i : nat) (answers : nat -> round) : option (list (Z * Z)) :=
  match n with
  | O => Some []
  | S n => m ← measure (answers i); l ← measurements n (S i) answers; Some (m :: l)
  end.

Lemma calibrate_loop_sums n answers l : forall i s x y xx xy, measurements n i answers = Some l -> sums_are s x y xx xy ->
  exists s', calibrate_loop n i answers s = Some s' /\
    sums_are s' (x + Sx l) (y + Sy l) (xx + Sxx l) (xy + Sxy l).
Proof.
  revert l. induction n as [|n IH]; intros l i s x y xx xy; cbn [measurements calibrate_loop].
  - intros [= <-] Hs. exists s. cbn. by rewrite !Z.add_0_r.
  - destruct (measure (answers i)) as [m|]; [|done]. cbn [mbind option_bind].
    destruct (measurements n (S i) answers) as [l'|] eqn:E; [|done]. cbn [mbind option_bind]. intros [= <-] Hs.
    destruct (IH l' (S i) _ _ _ _ _ E (add_round_sums _ _ _ _ _ m Hs)) as (s' & E' & Hs'). exists s'. split; [done|].
    unfold Sx, Sy, Sxx, Sxy, zsum in *. cbn [foldr]. by rewrite !Z.add_assoc.
Qed.

Lemma length_measurements n answers l : forall i, measurements n i answers = Some l -> length l = n.
Proof.
  revert l. induction n as [|n IH]; intros l i; cbn; [by intros [= <-]|].
  destruct (measure _) as [m|]; [|done]. cbn. destruct (measurements n (S i) answers) eqn:E; [|done]. cbn. intros [= <-].
  cbn. by rewrite (IH _ _ E).
Qed.

(** The spread of the measurements about [x]. *)
Definition spread (x : Z) (l : list (Z * Z)) : Z := zsum (fun m => (x - m.1) * (x - m.1)) l.

Lemma spread_eq x l : spread x l = Z.of_nat (length l) * (x * x) + Sxx l - 2 * x * Sx l.
Proof.
  induction l as [|m l IH]; [cbn; lia|]. unfold spread, Sxx, Sx, zsum in *. cbn [foldr length]. rewrite IH, Nat2Z.inj_succ. ring.
Qed.

Lemma spread_nonneg x l : 0 <= spread x l.
Proof.
  induction l as [|m l IH]; [done|]. unfold spread, zsum in *. cbn [foldr]. pose proof (Z.square_nonneg (x - m.1)). lia.
Qed.

Lemma spread_zero x l : spread x l = 0 -> Forall (fun m => m.1 = x) l.
Proof.
  induction l as [|m l IH]; [by constructor|]. pose proof (spread_nonneg x l) as H. unfold spread, zsum in *. cbn [foldr].
  intros E. pose proof (Z.square_nonneg (x - m.1)). constructor; [nia|apply IH; lia].
Qed.

(** [n sum(x^2) - sum(x)^2], which is zero only when all [x] are the same. *)
Definition variance (l : list (Z * Z)) : Z := Z.of_nat (length l) * Sxx l - Sx l * Sx l.

Lemma variance_cons m l : variance (m :: l) = variance l + spread m.1 l.
Proof.
  rewrite spread_eq. unfold variance, Sxx, Sx, zsum. cbn [foldr length]. rewrite Nat2Z.inj_succ. ring.
Qed.

Lemma variance_nonneg l : 0 <= variance l.
Proof. induction l as [|m l IH]; [done|]. rewrite variance_cons. pose proof (spread_nonneg m.1 l). lia. Qed.

Lemma variance_pos l m m' : m ∈ l -> m' ∈ l -> m.1 <> m'.1 -> 0 < variance l.
Proof.
  intros Hm Hm' Hne. pose proof (variance_nonneg l). destruct (decide (variance l = 0)) as [E|]; [|lia].
  destruct l as [|m0 l]; [by apply not_elem_of_nil in Hm|]. rewrite variance_cons in E.
  pose proof (variance_nonneg l). pose proof (spread_nonneg m0.1 l). assert (Hs : spread m0.1 l = 0) by lia.
  apply spread_zero in Hs. assert (Ha : forall k, k ∈ m0 :: l -> k.1 = m0.1).
  { intros k Hk. apply elem_of_cons in Hk as [->|Hk]; [done|]. by eapply (Forall_forall _ l) in Hs. }
  by rewrite (Ha m Hm), (Ha m' Hm') in Hne.
Qed.

(** On a line the sums of the ticks follow those of the times. *)
Lemma line_sums (k c : Q) l : (forall m, m ∈ l -> (inject_Z m.2 == k * inject_Z m.1 + c)%Q) ->
  (inject_Z (Sy l) == k * inject_Z (Sx l) + c * inject_Z (Z.of_nat (length l)) /\
   inject_Z (Sxy l) == k * inject_Z (Sxx l) + c * inject_Z (Sx l))%Q.
Proof.
  induction l as [|m l IH]; intros Hl; [by split; cbn; ring|].
  destruct IH as [IH1 IH2]; [intros; apply Hl; by right|]. assert (Hm := Hl m (list_elem_of_here _ _)).
  unfold Sy, Sx, Sxy, Sxx, zsum in *. cbn [foldr length]. rewrite Nat2Z.inj_succ. unfold Z.succ.
  rewrite !inject_Z_plus, !inject_Z_mult, IH1, IH2, Hm. split; ring.
Qed.

(** Calibration with exact arithmetic: over at least two rounds that did not all
    last equally long, when the counter advances by [k] ticks per microsecond and a
    constant [c] on top of that, the result is [k], whatever [c]: the time spent in
    the calls themselves does not count. *)
Theorem calibrate_exact runs answers l (k c : Q) m m' :
  0 <= runs < 2 ^ 31 -> measurements (Z.to_nat runs) 0 answers = Some l ->
  (forall m, m ∈ l -> (inject_Z m.2 == k * inject_Z m.1 + c)%Q) -> m ∈ l -> m' ∈ l -> m.1 <> m'.1 ->
  exists r, calibrate_with (R := Q) runs answers = Some r /\ (r == k)%Q.
Proof.
  intros Hr El Hl Hm Hm' Hne. unfold calibrate_with, rounds. rewrite wrap_small by (unfold is_u; lia).
  destruct (calibrate_loop_sums _ _ _ 0 no_sums 0 0 0 0 El) as (s & Es & Hx & Hy & Hxx & Hxy); [by split_and!|].
  rewrite Es. cbn [mbind option_bind]. eexists. split; [done|]. rewrite !Z.add_0_l in Hx, Hy, Hxx, Hxy.
  pose proof (variance_pos l m m' Hm Hm' Hne) as HV. destruct (line_sums k c l Hl) as [Ly Lxy].
  assert (HN : Z.of_nat (length l) = runs) by (rewrite (length_measurements _ _ _ _ El); lia).
  unfold slope. cbn. rewrite Hx, Hy, Hxx, Hxy, Ly, Lxy, HN.
  assert (Hruns : ~ (inject_Z runs == 0)%Q).
  { change 0%Q with (inject_Z 0). rewrite inject_Z_injective. destruct l; [by apply not_elem_of_nil in Hm|]. cbn in HN. lia. }
  assert (HVQ : ~ (inject_Z runs * inject_Z (Sxx l) - inject_Z (Sx l) * inject_Z (Sx l) == 0)%Q).
  { rewrite <- !inject_Z_mult. unfold Qminus. rewrite <- inject_Z_opp, <- inject_Z_plus. change 0%Q with (inject_Z 0).
    rewrite inject_Z_injective. unfold variance in HV. rewrite HN in HV. lia. }
  field. split; [done|]. intros E. apply HVQ. rewrite <- E. ring.
Qed.

(** ** Rounds *)

(** A negative count is taken as an unsigned one: two thousand million rounds at
    least. *)
Lemma rounds_negative runs : - 2 ^ 31 <= runs < 0 -> Z.of_nat (rounds runs) = runs + 2 ^ 32 /\ 2 ^ 31 <= Z.of_nat (rounds runs).
Proof.
  intros Hr. unfold rounds, wrap. rewrite <- (Z_mod_plus_full runs 1), Z.mod_small by lia. lia.
Qed.

(** Three rounds of 100, 101 and 103 milliseconds, 2000 ticks to the microsecond. *)
Definition half : spec_float := Eval vm_compute in fdiv binary64 (of_int binary64 1) (of_int binary64 2).
Definition rounds_ex (i : nat) : round :=
  let us := match i with 0%nat => 100000 | 1%nat => 101000 | _ => 103000 end in
  mk_round half (mk_timeval 5 0) 77 (77 + 2000 * us + 40) (mk_timeval 5 us).

Example sleep_ex : sleeptime half = Some 200000.
Proof. vm_compute. reflexivity. Qed.

(** In double precision, to nine decimals. *)
Example tickrate_ex :
  (fun r => truncate (fmul binary64 r (of_int binary64 (10 ^ 9)))) <$> calibrate_tickrate 3 rounds_ex = Some (Some 2000000000000).
Proof. vm_compute. reflexivity. Qed.

(** No slope from a single round, or from none. *)
Example one_round : calibrate_tickrate 1 rounds_ex = Some S754_nan /\ calibrate_tickrate 0 rounds_ex = Some S754_nan.
Proof. by vm_compute. Qed.

Lemma calibrate_exact_witness :
  exists r, calibrate_with (R := Q) 3 rounds_ex = Some r /\ (r == 2000 # 1)%Q.
Proof.
  apply (calibrate_exact 3 rounds_ex [(100000, 200000040); (101000, 202000040); (103000, 206000040)] (2000 # 1) (40 # 1)
    (100000, 200000040) (101000, 202000040)); [lia|reflexivity| | | |done].
  - intros m Hm. repeat (apply elem_of_cons in Hm as [->|Hm]; [reflexivity|]). by apply not_elem_of_nil in Hm.
  - by left.
  - by right; left.
Defined.
