(* ===== verification/Actors.v ===== *)
(** * The threads of the actors: [src/src/nfscd_ops.c], [src/src/nfs3actor.c]

    The daemon starts a pool of threads that serve requests, and a monitor that
    waits for them to exit.  What they share - the list of [struct actor_status],
    the count, the semaphore of exits - is under one mutex, [ast_lock].  Every
    access to it is a step here; a thread's steps interleave with those of the
    others in any order. *)

From S2P Require Import Prelude Flist Daemon.

(** ** State *)

Record actor_status := mk_actor_status {
  tid : nat;
  exitstat : Z
}.

(** Where the threads stand: an actor ([nfs3_request_actor], then
    [nfscd_notify_actor_exit]), the monitor ([nfscd_actor_monitor]) and the thread
    that starts the pool ([init_nfsclient_thread_pool]). *)
Inductive actor_at :=
  | Starting                (* init_nfs3_actor_thread_state *)
  | Serving                 (* while(1): requests *)
  | Exit_lock (status : Z)  (* nfscd_notify_actor_exit: before the lock *)
  | Exit_mark (status : Z)
  | Exit_post
  | Exit_unlock
  | Ended.
Inductive monitor_at :=
  | M_wait
  | M_lock
  | M_test
  | M_join (pos n : option nat)  (* pthread_join of the actor at pos *)
  | M_reap (pos n : option nat)  (* the rest of the loop's body *)
  | M_unlock.
Inductive starter_at :=
  | S_lock (more : nat)
  | S_start (more : nat)
  | S_unlock (more : nat)
  | S_done.

Inductive who := Actor (t : nat) | Monitor | Starter.

(** A node of the list [actor_threads] is at the address of its [actor_status];
    the thread ids are the positions in [s_actors]. *)
Record state := mk_state {
  ast_lock : option who;
  actor_exit_notify : nat;
  threadcount : Z;
  s_mem : fmem;
  actor_threads : nat;
  s_status : gmap nat actor_status;
  s_actors : list actor_at;
  s_monitor : monitor_at;
  s_starter : starter_at
}.

Definition set_lock (o : option who) (s : state) : state :=
  mk_state o (actor_exit_notify s) (threadcount s) (s_mem s) (actor_threads s) (s_status s) (s_actors s) (s_monitor s) (s_starter s).
Definition set_exits (n : nat) (s : state) : state :=
  mk_state (ast_lock s) n (threadcount s) (s_mem s) (actor_threads s) (s_status s) (s_actors s) (s_monitor s) (s_starter s).
Definition set_list (m : fmem) (st : gmap nat actor_status) (s : state) : state :=
  mk_state (ast_lock s) (actor_exit_notify s) (threadcount s) m (actor_threads s) st (s_actors s) (s_monitor s) (s_starter s).
Definition set_actors (n : Z) (l : list actor_at) (s : state) : state :=
  mk_state (ast_lock s) (actor_exit_notify s) n (s_mem s) (actor_threads s) (s_status s) l (s_monitor s) (s_starter s).
Definition set_actor (t : nat) (a : actor_at) (s : state) : state :=
  set_actors (threadcount s) (<[t := a]> (s_actors s)) s.
Definition set_monitor (p : monitor_at) (s : state) : state :=
  mk_state (ast_lock s) (actor_exit_notify s) (threadcount s) (s_mem s) (actor_threads s) (s_status s) (s_actors s) p (s_starter s).
Definition set_starter (p : starter_at) (s : state) : state :=
  mk_state (ast_lock s) (actor_exit_notify s) (threadcount s) (s_mem s) (actor_threads s) (s_status s) (s_actors s) (s_monitor s) p.

(** [pthread_mutex_lock] and [pthread_mutex_unlock]. *)
Definition take_lock (w : who) (s : state) : option state :=
  match ast_lock s with None => Some (set_lock (Some w) s) | Some _ => None end.
Definition release_lock (s : state) : state := set_lock None s.

(** ** Starting an actor *)

(** [pthread_create], which succeeds, and the entry for the new thread at [ast],
    the block [malloc] returns; [None] is undefined behaviour or a block that is
    not new.  The new thread cannot get at the list before the caller lets go of
    the mutex. *)
Definition __nfscd_startup_actor (ast : nat) (s : state) : option state :=
  match s_mem s !! ast with
  | Some _ => None
  | None =>
      let t := length (s_actors s) in
      let m := <[ast := mk_flist_head None None]> (s_mem s) in
      m ← flist_add_tail (Some ast) (Some (actor_threads s)) m;
      Some (set_list m (<[ast := mk_actor_status t DEFAULT_EXIT_STATUS]> (s_status s))
              (set_actors (threadcount s + 1) (s_actors s ++ [Starting]) s))
  end.

(** The first state of [init_nfsclient_thread_pool]: monitor and mutex are there,
    [tpool] actors are to be started. *)
Definition init_nfsclient_thread_pool (head : nat) (tpool : nat) (m : fmem) : option state :=
  m ← INIT_FLIST_HEAD (Some head) m;
  Some (mk_state None 0 0 m head ∅ [] M_wait (match tpool with O => S_done | S n => S_lock n end)).

(** [nfscd_startup_actor], as often as there are [more] actors. *)
Definition starter_step (ast : nat) (s : state) : option state :=
  match s_starter s with
  | S_lock more => s ← take_lock Starter s; Some (set_starter (S_start more) s)
  | S_start more => s ← __nfscd_startup_actor ast s; Some (set_starter (S_unlock more) s)
  | S_unlock more =>
      Some (set_starter (match more with O => S_done | S n => S_lock n end) (release_lock s))
  | S_done => None
  end.

(** ** Actors *)

(** The loop of [nfscd_notify_actor_exit]: the status of the entries of thread [t]. *)
Definition mark_body (t : nat) (status : Z) (pos : option nat) (s : state) : option state :=
  p ← pos; ast ← s_status s !! p;
  Some (if Nat.eqb (tid ast) t
        then set_list (s_mem s) (<[p := mk_actor_status (tid ast) status]> (s_status s)) s
        else s).
Definition mark_exit (t : nat) (status : Z) (s : state) : option state :=
  pos ← get_next (Some (actor_threads s)) (s_mem s);
  n ← get_next pos (s_mem s);
  flist_for_each_safe s_mem (mark_body t status) (size (s_status s)) pos n (Some (actor_threads s)) s.

(** A step of actor [t].  [errno] says how [init_nfs3_actor_thread_state] ends: in
    success, or with that [errno].  An actor that serves never leaves the loop, so
    that the code after it is not reached. *)
Definition actor_step (t : nat) (errno : option Z) (s : state) : option state :=
  a ← s_actors s !! t;
  match a with
  | Starting => Some (set_actor t (match errno with None => Serving | Some e => Exit_lock e end) s)
  | Serving => None
  | Exit_lock status => s ← take_lock (Actor t) s; Some (set_actor t (Exit_mark status) s)
  | Exit_mark status => s ← mark_exit t status s; Some (set_actor t Exit_post s)
  | Exit_post => Some (set_actor t Exit_unlock (set_exits (S (actor_exit_notify s)) s))
  | Exit_unlock => Some (set_actor t Ended (release_lock s))
  | Ended => None
  end.

(** ** The monitor *)

(** The head of the loop [flist_for_each_safe(iter, tmp, &ctx->actor_threads)]:
    on to [pos], or out. *)
Definition loop_head (pos n : option nat) (s : state) : state :=
  set_monitor (if decide (pos = Some (actor_threads s)) then M_unlock else M_join pos n) s.

(** The body after [pthread_join]: [flist_del(iter)], the actor started again
    when its status says so (at [ast']), [free(ast)]. *)
Definition reap (pos : option nat) (ast' : nat) (s : state) : option state :=
  m ← flist_del pos (s_mem s);
  let s := set_list m (s_status s) s in
  p ← pos; ast ← s_status s !! p;
  s ← (if exitstat ast <? DEFAULT_EXIT_STATUS then __nfscd_startup_actor ast' s else Some s);
  Some (set_list (delete p (s_mem s)) (delete p (s_status s)) s).

Definition ended (t : nat) (s : state) : bool :=
  match s_actors s !! t with Some Ended => true | _ => false end.

Definition monitor_step (ast' : nat) (s : state) : option state :=
  match s_monitor s with
  | M_wait =>
      match actor_exit_notify s with
      | O => None
      | S n => Some (set_monitor M_lock (set_exits n s))
      end
  | M_lock => s ← take_lock Monitor s; Some (set_monitor M_test s)
  | M_test =>
      empty ← flist_empty (Some (actor_threads s)) (s_mem s);
      if (empty : bool) then Some (set_monitor M_unlock s)
      else
        pos ← get_next (Some (actor_threads s)) (s_mem s);
        n ← get_next pos (s_mem s);
        Some (loop_head pos n s)
  | M_join pos n =>
      p ← pos; ast ← s_status s !! p;
      if ended (tid ast) s then Some (set_monitor (M_reap pos n) s) else None
  | M_reap pos n =>
      s ← reap pos ast' s;
      n' ← get_next n (s_mem s);
      Some (loop_head n n' s)
  | M_unlock => Some (set_monitor M_wait (release_lock s))
  end.

(** ** Steps *)

Inductive step : state -> state -> Prop :=
  | step_starter ast s s' : starter_step ast s = Some s' -> step s s'
  | step_actor t errno s s' :
      (forall e, errno = Some e -> 0 <= e) -> actor_step t errno s = Some s' -> step s s'
  | step_monitor ast s s' : monitor_step ast s = Some s' -> step s s'.

(** ** The end *)

(** [pthread_cancel] and [pthread_join]: a thread that connects or serves comes to
    a cancellation point; [pthread_mutex_lock], where a thread that exits is while
    the caller has the mutex, is none. *)
Definition cancel (t : nat) (s : state) : option state :=
  match s_actors s !! t with
  | Some (Starting | Serving | Ended) => Some (set_actor t Ended s)
  | _ => None
  end.

(** The body of the loop of [destroy_nfsclient_thread_pool]. *)
Definition cancel_body (pos : option nat) (s : state) : option state :=
  p ← pos; ast ← s_status s !! p;
  s ← cancel (tid ast) s;
  m ← flist_del pos (s_mem s);
  Some (set_list (delete p m) (delete p (s_status s)) s).

(** [None] when the mutex is not free or a thread cannot be joined; the monitor
    goes on, with a semaphore that has been destroyed. *)
Definition destroy_nfsclient_thread_pool (s : state) : option state :=
  s ← take_lock Starter s;
  empty ← flist_empty (Some (actor_threads s)) (s_mem s);
  s ← (if (empty : bool) then Some s
       else
         pos ← get_next (Some (actor_threads s)) (s_mem s);
         n ← get_next pos (s_mem s);
         flist_for_each_safe s_mem cancel_body (size (s_status s)) pos n (Some (actor_threads s)) s);
  Some (release_lock s).
