(* ===== verification/ActorsCorrect.v ===== *)
(** * What becomes of the actors

    In every state the threads can reach the list of actors is sound, every
    actor that has not exited is on it once, and nothing has undefined
    behaviour.  A single actor is waited for as it should be.  With several, the
    monitor joins also those that still serve, while it holds the mutex that an
    actor needs to exit: from then on neither it nor they get any further. *)

From S2P Require Import Prelude Flist FlistCorrect Daemon Actors.

(** ** Soundness *)

Definition holding (w : who) (s : state) : Prop :=
  match w with
  | Actor t => exists a, s_actors s !! t = Some a /\
      match a with Exit_mark _ | Exit_post | Exit_unlock => True | _ => False end
  | Monitor => match s_monitor s with M_test | M_join _ _ | M_reap _ _ | M_unlock => True | _ => False end
  | Starter => match s_starter s with S_start _ | S_unlock _ => True | _ => False end
  end.

(** The actors that are still to be started. *)
Definition to_start (p : starter_at) : nat :=
  match p with S_lock n | S_start n => S n | S_unlock n => n | S_done => 0 end.

(** The entries [xs] of the list and the actors. *)
Record entries (s : state) (xs : list nat) : Prop := {
  en_list : Flist (s_mem s) (actor_threads s) xs;
  en_status : forall x, is_Some (s_status s !! x) <-> x ∈ xs;
  en_known : forall x ast, s_status s !! x = Some ast -> (tid ast < length (s_actors s))%nat /\ DEFAULT_EXIT_STATUS <= exitstat ast;
  en_once : forall x y a b, s_status s !! x = Some a -> s_status s !! y = Some b -> tid a = tid b -> x = y;
  en_all : forall t a, s_actors s !! t = Some a -> a <> Ended -> exists x ast, s_status s !! x = Some ast /\ tid ast = t
}.

(** Where the loop of the monitor stands: at the first entry that is left. *)
Definition loop_ok (s : state) (xs : list nat) : Prop :=
  match s_monitor s with
  | M_join pos n | M_reap pos n =>
      exists x zs, xs = x :: zs /\ pos = Some x /\ n = position_of (actor_threads s) zs
  | _ => True
  end.

(** [M_reap] comes after the join. *)
Definition joined (s : state) : Prop :=
  match s_monitor s with
  | M_reap (Some x) _ => forall ast, s_status s !! x = Some ast -> ended (tid ast) s = true
  | _ => True
  end.

Record Inv_at (pool : nat) (s : state) (xs : list nat) : Prop := {
  in_entries : entries s xs;
  in_lock : forall w, ast_lock s = Some w <-> holding w s;
  in_status : forall t e, s_actors s !! t = Some (Exit_lock e) \/ s_actors s !! t = Some (Exit_mark e) -> 0 <= e;
  in_loop : loop_ok s xs;
  in_joined : joined s;
  in_count : threadcount s = Z.of_nat (length (s_actors s));
  in_pool : (length (s_actors s) + to_start (s_starter s) = pool)%nat
}.

Definition Inv (pool : nat) (s : state) : Prop := exists xs, Inv_at pool s xs.

Lemma take_lock_inv w s s' : take_lock w s = Some s' -> ast_lock s = None /\ s' = set_lock (Some w) s.
Proof. unfold take_lock. destruct (ast_lock s); [done|]. by intros [= <-]. Qed.

(** Nobody is inside when the mutex is free, and one at most when it is not. *)
Lemma holding_none pool s xs w : Inv_at pool s xs -> ast_lock s = None -> ~ holding w s.
Proof. intros HI E H. apply (in_lock _ _ _ HI) in H. congruence. Qed.
Lemma holding_one pool s xs v w : Inv_at pool s xs -> holding v s -> holding w s -> v = w.
Proof. intros HI H1 H2. apply (in_lock _ _ _ HI) in H1, H2. congruence. Qed.

Lemma lookup_insert_cases {A} (l : list A) t t' a b : <[t := a]> l !! t' = Some b ->
  (t' = t /\ b = a /\ is_Some (l !! t)) \/ (t' <> t /\ l !! t' = Some b).
Proof.
  intros H. destruct (decide (t' = t)) as [->|Hne].
  - left. assert (Hl : (t < length l)%nat). { apply lookup_lt_Some in H. by rewrite length_insert in H. }
    rewrite list_lookup_insert_eq in H by done. injection H as ->. split_and!; [done..|by apply lookup_lt_is_Some].
  - right. by rewrite list_lookup_insert_ne in H.
Qed.

(** ** Steps that leave the list alone *)

Lemma entries_set_actor s xs t a : entries s xs ->
  (a <> Ended -> exists a', s_actors s !! t = Some a' /\ a' <> Ended) -> entries (set_actor t a s) xs.
Proof.
  intros [H1 H2 H3 H4 H5] Ha. constructor; cbn; try done.
  - intros x ast E. rewrite length_insert. exact (H3 x ast E).
  - intros t' b E Hb. apply lookup_insert_cases in E as [(-> & -> & _)|[_ E]]; [|exact (H5 _ _ E Hb)].
    destruct (Ha Hb) as (a' & Ea & Hne). exact (H5 _ _ Ea Hne).
Qed.

Lemma joined_set_actor s t a : joined s -> (ended t s = true -> a = Ended) -> joined (set_actor t a s).
Proof.
  unfold joined. cbn. destruct (s_monitor s) as [| | |?|[x|] ?|]; try done. intros H Ha ast E. specialize (H ast E).
  unfold ended in *. cbn. destruct (decide (tid ast = t)) as [<-|Hne].
  - destruct (s_actors s !! tid ast) as [b|] eqn:Eb; [|done]. rewrite list_lookup_insert_eq by (by eapply lookup_lt_Some).
    destruct b; try done. by rewrite Ha.
  - by rewrite list_lookup_insert_ne.
Qed.

(** What an actor's step asks of the mutex. *)
Definition inside (a : actor_at) : bool :=
  match a with Exit_mark _ | Exit_post | Exit_unlock => true | _ => false end.

Lemma holding_actor t s : holding (Actor t) s <-> exists a, s_actors s !! t = Some a /\ inside a = true.
Proof. cbn. split; intros (a & E & H); exists a; split; try done; by destruct a. Qed.

(** The mutex, when one thread moves, from [a] to [b]: it takes the mutex, lets go
    of it, or neither. *)
Definition lock_moves (v : who) (a b : bool) (lock lock' : option who) : Prop :=
  match a, b with
  | false, true => lock = None /\ lock' = Some v
  | true, false => lock' = None
  | _, _ => lock' = lock
  end.

Lemma lock_move s s' v a b lock' :
  (forall w, ast_lock s = Some w <-> holding w s) ->
  (forall w, w <> v -> holding w s' <-> holding w s) ->
  (holding v s <-> a = true) -> (holding v s' <-> b = true) -> lock_moves v a b (ast_lock s) lock' ->
  forall w, lock' = Some w <-> holding w s'.
Proof.
  intros HL Hw Ha Hb Hm w. pose proof (HL w) as HLw. pose proof (HL v) as HLv.
  assert (Hdec : w = v \/ w <> v).
  { destruct w as [t'| |], v as [t| |]; try (by right); try (by left).
    destruct (decide (t' = t)) as [->|]; [by left|right; congruence]. }
  destruct a, b; cbn in Hm.
  - subst lock'. destruct Hdec as [->|Hd]; [tauto|by rewrite Hw].
  - subst lock'. split; [done|]. intros H. exfalso. destruct Hdec as [->|Hd]; [by apply Hb in H|].
    apply Hw, HLw in H; [|done]. assert (ast_lock s = Some v) by tauto. congruence.
  - destruct Hm as [E ->]. destruct Hdec as [->|Hd]; [split; [by intros; apply Hb|done]|].
    split; [congruence|]. intros H. apply Hw, HLw in H; congruence.
  - subst lock'. rewrite HLw. destruct Hdec as [->|Hd]; [|by rewrite Hw]. rewrite Ha, Hb. done.
Qed.

Lemma lock_set_actor s t a b lock' :
  (forall w, ast_lock s = Some w <-> holding w s) -> s_actors s !! t = Some a ->
  lock_moves (Actor t) (inside a) (inside b) (ast_lock s) lock' ->
  forall w, lock' = Some w <-> holding w (set_actor t b s).
Proof.
  intros HL Ha. assert (Hlt : (t < length (s_actors s))%nat) by (by eapply lookup_lt_Some).
  apply (lock_move s); [done| | |].
  - intros w Hw. destruct w as [t'| |]; [|done..]. cbn. rewrite list_lookup_insert_ne by congruence. done.
  - rewrite holding_actor, Ha. split; [by intros (? & [= <-] & ?)|by exists a].
  - rewrite holding_actor. cbn. rewrite list_lookup_insert_eq by done. split; [by intros (? & [= <-] & ?)|by exists b].
Qed.

Definition monitor_inside (p : monitor_at) : bool :=
  match p with M_test | M_join _ _ | M_reap _ _ | M_unlock => true | _ => false end.
Definition starter_inside (p : starter_at) : bool :=
  match p with S_start _ | S_unlock _ => true | _ => false end.

Lemma lock_set_monitor s p lock' :
  (forall w, ast_lock s = Some w <-> holding w s) ->
  lock_moves Monitor (monitor_inside (s_monitor s)) (monitor_inside p) (ast_lock s) lock' ->
  forall w, lock' = Some w <-> holding w (set_monitor p s).
Proof.
  intros HL. apply (lock_move s); [done| | |].
  - by intros [] Hw.
  - cbn. by destruct (s_monitor s).
  - cbn. by destruct p.
Qed.

Lemma lock_set_starter s p lock' :
  (forall w, ast_lock s = Some w <-> holding w s) ->
  lock_moves Starter (starter_inside (s_starter s)) (starter_inside p) (ast_lock s) lock' ->
  forall w, lock' = Some w <-> holding w (set_starter p s).
Proof.
  intros HL. apply (lock_move s); [done| | |].
  - by intros [] Hw.
  - cbn. by destruct (s_starter s).
  - cbn. by destruct p.
Qed.

(** ** Actors *)

Lemma entries_size s xs : entries s xs -> size (s_status s) = length xs.
Proof.
  intros HE. rewrite <- size_dom. assert (E : dom (s_status s) = list_to_set (C := gset nat) xs).
  { apply set_eq. intros x. rewrite elem_of_dom, elem_of_list_to_set. apply (en_status _ _ HE). }
  rewrite E. apply size_list_to_set. destruct (en_list _ _ HE) as [Hnd _]. by apply NoDup_cons in Hnd as [_ ?].
Qed.

(** The two pointers a safe loop over a list starts with. *)
Lemma loop_start m h xs : Flist m h xs ->
  get_next (Some h) m = Some (position_of h xs) /\
  get_next (position_of h xs) m = Some (position_of h (tail xs)).
Proof.
  intros Hf. split; [by apply next_of_head|]. destruct xs as [|x xs]; [by apply next_of_head|]. by apply (next_of _ _ []).
Qed.

Definition mark (t : nat) (e : Z) (ast : actor_status) : actor_status :=
  if Nat.eqb (tid ast) t then mk_actor_status (tid ast) e else ast.

Lemma mark_exit_ok t e s xs : entries s xs ->
  exists st, mark_exit t e s = Some (set_list (s_mem s) st s) /\ forall x, st !! x = mark t e <$> s_status s !! x.
Proof.
  intros HE. pose proof (en_list _ _ HE) as Hf. destruct (loop_start _ _ _ Hf) as [E1 E2]. unfold mark_exit.
  rewrite E1. cbn [mbind option_bind]. rewrite E2. cbn [mbind option_bind]. rewrite (entries_size _ _ HE).
  set (I := fun zs s0 => exists ys st, xs = ys ++ zs /\ s0 = set_list (s_mem s) st s /\
    forall x, st !! x = (if decide (x ∈ zs) then s_status s !! x else mark t e <$> s_status s !! x)).
  destruct (flist_for_each_safe_ok s_mem (mark_body t e) (actor_threads s) I) with (zs := xs) (s := s) as (s' & -> & HI).
  - intros zs s0 (ys & st & -> & -> & _). by exists ys.
  - intros x zs s0 (ys & st & Exs & -> & Hst).
    assert (Hx : is_Some (s_status s !! x)) by (apply (en_status _ _ HE); rewrite Exs; set_solver).
    destruct Hx as [ast Hx]. unfold mark_body. cbn. rewrite Hst, decide_True, Hx by (by left). cbn.
    assert (Hnd : x ∉ zs).
    { destruct Hf as [Hnd _]. rewrite Exs, ring_perm in Hnd. apply NoDup_cons in Hnd as [Hnd _]. set_solver. }
    eexists. split; [done|]. exists (ys ++ [x]), (<[x := mark t e ast]> st).
    split; [by rewrite <- app_assoc|]. split.
    + unfold mark. destruct (Nat.eqb (tid ast) t); [done|]. rewrite insert_id; [done|]. by rewrite Hst, decide_True by (by left).
    + intros y. destruct (decide (y = x)) as [->|Hy].
      * rewrite lookup_insert_eq, decide_False by done. by rewrite Hx.
      * rewrite lookup_insert_ne, Hst by done. repeat case_decide; try done; set_solver.
  - exists [], (s_status s). split; [done|]. split; [by destruct s|]. intros x. case_decide as Hx; [done|].
    destruct (s_status s !! x) eqn:E; [|done]. destruct Hx. apply (en_status _ _ HE). by eexists.
  - destruct HI as (ys & st & _ & -> & Hst). exists st. split; [done|]. intros x. rewrite Hst. by rewrite decide_False by (apply not_elem_of_nil).
Qed.

Lemma mark_exit_entries t e s xs st : entries s xs -> 0 <= e ->
  (forall x, st !! x = mark t e <$> s_status s !! x) -> entries (set_list (s_mem s) st s) xs.
Proof.
  intros [H1 H2 H3 H4 H5] He Hst.
  assert (Hm : forall x b, st !! x = Some b -> exists a, s_status s !! x = Some a /\ b = mark t e a /\ tid b = tid a).
  { intros x b. rewrite Hst. destruct (s_status s !! x) as [a|]; [|done]. intros [= <-]. exists a. split_and!; [done..|].
    unfold mark. by destruct (Nat.eqb (tid a) t). }
  constructor; cbn.
  - done.
  - intros x. rewrite Hst, fmap_is_Some. apply H2.
  - intros x b E. destruct (Hm x b E) as (a & Ea & -> & ->). destruct (H3 x a Ea) as [Hl Hs]. split; [done|].
    unfold mark. destruct (Nat.eqb (tid a) t); [cbn; unfold DEFAULT_EXIT_STATUS; lia|done].
  - intros x y a b Ea Eb Et. destruct (Hm x a Ea) as (a' & Ea' & _ & Ta), (Hm y b Eb) as (b' & Eb' & _ & Tb).
    apply (H4 x y a' b'); congruence.
  - intros t' a E Hne. destruct (H5 t' a E Hne) as (x & ast & Ex & <-). exists x, (mark t e ast). rewrite Hst, Ex.
    split; [done|]. unfold mark. by destruct (Nat.eqb (tid ast) t).
Qed.

(** The parts of the invariant that an actor's move cannot break. *)
Lemma actor_move pool s xs t a b lock' : Inv_at pool s xs -> s_actors s !! t = Some a ->
  (b <> Ended -> a <> Ended) -> (a = Ended -> b = Ended) ->
  (forall e, b = Exit_lock e \/ b = Exit_mark e -> 0 <= e) ->
  lock_moves (Actor t) (inside a) (inside b) (ast_lock s) lock' ->
  Inv_at pool (set_actor t b (set_lock lock' s)) xs.
Proof.
  intros [HE HL HS Hlp HJ HC HP] Ha H1 H2 H3 Hm. constructor.
  - apply entries_set_actor; [by destruct HE; constructor|]. intros Hb. exists a. by split; [|apply H1].
  - exact (lock_set_actor s t a b lock' HL Ha Hm).
  - intros t' e. cbn. intros [E|E]; apply lookup_insert_cases in E as [(-> & E & _)|[_ E]]; eauto.
  - done.
  - apply joined_set_actor; [done|]. unfold ended. cbn. rewrite Ha. intros Hd. apply H2. by destruct a.
  - cbn. by rewrite length_insert.
  - cbn. by rewrite length_insert.
Qed.

(** A list that is only marked. *)
Lemma Inv_marked pool s xs st : Inv_at pool s xs -> entries (set_list (s_mem s) st s) xs ->
  (forall x ast, st !! x = Some ast -> exists a, s_status s !! x = Some a /\ tid ast = tid a) ->
  Inv_at pool (set_list (s_mem s) st s) xs.
Proof.
  intros [HE HL HS Hlp HJ HC HP] HE' Hst. constructor; try done.
  unfold joined in *. cbn. destruct (s_monitor s) as [| | |?|[x|] ?|]; try done. intros ast E.
  destruct (Hst x ast E) as (a & Ea & ->). by apply HJ.
Qed.

Lemma actor_step_inv pool s t errno s' : Inv pool s -> (forall e, errno = Some e -> 0 <= e) ->
  actor_step t errno s = Some s' -> Inv pool s'.
Proof.
  intros [xs HI] He. unfold actor_step. destruct (s_actors s !! t) as [a|] eqn:Ha; [|done]. cbn [mbind option_bind].
  destruct a as [| |e|e| | |]; try done.
  - intros [= <-]. exists xs. replace s with (set_lock (ast_lock s) s) at 1 by (by destruct s).
    eapply actor_move; try done; destruct errno; try done.
    all: intros e' [E|E]; try done. injection E as <-. by apply He.
  - destruct (take_lock (Actor t) s) as [s1|] eqn:E; [|done]. destruct (take_lock_inv _ _ _ E) as [El ->].
    intros [= <-]. exists xs. eapply actor_move; try done.
    intros e' [|[= <-]]; [done|]. eapply (in_status _ _ _ HI). by left.
  - assert (He0 : 0 <= e) by (eapply (in_status _ _ _ HI); by right).
    destruct (mark_exit_ok t e s xs (in_entries _ _ _ HI)) as (st & -> & Hst). intros [= <-]. exists xs.
    assert (HI' : Inv_at pool (set_list (s_mem s) st s) xs).
    { apply Inv_marked; [done|by eapply mark_exit_entries; [apply HI|..]|]. intros x ast. rewrite Hst.
      destruct (s_status s !! x) as [a|]; [|done]. intros [= <-]. exists a. split; [done|]. unfold mark. by destruct (Nat.eqb (tid a) t). }
    replace (set_list (s_mem s) st s) with (set_lock (ast_lock s) (set_list (s_mem s) st s)) by (by destruct s).
    eapply (actor_move pool _ xs t (Exit_mark e)); try done. by intros e' [|].
  - intros [= <-]. exists xs. assert (HI' : Inv_at pool (set_exits (S (actor_exit_notify s)) s) xs).
    { destruct HI as [[] ? ? ? ? ? ?]. by constructor. }
    replace (set_exits (S (actor_exit_notify s)) s) with (set_lock (ast_lock s) (set_exits (S (actor_exit_notify s)) s)) by (by destruct s).
    eapply (actor_move pool _ xs t Exit_post); try done. by intros e' [|].
  - intros [= <-]. exists xs. eapply (actor_move pool _ xs t Exit_unlock); try done. by intros e' [|].
Qed.

(** ** The starter *)

Lemma startup_ok s xs ast : entries s xs -> s_mem s !! ast = None ->
  exists m st, __nfscd_startup_actor ast s = Some (set_list m st (set_actors (threadcount s + 1) (s_actors s ++ [Starting]) s)) /\
    entries (set_list m st (set_actors (threadcount s + 1) (s_actors s ++ [Starting]) s)) (xs ++ [ast]).
Proof.
  intros [H1 H2 H3 H4 H5] Hn. unfold __nfscd_startup_actor. rewrite Hn.
  assert (Hnew : ast ∉ actor_threads s :: xs).
  { intros Hi. eapply Flist_nodes in Hi; [|done]. rewrite Hn in Hi. by destruct Hi. }
  assert (Hf : Flist (<[ast := mk_flist_head None None]> (s_mem s)) (actor_threads s) xs).
  { apply (Flist_frame [ast] (s_mem s)); [|set_solver|done]. intros a Ha. rewrite lookup_insert_ne; [done|set_solver]. }
  destruct (flist_add_tail_ok _ _ _ ast Hf Hnew) as (m & -> & Hl & _); [by rewrite lookup_insert_eq; eexists|].
  eexists _, _. split; [done|]. assert (Hs : s_status s !! ast = None).
  { destruct (s_status s !! ast) eqn:E; [|done]. exfalso. apply Hnew. right. apply H2. by eexists. }
  constructor; cbn.
  - done.
  - intros x. rewrite lookup_insert_is_Some', H2, elem_of_app, list_elem_of_singleton. naive_solver.
  - intros x a E. rewrite length_app. cbn. destruct (decide (x = ast)) as [->|Hx].
    + rewrite lookup_insert_eq in E. injection E as <-. cbn. split; [lia|done].
    + rewrite lookup_insert_ne in E by done. destruct (H3 _ _ E). split; [lia|done].
  - intros x y a b Ea Eb Et. destruct (decide (x = ast)) as [->|Hx], (decide (y = ast)) as [->|Hy]; [done|..].
    + rewrite lookup_insert_eq in Ea. rewrite lookup_insert_ne in Eb by done. injection Ea as <-.
      destruct (H3 _ _ Eb). cbn in Et. lia.
    + rewrite lookup_insert_eq in Eb. rewrite lookup_insert_ne in Ea by done. injection Eb as <-.
      destruct (H3 _ _ Ea). cbn in Et. lia.
    + rewrite lookup_insert_ne in Ea, Eb by done. by apply (H4 x y a b).
  - intros t a E Hne. apply lookup_app_Some in E as [E|[Hlt E]].
    + destruct (H5 t a E Hne) as (x & b & Ex & Et). exists x, b. split; [|done]. rewrite lookup_insert_ne; [done|congruence].
    + apply list_lookup_singleton_Some in E as [E _]. eexists ast, _. rewrite lookup_insert_eq. split; [done|]. cbn. lia.
Qed.

(** Outside the loop there is nothing to know about it. *)
Lemma loop_outside s xs : monitor_inside (s_monitor s) = false -> loop_ok s xs /\ joined s.
Proof. unfold loop_ok, joined. by destruct (s_monitor s). Qed.

Lemma starter_step_inv pool ast s s' : Inv pool s -> starter_step ast s = Some s' -> Inv pool s'.
Proof.
  intros [xs HI]. unfold starter_step. destruct (s_starter s) as [n|n|n|] eqn:Es; [..|done].
  - destruct (take_lock Starter s) as [s1|] eqn:E; [|done]. destruct (take_lock_inv _ _ _ E) as [El ->].
    intros [= <-]. exists xs. destruct HI as [HE HL HS Hlp HJ HC HP]. constructor; try done.
    + by destruct HE; constructor.
    + apply (lock_set_starter s (S_start n) (Some Starter) HL). by rewrite Es.
    + cbn. by rewrite Es in HP.
  - destruct (s_mem s !! ast) eqn:Em; [unfold __nfscd_startup_actor; by rewrite Em|].
    destruct (startup_ok s xs ast (in_entries _ _ _ HI) Em) as (m & st & -> & HE'). intros [= <-]. exists (xs ++ [ast]).
    assert (Hno : monitor_inside (s_monitor s) = false).
    { destruct (monitor_inside (s_monitor s)) eqn:Ei; [|done]. exfalso.
      assert (H : Monitor = Starter); [|done]. eapply (holding_one pool s xs); [done| |by cbn; rewrite Es].
      cbn. by destruct (s_monitor s). }
    destruct HI as [HE HL HS Hlp HJ HC HP]. constructor.
    + by destruct HE'; constructor.
    + intros w. cbn [ast_lock set_starter set_list set_actors]. rewrite HL. destruct w as [t| |]; [|done|by cbn; rewrite Es].
      cbn. split; intros (a & Ha & Hi).
      * exists a. split; [|done]. rewrite lookup_app_l; [done|by eapply lookup_lt_Some].
      * apply lookup_app_Some in Ha as [Ha|[_ Ha]]; [by exists a|]. apply list_lookup_singleton_Some in Ha as [_ <-]. done.
    + intros t e. cbn. rewrite !lookup_app_Some, !list_lookup_singleton_Some. naive_solver.
    + by apply loop_outside.
    + by apply loop_outside.
    + cbn. rewrite HC, length_app. cbn. lia.
    + cbn. rewrite length_app. rewrite Es in HP. cbn in *. lia.
  - intros [= <-]. exists xs. destruct HI as [HE HL HS Hlp HJ HC HP]. constructor; try done.
    + by destruct HE; constructor.
    + apply (lock_set_starter s _ None HL). rewrite Es. by destruct n.
    + cbn. rewrite Es in HP. by destruct n.
Qed.

(** ** The monitor *)

Lemma monitor_move pool s xs p lock' : Inv_at pool s xs ->
  lock_moves Monitor (monitor_inside (s_monitor s)) (monitor_inside p) (ast_lock s) lock' ->
  loop_ok (set_monitor p s) xs -> joined (set_monitor p s) -> Inv_at pool (set_monitor p (set_lock lock' s)) xs.
Proof.
  intros [HE HL HS Hlp HJ HC HP] Hm H1 H2. constructor; try done.
  - by destruct HE; constructor.
  - exact (lock_set_monitor s p lock' HL Hm).
Qed.

Lemma loop_head_inv pool s xs : Inv_at pool s xs -> monitor_inside (s_monitor s) = true ->
  Inv_at pool (loop_head (position_of (actor_threads s) xs) (position_of (actor_threads s) (tail xs)) s) xs.
Proof.
  intros HI Hin. unfold loop_head. replace s with (set_lock (ast_lock s) s) at 4 by (by destruct s).
  apply monitor_move; [done| | |].
  - rewrite Hin. by case_decide.
  - unfold loop_ok. cbn. case_decide as Hd; [done|]. destruct xs as [|x xs]; [by destruct Hd|]. by exists x, xs.
  - unfold joined. cbn. by case_decide.
Qed.

(** The first entry is taken out once its thread has ended; it is never started
    again. *)
Lemma reap_ok pool s x zs ast' : Inv_at pool s (x :: zs) -> joined s ->
  (exists n, s_monitor s = M_reap (Some x) n) ->
  exists s', reap (Some x) ast' s = Some s' /\ s_monitor s' = s_monitor s /\ actor_threads s' = actor_threads s /\
    s_actors s' = s_actors s /\ ast_lock s' = ast_lock s /\ actor_exit_notify s' = actor_exit_notify s /\ s_starter s' = s_starter s /\
    threadcount s' = threadcount s /\ entries s' zs.
Proof.
  intros [HE HL HS Hlp HJ HC HP] Hj [n Hm]. pose proof HE as [H1 H2 H3 H4 H5]. unfold reap.
  destruct (flist_del_ok (s_mem s) (actor_threads s) [] x zs H1) as (m & -> & Hf & Hfr & Hd). cbn [mbind option_bind s_status set_list].
  assert (Hx : is_Some (s_status s !! x)) by (apply H2; by left). destruct Hx as [ast Ex]. rewrite Ex. cbn [mbind option_bind].
  destruct (H3 x ast Ex) as [_ He]. rewrite (proj2 (Z.ltb_ge _ _)) by done. cbn [mbind option_bind]. eexists. split; [done|].
  split_and!; try done. cbn. assert (Hxz : x ∉ actor_threads s :: zs).
  { destruct H1 as [[N1 [N2 _]%NoDup_cons]%NoDup_cons _]. set_solver. }
  assert (Hend : ended (tid ast) s = true). { unfold joined in Hj. rewrite Hm in Hj. by apply Hj. }
  constructor; cbn.
  - apply (Flist_frame [x] m); [|set_solver|done]. intros a Ha. rewrite lookup_delete_ne; [done|set_solver].
  - intros y. destruct (decide (y = x)) as [->|Hy].
    + rewrite lookup_delete_eq. split; [by intros []|set_solver].
    + rewrite lookup_delete_ne by done. rewrite H2. set_solver.
  - intros y a E. apply lookup_delete_Some in E as [_ E]. exact (H3 y a E).
  - intros y z a b Ea Eb. apply lookup_delete_Some in Ea as [_ Ea], Eb as [_ Eb]. by apply H4.
  - intros t a E Hne. destruct (H5 t a E Hne) as (y & b & Ey & Et). exists y, b. split; [|done].
    rewrite lookup_delete_ne; [done|]. intros <-. rewrite Ex in Ey. injection Ey as <-. subst t.
    unfold ended in Hend. rewrite E in Hend. by destruct a.
Qed.

Lemma monitor_step_inv pool ast' s s' : Inv pool s -> monitor_step ast' s = Some s' -> Inv pool s'.
Proof.
  intros [xs HI]. unfold monitor_step. pose proof (in_entries _ _ _ HI) as HE. pose proof (en_list _ _ HE) as Hf.
  destruct (loop_start _ _ _ Hf) as [E1 E2]. destruct (s_monitor s) as [| | |pos n|pos n|] eqn:Em.
  - destruct (actor_exit_notify s) as [|n]; [done|]. intros [= <-]. exists xs.
    assert (HI' : Inv_at pool (set_exits n s) xs) by (destruct HI as [[] ? ? ? ? ? ?]; by constructor).
    replace (set_exits n s) with (set_lock (ast_lock s) (set_exits n s)) by (by destruct s).
    apply monitor_move; try done. cbn. by rewrite Em.
  - destruct (take_lock Monitor s) as [s1|] eqn:E; [|done]. destruct (take_lock_inv _ _ _ E) as [El ->].
    intros [= <-]. exists xs. apply monitor_move; try done. by rewrite Em.
  - rewrite (flist_empty_ok _ _ _ Hf). cbn [mbind option_bind]. case_bool_decide as Hxs.
    + intros [= <-]. exists xs. replace s with (set_lock (ast_lock s) s) at 1 by (by destruct s).
      apply monitor_move; try done. by rewrite Em.
    + rewrite E1. cbn [mbind option_bind]. rewrite E2. intros [= <-]. exists xs. apply loop_head_inv; [done|by rewrite Em].
  - pose proof (in_loop _ _ _ HI) as Hl. unfold loop_ok in Hl. rewrite Em in Hl. destruct Hl as (x & zs & -> & -> & ->).
    cbn [mbind option_bind]. destruct (s_status s !! x) as [ast|] eqn:Ex; [|done]. cbn [mbind option_bind].
    destruct (ended (tid ast) s) eqn:Een; [|done]. intros [= <-]. exists (x :: zs).
    replace s with (set_lock (ast_lock s) s) at 1 by (by destruct s). apply monitor_move; [done|by rewrite Em|by exists x, zs|].
    cbn. intros b Eb. rewrite Ex in Eb. by injection Eb as <-.
  - pose proof (in_loop _ _ _ HI) as Hl. unfold loop_ok in Hl. rewrite Em in Hl. destruct Hl as (x & zs & -> & -> & ->).
    destruct (reap_ok pool s x zs ast' HI (in_joined _ _ _ HI)) as (s1 & -> & R1 & R2 & R3 & R4 & R5 & R6 & R7 & HE1); [by eexists|].
    cbn [mbind option_bind]. destruct (loop_start _ _ _ (en_list _ _ HE1)) as [_ E3]. rewrite R2 in E3. rewrite E3.
    cbn [mbind option_bind]. intros [= <-]. exists zs. rewrite <- R2.
    assert (HI1 : Inv_at pool (set_monitor M_test s1) zs).
    { destruct HI as [_ HL HS _ _ HC HP]. constructor; try done; cbn; rewrite ?R3, ?R4, ?R6, ?R7; try done.
      - by destruct HE1; constructor.
      - intros w. rewrite HL. destruct w as [t| |]; cbn; rewrite ?R3, ?R6; try done. by rewrite Em. }
    pose proof (loop_head_inv pool _ zs HI1 eq_refl) as HI2.
    exact HI2.
  - intros [= <-]. exists xs. apply monitor_move; try done. by rewrite Em.
Qed.

Lemma actors_step_inv pool s s' : Inv pool s -> step s s' -> Inv pool s'.
Proof.
  intros HI Hs. destruct Hs as [ast s s' E|t errno s s' He E|ast s s' E].
  - by eapply starter_step_inv. - by eapply actor_step_inv. - by eapply monitor_step_inv.
Qed.

Lemma actors_init_inv head pool m s : is_Some (m !! head) -> init_nfsclient_thread_pool head pool m = Some s -> Inv pool s.
Proof.
  intros Hh. unfold init_nfsclient_thread_pool. destruct (init_flist_head_ok m head Hh) as (m1 & -> & Hl & _).
  intros [= <-]. exists []. constructor; try done.
  - constructor; cbn; try done. intros x. split; [by intros []|intros H; by apply not_elem_of_nil in H].
  - intros w. split; [done|]. destruct w as [t| |]; cbn; [by intros (? & ? & _)|done|by destruct pool].
  - by intros t e [|].
  - by destruct pool.
Qed.

(** What can come about with a pool of the given size. *)
Definition reachable (pool : nat) (s : state) : Prop :=
  exists head m s0, is_Some (m !! head) /\ init_nfsclient_thread_pool head pool m = Some s0 /\ rtc step s0 s.

Lemma actors_reachable_inv pool s : reachable pool s -> Inv pool s.
Proof.
  intros (head & m & s0 & Hh & E & Hr). pose proof (actors_init_inv _ _ _ _ Hh E) as HI. clear E.
  induction Hr; [done|]. by eapply IHHr, actors_step_inv.
Qed.

(** ** Why a thread may not go on *)

Lemma held_up pool s : reachable pool s ->
  (forall ast, s_mem s !! ast = None -> starter_step ast s = None ->
     s_starter s = S_done \/ exists n, s_starter s = S_lock n /\ is_Some (ast_lock s)) /\
  (forall t a, s_actors s !! t = Some a -> actor_step t None s = None ->
     a = Serving \/ a = Ended \/ exists e, a = Exit_lock e /\ is_Some (ast_lock s)) /\
  (forall ast, monitor_step ast s = None ->
     (s_monitor s = M_wait /\ actor_exit_notify s = O) \/ (s_monitor s = M_lock /\ is_Some (ast_lock s)) \/
     exists x n ast', s_monitor s = M_join (Some x) n /\ s_status s !! x = Some ast' /\ ended (tid ast') s = false) /\
  (exists xs, Flist (s_mem s) (actor_threads s) xs /\ (forall x, is_Some (s_status s !! x) <-> x ∈ xs) /\
     (forall t a, s_actors s !! t = Some a -> a <> Ended -> exists! x, exists ast, s_status s !! x = Some ast /\ tid ast = t)) /\
  threadcount s = Z.of_nat (length (s_actors s)) /\
  (length (s_actors s) + to_start (s_starter s) = pool)%nat.
Proof.
  intros Hr. destruct (actors_reachable_inv _ _ Hr) as [xs HI]. pose proof (in_entries _ _ _ HI) as HE. pose proof (en_list _ _ HE) as Hf.
  destruct (loop_start _ _ _ Hf) as [E1 E2].
  split_and!; [| | | |apply (in_count _ _ _ HI)|apply (in_pool _ _ _ HI)].
  - intros ast Hn. unfold starter_step, take_lock. destruct (s_starter s) as [n|n|n|]; [| |done|by left].
    + destruct (ast_lock s) as [w|]; [|done]. right. exists n. split; [done|by eexists].
    + by destruct (startup_ok s xs ast HE Hn) as (m & st & -> & _).
  - intros t a Ha. unfold actor_step, take_lock. rewrite Ha. cbn [mbind option_bind].
    destruct a as [| |e|e| | |]; try done; try (by auto).
    + destruct (ast_lock s) as [w|]; [|done]. right; right. exists e. split; [done|by eexists].
    + by destruct (mark_exit_ok t e s xs HE) as (st & -> & _).
  - intros ast. pose proof (in_loop _ _ _ HI) as Hl. unfold loop_ok in Hl. unfold monitor_step, take_lock.
    destruct (s_monitor s) as [| | |pos n|pos n|] eqn:Em; [| | | | |done].
    + destruct (actor_exit_notify s); [|done]. by left.
    + destruct (ast_lock s) as [w|]; [|done]. right; left. split; [done|by eexists].
    + rewrite (flist_empty_ok _ _ _ Hf). cbn [mbind option_bind]. case_bool_decide; [done|]. rewrite E1. cbn [mbind option_bind]. by rewrite E2.
    + destruct Hl as (x & zs & -> & -> & ->). cbn [mbind option_bind].
      assert (Hx : is_Some (s_status s !! x)) by (apply (en_status _ _ HE); by left). destruct Hx as [b Eb]. rewrite Eb. cbn [mbind option_bind].
      destruct (ended (tid b) s) eqn:Een; [done|]. intros _. right; right. eexists _, _, _. split_and!; [done|exact Eb|done].
    + destruct Hl as (x & zs & -> & -> & ->).
      destruct (reap_ok pool s x zs ast HI (in_joined _ _ _ HI)) as (s1 & -> & _ & R2 & _ & _ & _ & _ & _ & HE1); [by eexists|].
      cbn [mbind option_bind]. destruct (loop_start _ _ _ (en_list _ _ HE1)) as [_ E3]. rewrite R2 in E3. by rewrite E3.
  - exists xs. split_and!; [done|apply (en_status _ _ HE)|]. intros t a Ha Hne.
    destruct (en_all _ _ HE t a Ha Hne) as (x & b & Ex & Et). exists x. split; [by exists b|].
    intros y (b' & Ey & Et'). apply (en_once _ _ HE x y b b'); congruence.
Qed.

(** [C10] Nothing the threads do has undefined behaviour: in every state they can
    reach, the starter is held up only by the mutex, an actor by the mutex or
    because it serves or has ended, and the monitor by a semaphore at zero, by
    the mutex or by an actor it joins that has not ended.  Every actor that has
    not ended is on the list, once, and as many are started as the pool has. *)
Theorem actors_sound pool s : reachable pool s ->
  (forall ast, s_mem s !! ast = None -> starter_step ast s = None ->
     s_starter s = S_done \/ exists n, s_starter s = S_lock n /\ is_Some (ast_lock s)) /\
  (forall t a, s_actors s !! t = Some a -> actor_step t None s = None ->
     a = Serving \/ a = Ended \/ exists e, a = Exit_lock e /\ is_Some (ast_lock s)) /\
  (forall ast, monitor_step ast s = None ->
     (s_monitor s = M_wait /\ actor_exit_notify s = O) \/ (s_monitor s = M_lock /\ is_Some (ast_lock s)) \/
     exists x n ast', s_monitor s = M_join (Some x) n /\ s_status s !! x = Some ast' /\ ended (tid ast') s = false) /\
  (exists xs, Flist (s_mem s) (actor_threads s) xs /\ (forall x, is_Some (s_status s !! x) <-> x ∈ xs) /\
     (forall t a, s_actors s !! t = Some a -> a <> Ended -> exists! x, exists ast, s_status s !! x = Some ast /\ tid ast = t)) /\
  threadcount s = Z.of_nat (length (s_actors s)) /\
  (length (s_actors s) + to_start (s_starter s) = pool)%nat.
Proof. apply held_up. Qed.

(** ** The monitor and the actors that serve *)

Definition in_the_loop (s : state) : Prop :=
  match s_monitor s with M_join _ _ | M_reap _ _ => True | _ => False end.

Lemma stuck_step pool s s' t : Inv pool s -> step s s' -> in_the_loop s -> s_actors s !! t = Some Serving ->
  in_the_loop s' /\ s_actors s' !! t = Some Serving /\
  forall t' e, s_actors s !! t' = Some (Exit_lock e) -> s_actors s' !! t' = Some (Exit_lock e).
Proof.
  intros [xs HI] Hs Hloop Ht. pose proof (in_entries _ _ _ HI) as HE.
  assert (HM : holding Monitor s) by (unfold in_the_loop in Hloop; cbn; by destruct (s_monitor s)).
  assert (HL : ast_lock s = Some Monitor) by (by apply (in_lock _ _ _ HI)).
  destruct Hs as [ast s s' E|t0 errno s s' He E|ast s s' E].
  - exfalso. assert (Hno : ~ holding Starter s) by (intros H; by pose proof (holding_one _ _ _ _ _ HI HM H)).
    unfold starter_step, take_lock in E. rewrite HL in E. cbn in Hno. by destruct (s_starter s).
  - unfold actor_step, take_lock in E. rewrite HL in E. destruct (s_actors s !! t0) as [a|] eqn:Ea; [|done]. cbn [mbind option_bind] in E.
    assert (Hno : inside a = false).
    { destruct (inside a) eqn:Ei; [|done]. assert (H : holding (Actor t0) s) by (apply holding_actor; by exists a).
      by pose proof (holding_one _ _ _ _ _ HI HM H). }
    destruct a; try done. injection E as <-. split; [done|]. cbn.
    split; [rewrite list_lookup_insert_ne; [done|congruence]|]. intros t' e He'. rewrite list_lookup_insert_ne; [done|congruence].
  - unfold monitor_step in E. unfold in_the_loop in Hloop.
    pose proof (in_loop _ _ _ HI) as Hl. unfold loop_ok in Hl.
    destruct (s_monitor s) as [| | |pos n|pos n|] eqn:Em; try done; destruct Hl as (x & zs & -> & -> & ->).
    + cbn [mbind option_bind] in E. destruct (s_status s !! x) as [b|]; [|done]. cbn [mbind option_bind] in E.
      destruct (ended (tid b) s); [|done]. by injection E as <-.
    + destruct (reap_ok pool s x zs ast HI (in_joined _ _ _ HI)) as (s1 & E1 & R1 & R2 & R3 & _ & _ & _ & _ & HE1); [by eexists|].
      rewrite E1 in E. cbn [mbind option_bind] in E. destruct (loop_start _ _ _ (en_list _ _ HE1)) as [_ E3]. rewrite R2 in E3.
      rewrite E3 in E. injection E as <-. unfold loop_head, in_the_loop. cbn. rewrite R3. split; [|done]. rewrite R2.
      rewrite <- R3 in Ht. destruct (en_all _ _ HE1 t Serving Ht) as (y & b & Ey & _); [done|].
      assert (Hy : y ∈ zs) by (apply (en_status _ _ HE1); by eexists). destruct zs as [|z zs]; [by apply not_elem_of_nil in Hy|].
      rewrite decide_False; [done|]. intros [= Hz]. destruct (en_list _ _ HE1) as [Hnd _]. rewrite R2 in Hnd.
      apply NoDup_cons in Hnd as [Hnd _]. set_solver.
Qed.

(** [C34] Once the monitor is in its loop while an actor serves requests, it never
    leaves the loop and never lets go of the mutex: it joins the serving actor
    too, which does not end.  An actor that fails from then on waits for the
    mutex for ever, and is never reported or joined; and the daemon cannot be
    shut down, since [destroy_nfsclient_thread_pool] waits for the mutex too. *)
Theorem monitor_never_returns pool s t : reachable pool s -> in_the_loop s -> s_actors s !! t = Some Serving ->
  forall s', rtc step s s' -> in_the_loop s' /\ ast_lock s' = Some Monitor /\
    destroy_nfsclient_thread_pool s' = None /\
    forall t' e, s_actors s !! t' = Some (Exit_lock e) -> s_actors s' !! t' = Some (Exit_lock e).
Proof.
  intros Hr Hloop Ht s' Hs. pose proof (actors_reachable_inv _ _ Hr) as HI. clear Hr.
  assert (H : in_the_loop s' /\ Inv pool s' /\ forall t' e, s_actors s !! t' = Some (Exit_lock e) -> s_actors s' !! t' = Some (Exit_lock e)).
  { induction Hs as [s|s s1 s2 Hstep Hs IH]; [done|]. destruct (stuck_step pool s s1 t HI Hstep Hloop Ht) as (L1 & T1 & K1).
    destruct (IH L1 T1) as (L2 & I2 & K2); [by eapply actors_step_inv|]. split_and!; [done..|]. intros t' e E. by apply K2, K1. }
  destruct H as (L & [xs I] & K).
  assert (HL : ast_lock s' = Some Monitor).
  { apply (in_lock _ _ _ I). unfold in_the_loop in L. cbn. by destruct (s_monitor s'). }
  split_and!; [done..| |done]. unfold destroy_nfsclient_thread_pool, take_lock. by rewrite HL.
Qed.

(** ** A pool of one actor *)

(** The actor has announced its exit. *)
Definition posted (a : actor_at) : bool := match a with Exit_unlock | Ended => true | _ => false end.
Definition has_posted (t : nat) (s : state) : Prop := exists a, s_actors s !! t = Some a /\ posted a = true.

(** The monitor is awake, or will be woken. *)
Definition alert (s : state) : Prop :=
  match s_monitor s with
  | M_lock | M_test | M_join _ _ | M_reap _ _ => True
  | M_wait | M_unlock => actor_exit_notify s <> O
  end.

Record Announced (s : state) : Prop := {
  an_cause : (actor_exit_notify s <> O \/ s_monitor s <> M_wait) -> exists t, has_posted t s;
  an_unlock : s_monitor s = M_unlock -> forall x, s_status s !! x = None;
  an_alert : forall x ast, s_status s !! x = Some ast -> has_posted (tid ast) s -> alert s
}.

(** What a step of an actor changes, as far as announcements go. *)
Lemma actor_step_shape pool t errno s s' : Inv pool s -> actor_step t errno s = Some s' ->
  exists a b, s_actors s !! t = Some a /\ s_actors s' = <[t := b]> (s_actors s) /\ s_monitor s' = s_monitor s /\
  ((posted a = posted b /\ actor_exit_notify s' = actor_exit_notify s) \/
   (posted a = false /\ posted b = true /\ actor_exit_notify s' = S (actor_exit_notify s))) /\
  forall x ast', s_status s' !! x = Some ast' -> exists ast, s_status s !! x = Some ast /\ tid ast' = tid ast.
Proof.
  intros [xs HI]. unfold actor_step. destruct (s_actors s !! t) as [a|] eqn:Ea; [|done]. cbn [mbind option_bind]. intros E. exists a.
  assert (Hsame : forall x ast', s_status s !! x = Some ast' -> exists ast, s_status s !! x = Some ast /\ tid ast' = tid ast) by eauto.
  destruct a as [| |e|e| | |]; try done.
  - injection E as <-. eexists. split_and!; try done. left. by destruct errno.
  - destruct (take_lock (Actor t) s) as [s1|] eqn:El; [|done]. destruct (take_lock_inv _ _ _ El) as [_ ->]. injection E as <-.
    eexists. split_and!; try done. by left.
  - destruct (mark_exit_ok t e s xs (in_entries _ _ _ HI)) as (st & E1 & Hst). rewrite E1 in E. injection E as <-. eexists.
    split_and!; try done; [by left|]. cbn. intros x ast'. rewrite Hst. destruct (s_status s !! x) as [b|]; [|done].
    intros [= <-]. exists b. split; [done|]. unfold mark. by destruct (Nat.eqb (tid b) t).
  - injection E as <-. eexists. split_and!; try done. by right.
  - injection E as <-. eexists. split_and!; try done. by left.
Qed.

Lemma actor_announced pool t errno s s' : Inv pool s -> Announced s -> actor_step t errno s = Some s' -> Announced s'.
Proof.
  intros HI [K J R] E. destruct (actor_step_shape _ _ _ _ _ HI E) as (a & b & Ea & Es & Em & Hp & Hst).
  assert (Hlt : (t < length (s_actors s))%nat) by (by eapply lookup_lt_Some).
  assert (Hmono : forall t', has_posted t' s -> has_posted t' s').
  { intros t' (c & Ec & Hc). unfold has_posted. rewrite Es. destruct (decide (t' = t)) as [->|Hne].
    - exists b. rewrite list_lookup_insert_eq by done. split; [done|]. rewrite Ea in Ec. injection Ec as <-.
      destruct Hp as [[<- _]|[_ [? _]]]; done.
    - exists c. by rewrite list_lookup_insert_ne. }
  constructor.
  - intros H. destruct Hp as [[_ En]|(_ & Hb & _)].
    + destruct K as [t' Ht']; [by rewrite Em, En in H|]. exists t'. by apply Hmono.
    + exists t, b. by rewrite Es, list_lookup_insert_eq.
  - rewrite Em. intros H x. destruct (s_status s' !! x) as [c|] eqn:Ex; [|done]. destruct (Hst x c Ex) as (c' & Ec & _). by rewrite J in Ec.
  - intros x c Ex Hc. unfold alert. rewrite Em. destruct Hp as [[Hp En]|(_ & _ & ->)]; [|by destruct (s_monitor s)]. rewrite En.
    destruct (Hst x c Ex) as (c' & Ec & Et). apply (R x c' Ec). rewrite <- Et. destruct Hc as (d & Ed & Hd). rewrite Es in Ed.
    apply lookup_insert_cases in Ed as [(Htt & -> & _)|[_ Ed]]; [|by exists d].
    exists a. rewrite Htt. split; [done|congruence].
Qed.

Lemma starter_announced pool ast s s' : Inv pool s -> Announced s -> starter_step ast s = Some s' -> Announced s'.
Proof.
  intros [xs HI] [K J R]. unfold starter_step. destruct (s_starter s) as [n|n|n|] eqn:Es; [..|done].
  - destruct (take_lock Starter s) as [s1|] eqn:E; [|done]. destruct (take_lock_inv _ _ _ E) as [_ ->]. by intros [= <-].
  - destruct (s_mem s !! ast) eqn:Em; [unfold __nfscd_startup_actor; by rewrite Em|]. unfold __nfscd_startup_actor. rewrite Em.
    destruct (flist_add_tail _ _ _) as [m|]; [|done]. cbn [mbind option_bind]. intros [= <-].
    assert (HM : holding Starter s) by (cbn; by rewrite Es).
    assert (Hmono : forall t, has_posted t s -> exists a, (s_actors s ++ [Starting]) !! t = Some a /\ posted a = true).
    { intros t (a & Ea & Ha). exists a. split; [|done]. rewrite lookup_app_l; [done|by eapply lookup_lt_Some]. }
    constructor; cbn.
    + intros H. destruct (K H) as [t Ht]. exists t. by apply Hmono.
    + intros H. exfalso. assert (HM' : holding Monitor s) by (cbn; by rewrite H). by pose proof (holding_one _ _ _ _ _ HI HM HM').
    + intros x c Ex Hc. destruct Hc as (d & Ed & Hd). apply lookup_app_Some in Ed as [Ed|[_ Ed]].
      2: { apply list_lookup_singleton_Some in Ed as [_ <-]. done. }
      destruct (decide (x = ast)) as [->|Hne].
      * rewrite lookup_insert_eq in Ex. injection Ex as <-. cbn in Ed. apply lookup_lt_Some in Ed. lia.
      * rewrite lookup_insert_ne in Ex by done. apply (R x c Ex). by exists d.
  - by intros [= <-].
Qed.

Lemma monitor_announced pool ast' s s' : Inv pool s -> Announced s -> monitor_step ast' s = Some s' -> Announced s'.
Proof.
  intros [xs HI] [K J R]. unfold monitor_step. pose proof (in_entries _ _ _ HI) as HE. pose proof (en_list _ _ HE) as Hf.
  destruct (loop_start _ _ _ Hf) as [E1 E2].
  assert (Hhead : forall s1 xs1, entries s1 xs1 -> s_actors s1 = s_actors s -> s_monitor s <> M_wait ->
    Announced (loop_head (position_of (actor_threads s1) xs1) (position_of (actor_threads s1) (tail xs1)) s1)).
  { intros s1 xs1 HE1 Ea Hw. assert (HK : exists t, has_posted t s1) by (unfold has_posted; rewrite Ea; apply K; by right).
    unfold loop_head. case_decide as Hd; constructor; cbn; try done.
    - intros _ x. destruct (s_status s1 !! x) as [b|] eqn:Ex; [|done]. exfalso. assert (Hx : x ∈ xs1) by (apply (en_status _ _ HE1); by eexists).
      destruct xs1 as [|y xs1]; [by apply not_elem_of_nil in Hx|]. destruct (en_list _ _ HE1) as [Hnd _]. injection Hd as ->.
      apply NoDup_cons in Hnd as [Hnd _]. set_solver.
    - intros x b Ex. exfalso. assert (Hx : x ∈ xs1) by (apply (en_status _ _ HE1); by eexists).
      destruct xs1 as [|y xs1]; [by apply not_elem_of_nil in Hx|]. destruct (en_list _ _ HE1) as [Hnd _]. injection Hd as ->.
      apply NoDup_cons in Hnd as [Hnd _]. set_solver. }
  destruct (s_monitor s) as [| | |pos n|pos n|] eqn:Em.
  - destruct (actor_exit_notify s) as [|n] eqn:En; [done|]. intros [= <-]. constructor; cbn; try done. intros _. apply K. by left.
  - destruct (take_lock Monitor s) as [s1|] eqn:E; [|done]. destruct (take_lock_inv _ _ _ E) as [_ ->].
    intros [= <-]. constructor; cbn; try done. intros _. apply K. by right.
  - rewrite (flist_empty_ok _ _ _ Hf). cbn [mbind option_bind]. case_bool_decide as Hxs.
    + intros [= <-]. subst xs. assert (Hno : forall x, s_status s !! x = None).
      { intros x. destruct (s_status s !! x) eqn:Ex; [|done]. exfalso. eapply not_elem_of_nil, (en_status _ _ HE). by eexists. }
      constructor; cbn; [intros _; apply K; by right|done|]. intros x b Ex. by rewrite Hno in Ex.
    + rewrite E1. cbn [mbind option_bind]. rewrite E2. intros [= <-]. by apply Hhead.
  - pose proof (in_loop _ _ _ HI) as Hl. unfold loop_ok in Hl. rewrite Em in Hl. destruct Hl as (x & zs & -> & -> & ->).
    cbn [mbind option_bind]. destruct (s_status s !! x) as [b|]; [|done]. cbn [mbind option_bind].
    destruct (ended (tid b) s); [|done]. intros [= <-]. constructor; cbn; try done. intros _. apply K. by right.
  - pose proof (in_loop _ _ _ HI) as Hl. unfold loop_ok in Hl. rewrite Em in Hl. destruct Hl as (x & zs & -> & -> & ->).
    destruct (reap_ok pool s x zs ast' HI (in_joined _ _ _ HI)) as (s1 & -> & _ & R2 & R3 & _ & _ & _ & _ & HE1); [by eexists|].
    cbn [mbind option_bind]. destruct (loop_start _ _ _ (en_list _ _ HE1)) as [_ E3]. rewrite R2 in E3. rewrite E3.
    intros [= <-]. rewrite <- R2. by apply Hhead.
  - intros [= <-]. constructor; cbn; [intros _; apply K; by right|done|]. intros x b Ex. by rewrite J in Ex.
Qed.

Lemma reachable_announced pool s : reachable pool s -> Announced s.
Proof.
  intros (head & m & s0 & Hh & E & Hr). pose proof (actors_init_inv _ _ _ _ Hh E) as HI.
  assert (HA : Announced s0).
  { unfold init_nfsclient_thread_pool in E. destruct (INIT_FLIST_HEAD (Some head) m); [|done]. injection E as <-.
    constructor; cbn; [by intros []|done|done]. }
  clear E. induction Hr as [s|s s1 s2 Hs Hr IH]; [done|]. apply IH; [by eapply actors_step_inv|].
  destruct Hs as [ast s s' E|t errno s s' He E|ast s s' E];
    [by eapply starter_announced|by eapply actor_announced|by eapply monitor_announced].
Qed.

(** [C21] Where the threads can come to a halt: either everything is as it should be -
    the mutex is free, the monitor waits, every actor serves, or has exited and
    been joined and taken off the list - or the monitor joins an actor that does
    not end while another one has ended.  The second needs two actors: with a
    pool of one, the default, there is no deadlock. *)
Theorem halted_threads pool s : reachable pool s -> (forall s', ~ step s s') ->
  (ast_lock s = None /\ s_monitor s = M_wait /\ s_starter s = S_done /\ length (s_actors s) = pool /\
   forall t a, s_actors s !! t = Some a ->
     a = Serving \/ (a = Ended /\ forall x ast, s_status s !! x = Some ast -> tid ast <> t)) \/
  ((2 <= pool)%nat /\ exists x n ast t, s_monitor s = M_join (Some x) n /\ s_status s !! x = Some ast /\
     ended (tid ast) s = false /\ tid ast <> t /\ s_actors s !! t = Some Ended).
Proof.
  intros Hr Hstuck. destruct (held_up pool s Hr) as (HS & HA & HM & _ & _ & HP).
  destruct (actors_reachable_inv _ _ Hr) as [xs HI]. destruct (reachable_announced _ _ Hr) as [K J R].
  pose proof (in_entries _ _ _ HI) as HE.
  assert (HS' := HS (fresh (dom (s_mem s)))). 
  specialize (HS' ltac:(apply not_elem_of_dom, is_fresh)).
  destruct (starter_step _ s) as [s'|] eqn:E in HS'; [by destruct (Hstuck s'); eapply step_starter|]. specialize (HS' eq_refl).
  destruct (monitor_step 0%nat s) as [s'|] eqn:EM; [by destruct (Hstuck s'); eapply step_monitor|].
  assert (HA' : forall t a, s_actors s !! t = Some a -> a = Serving \/ a = Ended \/ exists e, a = Exit_lock e /\ is_Some (ast_lock s)).
  { intros t a Ha. apply (HA t a Ha). destruct (actor_step t None s) as [s'|] eqn:Ea; [|done]. destruct (Hstuck s'); by apply (step_actor t None). }
  assert (Hlock : ast_lock s <> None -> s_monitor s <> M_wait /\ s_monitor s <> M_lock).
  { destruct (ast_lock s) as [w|] eqn:El; [|done]. intros _. apply (in_lock _ _ _ HI) in El. destruct w as [t| |]; cbn in El.
    - destruct El as (a & Ea & Hi). destruct (HA' t a Ea) as [->|[->|(e & -> & _)]]; done.
    - by destruct (s_monitor s).
    - destruct HS' as [Ed|(n & Ed & _)]; by rewrite Ed in El. }
  destruct (HM 0%nat EM) as [[Em En]|[[Em El]|(x & n & b & Em & Ex & Hne)]].
  - left. destruct (ast_lock s) as [w|] eqn:El; [by destruct Hlock|].
    destruct HS' as [Ed|(n & _ & [? ?])]; [|done]. rewrite Ed in HP. cbn in HP. split_and!; [done..|lia|].
    intros t a Ha. destruct (HA' t a Ha) as [->|[->|(e & _ & [? ?])]]; [by left| |done]. right. split; [done|].
    intros y c Ey Et. assert (Hal : alert s) by (apply (R y c Ey); exists Ended; by rewrite Et).
    unfold alert in Hal. rewrite Em in Hal. done.
  - destruct El as [w El]. destruct Hlock as [_ Hl]; [by rewrite El|done].
  - right. destruct K as (t & a & Ha & Hp); [right; by rewrite Em|].
    assert (a = Ended) as ->. { destruct (HA' t a Ha) as [->|[->|(e & -> & _)]]; done. }
    assert (Hd : tid b <> t). { intros <-. unfold ended in Hne. by rewrite Ha in Hne. }
    split; [|by exists x, n, b, t]. destruct (en_known _ _ HE x b Ex) as [Hl1 _]. pose proof (lookup_lt_Some _ _ _ Ha). lia.
Qed.

(** ** Shutting down *)

(** In the loop: the entries [zs] of the list [xs] of [s] are left, and the actors
    that have been joined, or had ended, are done. *)
Record cancelled (s : state) (xs zs : list nat) (s0 : state) : Prop := {
  ca_list : Flist (s_mem s0) (actor_threads s) zs;
  ca_rest : exists ys, xs = ys ++ zs;
  ca_head : actor_threads s0 = actor_threads s;
  ca_status : forall x, s_status s0 !! x = if decide (x ∈ zs) then s_status s !! x else None;
  ca_actors : forall t a, s_actors s0 !! t = Some a -> a = Ended \/
    (s_actors s !! t = Some a /\ exists x ast, x ∈ zs /\ s_status s !! x = Some ast /\ tid ast = t);
  ca_length : length (s_actors s0) = length (s_actors s);
  ca_monitor : s_monitor s0 = s_monitor s
}.

(** An actor that does not wait for the mutex. *)
Definition cancellable (a : actor_at) : Prop := a = Starting \/ a = Serving \/ a = Ended.

Lemma cancelled_start pool s xs : Inv_at pool s xs -> (forall t a, s_actors s !! t = Some a -> cancellable a) ->
  cancelled s xs xs (set_lock (Some Starter) s).
Proof.
  intros HI Ha. destruct (in_entries _ _ _ HI) as [H1 H2 H3 H4 H5]. constructor; try done; [by exists []| |].
  - intros x. case_decide as Hx; [done|]. cbn. destruct (s_status s !! x) eqn:E; [|done]. destruct Hx. apply H2. by eexists.
  - intros t a Et. destruct (Ha t a Et) as [->|[-> | ->]]; [right|right|by left]; (split; [done|]);
      (destruct (H5 t _ Et) as (x & b & Ex & Eb); [done|]); exists x, b; (split_and!; [apply H2; by eexists|done|done]).
Qed.

Lemma cancel_body_ok pool s xs x zs s0 : Inv_at pool s xs -> (forall t a, s_actors s !! t = Some a -> cancellable a) ->
  cancelled s xs (x :: zs) s0 -> exists s', cancel_body (Some x) s0 = Some s' /\ cancelled s xs zs s'.
Proof.
  intros HI Ha [F1 [ys Exs] Eh F3 F4 F5 F6]. destruct (in_entries _ _ _ HI) as [H1 H2 H3 H4 H5].
  assert (Hx : is_Some (s_status s !! x)) by (apply H2; rewrite Exs; set_solver). destruct Hx as [b Eb].
  assert (Hxz : x ∉ actor_threads s :: zs).
  { destruct F1 as [[N1 [N2 _]%NoDup_cons]%NoDup_cons _]. set_solver. }
  destruct (H3 x b Eb) as [Hlt _]. rewrite <- F5 in Hlt. apply lookup_lt_is_Some in Hlt as [a Ea].
  unfold cancel_body. cbn [mbind option_bind]. rewrite F3, decide_True, Eb by (by left). cbn [mbind option_bind].
  assert (Hc : cancel (tid b) s0 = Some (set_actor (tid b) Ended s0)).
  { unfold cancel. rewrite Ea. destruct (F4 _ _ Ea) as [->|[Ea' _]]; [done|]. by destruct (Ha _ _ Ea') as [->|[-> | ->]]. }
  rewrite Hc. cbn [mbind option_bind s_mem set_actor set_actors].
  destruct (flist_del_ok _ _ [] x zs F1) as (m & -> & Hf & _). cbn [mbind option_bind]. eexists. split; [done|]. constructor; cbn; try done.
  - apply (Flist_frame [x] m); [|set_solver|done]. intros c Hc'. rewrite lookup_delete_ne; [done|set_solver].
  - exists (ys ++ [x]). by rewrite <- app_assoc.
  - intros y. destruct (decide (y = x)) as [->|Hy].
    + rewrite lookup_delete_eq, decide_False; [done|set_solver].
    + rewrite lookup_delete_ne, F3 by done. repeat case_decide; try done; set_solver.
  - intros t c Ec. apply lookup_insert_cases in Ec as [(-> & -> & _)|[Htb Ec]]; [by left|].
    destruct (F4 t c Ec) as [->|(Ec' & y & d & Hy & Ey & Et)]; [by left|]. right. split; [done|]. exists y, d.
    split_and!; [|done|done]. apply elem_of_cons in Hy as [->|Hy]; [|done]. rewrite Eb in Ey. injection Ey as <-. by subst.
  - by rewrite length_insert.
Qed.

(** [destroy_nfsclient_thread_pool], called when the mutex is free and no actor is
    about to exit, ends every actor and frees every entry; the monitor is left
    as it is. *)
Theorem destroy_nfsclient_thread_pool_ok pool s : reachable pool s -> ast_lock s = None ->
  (forall t a, s_actors s !! t = Some a -> a = Starting \/ a = Serving \/ a = Ended) ->
  exists s', destroy_nfsclient_thread_pool s = Some s' /\
    Flist (s_mem s') (actor_threads s') [] /\ (forall x, s_status s' !! x = None) /\
    (forall t a, s_actors s' !! t = Some a -> a = Ended) /\ length (s_actors s') = length (s_actors s) /\
    ast_lock s' = None /\ s_monitor s' = s_monitor s.
Proof.
  intros Hr Hl Ha. destruct (actors_reachable_inv _ _ Hr) as [xs HI]. pose proof (in_entries _ _ _ HI) as HE.
  pose proof (en_list _ _ HE) as H1. unfold destroy_nfsclient_thread_pool, take_lock. rewrite Hl. cbn [mbind option_bind].
  set (s1 := set_lock (Some Starter) s). pose proof (cancelled_start _ _ _ HI Ha : cancelled s xs xs s1) as HI0.
  assert (Hloop : exists s2, flist_for_each_safe s_mem cancel_body (length xs) (position_of (actor_threads s) xs)
      (position_of (actor_threads s) (tail xs)) (Some (actor_threads s)) s1 = Some s2 /\ cancelled s xs [] s2).
  { apply (flist_for_each_safe_ok _ _ _ (cancelled s xs)); [|by intros; eapply cancel_body_ok|done].
    intros zs s0 HC. exists []. apply HC. }
  destruct (loop_start _ _ _ H1) as [E1 E2]. change (s_mem s1) with (s_mem s).
  change (actor_threads s1) with (actor_threads s). change (s_status s1) with (s_status s).
  rewrite (flist_empty_ok _ _ _ H1). cbn [mbind option_bind].
  assert (Hfin : exists s2, (if bool_decide (xs = []) then Some s1 else
      pos ← get_next (Some (actor_threads s)) (s_mem s); n ← get_next pos (s_mem s);
      flist_for_each_safe s_mem cancel_body (size (s_status s)) pos n (Some (actor_threads s)) s1) = Some s2 /\ cancelled s xs [] s2).
  { case_bool_decide as Hxs; [exists s1; by subst xs|]. rewrite E1. cbn [mbind option_bind]. rewrite E2. cbn [mbind option_bind].
    by rewrite (entries_size _ _ HE). }
  destruct Hfin as (s2 & E & [F1 _ Eh F3 F4 F5 F6]). rewrite E. cbn [mbind option_bind]. eexists. split; [done|].
  split_and!; cbn; try done.
  - by rewrite Eh.
  - intros t a Et. destruct (F4 t a Et) as [->|(_ & x & b & Hx & _)]; [done|]. by apply not_elem_of_nil in Hx.
Qed.
