(* ===== verification/ActorsExamples.v ===== *)
(** * Pools at work

    The theorems of [ActorsCorrect] for pools of one and of two actors. *)

From S2P Require Import Prelude Flist Daemon Actors ActorsCorrect.

(** One step of a thread. *)
Inductive move :=
  | By_starter (ast : nat)
  | By_actor (t : nat) (errno : option Z)
  | By_monitor.

Definition make (mv : move) (s : state) : option state :=
  match mv with
  | By_starter ast => starter_step ast s
  | By_actor t errno => actor_step t errno s
  | By_monitor => monitor_step 0 s
  end.
Definition allowed (mv : move) : bool :=
  match mv with By_actor _ (Some e) => 0 <=? e | _ => true end.
Fixpoint make_all (l : list move) (s : state) : option state :=
  match l with [] => Some s | mv :: l => s ← make mv s; make_all l s end.

Definition start_ex (pool : nat) : option state :=
  init_nfsclient_thread_pool 0 pool {[0%nat := mk_flist_head None None]}.

Lemma make_all_reachable pool l s : forallb allowed l = true ->
  (s0 ← start_ex pool; make_all l s0) = Some s -> reachable pool s.
Proof.
  intros Hl (s0 & E0 & E)%bind_Some. exists 0%nat, {[0%nat := mk_flist_head None None]}, s0.
  split; [by eexists|]. split; [done|]. clear E0. revert s0 E. induction l as [|mv l IH]; intros s0 E; cbn in E.
  { injection E as <-. apply rtc_refl. }
  cbn in Hl. apply andb_prop in Hl as [Ha Hl]. apply bind_Some in E as (s1 & E1 & E).
  eapply rtc_l; [|by apply (IH Hl s1)]. destruct mv as [ast|t errno|]; cbn in E1.
  - by eapply step_starter.
  - eapply (step_actor t errno); [|done]. intros e ->. by apply Z.leb_le.
  - by eapply step_monitor.
Qed.

(** One actor that serves. *)
Definition one_serves : list move := [By_starter 1; By_starter 1; By_starter 1; By_actor 0 None].
(** Two actors: the first serves, the second fails with error 5 and says so, and
    the monitor starts to join. *)
Definition one_of_two_fails : list move :=
  [By_starter 1; By_starter 1; By_starter 1; By_starter 2; By_starter 2; By_starter 2;
   By_actor 0 None; By_actor 1 (Some 5); By_actor 1 None; By_actor 1 None; By_actor 1 None; By_actor 1 None;
   By_monitor; By_monitor; By_monitor].

(** A pool of one whose actor fails: it is joined and taken off the list. *)
Example failure_reaped :
  (fun s => (size (s_status s), s_monitor s, ast_lock s)) <$>
    (s ← start_ex 1; make_all ([By_starter 1; By_starter 1; By_starter 1; By_actor 0 (Some 5); By_actor 0 None;
       By_actor 0 None; By_actor 0 None; By_actor 0 None] ++ repeat By_monitor 6) s) =
  Some (0%nat, M_wait, None).
Proof. vm_compute. reflexivity. Qed.

Lemma actors_sound_witness :
  exists s, (s ← start_ex 1; make_all one_serves s) = Some s /\
    (exists xs, FlistCorrect.Flist (s_mem s) (actor_threads s) xs /\ (forall x, is_Some (s_status s !! x) <-> x ∈ xs) /\
      (forall t a, s_actors s !! t = Some a -> a <> Ended -> exists! x, exists ast, s_status s !! x = Some ast /\ tid ast = t)) /\
    threadcount s = Z.of_nat (length (s_actors s)).
Proof.
  destruct (s ← start_ex 1; make_all one_serves s) as [s|] eqn:E; [|by vm_compute in E]. exists s. split; [done|].
  destruct (actors_sound 1 s) as (_ & _ & _ & H1 & H2 & _); [by apply (make_all_reachable 1 one_serves)|].
  split; [exact H1|exact H2].
Defined.

Lemma monitor_never_returns_witness :
  exists s, (s ← start_ex 2; make_all one_of_two_fails s) = Some s /\
    forall s', rtc step s s' -> in_the_loop s' /\ ast_lock s' = Some Monitor /\ destroy_nfsclient_thread_pool s' = None /\
      forall t' e, s_actors s !! t' = Some (Exit_lock e) -> s_actors s' !! t' = Some (Exit_lock e).
Proof.
  destruct (s ← start_ex 2; make_all one_of_two_fails s) as [s|] eqn:E; [|by vm_compute in E]. exists s. split; [done|].
  assert (Es : (fun s => (s_monitor s, s_actors s)) <$> (s ← start_ex 2; make_all one_of_two_fails s) =
    Some (M_join (Some 1%nat) (Some 2%nat), [Serving; Ended])) by (vm_compute; reflexivity).
  rewrite E in Es. cbn in Es. injection Es as Em Ea.
  apply (monitor_never_returns 2 s 0%nat).
  - by apply (make_all_reachable 2 one_of_two_fails).
  - unfold in_the_loop. by rewrite Em.
  - by rewrite Ea.
Defined.

Lemma one_serves_state s : (s ← start_ex 1; make_all one_serves s) = Some s ->
  s_starter s = S_done /\ s_monitor s = M_wait /\ actor_exit_notify s = O /\ s_actors s = [Serving] /\ ast_lock s = None.
Proof.
  intros E. assert (Es : (fun s => (s_starter s, s_monitor s, actor_exit_notify s, s_actors s, ast_lock s)) <$>
    (s ← start_ex 1; make_all one_serves s) = Some (S_done, M_wait, O, [Serving], None)) by (vm_compute; reflexivity).
  rewrite E in Es. cbn in Es. by injection Es as E1 E2 E3 E4 E5.
Qed.

Lemma halted_threads_witness :
  exists s, (s ← start_ex 1; make_all one_serves s) = Some s /\
    ((ast_lock s = None /\ s_monitor s = M_wait /\ s_starter s = S_done /\ length (s_actors s) = 1%nat /\
      forall t a, s_actors s !! t = Some a ->
        a = Serving \/ (a = Ended /\ forall x ast, s_status s !! x = Some ast -> tid ast <> t)) \/
     ((2 <= 1)%nat /\ exists x n ast t, s_monitor s = M_join (Some x) n /\ s_status s !! x = Some ast /\
       ended (tid ast) s = false /\ tid ast <> t /\ s_actors s !! t = Some Ended)).
Proof.
  destruct (s ← start_ex 1; make_all one_serves s) as [s|] eqn:E; [|by vm_compute in E]. exists s. split; [done|].
  destruct (one_serves_state s E) as (E1 & E2 & E3 & E4 & _).
  apply (halted_threads 1 s).
  - by apply (make_all_reachable 1 one_serves).
  - intros s' Hs. destruct Hs as [ast s s' Es|t errno s s' _ Es|ast s s' Es].
    + unfold starter_step in Es. by rewrite E1 in Es.
    + unfold actor_step in Es. rewrite E4 in Es. by destruct t.
    + unfold monitor_step in Es. by rewrite E2, E3 in Es.
Defined.

Lemma destroy_nfsclient_thread_pool_ok_witness :
  exists s s', (s ← start_ex 1; make_all one_serves s) = Some s /\ destroy_nfsclient_thread_pool s = Some s' /\
    FlistCorrect.Flist (s_mem s') (actor_threads s') [] /\ (forall x, s_status s' !! x = None) /\
    (forall t a, s_actors s' !! t = Some a -> a = Ended) /\ length (s_actors s') = length (s_actors s) /\
    ast_lock s' = None /\ s_monitor s' = s_monitor s.
Proof.
  destruct (s ← start_ex 1; make_all one_serves s) as [s|] eqn:E; [|by vm_compute in E]. exists s.
  destruct (one_serves_state s E) as (E1 & E2 & E3 & E4 & E5).
  destruct (destroy_nfsclient_thread_pool_ok 1 s) as (s' & H).
  - by apply (make_all_reachable 1 one_serves).
  - exact E5.
  - rewrite E4. intros [|t] a; [|done]. intros [= <-]. right. by left.
  - exists s'. split; [done|exact H].
Defined.
