(* ===== verification/NfsActor.v ===== *)
(** * What an actor does: [src/src/nfs3actor.c]

    An actor connects to the server with a pool of contexts, asks the MOUNT
    protocol for the file handle of the remote directory and then serves the
    requests of FUSE, of which it knows one: a lookup becomes a LOOKUP call, and
    the reply an error number for FUSE.  A callback is known by a number; its
    private pointer is the request's address. *)

From S2P Require Import Prelude Xdr NfsTypes NfsStatus NfsXdr NfsMsg GhtIface RpcRecord RpcClient NfsCalls Daemon.

(** ** Accessors of [nfs3.h] *)

Definition fhandle3_fhlen (fh : fhandle3) : Z := data_len fh.
Definition fhandle3_fh (fh : fhandle3) : ptr (list Z) := data_val fh.
Definition mnt3_fhandle3 (res : mountres3) : fhandle3 := mountres3_ok_fhandle (mountres3_mountinfo res).
Definition mnt3_fhandle3_fh (res : mountres3) : ptr (list Z) := fhandle3_fh (mnt3_fhandle3 res).
Definition mnt3_fhandle3_fhlen (res : mountres3) : Z := fhandle3_fhlen (mnt3_fhandle3 res).
Definition nfs_fh3_fh (fh : nfs_fh3) : ptr (list Z) := data_val (nfs_fh3_data fh).
Definition nfs_fh3_fhlen (fh : nfs_fh3) : Z := data_len (nfs_fh3_data fh).
Definition mnt3_reply_status (res : mountres3) : Z := mountres3_fhs_status res.
Definition nfs3_reply_status (res : LOOKUP3res) : Z := LOOKUP3res_status res.

Definition set_dir_fh (f : opaque_buf -> opaque_buf) (la : LOOKUP3args) : LOOKUP3args :=
  let d := LOOKUP3args_what la in
  mk_LOOKUP3args (mk_diropargs3 (mk_nfs_fh3 (f (nfs_fh3_data (diropargs3_dir d)))) (diropargs3_name d)).
Definition set_LOOKUP3args_fname (fname : filename3) (la : LOOKUP3args) : LOOKUP3args :=
  mk_LOOKUP3args (mk_diropargs3 (diropargs3_dir (LOOKUP3args_what la)) fname).
Definition set_LOOKUP3args_dir_fhlen (flen : Z) : LOOKUP3args -> LOOKUP3args :=
  set_dir_fh (fun b => mk_opaque_buf flen (data_val b)).
Definition set_LOOKUP3args_dir_fh (fh : ptr (list Z)) : LOOKUP3args -> LOOKUP3args :=
  set_dir_fh (fun b => mk_opaque_buf (data_len b) fh).

Section actor.
Context {P : XdrPrims} {T : Type} `{GT : Ght T callback_info} {X : Type} `{XR : Xdrrec X}.
Context (junk : Z) (xdr_replymsg : list Z -> option (Z * list Z)) (auth : list Z).
Context (xdr_callhdr : Z -> Z -> Z -> option (list Z)).
Context (pub : Z) (room : nat) (net : @network T X).

(** What uninitialised structures hold, and the user field of the XDR handle of a
    decoder. *)
Context (wild_args : LOOKUP3args) (wild_lookup : LOOKUP3res) (wild_mount : mountres3) (dec_pub : Z).

(** [tid], which nothing sets, is left out. *)
Record nfs3_actor_state := mk_nfs3_actor_state {
  ctxpool : list (nfs_ctx T X);
  nfscd_ctx : nfsclientd_opts;
  rootfh : fhandle3
}.

(** ** Context pools ([nfscd_ops.c]) *)

(** The loop: the contexts so far, and [nfs_init] for the others; [None] in the
    middle when one cannot be had. *)
Fixpoint init_contexts (n : nat) (opts : nfsclientd_opts) (pool : list (nfs_ctx T X)) (h : heap)
    : option (option (list (nfs_ctx T X)) * heap) :=
  match n with
  | O => Some (Some pool, h)
  | S n =>
      '(ctx, h) ← nfs_init (srvaddr opts) IPPROTO_TCP NFSC_CFL_NONBLOCKING h;
      match ctx with
      | None => Some (None, h)
      | Some ctx => init_contexts n opts (pool ++ [ctx]) h
      end
  end.

Definition init_per_actor_context_pool (opts : nfsclientd_opts) (h : heap)
    : option (option (list (nfs_ctx T X)) * heap) :=
  let (ok, h) := mem_alloc h in
  if negb ok then Some (None, h) else init_contexts (Z.to_nat (ctxpoolsize opts)) opts [] h.

Fixpoint destroy_contexts (pool : list (nfs_ctx T X)) (h : heap) : option heap :=
  match pool with
  | [] => Some h
  | ctx :: pool => h ← nfs_destroy (Some ctx) h; destroy_contexts pool h
  end.
Definition destroy_per_actor_context_pool (pool : list (nfs_ctx T X)) (h : heap) : option heap :=
  h ← destroy_contexts pool h; mem_free (PTo tt) h.

(** ** Callbacks *)

(** The callbacks that a call on a connection has run. *)
Definition invoked (before after : option (clnt T X)) : list invocation :=
  match after with
  | None => []
  | Some c => drop (match before with None => 0 | Some c => length (ct_called (ct_recv c)) end) (ct_called (ct_recv c))
  end.
Definition run_callbacks {S} (cb : invocation -> S -> option S) (l : list invocation) (s : S) : option S :=
  foldl (fun acc i => s ← acc; cb i s) (Some s) l.

(** ** Mounting *)

Definition MOUNT_CB : Z := 1.
Definition LOOKUP_CB : Z := 2.

(** [None] is a failed assertion or undefined behaviour. *)
Definition nfs3_mount_cb (msg : option (list Z)) (root : fhandle3) (h : heap) : option (fhandle3 * heap) :=
  match msg with
  | None => None
  | Some _ =>
      let root := mk_opaque_buf (data_len root) PNull in
      '(res, h) ← xdr_to_mntres3 wild_mount dec_pub msg h;
      match res with
      | PNull => Some (root, h)
      | PWild => None
      | PTo m =>
          if negb (mnt3_reply_status m =? MNT3_OK) then Some (root, h)
          else
            '(newfh, h) ← fhandle3_dup (PTo (mnt3_fhandle3 m)) (PTo root) h;
            h ← free_mntres3 res h;
            match newfh with PTo root => Some (root, h) | _ => None end
      end
  end.

(** The state, -1 or 0, and the heap; [length] is what the local [rootfh] holds
    for a length. *)
Definition nfs3_actor_mount_remotedir (length : Z) (as_ : nfs3_actor_state) (h : heap)
    : nfs3_actor_state * outcome (Z * heap) :=
  match ctxpool as_ with
  | [] => (as_, Undefined)
  | mntctx :: rest =>
      let root := mk_opaque_buf length PNull in
      let (ctx, stat) := mount3_mnt junk xdr_replymsg auth xdr_callhdr pub room net (remotedir (nfscd_ctx as_)) (Some mntctx)
                           (Some MOUNT_CB) 0 RPC_BLOCKING_WAIT in
      let pool := match ctx with Some ctx => ctx :: rest | None => mntctx :: rest end in
      let as1 := mk_nfs3_actor_state pool (nfscd_ctx as_) (rootfh as_) in
      match stat with
      | Returns stat =>
          match run_callbacks (fun i '(root, h) => nfs3_mount_cb (Some (inv_payload i)) root h)
                  (invoked (nfs_mnt_cl mntctx) (ctx ≫= nfs_mnt_cl)) (root, h) with
          | None => (as1, Undefined)
          | Some (root, h) =>
              if negb (stat =? RPC_SUCCESS) then (as1, Returns (-1, h))
              else match fhandle3_fh root with
                   | PNull => (as1, Returns (-1, h))
                   | _ => (mk_nfs3_actor_state pool (nfscd_ctx as_) root, Returns (0, h))
                   end
          end
      | Waits => (as1, Waits)
      | Undefined => (as1, Undefined)
      | Spins => (as1, Spins)
      end
  end.

(** On failure the pool is not destroyed. *)
Definition init_nfs3_actor_thread_state (length : Z) (root : fhandle3) (opts : nfsclientd_opts) (h : heap)
    : option nfs3_actor_state * outcome (Z * heap) :=
  match init_per_actor_context_pool opts h with
  | None => (None, Undefined)
  | Some (None, h) => (None, Returns (-1, h))
  | Some (Some pool, h) =>
      let (as_, r) := nfs3_actor_mount_remotedir length (mk_nfs3_actor_state pool opts root) h in
      (Some as_, r)
  end.

(** ** Requests *)

(** A request number and an error number, for [fuse_reply_err]. *)
Definition fuse_reply : Type := Z * Z.

(** What FUSE is told, and the heap; [None] is a failed assertion or undefined
    behaviour. *)
Definition nfs3_lookup_cb (msg : option (list Z)) (priv : option nfscd_request) (h : heap)
    : option (list fuse_reply * heap) :=
  match msg, priv with
  | Some _, Some rq =>
      '(res, h) ← xdr_to_LOOKUP3res wild_lookup dec_pub msg h;
      match res with
      | PTo r =>
          let replystat := nfs3_reply_status r in
          if negb (replystat =? NFS3_OK) then
            e ← nfsstat3_to_errno replystat;
            h ← free_LOOKUP3res res h;
            Some ([(fuserq rq, e)], h)
          else Some ([], h)
      | _ => None
      end
  | _, _ => None
  end.

Definition fuse_to_nfs3_lookup_args (as_ : nfs3_actor_state) (fargs : nflookup_args) (la : LOOKUP3args) : LOOKUP3args :=
  let la := set_LOOKUP3args_fname (lookup_name fargs) la in
  let la := set_LOOKUP3args_dir_fhlen (fhandle3_fhlen (rootfh as_)) la in
  set_LOOKUP3args_dir_fh (fhandle3_fh (rootfh as_)) la.

(** The state, whether the call is done, what FUSE has been told and the heap;
    [rq->actordata], which nothing reads, is left alone. *)
Definition nfs3_lookup_actor (as_ : nfs3_actor_state) (requests : gmap nat nfscd_request) (rq : nat)
    (fargs : nflookup_args) (h : heap) : nfs3_actor_state * outcome (list fuse_reply * heap) :=
  match ctxpool as_ with
  | [] => (as_, Undefined)
  | nfsctx :: rest =>
      let la := fuse_to_nfs3_lookup_args as_ fargs wild_args in
      let (ctx, r) := nfs3_lookup junk xdr_replymsg auth xdr_callhdr pub room net la (Some nfsctx)
                        (Some LOOKUP_CB) (Z.of_nat rq) RPC_BLOCKING_WAIT in
      let as1 := mk_nfs3_actor_state (match ctx with Some ctx => ctx :: rest | None => nfsctx :: rest end)
                   (nfscd_ctx as_) (rootfh as_) in
      match r with
      | Returns _ =>
          match run_callbacks (fun i '(told, h) =>
                    '(l, h) ← nfs3_lookup_cb (Some (inv_payload i)) (requests !! Z.to_nat (inv_private i)) h;
                    Some (told ++ l, h))
                  (invoked (nfs_cl nfsctx) (ctx ≫= nfs_cl)) ([], h) with
          | None => (as1, Undefined)
          | Some out => (as1, Returns out)
          end
      | Waits => (as1, Waits)
      | Undefined => (as1, Undefined)
      | Spins => (as1, Spins)
      end
  end.

Definition nfs3_act_on_request (as_ : nfs3_actor_state) (requests : gmap nat nfscd_request) (rq : nat) (h : heap)
    : nfs3_actor_state * outcome (list fuse_reply * heap) :=
  match requests !! rq with
  | None => (as_, Undefined)
  | Some r =>
      if request r =? FUSE_LOOKUP then
        match args_u r with
        | lookupargs fargs => nfs3_lookup_actor as_ requests rq fargs h
        | _ => (as_, Undefined)
        end
      else (as_, Returns ([(fuserq r, EIO)], h))
  end.
End actor.
