(* ===== verification/NfsActorCorrect.v ===== *)
(** * What becomes of a lookup

    The pools of contexts come and go without loss.  A lookup is sent as a
    LOOKUP call, but always for the root of the mounted directory; its reply
    reaches FUSE when it is an error, and never when it is a success. *)

From S2P Require Import Prelude Xdr XdrRfc NfsTypes NfsStatus NfsSpec NfsXdr NfsXdrCorrect NfsWire NfsMsg NfsMsgCorrect GhtIface RpcRecord RpcRecordCorrect RpcClient RpcSend RpcClientCorrect NfsCalls NfsCallsCorrect Daemon NfsActor.

(** ** Pools *)

Section pools.
Context {T X : Type}.

Lemma mem_alloc_ample h : mem_ample h ->
  mem_alloc h = (true, mk_heap (S (h_live h)) (S (h_requests h)) (h_ok h)).
Proof. intros H. unfold mem_alloc. by rewrite H. Qed.

Lemma nfs_init_ample (srv proto connflags : Z) h : mem_ample h ->
  exists h', @nfs_init T X (Some srv) proto connflags h = Some (Some (mk_nfs_ctx srv srv proto None None connflags 0 0), h') /\
    h_live h' = (h_live h + 3)%nat /\ mem_ample h'.
Proof.
  intros H. unfold nfs_init. rewrite !mem_alloc_ample by done. cbn [negb]. eexists. split; [done|]. cbn. split; [lia|done].
Qed.

Lemma init_contexts_ok n opts srv : srvaddr opts = Some srv -> forall pool h, mem_ample h ->
  exists h', @init_contexts T X n opts pool h =
      Some (Some (pool ++ replicate n (mk_nfs_ctx srv srv IPPROTO_TCP None None NFSC_CFL_NONBLOCKING 0 0)), h') /\
    h_live h' = (h_live h + 3 * n)%nat /\ mem_ample h'.
Proof.
  intros Hs. induction n as [|n IH]; intros pool h Hh; cbn [init_contexts replicate].
  - eexists. rewrite app_nil_r. split; [done|]. split; [lia|done].
  - rewrite Hs. destruct (nfs_init_ample srv IPPROTO_TCP NFSC_CFL_NONBLOCKING h Hh) as (h1 & -> & H1 & H2). cbn.
    destruct (IH (pool ++ [mk_nfs_ctx srv srv IPPROTO_TCP None None NFSC_CFL_NONBLOCKING 0 0]) h1 H2) as (h2 & -> & H3 & H4).
    eexists. rewrite <- app_assoc. split; [done|]. split; [lia|done].
Qed.

Lemma destroy_contexts_ok (pool : list (nfs_ctx T X)) : forall h, (3 * length pool <= h_live h)%nat ->
  exists h', destroy_contexts pool h = Some h' /\ h_live h' = (h_live h - 3 * length pool)%nat.
Proof.
  induction pool as [|c pool IH]; intros h Hl; cbn [destroy_contexts length] in *; [eexists; split; [done|lia]|].
  destruct h as [n r ok]. cbn in Hl. destruct n as [|[|[|n]]]; try lia. unfold nfs_destroy, mem_free. cbn.
  destruct (IH (mk_heap n r ok)) as (h' & -> & E); [cbn; lia|]. eexists. split; [done|]. rewrite E. cbn. lia.
Qed.

(** A pool has as many contexts as the options say, none connected, and takes a
    block and three for each context; destroying it gives all of them back,
    whatever the contexts have become (their connections are not destroyed). *)
Theorem context_pool_balanced opts srv h : srvaddr opts = Some srv -> mem_ample h ->
  exists pool h', @init_per_actor_context_pool T X opts h = Some (Some pool, h') /\
    length pool = Z.to_nat (ctxpoolsize opts) /\ Forall (fun c => check_ctx (Some c) = true /\ nfs_cl c = None) pool /\
    h_live h' = (h_live h + 1 + 3 * length pool)%nat /\
    forall pool' : list (nfs_ctx T X), length pool' = length pool -> exists h'', destroy_per_actor_context_pool pool' h' = Some h'' /\ h_live h'' = h_live h.
Proof.
  intros Hs Hh. unfold init_per_actor_context_pool. rewrite mem_alloc_ample by done. cbn [negb].
  destruct (init_contexts_ok (Z.to_nat (ctxpoolsize opts)) opts srv Hs [] (mk_heap (S (h_live h)) (S (h_requests h)) (h_ok h)) Hh)
    as (h1 & -> & H1 & _).
  eexists _, _. split; [done|]. cbn [app]. rewrite !length_replicate. split_and!; [done| |cbn in H1 |- *; lia|].
  - apply Forall_replicate. done.
  - intros pool' Hp. unfold destroy_per_actor_context_pool.
    destruct (destroy_contexts_ok pool' h1) as (h2 & -> & H2); [cbn in H1; lia|]. cbn [mbind option_bind].
    assert (E : h_live h2 = S (h_live h)) by (cbn in H1; lia). rewrite (mem_free_S _ (h_live h)) by done. by eexists.
Qed.
End pools.

(** ** Replies *)

Section replies.
Context `{HL : XdrLaws} (wild : LOOKUP3res) (wild_mount : mountres3) (dec_pub : Z).

Lemma lookup_decoded msg h : decoded LOOKUP3res_w h (xdr_to_LOOKUP3res wild dec_pub msg h).
Proof.
  apply (xdr_to_decoded LOOKUP3res_w xdr_LOOKUP3res); [auto with xdr|zero_fresh].
Qed.

Lemma free_LOOKUP3res_oracle p h h' : free_LOOKUP3res p h = Some h' -> h_ok h' = h_ok h.
Proof.
  destruct p as [|o|]; cbn; [by intros [= <-]| |done]. intros E.
  destruct (if LOOKUP3res_status o =? NFS3_OK then _ else _) as [h1|] eqn:E1; [|done]. cbn in E.
  rewrite (mem_free_oracle _ _ _ E). destruct (LOOKUP3res_status o =? NFS3_OK); [by apply mem_free_oracle in E1|by injection E1 as <-].
Qed.

Lemma lookup_cb_cases rq (o : LOOKUP3res) rest h :
  w_wf LOOKUP3res_w o -> mem_ample h ->
  (exists h', nfs3_lookup_cb wild dec_pub (Some (w_enc LOOKUP3res_w o ++ rest)) (Some rq) h =
      (if LOOKUP3res_status o =? NFS3_OK then Some ([], h')
       else e ← nfsstat3_to_errno (LOOKUP3res_status o); Some ([(fuserq rq, e)], h')) /\
    (if LOOKUP3res_status o =? NFS3_OK then (h_live h < h_live h')%nat
     else h_live h' = h_live h /\ exists e, nfsstat3_to_errno (LOOKUP3res_status o) = Some e /\ e <> 0) /\ mem_ample h') /\
  forall bs more, more <> [] -> bs ++ more = w_enc LOOKUP3res_w o -> nfs3_lookup_cb wild dec_pub (Some bs) (Some rq) h = None.
Proof.
  intros Hwf Hh. pose proof nfs3_messages_ok as HF. unfold nfs3_messages in HF. apply List.Forall_inv in HF as [_ [Hdec _]].
  destruct (Hdec wild dec_pub o h I Hwf Hh) as [Hok Hcut]. cbn [m_decode m_type m_wire] in Hok, Hcut. split.
  - destruct (Hok rest) as (o' & h' & E & Hsim). pose proof (lookup_decoded (Some (w_enc LOOKUP3res_w o ++ rest)) h) as Hd.
    unfold nfs3_lookup_cb. rewrite E in Hd |- *. destruct Hd as (Hcl & Hl & Hk). cbn [mbind option_bind].
    assert (Hst : LOOKUP3res_status o' = LOOKUP3res_status o) by (destruct Hsim as [Hs _]; by symmetry).
    unfold nfs3_reply_status. rewrite Hst. destruct (LOOKUP3res_status o =? NFS3_OK) eqn:Eo; cbn [negb].
    + exists h'. split; [done|]. split; [lia|]. intros n. by rewrite Hk.
    + destruct (free_LOOKUP3res_ok o' Hcl h') as (h'' & E2 & H2); [lia|].
      assert (Hint : is_int (LOOKUP3res_status o)) by (destruct Hwf as [Hw _]; exact Hw).
      destruct (errno_of_status _ Hint) as (e & Ee & H0 & _). rewrite Ee. cbn [mbind option_bind]. rewrite E2.
      exists h''. split; [done|]. split.
      * split; [lia|]. exists e. split; [done|]. intros E0. apply Z.eqb_neq in Eo. tauto.
      * intros n. by rewrite (free_LOOKUP3res_oracle _ _ _ E2), Hk.
  - intros bs more Hne Heq. destruct (Hcut bs more Hne Heq) as [h' E]. unfold nfs3_lookup_cb. by rewrite E.
Qed.
(** [C36] The callback of a lookup.  A reply that cannot be decoded stops the daemon.
    An error status is passed on to FUSE as an error number other than 0, once,
    and the reply is freed.  For a successful lookup FUSE is told nothing, so
    that the request is never answered, and the decoded reply is lost. *)
Theorem nfs3_lookup_cb_ok rq (o : LOOKUP3res) rest h :
  w_wf LOOKUP3res_w o -> mem_ample h ->
  (exists h', nfs3_lookup_cb wild dec_pub (Some (w_enc LOOKUP3res_w o ++ rest)) (Some rq) h =
      (if LOOKUP3res_status o =? NFS3_OK then Some ([], h')
       else e ← nfsstat3_to_errno (LOOKUP3res_status o); Some ([(fuserq rq, e)], h')) /\
    (if LOOKUP3res_status o =? NFS3_OK then (h_live h < h_live h')%nat
     else h_live h' = h_live h /\ exists e, nfsstat3_to_errno (LOOKUP3res_status o) = Some e /\ e <> 0)) /\
  forall bs more, more <> [] -> bs ++ more = w_enc LOOKUP3res_w o -> nfs3_lookup_cb wild dec_pub (Some bs) (Some rq) h = None.
Proof.
  intros Hwf Hh. destruct (lookup_cb_cases rq o rest h Hwf Hh) as [(h' & E & Hl & _) Hcut]. split; [by exists h'|done].
Qed.
End replies.

(** ** Mounting *)

Section mounting.
Context `{HL : XdrLaws} (wild_mount : mountres3) (dec_pub : Z).

Lemma mntres3_codec pub : Codec pub xdr_mountres3 mountres3_w.
Proof. auto with xdr. Qed.

Lemma mntres3_decoded msg h : decoded mountres3_w h (xdr_to_mntres3 wild_mount dec_pub msg h).
Proof. apply xdr_to_decoded; [apply mntres3_codec|zero_fresh]. Qed.

Lemma mntres3_decodes : decodes (fun junk x msg => xdr_to_mntres3 junk x msg) mountres3_w.
Proof.
  apply (xdr_to_decodes mountres3_w xdr_mountres3 (upd_mountres3_mountinfo (upd_mountres3_ok_fhandle null_val) ∘
    upd_mountres3_mountinfo (upd_mountres3_ok_auth_flavors null_flavors)) (fun _ x => x)).
  - intros junk x. apply mntres3_codec.
  - intros junk. zero_fresh.
Qed.

(** The copy of a handle that came over the wire. *)
Definition copied (fh : fhandle3) : fhandle3 := mk_opaque_buf (data_len fh) (PTo (ptr_content (data_val fh))).

Lemma fhandle3_dup_ok (fh root : fhandle3) h : bytes_wf FHSIZE3 fh -> mem_ample h ->
  exists h', fhandle3_dup (PTo fh) (PTo root) h = Some (PTo (copied fh), h') /\ h_live h' = S (h_live h) /\ mem_ample h'.
Proof.
  intros Hwf Hh. destruct fh as [n [|bs|]]; unfold bytes_wf in Hwf; cbn in Hwf; [| |done]; unfold fhandle3_dup, copied; cbn;
    rewrite mem_alloc_ample by done; cbn.
  - subst n. by eexists.
  - destruct Hwf as (-> & _). rewrite Z.leb_refl, Nat2Z.id, firstn_all. by eexists.
Qed.

(** What a reply owns, what agreement means, and how it is freed. *)
Lemma mntres3_owned o : w_owned mountres3_w o =
  if mountres3_fhs_status o =? MNT3_OK then
    (ptr_owned (data_val (mnt3_fhandle3 o)) + ptr_owned (snd (mountres3_ok_auth_flavors (mountres3_mountinfo o))))%nat
  else O.
Proof. unfold mountres3_w, mountres3_ok_w. cbn. by destruct (_ =? _). Qed.

Lemma mntres3_fields o o' : w_wf mountres3_w o -> w_sim mountres3_w o o' ->
  mountres3_fhs_status o' = mountres3_fhs_status o /\
  (mountres3_fhs_status o = MNT3_OK -> bytes_wf FHSIZE3 (mnt3_fhandle3 o) /\ mnt3_fhandle3 o' = mnt3_fhandle3 o).
Proof.
  intros Hwf Hsim. destruct o as [st [fh fl]], o' as [st' [fh' fl']]. unfold mountres3_w, mountres3_ok_w, mnt3_fhandle3 in *.
  cbn in *. destruct Hwf as [_ Hwf], Hsim as [Hs Hsim]. split; [by symmetry|].
  intros ->. cbn in *. split; [apply Hwf|]. destruct Hsim as [Hf _]. by symmetry.
Qed.

Lemma mntres3_frees o : w_clean mountres3_w o -> forall h, (S (w_owned mountres3_w o) <= h_live h)%nat ->
  exists h', free_mntres3 (PTo o) h = Some h' /\ (h_live h' <= h_live h)%nat /\ h_ok h' = h_ok h.
Proof.
  intros Hcl h Hl. rewrite mntres3_owned in Hl. unfold free_mntres3. destruct o as [st [fh fl]].
  unfold mountres3_w, mountres3_ok_w, mnt3_fhandle3 in *. cbn in *. destruct (st =? MNT3_OK); cbn in *.
  - destruct Hcl as [Hcl _]. destruct (frees_ptr (data_val fh) Hcl h) as (h1 & E1 & H1); [lia|]. rewrite E1. cbn [mbind option_bind].
    rewrite (mem_free_S _ (pred (h_live h1))) by lia. eexists. split; [done|]. split; [cbn; lia|]. exact (mem_free_oracle _ _ _ E1).
  - rewrite (mem_free_S _ (pred (h_live h))) by lia. eexists. split; [done|]. split; [cbn; lia|done].
Qed.

(** The callback of the mount: a reply with status OK leaves the actor a copy of
    the root's file handle; with any other status, and for a reply that has been
    cut short, there is no handle, which the caller takes for a failure.  The
    block of a reply with another status is lost. *)
Theorem nfs3_mount_cb_ok root (o : mountres3) rest h : w_wf mountres3_w o -> mem_ample h ->
  (exists root' h', nfs3_mount_cb wild_mount dec_pub (Some (w_enc mountres3_w o ++ rest)) root h = Some (root', h') /\
     mem_ample h' /\
     if mountres3_fhs_status o =? MNT3_OK then root' = copied (mnt3_fhandle3 o)
     else fhandle3_fh root' = PNull /\ h_live h' = S (h_live h)) /\
  forall bs more, more <> [] -> bs ++ more = w_enc mountres3_w o ->
    exists root' h', nfs3_mount_cb wild_mount dec_pub (Some bs) root h = Some (root', h') /\ fhandle3_fh root' = PNull.
Proof.
  intros Hwf Hh. destruct (mntres3_decodes wild_mount dec_pub o h I Hwf Hh) as [Hok Hcut]. split.
  - destruct (Hok rest) as (o' & h' & E & Hsim). unfold nfs3_mount_cb. cbn zeta.
    pose proof (mntres3_decoded (Some (w_enc mountres3_w o ++ rest)) h) as Hd.
    rewrite E in Hd |- *. cbn [mbind option_bind]. destruct Hd as (Hcl & Hl & Hk).
    destruct (mntres3_fields o o' Hwf Hsim) as [Hs Hfh]. unfold mnt3_reply_status. rewrite Hs.
    destruct (mountres3_fhs_status o =? MNT3_OK) eqn:Eo; cbn [negb].
    + destruct Hfh as [Hw Ef]; [by apply Z.eqb_eq|]. rewrite Ef.
      destruct (fhandle3_dup_ok (mnt3_fhandle3 o) (mk_opaque_buf (data_len root) PNull) h' Hw) as (h2 & Ed & Hl2 & Hh2).
      { unfold mem_ample. by rewrite Hk. }
      unfold fhandle3 in *. rewrite Ed. cbn [mbind option_bind]. destruct (mntres3_frees o' Hcl h2) as (h3 & -> & _ & Hk3); [lia|].
      eexists _, _. split; [done|]. split; [intros n; by rewrite Hk3|done].
    + eexists _, _. split; [done|]. split; [intros n; by rewrite Hk|]. split; [done|]. rewrite Hl, mntres3_owned, Hs, Eo. lia.
  - intros bs more Hne Heq. destruct (Hcut bs more Hne Heq) as [h' E]. unfold nfs3_mount_cb. rewrite E. cbn [mbind option_bind].
    by eexists _, _.
Qed.
End mounting.

(** ** Requests *)

Section requests.
Context `{HL : XdrLaws} {T : Type} `{GL : GhtLaws T callback_info} {X : Type} `{XL : XdrrecLaws X}.
Context (junk : Z) (xdr_replymsg : list Z -> option (Z * list Z)) (auth : list Z).
Context (xdr_callhdr : Z -> Z -> Z -> option (list Z)) (pub : Z) (room : nat) (net : @network T X).
Context (replymsg_word : forall m xid payload, xdr_replymsg m = Some (xid, payload) -> is_u 32 xid).
Context (wild_args : LOOKUP3args) (wild_lookup : LOOKUP3res) (dec_pub : Z).

(** The LOOKUP procedure, and its arguments: a name in the mounted directory. *)
Definition lookup_procedure : @procedure T X :=
  mk_procedure LOOKUP3args NFS_PROGRAM 3 LOOKUP3args_w nfs_cl (nfs3_lookup junk xdr_replymsg auth xdr_callhdr pub room net).
Definition in_root (as_ : @nfs3_actor_state T X) (nm : filename3) : LOOKUP3args :=
  mk_LOOKUP3args (mk_diropargs3 (mk_nfs_fh3 (mk_opaque_buf (data_len (rootfh as_)) (data_val (rootfh as_)))) nm).

Abbreviation act := (nfs3_act_on_request junk xdr_replymsg auth xdr_callhdr pub room net wild_args wild_lookup dec_pub).

Lemma lookup_args_in_root as_ fargs : fuse_to_nfs3_lookup_args as_ fargs wild_args = in_root as_ (lookup_name fargs).
Proof. done. Qed.

(** [C19] What a request comes to.  A lookup sends one message on the connection of the
    actor's first context: LOOKUP of the name in the root of the mounted
    directory, whatever directory FUSE asks about ([lookup_parent] is not
    looked at).  Every other request is answered with EIO and sends nothing. *)
Theorem nfs3_act_on_request_ok as_ requests rq r ctx rest k st c s h :
  requests !! rq = Some r -> ctxpool as_ = ctx :: rest -> check_ctx (Some ctx) = true -> nfs_cl ctx = Some c ->
  client_ok k st c s -> cuts st (so_reads (ct_sock c)) ->
  (request r <> FUSE_LOOKUP -> act as_ requests rq h = (as_, Returns ([(fuserq r, EIO)], h))) /\
  forall fargs, request r = FUSE_LOOKUP -> args_u r = lookupargs fargs ->
    expressible room lookup_procedure (in_root as_ (lookup_name fargs)) ->
    callable c s (NfsCallsCorrect.request lookup_procedure (in_root as_ (lookup_name fargs)))
      (mk_callback_info (Some LOOKUP_CB) (Z.of_nat rq)) ->
    exists ctx' sent, ctxpool (act as_ requests rq h).1 = ctx' :: rest /\
      sends auth (outgoing c) (take (ct_mpos c) (decrement_xid (ct_mcall c))) lookup_procedure
        (in_root as_ (lookup_name fargs)) sent (nfs_cl ctx') /\
      (sent = Waits -> (act as_ requests rq h).2 = Waits).
Proof.
  intros Hr Hp Hctx Hcl Hok Hcut. unfold nfs3_act_on_request. rewrite Hr. split.
  { intros Hne. rewrite (proj2 (Z.eqb_neq _ _)) by done. done. }
  intros fargs Hop Harg Hex Hca. rewrite Hop, Z.eqb_refl, Harg. unfold nfs3_lookup_actor. rewrite Hp, lookup_args_in_root.
  assert (Hin : lookup_procedure ∈ procedures junk xdr_replymsg auth xdr_callhdr pub room net).
  { apply (list_elem_of_lookup_2 _ 3). reflexivity. }
  destruct (procedure_sends junk xdr_replymsg auth xdr_callhdr pub room net replymsg_word lookup_procedure
    (in_root as_ (lookup_name fargs)) ctx k st c s (Some LOOKUP_CB) (Z.of_nat rq) RPC_BLOCKING_WAIT Hin Hex Hctx Hcl Hok Hcut Hca)
    as (ctx' & sent & E & Hs).
  cbn [pr_call lookup_procedure] in E. rewrite E. exists ctx', sent.
  destruct sent as [v| | |]; try done. destruct (run_callbacks _ _ _); done.
Qed.
End requests.
