(* ===== verification/NfsActorExamples.v ===== *)
(** * Lookups, answered

    The theorems of [NfsActorCorrect] at concrete replies and requests, with the
    RFC 4506 primitives and the connections of [RpcClientExamples]. *)

From S2P Require Import Prelude Xdr XdrRfc NfsTypes NfsSpec NfsStatus NfsXdr NfsWire NfsMsg NfsMsgCorrect HashTable GhtIface RpcRecord RpcRecordCorrect RpcClient RpcSend RpcClientCorrect RpcClientExamples NfsCalls NfsCallsCorrect NfsCallsExamples Daemon NfsActor NfsActorCorrect.

#[local] Existing Instances table_ght table_laws.

Definition opts_ex : nfsclientd_opts := mk_nfsclientd_opts (PTo [104]) (PTo [47]) (PTo [47]) (Some 2049) 2 1.

Lemma context_pool_balanced_witness :
  exists pool h', @init_per_actor_context_pool table (list Z) opts_ex ample_heap = Some (Some pool, h') /\
    length pool = 2%nat /\ Forall (fun c => check_ctx (Some c) = true /\ nfs_cl c = None) pool /\
    h_live h' = (h_live ample_heap + 1 + 3 * length pool)%nat /\
    forall pool' : list (nfs_ctx table (list Z)), length pool' = length pool ->
      exists h'', destroy_per_actor_context_pool pool' h' = Some h'' /\ h_live h'' = h_live ample_heap.
Proof. apply (context_pool_balanced opts_ex 2049 ample_heap); [reflexivity|exact ample_heap_ok]. Defined.

(** No such file; the union's other member and the attributes hold anything. *)
Definition no_attr : post_op_attr :=
  let t := mk_nfstime3 0 0 in mk_post_op_attr FALSE (mk_fattr3 0 0 0 0 0 0 0 (mk_specdata3 0 0) 0 0 t t t).
Definition noent_ex : LOOKUP3res :=
  mk_LOOKUP3res NFS3ERR_NOENT (mk_LOOKUP3resok (mk_nfs_fh3 (mk_opaque_buf 0 PWild)) no_attr no_attr) (mk_LOOKUP3resfail no_attr).
Definition rq_ex : nfscd_request :=
  mk_nfscd_request 77 FUSE_LOOKUP None (lookupargs (mk_nfscd_fuse_lookup_args 1 (PTo [97]))).

Lemma noent_wf : w_wf LOOKUP3res_w noent_ex.
Proof.
  unfold LOOKUP3res_w, LOOKUP3resfail_w, post_op_attr_w, nfsstat3_w, enum_w, int_w, bool_w. cbn.
  unfold is_int32. split_and!; first [done | lia | by left | by right].
Qed.

Lemma nfs3_lookup_cb_ok_witness :
  (exists h', nfs3_lookup_cb noent_ex 0 (Some (w_enc LOOKUP3res_w noent_ex ++ [])) (Some rq_ex) ample_heap =
      (e ← nfsstat3_to_errno 2; Some ([(77, e)], h')) /\
    (h_live h' = h_live ample_heap /\ exists e, nfsstat3_to_errno 2 = Some e /\ e <> 0)) /\
  forall bs more, more <> [] -> bs ++ more = w_enc LOOKUP3res_w noent_ex ->
    nfs3_lookup_cb noent_ex 0 (Some bs) (Some rq_ex) ample_heap = None.
Proof.
  exact (nfs3_lookup_cb_ok noent_ex 0 rq_ex noent_ex [] ample_heap noent_wf ample_heap_ok).
Defined.

Definition mounted_ex : mountres3 :=
  mk_mountres3 MNT3_OK (mk_mountres3_ok (mk_opaque_buf 2 (PTo [7; 8])) (1, PTo [1])).

Lemma mounted_wf : w_wf mountres3_w mounted_ex.
Proof.
  unfold mountres3_w, mountres3_ok_w, mountstat3_w, enum_w, int_w, fhandle3_w, bytes_w, ints_w, bytes_wf, ints_wf. cbn.
  unfold is_int32, bytes_ok, is_u, FHSIZE3, MAXLEN. split_and!; first [lia | done | repeat apply Forall_cons_2; first [apply Forall_nil_2 | lia]].
Qed.

Lemma nfs3_mount_cb_ok_witness :
  (exists root' h', nfs3_mount_cb blank_mnt 0 (Some (w_enc mountres3_w mounted_ex ++ [])) (mk_opaque_buf 0 PWild) ample_heap =
      Some (root', h') /\ mem_ample h' /\ root' = mk_opaque_buf 2 (PTo [7; 8])) /\
  forall bs more, more <> [] -> bs ++ more = w_enc mountres3_w mounted_ex ->
    exists root' h', nfs3_mount_cb blank_mnt 0 (Some bs) (mk_opaque_buf 0 PWild) ample_heap = Some (root', h') /\
      fhandle3_fh root' = PNull.
Proof.
  exact (nfs3_mount_cb_ok blank_mnt 0 (mk_opaque_buf 0 PWild) mounted_ex [] ample_heap mounted_wf ample_heap_ok).
Defined.

(** An actor whose root has the handle [7; 8]. *)
Definition actor_ex : @nfs3_actor_state table (list Z) :=
  mk_nfs3_actor_state [ctx_ex (Some (client_ex [write_taken 100] [read_bytes (mark reply1)] 0))] opts_ex (mk_opaque_buf 2 (PTo [7; 8])).

Lemma root_expressible : expressible 100 (lookup_procedure 0 replymsg4 auth_ex callhdr_ex 0 100 net_ex) (in_root actor_ex (PTo [97])).
Proof.
  split; [|apply Nat.leb_le; vm_compute; reflexivity].
  unfold lookup_procedure. cbn [pr_wire]. unfold LOOKUP3args_w, diropargs3_w, nfs_fh3_w, filename3_w, bytes_w, string_w. cbn.
  unfold bytes_wf, bytes_ok, is_u. cbn.
  split_and!; first [reflexivity | by vm_compute | repeat constructor; lia].
Qed.

Lemma nfs3_act_on_request_ok_witness :
  exists ctx' sent,
    ctxpool (nfs3_act_on_request 0 replymsg4 auth_ex callhdr_ex 0 100 net_ex sample_lookup noent_ex 0 actor_ex
               {[2%nat := rq_ex]} 2 ample_heap).1 = [ctx'] /\
    sends auth_ex [] (take 20 (decrement_xid mcall_ex)) (lookup_procedure 0 replymsg4 auth_ex callhdr_ex 0 100 net_ex)
      (in_root actor_ex (PTo [97])) sent (nfs_cl ctx').
Proof.
  destruct (nfs3_act_on_request_ok 0 replymsg4 auth_ex callhdr_ex 0 100 net_ex replymsg4_word sample_lookup noent_ex 0
    actor_ex {[2%nat := rq_ex]} 2 rq_ex (ctx_ex (Some (client_ex [write_taken 100] [read_bytes (mark reply1)] 0))) []
    3 None (client_ex [write_taken 100] [read_bytes (mark reply1)] 0) (mk_session [] []) ample_heap) as [_ H].
  - reflexivity.
  - reflexivity.
  - reflexivity.
  - reflexivity.
  - apply client_ex_ok.
  - apply (reads_cut [reply1]). by repeat constructor.
  - destruct (H (mk_nfscd_fuse_lookup_args 1 (PTo [97])) eq_refl eq_refl root_expressible) as (ctx' & sent & H1 & H2 & _).
    + apply callable_ex.
    + exists ctx', sent. split; [exact H1|exact H2].
Defined.
