(* ===== verification/Service.v ===== *)
(** * The daemon at work: [src/src/nfscd_ops.c], [src/src/nfs3actor.c]

    The loop of an actor, and the whole: FUSE's threads queue requests ([Requests])
    while the actors take them out and act on them ([NfsActor]).  The statements of
    the queues interleave in any order; what an actor does with a request it has
    taken touches only its own contexts, and is one step. *)

From S2P Require Import Prelude Xdr NfsTypes GhtIface RpcRecord RpcClient NfsCalls Daemon Requests NfsActor.

Section service.
Context {P : XdrPrims} {T : Type} `{GT : Ght T callback_info} {X : Type} `{XR : Xdrrec X}.
Context (junk : Z) (xdr_replymsg : list Z -> option (Z * list Z)) (auth : list Z).
Context (xdr_callhdr : Z -> Z -> Z -> option (list Z)).
Context (pub : Z) (room : nat) (net : @network T X).
Context (wild_args : LOOKUP3args) (wild_lookup : LOOKUP3res) (dec_pub : Z).

Abbreviation act := (nfs3_act_on_request junk xdr_replymsg auth xdr_callhdr pub room net wild_args wild_lookup dec_pub).

(** ** One actor *)

(** The loop of [nfs3_request_actor] on the requests it takes, each with the
    requests there are at that time: the state at the end, and what FUSE has been
    told. *)
Fixpoint serve (as_ : @nfs3_actor_state T X) (taken : list (gmap nat nfscd_request * nat)) (h : heap)
    : nfs3_actor_state * outcome (list fuse_reply * heap) :=
  match taken with
  | [] => (as_, Returns ([], h))
  | (requests, rq) :: taken =>
      match act as_ requests rq h with
      | (as_, Returns (told, h)) =>
          match serve as_ taken h with
          | (as_, Returns (more, h)) => (as_, Returns (told ++ more, h))
          | r => r
          end
      | r => r
      end
  end.

(** ** The thread *)

(** What the thread comes to: it has exited with a status for
    [nfscd_notify_actor_exit], or it is in the loop. *)
Inductive thread_result :=
  | Exits (status : Z)
  | Serves (as_ : @nfs3_actor_state T X) (told : list fuse_reply) (h : heap).

(** The network the MOUNT program is reached over; what the local structures hold
    before they are set, and [errno] when the set-up has failed. *)
Context (mnt_net : @network T X) (wild_mount : mountres3) (wild_length : Z) (wild_root : fhandle3) (errno : Z).

(** [nfs3_request_actor] when [taken] is what it has taken so far; the code after
    the loop is not reached. *)
Definition nfs3_request_actor (ctx : nfsclientd_opts) (taken : list (gmap nat nfscd_request * nat)) (h : heap)
    : outcome thread_result :=
  match init_nfs3_actor_thread_state junk xdr_replymsg auth xdr_callhdr pub room mnt_net wild_mount dec_pub
          wild_length wild_root ctx h with
  | (as_, Returns (r, h)) =>
      if r <? 0 then Returns (Exits errno)
      else
        match as_ with
        | None => Undefined
        | Some as_ =>
            match serve as_ taken h with
            | (as_, Returns (told, h)) => Returns (Serves as_ told h)
            | (_, Waits) => Waits
            | (_, Undefined) => Undefined
            | (_, Spins) => Spins
            end
        end
  | (_, Waits) => Waits
  | (_, Undefined) => Undefined
  | (_, Spins) => Spins
  end.

(** What a protocol provides; [R] is the type of its thread. *)
Record protocol_actor_ops (R : Type) := mk_protocol_actor_ops {
  init_actor : unit -> Z;
  request_actor : R;
  destroy_actor : unit -> unit
}.

Definition nfs3_actor_init (_ : unit) : Z := 0.
Definition nfs3_actor_destroy (_ : unit) : unit := tt.
Definition nfs3_protocol_actor := mk_protocol_actor_ops _ nfs3_actor_init nfs3_request_actor nfs3_actor_destroy.

(** ** The daemon *)

(** What an actor has besides its thread.  [ac_busy] says that it is in
    [nfscd_dequeue_metadata_request] or has a request it has not acted on;
    [ac_served] and [ac_told] record what it has acted on and told FUSE. *)
Record actor := mk_actor {
  ac_state : @nfs3_actor_state T X;
  ac_heap : heap;
  ac_busy : bool;
  ac_served : list (gmap nat nfscd_request * nat);
  ac_told : list fuse_reply
}.

Definition set_busy (b : bool) (a : actor) : actor :=
  mk_actor (ac_state a) (ac_heap a) b (ac_served a) (ac_told a).

(** The threads of [d_actors] are actors, the others are FUSE's. *)
Record daemon := mk_daemon {
  d_queues : Requests.state;
  d_actors : gmap nat actor
}.

(** [rq = nfscd_dequeue_metadata_request(ctx)]: the call. *)
Definition take_request (t : nat) (d : daemon) : option daemon :=
  a ← d_actors d !! t;
  if ac_busy a then None
  else
    s ← call t nfscd_dequeue_metadata_request (d_queues d);
    Some (mk_daemon s (<[t := set_busy true a]> (d_actors d))).

(** [nfs3_act_on_request(&as, rq)], when the dequeue has returned. *)
Definition act_on_request (t : nat) (d : daemon) : option daemon :=
  a ← d_actors d !! t;
  th ← st_threads (d_queues d) !! t;
  if negb (ac_busy a) then None
  else
    match th with
    | mk_thread (Some rq) [] =>
        match act (ac_state a) (st_requests (d_queues d)) rq (ac_heap a) with
        | (as_, Returns (told, h)) =>
            Some (mk_daemon (d_queues d)
                    (<[t := mk_actor as_ h false (ac_served a ++ [(st_requests (d_queues d), rq)]) (ac_told a ++ told)]> (d_actors d)))
        | _ => None
        end
    | _ => None
    end.

Inductive daemon_step : daemon -> daemon -> Prop :=
  | daemon_exec t d s : exec t false (d_queues d) = Goes s -> daemon_step d (mk_daemon s (d_actors d))
  | daemon_lookup t req parent name rq node d s :
      d_actors d !! t = None -> nfscd_lookup t req parent name rq node (d_queues d) = Some s ->
      daemon_step d (mk_daemon s (d_actors d))
  | daemon_take t d d' : take_request t d = Some d' -> daemon_step d d'
  | daemon_act t d d' : act_on_request t d = Some d' -> daemon_step d d'.
End service.
