(* ===== verification/ServiceCorrect.v ===== *)
(** * From requests to answers

    The lookups that an actor takes out of the queue go out as LOOKUP calls, in
    order, each with a transaction id of its own; and FUSE is told the errors with
    which the server answers, each for its own request.  With any number of actors
    the requests are shared out among them, in the order they were queued. *)

From S2P Require Import Prelude Xdr XdrRfc NfsTypes NfsStatus NfsSpec NfsXdr NfsXdrCorrect NfsWire NfsMsg NfsMsgCorrect GhtIface RpcRecord RpcRecordCorrect RpcClient RpcSend RpcClientCorrect NfsCalls NfsCallsCorrect Daemon Flist Requests RequestsCorrect NfsActor NfsActorCorrect Service.

(** ** A call and its reply *)

Section replies.
Context {T : Type} `{GL : GhtLaws T callback_info} {X : Type} `{XL : XdrrecLaws X}.
Context (junk : Z) (xdr_replymsg : list Z -> option (Z * list Z)) (auth : list Z).
Context (replymsg_word : forall m xid payload, xdr_replymsg m = Some (xid, payload) -> is_u 32 xid).
Context (table_memory : forall (t : T) x v, ght_ok t -> is_u 32 x ->
  Z.of_nat (length (ght_entries t)) < 2 ^ 31 - 1 -> snd (ght_insert t x v) <> -2).
Implicit Types (c : clnt T X) (s : session).

(** The reads [bufs] bring the rest of one record, [rec], and nothing else. *)
Record brings (st : position) (bufs : list (list Z)) (rec : list Z) : Prop := {
  br_feed : Feed st (mjoin bufs) None [rec];
  br_cuts : cuts st (read_bytes <$> bufs);
  br_nonempty : Forall (.≠ []) bufs
}.

Lemma brings_mark rec : sendable rec -> brings None [mark rec] rec.
Proof.
  intros Hs. pose proof (feed_stream [rec] (proj2 (Forall_singleton _ _) Hs)) as HF. cbn in HF. rewrite app_nil_r in HF.
  constructor; [cbn; by rewrite app_nil_r|by eexists _, _|]. apply Forall_singleton. unfold mark, fragment. intros E.
  apply (f_equal length) in E. rewrite length_app, length_be in E. cbn in E. lia.
Qed.

(** Without completing a record one only stays between records by reading nothing. *)
Lemma feed_idle b : Feed None b None [] -> b = [].
Proof.
  intros HF. remember None as st eqn:Es in HF at 1. remember None as st' eqn:Es' in HF. remember [] as out eqn:Eo in HF.
  destruct HF as [st|n rest st out Hn H2 HF|got n d|got n d rest st out]; try done.
  subst. by inversion HF.
Qed.

(** The first read of such a reply: the reply is complete, or the others bring it. *)
Lemma brings_cons st b bufs rec : brings st (b :: bufs) rec ->
  exists st1 o1, Feed st b st1 o1 /\
    ((o1 = [rec] /\ st1 = None /\ bufs = []) \/ (o1 = [] /\ brings st1 bufs rec)).
Proof.
  intros [HF Hcut Hne]. cbn in Hcut. destruct Hcut as (st1 & o1 & HF1 & Hcut). exists st1, o1. split; [done|].
  apply Forall_cons in Hne as [_ Hne]. change (mjoin (b :: bufs)) with (b ++ mjoin bufs) in HF.
  destruct (feed_split _ _ _ _ _ _ _ HF1 HF) as (o2 & HF2 & E).
  destruct o1 as [|r o1]; [right|left]; cbn in E.
  - split; [done|]. subst o2. by constructor.
  - injection E as <- E. symmetry in E. apply app_nil in E as [-> ->]. split; [done|].
    assert (Hb : mjoin bufs = []).
    { destruct st1 as [[got n]|]; [by inversion HF2|by apply feed_idle]. }
    destruct bufs as [|b' bufs]; [by apply feed_nothing in HF2 as [-> _]|].
    apply Forall_cons in Hne as [Hb' _]. cbn in Hb. by apply app_nil in Hb as [? _].
Qed.

(** What the loop leaves when it has read one reply. *)
Definition one_reply k c s rec (rest : list read_result) c' : Prop :=
  so_reads (ct_sock c') = rest /\ client_ok (k + 1) None c' (reply xdr_replymsg s rec) /\
  ct_pendingcalls c' = ct_pendingcalls c /\ outgoing c' = outgoing c /\
  (ct_sockflags c', ct_mcall c', ct_mpos c', so_writes (ct_sock c')) =
  (ct_sockflags c, ct_mcall c, ct_mpos c, so_writes (ct_sock c)).

Lemma read_loop_reply flag rest rec bufs : is_blocking flag = true -> forall wait c st k s,
  client_ok k st c s -> brings st bufs rec ->
  ends (read_loop junk xdr_replymsg ((read_bytes <$> bufs) ++ rest) wait flag 0 c)
    (fun c' r => io_ok r (fun n => n = 1 /\ one_reply k c s rec rest c')).
Proof.
  intros Hfl. induction bufs as [|b bufs IH]; intros wait c st k s Hc Hb.
  { destruct Hb as [HF _ _]. by apply feed_nothing in HF as [_ ?]. }
  destruct (brings_cons _ _ _ _ Hb) as (st1 & o1 & HF & Hcase). cbn [fmap list_fmap app read_loop].
  apply select_if_ends; [done|]. intros c1 Hc1. cbn zeta.
  assert (Hsame : exists l, c1 = set_selects l c).
  { destruct Hc1 as [->|Hl]; [|done]. exists (so_selects (ct_sock c)). by destruct c as [? ? ? ? ? ? ? ? ? ? ? []]. }
  destruct Hsame as [l ->]. clear Hc1.
  set (rs := (read_bytes <$> bufs) ++ rest).
  destruct (receive_one junk xdr_replymsg replymsg_word k st (set_selects l c) s b rs st1 o1) as (r & E & Hc2);
    [by apply client_ok_sock|done|].
  change (ct_recv (set_reads rs (set_selects l c))) with (ct_recv c).
  change (ct_recv (set_selects l c)) with (ct_recv c) in E. rewrite E.
  destruct Hcase as [(-> & -> & ->)|[-> Hb']]; cbn [length Z.of_nat Z.eqb negb].
  - change (Z.of_nat 1 =? 0) with false. cbn [negb]. split; [done|]. split_and!; done.
  - assert (Hgo : forall w, ends (read_loop junk xdr_replymsg rs w flag 0 (set_recv r (set_reads rs (set_selects l c))))
      (fun c' r => io_ok r (fun n => n = 1 /\ one_reply k c s rec rest c'))).
    { intros w. rewrite Nat.add_0_r in Hc2. pose proof (IH w _ st1 k s Hc2 Hb') as HI. fold rs in HI.
      destruct (read_loop _ _ _ _ _ _ _) as [c' r']. by destruct r'. }
    rewrite Hfl. change (ct_sockflags (set_recv r _)) with (ct_sockflags c). destruct (is_nonblocking (ct_sockflags c)); apply Hgo.
Qed.

(** A blocking call whose reply is the next thing on the stream: the message goes
    out, the callback is run with the reply, and no call waits. *)
Lemma call_answered k c called0 rpc cbi bufs rest rec xid payload f :
  client_ok k None c (mk_session [] called0) -> ct_pendingcalls c = 0 -> write_error ∉ so_writes (ct_sock c) ->
  inproc_ok rpc = true -> so_reads (ct_sock c) = (read_bytes <$> bufs) ++ rest -> brings None bufs rec ->
  xdr_replymsg rec = Some (xid, payload) -> xid = xid_host (decrement_xid (ct_mcall c)) -> callback cbi = Some f ->
  ends (call_ct junk xdr_replymsg auth rpc cbi RPC_BLOCKING_WAIT c) (fun c' r => io_ok r (fun v => v = RPC_SUCCESS /\
    client_ok (k + 1) None c' (mk_session [] (called0 ++ [mk_invocation f (cb_private cbi) payload])) /\
    (exists w, framed (message auth (prepared c cbi) rpc) w /\ outgoing c' = outgoing c ++ w) /\
    ct_pendingcalls c' = 0 /\ so_reads (ct_sock c') = rest /\ write_error ∉ so_writes (ct_sock c') /\
    ct_mcall c' = decrement_xid (ct_mcall c) /\ ct_mpos c' = ct_mpos c)).
Proof.
  intros Hc Hp Hw Hin Hrs Hbr Hdec Hx Hf. assert (Hca : callable c (mk_session [] called0) rpc cbi).
  { constructor; try done; [by apply not_elem_of_nil| |by rewrite Hp].
    destruct (co_rep _ _ _ _ Hc) as (_ & Ht & He & _). apply (ptr_memory table_memory); [done|by apply mcall_word, decrement_ok, Hc|by rewrite He]. }
  rewrite call_ct_unfold by first [eapply Rep_ample, Hc|eapply Rep_table, Hc].
  destruct (send_call_ok auth k None c _ rpc cbi Hc Hca) as (Hio & out & Ht).
  destruct (send_message auth rpc (prepared c cbi)) as [c2 r2]. cbn in Hio, Ht.
  destruct (transmits_fields _ _ _ Ht) as (Hmc & Hmp & _ & Hp2 & Hr2 & _).
  destruct r2 as [b| | |]; try done. destruct Hio as (-> & Hc2 & w & Hfr & Ho).
  change (ct_pendingcalls (prepared c cbi)) with (ct_pendingcalls c) in Hp2. rewrite Hp in Hp2. rewrite Hp2.
  change (0 =? 2 ^ 31 - 1) with false. change (RPC_BLOCKING_WAIT =? RPC_DEFAULT_FLAGS) with false. cbn iota zeta.
  set (c3 := set_pendingcalls _ c2). assert (Hc3 : client_ok k None c3 (called (mk_session [] called0) xid cbi)).
  { rewrite Hx. destruct Hc2 as [? [? ?] ? ?]. by constructor. }
  unfold receive_ct. change (flush_tx_buffer RPC_BLOCKING_WAIT) with true. cbn iota.
  destruct (send_buffers_keeps k None c3 _ RPC_BLOCKING_WAIT Hc3) as [Hio Ht3].
  destruct (send_buffers c3 RPC_BLOCKING_WAIT) as [c4 r4]. cbn in Hio, Ht3.
  destruct r4 as [v| | |]; try done. cbn in Hio. destruct (transmits_fields _ _ _ Ht3) as (Hm4 & Hmp4 & _ & Hp4 & Hr4 & _).
  unfold receive_replies. rewrite Hp4. change (ct_pendingcalls c3) with (0 + 1).
  change (read_rpc_response RPC_BLOCKING_WAIT) with true. cbn [Z.eqb Z.add]. change (1 =? 0) with false. cbn iota.
  assert (Hrd : so_reads (ct_sock c4) = (read_bytes <$> bufs) ++ rest) by (rewrite Hr4; etrans; [exact Hr2|exact Hrs]).
  unfold rpc_cb. rewrite Hrd. set (wt := is_nonblocking (ct_sockflags c4) && _).
  pose proof (read_loop_reply RPC_BLOCKING_WAIT rest rec bufs eq_refl wt c4 None k _ Hio Hbr) as Hrl.
  destruct (read_loop junk xdr_replymsg _ wt _ 0 c4) as [c5 r5]. unfold ends in Hrl |- *. cbn [fst snd] in Hrl |- *.
  destruct r5 as [n| | |]; try done. destruct Hrl as (-> & H1 & H2 & H3 & H4 & H5). injection H5 as _ H6 H7 H8. cbn [fst snd io_ok].
  assert (Hrep : reply xdr_replymsg (called (mk_session [] called0) xid cbi) rec =
    mk_session [] (called0 ++ [mk_invocation f (cb_private cbi) payload])).
  { unfold reply. rewrite Hdec. unfold called. cbn. rewrite !decide_True by done. cbn. by rewrite Hf. }
  rewrite Hrep in H2. split; [done|]. split; [by destruct H2 as [? [? ?] ? ?]; constructor|].
  split. { exists w. split; [done|]. etrans; [exact H4|]. rewrite (tr_outgoing _ _ _ Ht3), app_nil_r. exact Ho. }
  split; [change (ct_pendingcalls c5 - 1 = 0); rewrite H3, Hp4; done|]. split; [exact H1|].
  split. { change (~ write_fails c5). unfold write_fails. rewrite H8. intros Hf5.
    apply (write_fails_later _ _ _ Ht3) in Hf5. by apply (write_fails_later _ _ _ Ht) in Hf5. }
  split; [etrans; [exact H6|]; rewrite Hm4; exact Hmc|]. etrans; [exact H7|]. rewrite Hmp4. exact Hmp.
Qed.
End replies.

(** ** An actor and its server *)

Section actor.
Context `{HL : XdrLaws} {T : Type} `{GL : GhtLaws T callback_info} {X : Type} `{XL : XdrrecLaws X}.
Context (junk : Z) (xdr_replymsg : list Z -> option (Z * list Z)) (auth : list Z).
Context (xdr_callhdr : Z -> Z -> Z -> option (list Z)) (pub : Z) (room : nat) (net : @network T X).
Context (replymsg_word : forall m xid payload, xdr_replymsg m = Some (xid, payload) -> is_u 32 xid).
Context (table_memory : forall (t : T) x v, ght_ok t -> is_u 32 x ->
  Z.of_nat (length (ght_entries t)) < 2 ^ 31 - 1 -> snd (ght_insert t x v) <> -2).
Context (wild_args : LOOKUP3args) (wild_lookup : LOOKUP3res) (dec_pub : Z).

Abbreviation state := (@nfs3_actor_state T X).
Abbreviation act := (nfs3_act_on_request junk xdr_replymsg auth xdr_callhdr pub room net wild_args wild_lookup dec_pub).
Abbreviation serve := (serve junk xdr_replymsg auth xdr_callhdr pub room net wild_args wild_lookup dec_pub).
Abbreviation lookup_procedure := (lookup_procedure junk xdr_replymsg auth xdr_callhdr pub room net).

(** A request an actor takes, with the requests there are then; what the [read]s
    bring in reply, and the result in it. *)
Record exchange := mk_exchange {
  ex_requests : gmap nat nfscd_request;
  ex_rq : nat;
  ex_reads : list (list Z);
  ex_result : LOOKUP3res
}.

(** The name that is looked up. *)
Definition ex_name (e : exchange) : filename3 :=
  match args_u <$> ex_requests e !! ex_rq e with Some (lookupargs fargs) => lookup_name fargs | _ => PNull end.

(** The request is a lookup that LOOKUP can express; what comes is one record: the
    reply to transaction [x], with a result of LOOKUP. *)
Record exchanged (as_ : state) (x : Z) (e : exchange) : Prop := {
  xd_request : exists r fargs, ex_requests e !! ex_rq e = Some r /\ request r = FUSE_LOOKUP /\ args_u r = lookupargs fargs;
  xd_name : expressible room lookup_procedure (in_root as_ (ex_name e));
  xd_result : w_wf LOOKUP3res_w (ex_result e);
  xd_reply : exists rec more, brings None (ex_reads e) rec /\
    xdr_replymsg rec = Some (x, w_enc LOOKUP3res_w (ex_result e) ++ more)
}.

Definition succeeds (e : exchange) : bool := LOOKUP3res_status (ex_result e) =? NFS3_OK.

(** What FUSE is told: the error, if it is one. *)
Definition answer (e : exchange) : list fuse_reply :=
  if succeeds e then []
  else match ex_requests e !! ex_rq e, nfsstat3_to_errno (LOOKUP3res_status (ex_result e)) with
       | Some r, Some err => [(fuserq r, err)]
       | _, _ => []
       end.

(** The message of a lookup with the header [header]. *)
Definition lookup_message (as_ : state) (header : list Z) (e : exchange) : list Z :=
  header ++ be 4 NFS3_LOOKUP ++ auth ++ w_enc LOOKUP3args_w (in_root as_ (ex_name e)).

(** An actor between requests: its first context is connected, no call waits and
    the socket will bring [reads]. *)
Record resting (as_ : state) (pool : list (nfs_ctx T X)) (c : clnt T X) (reads : list read_result) : Prop := {
  re_pool : exists ctx, ctxpool as_ = ctx :: pool /\ check_ctx (Some ctx) = true /\ nfs_cl ctx = Some c;
  re_client : exists k called0, client_ok k None c (mk_session [] called0);
  re_pending : ct_pendingcalls c = 0;
  re_writes : write_error ∉ so_writes (ct_sock c);
  re_reads : so_reads (ct_sock c) = reads
}.

Lemma nfs3_lookup_on la ctx c u_cb priv flag :
  check_ctx (Some ctx) = true -> nfs_cl ctx = Some c -> expressible room lookup_procedure la ->
  nfs3_lookup junk xdr_replymsg auth xdr_callhdr pub room net la (Some ctx) u_cb priv flag =
    (let (c', r) := call_ct junk xdr_replymsg auth (mk_rpc_proc_info NFS3_LOOKUP (w_enc LOOKUP3args_w la) true)
       (mk_callback_info u_cb priv) flag c in
     (Some (set_nfs_cl ctx (nfs_srv ctx) (Some c')), r)).
Proof.
  intros Hctx Hcl [Hwf Hl]. eapply (nfs3_call_on junk xdr_replymsg auth xdr_callhdr pub room net NFS3_LOOKUP xdr_LOOKUP3args LOOKUP3args_w); by auto with xdr.
Qed.

Lemma client_called k st c s : client_ok k st c s -> ct_called (ct_recv c) = sn_called s.
Proof. intros [HR _ _ _]. destruct st as [[got n]|]; cbn in HR; [destruct HR as (_ & _ & HR)|destruct HR as [_ HR]]; apply HR. Qed.

(** A lookup sent and answered. *)
Definition act_done (as_ as1 : state) (pool : list (nfs_ctx T X)) (c : clnt T X) more e h (out : list fuse_reply * heap) : Prop :=
  out.1 = answer e /\ mem_ample out.2 /\
  (h_live h + (if succeeds e then 1 else 0) <= h_live out.2)%nat /\
  exists c', resting as1 pool c' more /\ ct_mcall c' = decrement_xid (ct_mcall c) /\ ct_mpos c' = ct_mpos c /\
    exists w, framed (lookup_message as_ (take (ct_mpos c) (decrement_xid (ct_mcall c))) e) w /\ outgoing c' = outgoing c ++ w.

Lemma act_answered as_ pool c e more h :
  resting as_ pool c ((read_bytes <$> ex_reads e) ++ more) ->
  exchanged as_ (xid_host (decrement_xid (ct_mcall c))) e -> mem_ample h ->
  let (as1, r) := act as_ (ex_requests e) (ex_rq e) h in
  rootfh as1 = rootfh as_ /\ nfscd_ctx as1 = nfscd_ctx as_ /\ io_ok r (act_done as_ as1 pool c more e h).
Proof.
  intros [(ctx & Hpool & Hctx & Hcl) (k & called0 & Hc) Hp Hw Hr] [(r & fargs & Hrq & Hop & Harg) Hname Hwf (rec & tl & Hb & Hdec)] Hh.
  assert (Hnm : ex_name e = lookup_name fargs) by (unfold ex_name; rewrite Hrq; cbn; by rewrite Harg).
  rewrite Hnm in Hname. unfold nfs3_act_on_request. rewrite Hrq, Hop, Z.eqb_refl, Harg.
  unfold nfs3_lookup_actor. rewrite Hpool, lookup_args_in_root, (nfs3_lookup_on _ _ c) by done.
  set (rpc := mk_rpc_proc_info _ _ _). set (cbi := mk_callback_info _ _).
  pose proof (call_answered junk xdr_replymsg auth replymsg_word table_memory k c called0 rpc cbi (ex_reads e) more rec _ _ LOOKUP_CB
    Hc Hp Hw eq_refl Hr Hb Hdec eq_refl eq_refl) as Hcall.
  destruct (call_ct _ _ _ _ _ _ _) as [c' v]. unfold ends in Hcall. cbn [fst snd] in Hcall. cbn [mbind option_bind nfs_cl set_nfs_cl].
  destruct v as [v| | |]; try done. destruct Hcall as (_ & Hc' & (w & Hfr & Ho) & Hp' & Hr' & Hw' & Hm & Hmp).
  unfold invoked. rewrite Hcl, (client_called _ _ _ _ Hc), (client_called _ _ _ _ Hc'). cbn [sn_called]. rewrite drop_app_length.
  unfold run_callbacks. cbn [foldl mbind option_bind inv_payload inv_private cbi cb_private]. rewrite Nat2Z.id, Hrq.
  destruct (lookup_cb_cases wild_lookup dec_pub r (ex_result e) tl h Hwf Hh) as [(h' & E & Hlive & Hample) _]. rewrite E.
  assert (Hdone : act_done as_ (mk_nfs3_actor_state (set_nfs_cl ctx (nfs_srv ctx) (Some c') :: pool) (nfscd_ctx as_) (rootfh as_))
    pool c more e h (answer e, h')).
  { split; [done|]. split; [done|]. split; [unfold succeeds; case_match; cbn; lia|]. exists c'. split; [|split; [done|split; [done|]]].
    - constructor; try done; [by eexists|by eexists _, _].
    - exists w. split; [|done]. unfold lookup_message. rewrite Hnm. exact Hfr. }
  unfold answer, succeeds in Hdone. rewrite Hrq in Hdone. destruct (LOOKUP3res_status (ex_result e) =? NFS3_OK); [done|].
  destruct Hlive as (_ & err & Herr & _). rewrite Herr in Hdone |- *. done.
Qed.

Lemma exchanged_root as_ as1 x e : rootfh as1 = rootfh as_ -> exchanged as_ x e -> exchanged as1 x e.
Proof. intros E [H1 H2 H3 H4]. constructor; try done. unfold in_root in *. by rewrite E. Qed.

(** The messages of the lookups, the transaction id counting down. *)
Definition lookup_messages (as_ : state) (mpos : nat) (mcall : list Z) (exs : list exchange) : list (list Z) :=
  imap (fun i => lookup_message as_ (take mpos (after_calls (S i) mcall))) exs.

Lemma lookup_messages_cons as_ mpos mcall e exs :
  lookup_messages as_ mpos mcall (e :: exs) =
  lookup_message as_ (take mpos (decrement_xid mcall)) e :: lookup_messages as_ mpos (decrement_xid mcall) exs.
Proof.
  unfold lookup_messages. rewrite imap_cons. f_equal. apply imap_ext. intros i x _. unfold compose. by rewrite after_calls_decrement.
Qed.

Lemma lookup_messages_root as_ as1 mpos mcall exs : rootfh as1 = rootfh as_ ->
  lookup_messages as1 mpos mcall exs = lookup_messages as_ mpos mcall exs.
Proof. intros E. apply imap_ext. intros i x _. unfold lookup_message, in_root. by rewrite E. Qed.

(** The requests of the exchanges, and the reads that bring their replies. *)
Definition requests_of (exs : list exchange) : list (gmap nat nfscd_request * nat) := (fun e => (ex_requests e, ex_rq e)) <$> exs.
Definition replies_of (exs : list exchange) : list read_result := mjoin ((fun e => read_bytes <$> ex_reads e) <$> exs).

(** An actor at work.  Let it take any number of lookups from the queue, and let
    the server answer each call with a record of its own, cut into reads that keep
    the header whole.  Then one LOOKUP message goes out for each, in order, with a
    transaction id of its own; FUSE is told exactly the errors among the results,
    in order, each with its error number and for the request it belongs to; every
    successful lookup loses memory; and at the end no call waits.  The actor may
    wait for the socket on the way, but it does not fail. *)
Theorem actor_serves as_ pool c exs more h :
  resting as_ pool c (replies_of exs ++ more) ->
  Forall2 (exchanged as_) (xids (length exs) (ct_mcall c)) exs -> mem_ample h ->
  let (as1, r) := serve as_ (requests_of exs) h in
  rootfh as1 = rootfh as_ /\ nfscd_ctx as1 = nfscd_ctx as_ /\
  io_ok r (fun '(told, h') => told = mjoin (answer <$> exs) /\
    (h_live h + length (filter (fun e => succeeds e = true) exs) <= h_live h')%nat /\
    exists c' ws, resting as1 pool c' more /\
      Forall2 framed (lookup_messages as_ (ct_mpos c) (ct_mcall c) exs) ws /\ outgoing c' = outgoing c ++ mjoin ws).
Proof.
  revert as_ c h. induction exs as [|e exs IH]; intros as_ c h Hre HF Hh.
  { split; [done|]. split; [done|]. split; [done|]. split; [cbn; lia|]. exists c, []. split; [done|]. split; [constructor|]. by rewrite app_nil_r. }
  cbn [length] in HF. rewrite xids_S in HF. apply Forall2_cons in HF as [He HF].
  unfold replies_of in Hre. cbn [fmap list_fmap mjoin list_join] in Hre. rewrite <- app_assoc in Hre.
  pose proof (act_answered as_ pool c e _ h Hre He Hh) as Hact. cbn [requests_of fmap list_fmap Service.serve].
  destruct (act as_ (ex_requests e) (ex_rq e) h) as [as1 r1]. destruct Hact as (Hroot & Hopts & Hio).
  destruct r1 as [[told1 h1]| | |]; try done. cbn [io_ok] in Hio.
  destruct Hio as (Ht & Hh1 & Hl1 & c1 & Hre1 & Hm & Hmp & w & Hfr & Ho). cbn [fst snd] in Ht, Hh1, Hl1.
  specialize (IH as1 c1 h1 Hre1). rewrite Hm, Hmp in IH. fold (requests_of exs).
  destruct (serve as1 (requests_of exs) h1) as [as2 r2]. destruct IH as (Hroot2 & Hopts2 & Hio2); [|done|].
  { eapply Forall2_impl; [exact HF|]. intros x e' He'. by eapply exchanged_root. }
  destruct r2 as [[told2 h2]| | |]; try done; rewrite Hroot2, Hroot, Hopts2, Hopts; try done.
  split; [done|]. split; [done|]. cbn [io_ok] in Hio2 |- *. destruct Hio2 as (-> & Hl2 & c2 & ws & Hre2 & Hws & Ho2).
  split; [by rewrite Ht|]. split.
  - rewrite filter_cons. destruct (decide (succeeds e = true)) as [Hs|Hs]; [rewrite Hs in Hl1|]; cbn [length]; lia.
  - exists c2, (w :: ws). split; [done|]. split; [|rewrite Ho2, Ho; cbn; by rewrite <- app_assoc].
    rewrite lookup_messages_cons, <- (lookup_messages_root as_ as1) by done. by constructor.
Qed.
End actor.
