(* ===== verification/ServiceLife.v ===== *)
(** * The life of an actor

    [nfs3_request_actor] against a server that answers: the thread makes its pool
    of contexts, asks the MOUNT program for the root, connects with its first
    lookup, and serves; or, when the server does not grant the mount, it exits. *)

From S2P Require Import Prelude Xdr XdrRfc NfsTypes NfsStatus NfsSpec NfsXdr NfsXdrCorrect NfsWire NfsMsg NfsMsgCorrect GhtIface RpcRecord RpcRecordCorrect RpcClient RpcSend RpcClientCorrect NfsCalls NfsCallsCorrect Daemon NfsActor NfsActorCorrect Service ServiceCorrect.

Section life.
Context `{HL : XdrLaws} {T : Type} `{GL : GhtLaws T callback_info} {X : Type} `{XL : XdrrecLaws X}.
Context (junk : Z) (xdr_replymsg : list Z -> option (Z * list Z)) (auth : list Z).
Context (xdr_callhdr : Z -> Z -> Z -> option (list Z)) (pub : Z) (room : nat) (net mnt_net : @network T X).
Context (replymsg_word : forall m xid payload, xdr_replymsg m = Some (xid, payload) -> is_u 32 xid).
Context (callhdr_fits : forall xid prog vers hdr, xdr_callhdr xid prog vers = Some hdr ->
  (4 <= length hdr <= Z.to_nat MCALL_MSG_SIZE)%nat /\ bytes_ok hdr).
Context (table_memory : forall (t : T) x v, ght_ok t -> is_u 32 x ->
  Z.of_nat (length (ght_entries t)) < 2 ^ 31 - 1 -> snd (ght_insert t x v) <> -2).
Context (wild_args : LOOKUP3args) (wild_lookup : LOOKUP3res) (dec_pub : Z).
Context (wild_mount : mountres3) (wild_length : Z) (wild_root : fhandle3) (errno : Z).

Abbreviation state := (@nfs3_actor_state T X).
Abbreviation act := (nfs3_act_on_request junk xdr_replymsg auth xdr_callhdr pub room net wild_args wild_lookup dec_pub).
Abbreviation serve := (serve junk xdr_replymsg auth xdr_callhdr pub room net wild_args wild_lookup dec_pub).
Abbreviation exchanged := (exchanged junk xdr_replymsg auth xdr_callhdr pub room net).
Abbreviation mount := (nfs3_actor_mount_remotedir junk xdr_replymsg auth xdr_callhdr pub room mnt_net wild_mount dec_pub wild_length).
Implicit Types (ctx : nfs_ctx T X) (c : clnt T X).

(** ** Mounting *)

(** The reads bring one record, a reply of MNT to transaction [x]. *)
Record mount_reply (x : Z) (o : mountres3) (bufs : list (list Z)) : Prop := {
  mr_wf : w_wf mountres3_w o;
  mr_record : exists rec more, brings None bufs rec /\ xdr_replymsg rec = Some (x, w_enc mountres3_w o ++ more)
}.

Definition granted (o : mountres3) : bool := mountres3_fhs_status o =? MNT3_OK.

(** The connection to the MOUNT program when the message for [dir] has been sent
    under the header [hdr]. *)
Definition mount_sent (hdr : list Z) (dir : dirpath) (cl : option (clnt T X)) : Prop :=
  exists c w, cl = Some c /\ framed (decrement_xid hdr ++ be 4 MOUNT3_MNT ++ auth ++ w_enc dirpath_w dir) w /\
    outgoing c = so_sent (sys_script (net_sys mnt_net)) ++ w.

(** MNT on a context that has not been used: the reply has come and its callback
    is the only one that has been run. *)
Lemma mnt_answered dir ctx hdr o bufs more :
  check_ctx (Some ctx) = true -> nfs_mnt_cl ctx = None -> network_ok junk mnt_net -> accepts_mount junk xdr_callhdr mnt_net ->
  w_wf dirpath_w dir -> (length (w_enc dirpath_w dir) <= room)%nat ->
  xdr_callhdr (create_xid (net_sys mnt_net)) MOUNT_PROGRAM MOUNT_V3 = Some hdr ->
  so_reads (sys_script (net_sys mnt_net)) = (read_bytes <$> bufs) ++ more ->
  mount_reply (xid_host (decrement_xid hdr)) o bufs ->
  let (ctx', r) := mount3_mnt junk xdr_replymsg auth xdr_callhdr pub room mnt_net dir (Some ctx) (Some MOUNT_CB) 0 RPC_BLOCKING_WAIT in
  io_ok r (fun stat => stat = RPC_SUCCESS /\ exists ctx2 rest, ctx' = Some ctx2 /\ check_ctx (Some ctx2) = true /\
    nfs_cl ctx2 = nfs_cl ctx /\ mount_sent hdr dir (nfs_mnt_cl ctx2) /\
    invoked None (nfs_mnt_cl ctx2) = [mk_invocation MOUNT_CB 0 (w_enc mountres3_w o ++ rest)]).
Proof.
  intros Hctx Hcl Hnet Hacc Hwf Hl Hhdr Hrs [Ho (rec & rest & Hb & Hdec)].
  destruct (Hacc ctx Hcl) as (ctx1 & c & Hcon & Hcl1). unfold mount3_mnt.
  rewrite (mount3_call_connects junk xdr_replymsg auth xdr_callhdr pub room mnt_net _ _ _ _ _ _ _ _ Hctx Hcon), Hcl1.
  destruct (connect_mount_ok junk xdr_callhdr mnt_net callhdr_fits ctx Hnet Hcl) as (ctx1' & Hcon' & Hnew).
  rewrite Hcon in Hcon'. injection Hcon' as <-. destruct (Hnew c Hcl1) as (Hp & Hs & [Hpos Hpre] & Hsnd & k & Hok).
  rewrite (Hhdr : xdr_callhdr _ MOUNT_PROGRAM NFS_V3 = Some hdr) in Hpre. injection Hpre as ->.
  assert (Hkeep : check_ctx (Some ctx1) = true /\ nfs_cl ctx1 = nfs_cl ctx).
  { unfold connect_mount in Hcon. rewrite Hcl in Hcon. by apply bind_Some in Hcon as (cr & _ & [= <-]). }
  destruct Hkeep as [Hctx1 Hnfs].
  rewrite (mount3_call_on junk xdr_replymsg auth xdr_callhdr pub room mnt_net _ _ dirpath_w dir ctx1 c); try done; [|auto with xdr].
  assert (Hx : xid_host (decrement_xid (take (ct_mpos c) (ct_mcall c))) = xid_host (decrement_xid (ct_mcall c))).
  { unfold xid_host. rewrite <- take_decrement by done. by rewrite take_take, Nat.min_l. }
  rewrite Hx in Hdec.
  pose proof (call_answered junk xdr_replymsg auth replymsg_word table_memory k c [] (mk_rpc_proc_info MOUNT3_MNT (w_enc dirpath_w dir) true)
    (mk_callback_info (Some MOUNT_CB) 0) bufs more rec
    (xid_host (decrement_xid (ct_mcall c))) (w_enc mountres3_w o ++ rest) MOUNT_CB Hok Hp) as Hcall.
  rewrite Hs in Hcall. specialize (Hcall (no_writes _ _ Hnet) eq_refl Hrs Hb Hdec eq_refl eq_refl).
  destruct (call_ct _ _ _ _ _ _ _) as [c' v]. unfold ends in Hcall. cbn [fst snd] in Hcall.
  destruct v as [v| | |]; try done. destruct Hcall as (-> & Hc' & (w & Hfr & Hout) & _).
  split; [done|]. eexists _, rest. split; [done|]. split; [exact Hctx1|]. split; [exact Hnfs|]. cbn [nfs_mnt_cl set_nfs_mnt_cl]. split.
  - exists c', w. split; [done|]. split.
    + revert Hfr. unfold message. cbn [ct_mpos ct_mcall prepared]. by rewrite <- take_decrement.
    + rewrite Hout. unfold outgoing, pending. by rewrite Hsnd, Hs, app_nil_r.
  - unfold invoked. by rewrite (client_called _ _ _ _ Hc').
Qed.

(** The actor takes over the handle of the root that the server grants. *)
Lemma remotedir_mounted as_ ctx rest hdr o bufs more h :
  ctxpool as_ = ctx :: rest -> check_ctx (Some ctx) = true -> nfs_mnt_cl ctx = None -> network_ok junk mnt_net ->
  accepts_mount junk xdr_callhdr mnt_net -> w_wf dirpath_w (remotedir (nfscd_ctx as_)) ->
  (length (w_enc dirpath_w (remotedir (nfscd_ctx as_))) <= room)%nat ->
  xdr_callhdr (create_xid (net_sys mnt_net)) MOUNT_PROGRAM MOUNT_V3 = Some hdr ->
  so_reads (sys_script (net_sys mnt_net)) = (read_bytes <$> bufs) ++ more ->
  mount_reply (xid_host (decrement_xid hdr)) o bufs -> mem_ample h ->
  let (as1, r) := mount as_ h in
  io_ok r (fun '(v, h1) => v = (if granted o then 0 else -1) /\ mem_ample h1 /\
    exists ctx2, ctxpool as1 = ctx2 :: rest /\ check_ctx (Some ctx2) = true /\ nfs_cl ctx2 = nfs_cl ctx /\
      mount_sent hdr (remotedir (nfscd_ctx as_)) (nfs_mnt_cl ctx2) /\ nfscd_ctx as1 = nfscd_ctx as_ /\
      (granted o = true -> rootfh as1 = copied (mnt3_fhandle3 o))).
Proof.
  intros Hpool Hctx Hcl Hnet Hacc Hwf Hl Hhdr Hrs Hrep Hh. unfold nfs3_actor_mount_remotedir. rewrite Hpool.
  pose proof (mnt_answered _ ctx hdr o bufs more Hctx Hcl Hnet Hacc Hwf Hl Hhdr Hrs Hrep) as Hmnt.
  destruct (mount3_mnt _ _ _ _ _ _ _ _ _ _ _ _) as [ctx' r]. destruct r as [stat| | |]; try done.
  destruct Hmnt as (-> & ctx2 & tl & -> & Hctx2 & Hnfs & Hsent & Hinv). cbn [mbind option_bind]. rewrite Hcl, Hinv.
  destruct (nfs3_mount_cb_ok wild_mount dec_pub (mk_opaque_buf wild_length PNull) o tl h) as [(root' & h' & E & Hh' & Hroot) _];
    [apply Hrep|done|].
  unfold run_callbacks. cbn [foldl mbind option_bind inv_payload]. rewrite E. change (negb (RPC_SUCCESS =? RPC_SUCCESS)) with false. cbn iota.
  unfold granted. destruct (mountres3_fhs_status o =? MNT3_OK).
  - subst root'. cbn [fhandle3_fh copied data_val io_ok]. split; [done|]. split; [done|]. by exists ctx2.
  - destruct Hroot as [-> _]. cbn [io_ok]. split; [done|]. split; [done|]. by exists ctx2.
Qed.

(** ** The first lookup *)

(** It is made as if the connection had been there before. *)
Lemma act_connects as_ ctx ctx1 c pool x e h :
  ctxpool as_ = ctx :: pool -> check_ctx (Some ctx) = true -> nfs_cl ctx = None ->
  connect_nfs junk xdr_callhdr net ctx = Some ctx1 -> nfs_cl ctx1 = Some c -> ct_called (ct_recv c) = [] ->
  exchanged as_ x e ->
  act as_ (ex_requests e) (ex_rq e) h =
  act (mk_nfs3_actor_state (ctx1 :: pool) (nfscd_ctx as_) (rootfh as_)) (ex_requests e) (ex_rq e) h.
Proof.
  intros Hpool Hctx Hcl Hcon Hcl1 Hcalled [(r & fargs & Hrq & Hop & Harg) Hname _ _].
  assert (Hnm : ex_name e = lookup_name fargs) by (unfold ex_name; rewrite Hrq; cbn; by rewrite Harg).
  rewrite Hnm in Hname. unfold nfs3_act_on_request. rewrite Hrq, Hop, Z.eqb_refl, Harg.
  unfold nfs3_lookup_actor. rewrite Hpool. cbn [ctxpool]. rewrite !lookup_args_in_root.
  assert (E : forall la cb priv fl, nfs3_lookup junk xdr_replymsg auth xdr_callhdr pub room net la (Some ctx) cb priv fl =
    nfs3_lookup junk xdr_replymsg auth xdr_callhdr pub room net la (Some ctx1) cb priv fl).
  { intros. unfold nfs3_lookup. by rewrite (nfs3_call_connects _ _ _ _ _ _ _ _ _ _ _ _ _ _ _ Hctx Hcon), Hcl1. }
  assert (Hctx1 : check_ctx (Some ctx1) = true) by (by eapply connect_keeps).
  unfold in_root in *. cbn [rootfh]. rewrite E, (nfs3_lookup_on _ _ _ _ _ _ _ _ ctx1 c) by done. destruct (call_ct _ _ _ _ _ _ _) as [c' v].
  unfold invoked. by rewrite Hcl, Hcl1, Hcalled.
Qed.

(** ** What a call leaves alone *)

Definition first_mnt_cl as_ : option (option (clnt T X)) := nfs_mnt_cl <$> head (ctxpool as_).

Lemma lookup_keeps_mount la ctx cb priv fl :
  let (ctx', _) := nfs3_lookup junk xdr_replymsg auth xdr_callhdr pub room net la (Some ctx) cb priv fl in
  nfs_mnt_cl <$> ctx' = Some (nfs_mnt_cl ctx).
Proof.
  unfold nfs3_lookup, nfs3_call. destruct (check_ctx (Some ctx)); [|done]. cbn [negb mbind option_bind].
  destruct (connect_nfs _ _ _ ctx) as [ctx1|] eqn:E; [|done].
  destruct (call_on _ _ _ _ _ _ _ _ _ _ _ _) as [cl r]. cbn. f_equal.
  unfold connect_nfs in E. destruct (nfs_cl ctx); [by injection E as <-|]. by apply bind_Some in E as (cr & _ & [= <-]).
Qed.

Lemma act_keeps_mount as_ requests rq h : first_mnt_cl (act as_ requests rq h).1 = first_mnt_cl as_.
Proof.
  unfold nfs3_act_on_request. destruct (requests !! rq) as [r|]; [|done]. destruct (request r =? FUSE_LOOKUP); [|done].
  destruct (args_u r); try done. unfold nfs3_lookup_actor. destruct (ctxpool as_) as [|ctx pool] eqn:Hpool; [done|].
  pose proof (lookup_keeps_mount (fuse_to_nfs3_lookup_args as_ a wild_args) ctx (Some LOOKUP_CB) (Z.of_nat rq) RPC_BLOCKING_WAIT) as Hk.
  destruct (nfs3_lookup _ _ _ _ _ _ _ _ _ _ _ _) as [ctx' v]. unfold first_mnt_cl. rewrite Hpool.
  destruct ctx' as [ctx'|]; [|done]. destruct v; [destruct (run_callbacks _ _ _)|..]; exact Hk.
Qed.

Lemma serve_keeps_mount taken : forall as_ h, first_mnt_cl (serve as_ taken h).1 = first_mnt_cl as_.
Proof.
  induction taken as [|[requests rq] taken IH]; intros as_ h; [done|]. cbn [Service.serve].
  pose proof (act_keeps_mount as_ requests rq h) as Ha. destruct (act as_ requests rq h) as [as1 r]. cbn [fst] in Ha.
  destruct r as [[told h1]| | |]; try done. specialize (IH as1 h1). destruct (serve as1 taken h1) as [as2 r2]. cbn [fst] in IH.
  destruct r2 as [[more h2]| | |]; cbn [fst]; by rewrite IH.
Qed.

(** ** From its start *)

Abbreviation request_actor := (nfs3_request_actor junk xdr_replymsg auth xdr_callhdr pub room net wild_args wild_lookup dec_pub
  mnt_net wild_mount wild_length wild_root errno).

(** An actor with the root that [o] grants. *)
Definition rooted (opts : nfsclientd_opts) (o : mountres3) : state := mk_nfs3_actor_state [] opts (copied (mnt3_fhandle3 o)).

(** What lookups leave of the connection that the first of them makes. *)
Definition lookups_sent (hdr : list Z) (as_ : state) (exs : list exchange) (more : list read_result) (pool : list (nfs_ctx T X))
    (as1 : state) : Prop :=
  exists c ws, resting as1 pool c more /\ Forall2 framed (imap (fun i => lookup_message auth as_ (after_calls (S i) hdr)) exs) ws /\
    outgoing c = so_sent (sys_script (net_sys net)) ++ mjoin ws.

Lemma mounted_serves as_ ctx pool hdr exs more h :
  ctxpool as_ = ctx :: pool -> check_ctx (Some ctx) = true -> nfs_cl ctx = None -> network_ok junk net ->
  accepts junk xdr_callhdr net -> xdr_callhdr (create_xid (net_sys net)) NFS_PROGRAM NFS_V3 = Some hdr ->
  so_reads (sys_script (net_sys net)) = replies_of exs ++ more ->
  Forall2 (exchanged as_) (xids (length exs) hdr) exs -> exs <> [] -> mem_ample h ->
  let (as1, r) := serve as_ (requests_of exs) h in
  rootfh as1 = rootfh as_ /\ nfscd_ctx as1 = nfscd_ctx as_ /\
  io_ok r (fun '(told, h') => told = mjoin (answer <$> exs) /\
    (h_live h + length (filter (fun e => succeeds e = true) exs) <= h_live h')%nat /\ lookups_sent hdr as_ exs more pool as1).
Proof.
  intros Hpool Hctx Hcl Hnet Hacc Hhdr Hrs HF Hne Hh. destruct (Hacc ctx Hcl) as (ctx1 & c & Hcon & Hcl1).
  destruct (connect_nfs_ok junk xdr_callhdr net callhdr_fits ctx Hnet Hcl) as (ctx1' & Hcon' & Hnew).
  rewrite Hcon in Hcon'. injection Hcon' as <-. destruct (Hnew c Hcl1) as (Hp & Hs & [Hpos Hpre] & Hsnd & k & Hok).
  rewrite Hhdr in Hpre. injection Hpre as ->.
  rewrite xids_take in HF by done. destruct exs as [|e exs]; [done|]. clear Hne.
  set (as0 := mk_nfs3_actor_state (ctx1 :: pool) (nfscd_ctx as_) (rootfh as_)).
  assert (Hsame : serve as_ (requests_of (e :: exs)) h = serve as0 (requests_of (e :: exs)) h).
  { cbn [requests_of fmap list_fmap Service.serve]. cbn [length] in HF. rewrite xids_S in HF. apply Forall2_cons in HF as [He _].
    by rewrite (act_connects as_ ctx ctx1 c pool _ e h Hpool Hctx Hcl Hcon Hcl1 (client_called _ _ _ _ Hok) He). }
  rewrite Hsame. assert (Hre : resting as0 pool c (replies_of (e :: exs) ++ more)).
  { constructor; [exists ctx1; split_and!; [done|by eapply connect_keeps|done]|by exists k, []|done|rewrite Hs; apply Hnet|by rewrite Hs]. }
  pose proof (actor_serves junk xdr_replymsg auth xdr_callhdr pub room net replymsg_word table_memory wild_args wild_lookup dec_pub
    as0 pool c (e :: exs) more h Hre) as Hserve.
  destruct (serve as0 (requests_of (e :: exs)) h) as [as1 r]. destruct Hserve as (Hroot & Hopts & Hio); [|done|].
  { eapply Forall2_impl; [exact HF|]. intros x e' He'. by eapply exchanged_root; [|exact He']. }
  split; [done|]. split; [done|]. destruct r as [[told h']| | |]; try done. cbn [io_ok] in Hio |- *.
  destruct Hio as (-> & Hl & c' & ws & Hre' & Hws & Ho). split; [done|]. split; [done|]. exists c', ws. split; [done|]. split.
  - erewrite imap_ext; [exact Hws|]. intros i x _. cbn beta. by rewrite take_after_calls.
  - rewrite Ho. unfold outgoing, pending. by rewrite Hsnd, Hs, app_nil_r.
Qed.

(** [C4] An actor from its start.  Let the server answer the MNT call of the thread
    with one record and, if it grants the mount, each lookup that the thread takes
    with a record of its own, all cut into reads that keep the headers whole.  When
    the mount is not granted the thread exits with [errno].  Otherwise the root is
    a copy of the handle in the reply; FUSE is told exactly the errors among the
    results, in order, each with its error number and for its own request; one MNT
    message for the remote directory has gone to the MOUNT program, and one LOOKUP
    message for each request, in order and with a transaction id of its own, over
    the connection that the first lookup made; no call waits; every successful
    lookup has lost memory.  The actor may wait for the sockets on the way, but it
    does not fail. *)
Theorem request_actor_ok opts srv mhdr o mbufs mmore hdr exs more h :
  srvaddr opts = Some srv -> 1 <= ctxpoolsize opts -> mem_ample h ->
  w_wf dirpath_w (remotedir opts) -> (length (w_enc dirpath_w (remotedir opts)) <= room)%nat ->
  network_ok junk mnt_net -> accepts_mount junk xdr_callhdr mnt_net ->
  xdr_callhdr (create_xid (net_sys mnt_net)) MOUNT_PROGRAM MOUNT_V3 = Some mhdr ->
  so_reads (sys_script (net_sys mnt_net)) = (read_bytes <$> mbufs) ++ mmore ->
  mount_reply (xid_host (decrement_xid mhdr)) o mbufs ->
  network_ok junk net -> accepts junk xdr_callhdr net ->
  xdr_callhdr (create_xid (net_sys net)) NFS_PROGRAM NFS_V3 = Some hdr ->
  so_reads (sys_script (net_sys net)) = replies_of exs ++ more ->
  (granted o = true -> Forall2 (exchanged (rooted opts o)) (xids (length exs) hdr) exs) -> exs <> [] ->
  io_ok (request_actor opts (requests_of exs) h) (fun out =>
    if granted o then
      exists as1 h' pool, out = Serves as1 (mjoin (answer <$> exs)) h' /\
        rootfh as1 = copied (mnt3_fhandle3 o) /\ S (length pool) = Z.to_nat (ctxpoolsize opts) /\
        (exists cl, first_mnt_cl as1 = Some cl /\ mount_sent mhdr (remotedir opts) cl) /\
        lookups_sent hdr (rooted opts o) exs more pool as1 /\
        (length (filter (fun e => succeeds e = true) exs) <= h_live h')%nat
    else out = Exits errno).
Proof.
  intros Hsrv Hsize Hh Hwf Hl Hmnet Hmacc Hmhdr Hmrs Hmrep Hnet Hacc Hhdr Hrs HF Hne.
  unfold nfs3_request_actor, init_nfs3_actor_thread_state, init_per_actor_context_pool.
  rewrite mem_alloc_ample by done. cbn [negb]. set (h1 := mk_heap _ _ _).
  destruct (init_contexts_ok (T:=T) (X:=X) (Z.to_nat (ctxpoolsize opts)) opts srv Hsrv [] h1 Hh) as (h2 & -> & _ & Hh2).
  destruct (Z.to_nat (ctxpoolsize opts)) as [|n] eqn:En; [lia|]. cbn [replicate app]. set (ctx := mk_nfs_ctx _ _ _ _ _ _ _ _).
  set (as0 := mk_nfs3_actor_state _ opts wild_root).
  pose proof (remotedir_mounted as0 ctx (replicate n ctx) mhdr o mbufs mmore h2 eq_refl eq_refl eq_refl Hmnet Hmacc Hwf Hl Hmhdr Hmrs Hmrep Hh2) as Hm.
  destruct (mount as0 h2) as [as1 r]. destruct r as [[v h3]| | |]; try done. cbn [io_ok] in Hm.
  destruct Hm as (-> & Hh3 & ctx2 & Hpool & Hctx2 & Hnfs & Hsent & Hopts & Hroot). destruct (granted o); [|done]. specialize (HF eq_refl).
  specialize (Hroot eq_refl). change (0 <? 0) with false. cbn iota.
  pose proof (mounted_serves as1 ctx2 (replicate n ctx) hdr exs more h3 Hpool Hctx2 Hnfs Hnet Hacc Hhdr Hrs) as Hserve.
  pose proof (serve_keeps_mount (requests_of exs) as1 h3) as Hkeep.
  destruct (serve as1 (requests_of exs) h3) as [as2 r2]. destruct Hserve as (Hroot2 & _ & Hio); [|done|done|].
  { eapply Forall2_impl; [exact HF|]. intros x e He. by eapply exchanged_root; [|exact He]. }
  destruct r2 as [[told h4]| | |]; try done. cbn [io_ok fst] in Hio, Hkeep |- *. destruct Hio as (-> & Hlive & Hls).
  exists as2, h4, (replicate n ctx). split; [done|]. split; [by rewrite Hroot2|]. split; [by rewrite length_replicate|].
  split. { exists (nfs_mnt_cl ctx2). rewrite Hkeep. unfold first_mnt_cl. rewrite Hpool. done. }
  split; [|lia]. destruct Hls as (c & ws & H1 & H2 & H3). exists c, ws. split; [done|]. split; [|done].
  erewrite imap_ext; [exact H2|]. intros i x _. cbn beta. unfold lookup_message, in_root. by rewrite Hroot.
Qed.
End life.
