(* ===== verification/ServiceQueues.v ===== *)
(** * The daemon shares out the requests

    However the threads interleave, the daemon of [Service] refines a simple
    service: the lookups that FUSE's threads queue are handed out in the order
    they were queued, each to one actor, and every actor acts on its own, one
    after the other, as [serve] says. *)

From S2P Require Import Prelude Xdr NfsTypes GhtIface RpcRecord RpcClient NfsCalls Daemon Flist FlistCorrect Requests RequestsCorrect NfsActor Service.

(** ** What a statement changes *)

Definition is_lookup (r : nfscd_request) : Prop := request r = FUSE_LOOKUP /\ exists fargs, args_u r = lookupargs fargs.

Definition taken (s : state) : list nat := q_taken (st_md s).
Definition added (s : state) : list nat := q_added (st_md s).

(** The queue of metadata requests and the thread's variable after statement [o]
    of a thread with [elem]. *)
Definition takes (o : op) (elem : option nat) : list nat :=
  match o, elem with Del MD, Some x => [x] | _, _ => [] end.
Definition adds (o : op) : list nat := match o with Add_tail MD rq => [rq] | _ => [] end.

Lemma exec_effect t s s' : exec t false s = Goes s' ->
  exists th o code elem', st_threads s !! t = Some th /\ th_code th = o :: code /\
    st_threads s' = <[t := mk_thread elem' code]> (st_threads s) /\ st_requests s' = st_requests s /\
    taken s' = taken s ++ takes o (th_elem th) /\ added s' = added s ++ adds o /\
    (match o with First _ => True | _ => elem' = th_elem th end).
Proof.
  unfold exec. destruct (st_threads s !! t) as [th|] eqn:Et; [|done]. destruct (th_code th) as [|o code] eqn:Ec; [done|].
  intros E. exists th, o, code. unfold taken, added.
  destruct o as [rq|[]|[] rq|[]|[]|[]|[]|[]]; cbn in E; repeat case_match; simplify_eq/=; eexists; split_and!; try done;
    rewrite ?app_nil_r; done.
Qed.

Lemma call_effect t code s s' : call t code s = Some s' ->
  exists elem, st_threads s !! t = Some (mk_thread elem []) /\ st_threads s' = <[t := mk_thread elem code]> (st_threads s) /\
    st_requests s' = st_requests s /\ taken s' = taken s /\ added s' = added s /\ st_mem s' = st_mem s.
Proof.
  unfold call. destruct (st_threads s !! t) as [[elem [|]]|]; try done. intros [= <-]. by exists elem.
Qed.

Lemma new_request_effect rq r node s s' : new_request rq r node s = Some s' ->
  st_mem s !! rq = None /\ st_requests s' = <[rq := r]> (st_requests s) /\ st_threads s' = st_threads s /\
    taken s' = taken s /\ added s' = added s.
Proof. unfold new_request. destruct (st_mem s !! rq) eqn:E; [done|]. by intros [= <-]. Qed.

(** ** The requests of FUSE *)

(** Everything in the queue of metadata requests, or on its way there, is a
    lookup. *)
Definition lookups_only (s : state) : Prop :=
  forall rq, rq ∈ added s ++ flying (st_threads s) -> exists r, st_requests s !! rq = Some r /\ is_lookup r.

Lemma elem_of_flying a l : a ∈ flying l <-> exists t th, l !! t = Some th /\ a ∈ inflight (th_code th).
Proof.
  unfold flying. rewrite list_elem_of_bind. split.
  - intros (th & Ha & Hth). apply list_elem_of_lookup in Hth as [t Ht]. by exists t, th.
  - intros (t & th & Ht & Ha). exists th. split; [done|]. by apply list_elem_of_lookup; exists t.
Qed.

(** A thread that changes its code to one with the same requests, or fewer. *)
Lemma flying_insert a l t th th' : l !! t = Some th -> a ∈ flying (<[t := th']> l) ->
  a ∈ inflight (th_code th') \/ a ∈ flying l.
Proof.
  intros Ht. rewrite !elem_of_flying. intros (t1 & th1 & H1 & Ha). apply list_lookup_insert_Some in H1 as [(-> & -> & _)|[_ H1]]; [by left|].
  right. by exists t1, th1.
Qed.

Lemma inflight_tail o code : ok_code (o :: code) -> inflight code ++ adds o ⊆ inflight (o :: code).
Proof.
  intros Hok. inversion Hok as [|k rq i E|k i E]; destruct i as [|[|[|[|[|i]]]]]; cbn in E; simplify_eq/=; try (by destruct i); try destruct k; cbn;
    set_solver.
Qed.

Lemma exec_lookups t s s' : Inv s -> lookups_only s -> exec t false s = Goes s' -> lookups_only s'.
Proof.
  intros [c HI] HL E. destruct (exec_effect t s s' E) as (th & o & code & elem' & Ht & Hc & Hth & Hrq & _ & Ha & _).
  assert (Hok : ok_code (o :: code)) by (rewrite <- Hc; apply (Forall_lookup_1 _ _ _ _ (inv_code _ _ HI) Ht)).
  pose proof (inflight_tail o code Hok) as Hin. rewrite <- Hc in Hin.
  intros rq Hx. rewrite Hrq. apply HL. rewrite Ha, Hth in Hx. apply elem_of_app in Hx as [[Hx|Hx]%elem_of_app|Hx]; apply elem_of_app.
  - by left.
  - right. apply elem_of_flying. exists t, th. split; [done|]. apply Hin, elem_of_app. by right.
  - right. destruct (flying_insert _ _ _ _ _ Ht Hx) as [Hy|Hy]; [|done]. apply elem_of_flying. exists t, th. split; [done|].
    apply Hin, elem_of_app. by left.
Qed.

Lemma call_lookups t code s s' : lookups_only s -> call t code s = Some s' ->
  (forall a, a ∈ inflight code -> exists r, st_requests s !! a = Some r /\ is_lookup r) -> lookups_only s'.
Proof.
  intros HL E Hcode. destruct (call_effect _ _ _ _ E) as (elem & Ht & Hth & Hrq & _ & Ha & _).
  intros rq Hx. rewrite Ha, Hth in Hx. rewrite Hrq. apply elem_of_app in Hx as [Hx|Hx]; [by apply HL, elem_of_app; left|].
  destruct (flying_insert _ _ _ _ _ Ht Hx) as [Hy|Hy]; [by apply Hcode|by apply HL, elem_of_app; right].
Qed.

Lemma lookup_lookups t req parent name rq node s s' : Inv s -> lookups_only s ->
  nfscd_lookup t req parent name rq node s = Some s' -> lookups_only s'.
Proof.
  intros [c HI] HL. unfold nfscd_lookup. destruct (new_request _ _ _ s) as [s1|] eqn:En; [|done]. cbn [mbind option_bind]. intros E.
  destruct (new_request_effect _ _ _ _ _ En) as (Hm & Hrq & Hth & _ & Ha).
  assert (HL1 : lookups_only s1).
  { intros x Hx. rewrite Ha, Hth in Hx. rewrite Hrq. destruct (decide (x = rq)) as [->|Hne]; [|by rewrite lookup_insert_ne; [apply HL|]].
    exfalso. assert (Hn : is_Some (st_mem s !! rq)); [|by rewrite Hm in Hn; destruct Hn].
    apply (inv_nodes _ _ HI). unfold owned. rewrite !elem_of_cons, !elem_of_app. apply elem_of_app in Hx. unfold added in Hx. tauto. }
  eapply call_lookups; [exact HL1|exact E|]. intros a Ha'. apply list_elem_of_singleton in Ha' as ->.
  eexists. rewrite Hrq, lookup_insert_eq. split; [done|]. split; [done|]. by eexists.
Qed.

(** ** The daemon *)

Section daemon.
Context {P : XdrPrims} {T : Type} `{GT : Ght T callback_info} {X : Type} `{XR : Xdrrec X}.
Context (junk : Z) (xdr_replymsg : list Z -> option (Z * list Z)) (auth : list Z).
Context (xdr_callhdr : Z -> Z -> Z -> option (list Z)).
Context (pub : Z) (room : nat) (net : @network T X).
Context (wild_args : LOOKUP3args) (wild_lookup : LOOKUP3res) (dec_pub : Z).

Abbreviation serve := (serve junk xdr_replymsg auth xdr_callhdr pub room net wild_args wild_lookup dec_pub).
Abbreviation daemon_step := (daemon_step junk xdr_replymsg auth xdr_callhdr pub room net wild_args wild_lookup dec_pub).
Abbreviation act_on_request := (act_on_request junk xdr_replymsg auth xdr_callhdr pub room net wild_args wild_lookup dec_pub).
Abbreviation actor := (@actor T X).
Abbreviation daemon := (@daemon T X).

(** The request an actor holds: it has taken it and not acted on it. *)
Definition in_hand (a : actor) (th : thread) : list nat :=
  if ac_busy a then
    match th with mk_thread (Some rq) ([] | [Unlock MD]) => [rq] | _ => [] end
  else [].
Definition given (a : actor) (th : thread) : list nat := (ac_served a).*2 ++ in_hand a th.

(** An actor that started as [start]. *)
Record actor_ok (s : state) (start : @nfs3_actor_state T X * heap) (a : actor) (th : thread) : Prop := {
  ok_serve : serve start.1 (ac_served a) start.2 = (ac_state a, Returns (ac_told a, ac_heap a));
  ok_at : if ac_busy a then exists i, th_code th = drop i (dequeue MD) else th_code th = [];
  ok_elem : ac_busy a = true -> th_code th = [] \/ th_code th = [Unlock MD] -> is_Some (th_elem th);
  ok_order : sublist (given a th) (taken s);
  ok_lookup : Forall (fun x => exists r, x.1 !! x.2 = Some r /\ is_lookup r) (ac_served a)
}.

Record DInv (starts : gmap nat (@nfs3_actor_state T X * heap)) (d : daemon) : Prop := {
  di_reach : reachable (d_queues d);
  di_actors : forall t a, d_actors d !! t = Some a -> exists start th, starts !! t = Some start /\
    st_threads (d_queues d) !! t = Some th /\ actor_ok (d_queues d) start a th;
  di_all : forall rq, rq ∈ taken (d_queues d) -> exists t a th, d_actors d !! t = Some a /\
    st_threads (d_queues d) !! t = Some th /\ rq ∈ given a th;
  di_once : forall t t' a a' th th' rq, d_actors d !! t = Some a -> d_actors d !! t' = Some a' ->
    st_threads (d_queues d) !! t = Some th -> st_threads (d_queues d) !! t' = Some th' ->
    rq ∈ given a th -> rq ∈ given a' th' -> t = t';
  di_fuse : forall t th, st_threads (d_queues d) !! t = Some th -> d_actors d !! t = None ->
    exists rq i, th_code th = drop i (enqueue MD rq);
  di_lookups : lookups_only (d_queues d)
}.

(** Requests taken out are different from each other. *)
Lemma taken_nodup s : reachable s -> NoDup (taken s).
Proof.
  intros [c HI]%reachable_inv. pose proof (inv_owned _ _ HI) as Hnd. pose proof (inv_fifo _ _ HI MD) as Hf. cbn in Hf.
  unfold owned in Hnd. rewrite Hf, !NoDup_cons, !NoDup_app in Hnd. unfold taken. tauto.
Qed.

Lemma reachable_step s s' : reachable s -> step s s' -> reachable s'.
Proof.
  intros (md & rw & m & n & s0 & H1 & H2 & H3 & H4 & Hr) Hs. exists md, rw, m, n, s0. split_and!; try done.
  by eapply rtc_r.
Qed.

(** A step of the queues after which every actor still has what it had. *)
Lemma DInv_kept starts d s : DInv starts d -> reachable s -> lookups_only s -> taken s = taken (d_queues d) ->
  (forall t th, st_threads s !! t = Some th -> exists th0, st_threads (d_queues d) !! t = Some th0 /\
     (th = th0 \/ d_actors d !! t = None /\ (exists rq i, th_code th = drop i (enqueue MD rq)) \/
      exists a, d_actors d !! t = Some a /\ in_hand a th = in_hand a th0 /\
       (if ac_busy a then exists i, th_code th = drop i (dequeue MD) else th_code th = []) /\
       (ac_busy a = true -> th_code th = [] \/ th_code th = [Unlock MD] -> is_Some (th_elem th)))) ->
  (forall t, is_Some (st_threads (d_queues d) !! t) -> is_Some (st_threads s !! t)) ->
  DInv starts (mk_daemon s (d_actors d)).
Proof.
  intros [HR HA Hall Honce Hfuse _] HRs HLs Htk Hth Hsome.
  assert (Hgiven : forall t a th, d_actors d !! t = Some a -> st_threads s !! t = Some th ->
    exists th0, st_threads (d_queues d) !! t = Some th0 /\ given a th = given a th0).
  { intros t a th Ha Ht. destruct (Hth t th Ht) as (th0 & H0 & [->|[[Hn _]|(a' & Ha' & Hh & _)]]).
    - by exists th0.
    - by rewrite Ha in Hn.
    - exists th0. split; [done|]. rewrite Ha in Ha'. injection Ha' as <-. unfold given. by rewrite Hh. }
  constructor; cbn; try done.
  - intros t a Ha. destruct (HA t a Ha) as (start & th0 & Hs & H0 & Hok). destruct (Hsome t) as [th Ht]; [by eexists|].
    exists start, th. split; [done|]. split; [done|]. destruct (Hgiven t a th Ha Ht) as (th0' & H0' & Hg).
    rewrite H0 in H0'. injection H0' as <-. destruct (Hth t th Ht) as (th0' & H0' & Hcase). rewrite H0 in H0'. injection H0' as <-.
    destruct Hok as [K1 K2 K3 K4 K5]. constructor; try done; [| |by rewrite Hg, Htk].
    + destruct Hcase as [->|[[Hn _]|(a' & Ha' & _ & Hc & _)]]; [done|by rewrite Ha in Hn|]. rewrite Ha in Ha'. by injection Ha' as <-.
    + destruct Hcase as [->|[[Hn _]|(a' & Ha' & _ & _ & He)]]; [done|by rewrite Ha in Hn|]. rewrite Ha in Ha'. by injection Ha' as <-.
  - intros rq Hrq. rewrite Htk in Hrq. destruct (Hall rq Hrq) as (t & a & th0 & Ha & H0 & Hg).
    destruct (Hsome t) as [th Ht]; [by eexists|]. exists t, a, th. split; [done|]. split; [done|].
    destruct (Hgiven t a th Ha Ht) as (th0' & H0' & ->). rewrite H0 in H0'. by injection H0' as <-.
  - intros t t' a a' th th' rq Ha Ha' Ht Ht'. destruct (Hgiven _ _ _ Ha Ht) as (th0 & H0 & ->), (Hgiven _ _ _ Ha' Ht') as (th0' & H0' & ->).
    by eapply Honce.
  - intros t th Ht Hn. destruct (Hth t th Ht) as (th0 & H0 & [->|[[_ Hc]|(a & Ha & _)]]); [by eapply Hfuse|done|by rewrite Hn in Ha].
Qed.

Lemma drop_tail {A} (x : A) l l' i : x :: l = drop i l' -> l = drop (S i) l'.
Proof. intros E. change l with (drop 1 (x :: l)). rewrite E, drop_drop. f_equal. lia. Qed.

Lemma in_hand_code a elem code : (forall o c, code = o :: c -> c <> [] \/ o <> Unlock MD) -> code <> [] -> in_hand a (mk_thread elem code) = [].
Proof.
  intros H Hne. unfold in_hand. destruct (ac_busy a), elem as [rq|], code as [|[| | |[]|[]| | |] [|]]; try done; destruct (H _ _ eq_refl); try done.
Qed.

(** An actor takes a request out of the list. *)
Lemma del_kept starts d s t th elem' code x a : DInv starts d -> reachable s -> lookups_only s ->
  d_actors d !! t = Some a -> ac_busy a = true ->
  st_threads (d_queues d) !! t = Some th -> th_code th = drop 3 (dequeue MD) -> code = [Unlock MD] ->
  st_threads s = <[t := mk_thread elem' code]> (st_threads (d_queues d)) -> elem' = Some x ->
  taken s = taken (d_queues d) ++ [x] -> DInv starts (mk_daemon s (d_actors d)).
Proof.
  intros [HR HA Hall Honce Hfuse _] HRs HLs Ha Hb Ht Hc -> Hth -> Htk.
  assert (Hx : x ∉ taken (d_queues d)).
  { pose proof (taken_nodup _ HRs) as Hnd. rewrite Htk in Hnd. apply NoDup_app in Hnd as (_ & Hnd & _).
    intros Hx. apply (Hnd x Hx). by left. }
  set (th1 := mk_thread (Some x) [Unlock MD]) in *. assert (Hnew : st_threads s !! t = Some th1).
  { rewrite Hth. apply list_lookup_insert_eq. by eapply lookup_lt_Some. }
  assert (Hold : forall t', t' <> t -> st_threads s !! t' = st_threads (d_queues d) !! t').
  { intros t' Hne. rewrite Hth. by apply list_lookup_insert_ne. }
  assert (Hg0 : given a th = (ac_served a).*2).
  { unfold given. destruct th as [elem c]. cbn in Hc. subst c. rewrite in_hand_code; [apply app_nil_r| |done].
    intros o c [= <- <-]. by right. }
  assert (Hg1 : given a th1 = (ac_served a).*2 ++ [x]) by (unfold given, in_hand; by rewrite Hb).
  assert (Hin : forall t' a' th', d_actors d !! t' = Some a' -> st_threads (d_queues d) !! t' = Some th' -> x ∉ given a' th').
  { intros t' a' th' Ha' Ht' Hg. destruct (HA t' a' Ha') as (st' & th2 & _ & Ht2 & [_ _ _ Ho _]). rewrite Ht' in Ht2. injection Ht2 as <-.
    apply Hx. by eapply elem_of_sublist. }
  constructor; cbn; try done.
  - intros t' a' Ha'. destruct (HA t' a' Ha') as (start & th' & Hs & Ht' & [K1 K2 K3 K4 K5]). exists start.
    destruct (decide (t' = t)) as [->|Hne].
    + rewrite Ht in Ht'. injection Ht' as <-. rewrite Ha in Ha'. injection Ha' as <-. exists th1. split; [done|]. split; [done|].
      constructor; [done| |done| |done]; [rewrite Hb; by exists 4%nat|]. rewrite Hg1, Htk. rewrite Hg0 in K4. by apply sublist_app.
    + exists th'. rewrite Hold by done. split; [done|]. split; [done|]. constructor; try done. rewrite Htk. by apply sublist_inserts_r.
  - intros rq Hrq. rewrite Htk in Hrq. apply elem_of_app in Hrq as [Hrq|Hrq%list_elem_of_singleton].
    + destruct (Hall rq Hrq) as (t' & a' & th' & Ha' & Ht' & Hg). exists t', a'. destruct (decide (t' = t)) as [->|Hne].
      * rewrite Ht in Ht'. injection Ht' as <-. rewrite Ha in Ha'. injection Ha' as <-. exists th1. split; [done|]. split; [done|].
        rewrite Hg1. rewrite Hg0 in Hg. apply elem_of_app. by left.
      * exists th'. by rewrite Hold.
    + subst rq. exists t, a, th1. split; [done|]. split; [done|]. rewrite Hg1. apply elem_of_app. right. by left.
  - assert (Hcase : forall t' a' th' rq, d_actors d !! t' = Some a' -> st_threads s !! t' = Some th' -> rq ∈ given a' th' ->
      (exists th0, st_threads (d_queues d) !! t' = Some th0 /\ rq ∈ given a' th0) \/ (t' = t /\ rq = x)).
    { intros t' a' th' rq Ha' Ht' Hg. destruct (decide (t' = t)) as [->|Hne]; [|left; exists th'; by rewrite <- Hold].
      rewrite Hnew in Ht'. injection Ht' as <-. rewrite Ha in Ha'. injection Ha' as <-. rewrite Hg1 in Hg.
      apply elem_of_app in Hg as [Hg|Hg%list_elem_of_singleton]; [left|by right]. exists th. by rewrite Hg0. }
    intros t1 t2 a1 a2 th1' th2' rq Ha1 Ha2 Ht1 Ht2 Hg1' Hg2'.
    destruct (Hcase _ _ _ _ Ha1 Ht1 Hg1') as [(u1 & Hu1 & Hv1)|[-> ->]], (Hcase _ _ _ _ Ha2 Ht2 Hg2') as [(u2 & Hu2 & Hv2)|[-> E2]]; try done.
    + by eapply Honce.
    + subst rq. by destruct (Hin _ _ _ Ha1 Hu1).
    + by destruct (Hin _ _ _ Ha2 Hu2).
  - intros t' th' Ht' Hn. destruct (decide (t' = t)) as [->|Hne]; [by rewrite Ha in Hn|]. rewrite Hold in Ht' by done. by eapply Hfuse.
Qed.

Lemma exec_kept starts d t s : DInv starts d -> exec t false (d_queues d) = Goes s -> DInv starts (mk_daemon s (d_actors d)).
Proof.
  intros HD E. pose proof HD as [HR HA Hall Honce Hfuse HL].
  assert (HRs : reachable s) by (eapply reachable_step; [done|by eapply step_exec]).
  pose proof (exec_lookups _ _ _ (reachable_inv _ HR) HL E) as HLs.
  destruct (exec_effect _ _ _ E) as (th & o & code & elem' & Ht & Hc & Hth & Hrq & Htk & _ & Hel).
  assert (Hlt : (t < length (st_threads (d_queues d)))%nat) by (by eapply lookup_lt_Some).
  assert (Hsome : forall t', is_Some (st_threads (d_queues d) !! t') -> is_Some (st_threads s !! t')).
  { intros t' Hs. rewrite Hth. apply lookup_lt_is_Some. rewrite length_insert. by apply lookup_lt_is_Some. }
  assert (Hthread : forall t' th', st_threads s !! t' = Some th' ->
    (t' = t /\ th' = mk_thread elem' code) \/ (t' <> t /\ st_threads (d_queues d) !! t' = Some th')).
  { intros t' th'. rewrite Hth. intros [(-> & -> & _)|[? ?]]%list_lookup_insert_Some; [by left|by right]. }
  destruct (d_actors d !! t) as [a|] eqn:Ea.
  - destruct (HA t a Ea) as (start & th0 & _ & Ht0 & [_ Hat Hsm _ _]). rewrite Ht in Ht0. injection Ht0 as <-.
    destruct (ac_busy a) eqn:Eb; [|by rewrite Hc in Hat]. destruct Hat as [i Hi]. pose proof Hi as Hi'. rewrite Hc in Hi'.
    destruct (decide (i = 3%nat)) as [->|Hi3].
    + injection Hi' as -> ->. unfold exec in E. rewrite Ht, Hc in E. cbn in E. rewrite Hel in *.
      destruct (th_elem th) as [x|] eqn:Ex; [|by destruct (flist_del _ _)]. clear E. eapply del_kept; try done.
    + apply DInv_kept; try done.
      * rewrite Htk. destruct i as [|[|[|[|[|i]]]]]; try done; try (by destruct i); injection Hi' as -> _; by rewrite app_nil_r.
      * intros t' th' [[-> ->]|[Hne H']]%Hthread; [|by exists th'; split; [|left]]. exists th. split; [done|]. right. right. exists a.
        split; [done|]. rewrite Eb. split; [|split; [exists (S i); by eapply drop_tail|]].
        -- destruct th as [elem c]. cbn in Hc. subst c.
           destruct i as [|[|[|[|[|i]]]]]; try done; try (by destruct i); injection Hi' as -> ->;
             [rewrite !in_hand_code; try done; intros ? ? [= <- <-]; by (left + right).. |].
           cbn in Hel. subst elem'. unfold in_hand. rewrite Eb. by destruct elem.
        -- intros _ Hcode. destruct i as [|[|[|[|[|i]]]]]; try done; try (by destruct i); injection Hi' as -> ->; try (by destruct Hcode).
           cbn in Hel |- *. rewrite Hel. apply Hsm; [done|]. by right.
  - destruct (Hfuse t th Ht Ea) as (rq & i & Hi). pose proof Hi as Hi'. rewrite Hc in Hi'. apply DInv_kept; try done.
    + rewrite Htk. destruct i as [|[|[|[|[|i]]]]]; try (by destruct i); injection Hi' as -> _; by rewrite app_nil_r.
    + intros t' th' [[-> ->]|[Hne H']]%Hthread; [|by exists th'; split; [|left]]. exists th. split; [done|]. right. left. split; [done|].
      exists rq, (S i). by eapply drop_tail.
Qed.

(** A thread that calls one of the functions, seen from the others. *)
Lemma call_threads t code s0 s th0 : st_threads s0 !! t = Some th0 ->
  st_threads s = <[t := mk_thread (th_elem th0) code]> (st_threads s0) ->
  (forall t', is_Some (st_threads s0 !! t') -> is_Some (st_threads s !! t')) /\
  (forall t' th', st_threads s !! t' = Some th' ->
    (t' = t /\ th' = mk_thread (th_elem th0) code) \/ (t' <> t /\ st_threads s0 !! t' = Some th')).
Proof.
  intros Ht Hth. split.
  - intros t' Hs. rewrite Hth. apply lookup_lt_is_Some. rewrite length_insert. by apply lookup_lt_is_Some.
  - intros t' th'. rewrite Hth. intros [(-> & -> & _)|[? ?]]%list_lookup_insert_Some; [by left|by right].
Qed.

Lemma lookup_kept starts d t req parent name rq node s : DInv starts d -> d_actors d !! t = None ->
  nfscd_lookup t req parent name rq node (d_queues d) = Some s -> DInv starts (mk_daemon s (d_actors d)).
Proof.
  intros HD Hn E. pose proof HD as [HR _ _ _ _ HL].
  assert (HRs : reachable s) by (eapply reachable_step; [done|by eapply step_lookup]).
  pose proof (lookup_lookups _ _ _ _ _ _ _ _ (reachable_inv _ HR) HL E) as HLs.
  unfold nfscd_lookup in E. destruct (new_request _ _ _ (d_queues d)) as [s1|] eqn:En; [|done]. cbn [mbind option_bind] in E.
  destruct (new_request_effect _ _ _ _ _ En) as (_ & _ & Hth1 & Htk1 & _).
  destruct (call_effect _ _ _ _ E) as (elem & Ht & Hth & _ & Htk & _ & _). rewrite Hth1 in Ht, Hth. rewrite Htk1 in Htk.
  destruct (call_threads t (nfscd_enqueue_metadata_request rq) (d_queues d) s _ Ht Hth) as [Hsome Hthread].
  apply DInv_kept; try done. intros t' th' [[-> ->]|[_ H']]%Hthread; [|by exists th'; split; [|left]].
  eexists. split; [exact Ht|]. right. left. split; [done|]. by exists rq, 0%nat.
Qed.

(** A step of an actor that concerns no one else: [a] becomes [a'], with the same
    requests, while the queues become [s]. *)
Lemma DInv_actor starts d s t start a a' th th' : DInv starts d -> reachable s -> lookups_only s ->
  d_actors d !! t = Some a -> starts !! t = Some start -> st_threads (d_queues d) !! t = Some th ->
  st_threads s = <[t := th']> (st_threads (d_queues d)) -> taken s = taken (d_queues d) ->
  given a' th' = given a th -> actor_ok s start a' th' -> DInv starts (mk_daemon s (<[t := a']> (d_actors d))).
Proof.
  intros [HR HA Hall Honce Hfuse _] HRs HLs Ha Hst Ht Hth Htk Hg Hok.
  assert (Hnew : st_threads s !! t = Some th') by (rewrite Hth; apply list_lookup_insert_eq; by eapply lookup_lt_Some).
  assert (Hold : forall u, u <> t -> st_threads s !! u = st_threads (d_queues d) !! u) by (intros u Hne; rewrite Hth; by apply list_lookup_insert_ne).
  assert (Hback : forall u b thu, <[t := a']> (d_actors d) !! u = Some b -> st_threads s !! u = Some thu ->
    exists b0 th0, d_actors d !! u = Some b0 /\ st_threads (d_queues d) !! u = Some th0 /\ given b thu = given b0 th0).
  { intros u b thu Hb Hu. destruct (decide (u = t)) as [->|Hne].
    - rewrite lookup_insert_eq in Hb. injection Hb as <-. rewrite Hnew in Hu. injection Hu as <-. by exists a, th.
    - rewrite lookup_insert_ne in Hb by done. rewrite Hold in Hu by done. by exists b, thu. }
  constructor; cbn; try done.
  - intros u b Hb. destruct (decide (u = t)) as [->|Hne].
    + rewrite lookup_insert_eq in Hb. injection Hb as <-. by exists start, th'.
    + rewrite lookup_insert_ne in Hb by done. destruct (HA u b Hb) as (st & thu & H1 & H2 & [K1 K2 K3 K4 K5]).
      exists st, thu. rewrite Hold by done. split; [done|]. split; [done|]. constructor; try done. by rewrite Htk.
  - intros rq Hrq. rewrite Htk in Hrq. destruct (Hall rq Hrq) as (u & b & thu & Hb & Hu & Hgu).
    destruct (decide (u = t)) as [->|Hne].
    + rewrite Ha in Hb. injection Hb as <-. rewrite Ht in Hu. injection Hu as <-. exists t, a', th'.
      rewrite lookup_insert_eq, Hg. done.
    + exists u, b, thu. rewrite lookup_insert_ne, Hold by done. done.
  - intros u u' b b' thu thu' rq Hb Hb' Hu Hu'. destruct (Hback _ _ _ Hb Hu) as (? & ? & ? & ? & ->), (Hback _ _ _ Hb' Hu') as (? & ? & ? & ? & ->).
    by eapply Honce.
  - intros u thu Hu Hn. destruct (decide (u = t)) as [->|Hne]; [by rewrite lookup_insert_eq in Hn|].
    rewrite lookup_insert_ne in Hn by done. rewrite Hold in Hu by done. by eapply Hfuse.
Qed.

Lemma take_kept starts d t d' : DInv starts d -> take_request t d = Some d' -> DInv starts d'.
Proof.
  intros HD E. pose proof HD as [HR HA _ _ _ HL]. unfold take_request in E.
  destruct (d_actors d !! t) as [a|] eqn:Ea; [|done]. cbn [mbind option_bind] in E. destruct (ac_busy a) eqn:Eb; [done|].
  destruct (call t nfscd_dequeue_metadata_request (d_queues d)) as [s|] eqn:Ec; [|done]. injection E as <-.
  assert (HRs : reachable s) by (eapply reachable_step; [done|by eapply step_dequeue_metadata]).
  destruct (call_effect _ _ _ _ Ec) as (elem & Ht & Hth & _ & Htk & _ & _).
  destruct (HA t a Ea) as (start & th & Hst & Ht' & [K1 K2 K3 K4 K5]). rewrite Ht in Ht'. injection Ht' as <-.
  assert (Hg : given (set_busy true a) (mk_thread elem nfscd_dequeue_metadata_request) = given a (mk_thread elem [])).
  { unfold given, in_hand. cbn. rewrite Eb. by destruct elem. }
  eapply (DInv_actor starts d s t start a); try done.
  - eapply call_lookups; [exact HL|exact Ec|]. intros x Hx. by apply not_elem_of_nil in Hx.
  - constructor; try done; [by exists 0%nat|by intros _ []|]. by rewrite Hg, Htk.
Qed.

Lemma serve_snoc l : forall as_ h requests rq, serve as_ (l ++ [(requests, rq)]) h =
  match serve as_ l h with
  | (as1, Returns (told, h)) =>
      match nfs3_act_on_request junk xdr_replymsg auth xdr_callhdr pub room net wild_args wild_lookup dec_pub as1 requests rq h with
      | (as2, Returns (more, h)) => (as2, Returns (told ++ more, h))
      | r => r
      end
  | r => r
  end.
Proof.
  induction l as [|[m q] l IH]; intros as_ h requests rq; cbn [app Service.serve].
  - destruct (nfs3_act_on_request _ _ _ _ _ _ _ _ _ _ as_ requests rq h) as [as1 [[told h1]| | |]]; try done. by rewrite app_nil_r.
  - destruct (nfs3_act_on_request _ _ _ _ _ _ _ _ _ _ as_ m q h) as [as1 [[told h1]| | |]]; try done. rewrite IH.
    destruct (Service.serve _ _ _ _ _ _ _ _ _ _ as1 l h1) as [as2 [[told2 h2]| | |]]; try done.
    destruct (nfs3_act_on_request _ _ _ _ _ _ _ _ _ _ as2 requests rq h2) as [as3 [[told3 h3]| | |]]; try done. by rewrite <- app_assoc.
Qed.

Lemma act_kept starts d t d' : DInv starts d -> act_on_request t d = Some d' -> DInv starts d'.
Proof.
  intros HD E. pose proof HD as [HR HA _ _ _ HL]. unfold Service.act_on_request in E.
  destruct (d_actors d !! t) as [a|] eqn:Ea; [|done]. cbn [mbind option_bind] in E.
  destruct (st_threads (d_queues d) !! t) as [[elem code]|] eqn:Et; [|done]. cbn [mbind option_bind] in E.
  destruct (ac_busy a) eqn:Eb; [|done]. cbn [negb] in E. destruct elem as [rq|]; [|done]. destruct code as [|]; [|done].
  destruct (nfs3_act_on_request _ _ _ _ _ _ _ _ _ _ _ _ _ _) as [as1 [[told h1]| | |]] eqn:Eact; try done. injection E as <-.
  destruct (HA t a Ea) as (start & th & Hst & Ht' & [K1 K2 K3 K4 K5]). rewrite Et in Ht'. injection Ht' as <-.
  set (th := mk_thread (Some rq) []) in *.
  assert (Hin : given a th = (ac_served a).*2 ++ [rq]) by (unfold given, in_hand; by rewrite Eb).
  set (a' := mk_actor as1 h1 false (ac_served a ++ [(st_requests (d_queues d), rq)]) (ac_told a ++ told)).
  assert (Hg : given a' th = given a th) by (rewrite Hin; unfold given, in_hand, a'; cbn; by rewrite app_nil_r, fmap_app).
  eapply (DInv_actor starts d _ t start a a' th th); try done.
  - by rewrite list_insert_id.
  - constructor; try done.
    + cbn [ac_served ac_state ac_told ac_heap a']. by rewrite serve_snoc, K1, Eact.
    + by rewrite Hg.
    + cbn. apply Forall_app. split; [done|]. apply Forall_singleton. cbn. apply HL, elem_of_app. left.
      destruct (reachable_inv _ HR) as [c HI]. unfold added. pose proof (inv_fifo _ _ HI MD) as Hf. cbn in Hf. rewrite Hf.
      apply elem_of_app. left. eapply elem_of_sublist; [|exact K4]. rewrite Hin. apply elem_of_app. right. by left.
Qed.

(** ** The whole *)

Definition start_actor (start : @nfs3_actor_state T X * heap) : actor := mk_actor start.1 start.2 false [] [].

(** What the daemon can reach with [n] threads, of which those in [starts] are
    actors, once the queues have been initialised. *)
Definition daemon_reachable (starts : gmap nat (@nfs3_actor_state T X * heap)) (d : daemon) : Prop :=
  exists md rw m n s0, md <> rw /\ is_Some (m !! md) /\ is_Some (m !! rw) /\
    init_nfsclient_queues md rw m n = Some s0 /\ (forall t, is_Some (starts !! t) -> (t < n)%nat) /\
    rtc daemon_step (mk_daemon s0 (start_actor <$> starts)) d.

Lemma start_inv starts md rw m n s0 : md <> rw -> is_Some (m !! md) -> is_Some (m !! rw) ->
  init_nfsclient_queues md rw m n = Some s0 -> (forall t, is_Some (starts !! t) -> (t < n)%nat) ->
  DInv starts (mk_daemon s0 (start_actor <$> starts)).
Proof.
  intros Hne H1 H2 E Hn. assert (HR : reachable s0) by (exists md, rw, m, n, s0; split_and!; done || apply rtc_refl).
  unfold init_nfsclient_queues in E. destruct (INIT_FLIST_HEAD (Some md) m) as [m1|]; [|done]. cbn [mbind option_bind] in E.
  destruct (INIT_FLIST_HEAD (Some rw) m1) as [m2|]; [|done]. injection E as <-. cbn in HR.
  assert (Hfly : forall k, flying (replicate k (mk_thread None [])) = []) by (intros k; induction k; done).
  constructor; cbn; try done.
  - intros t a Ha. rewrite lookup_fmap in Ha. destruct (starts !! t) as [start|] eqn:Es; [|done]. injection Ha as <-.
    exists start, (mk_thread None []). split; [done|]. split; [apply lookup_replicate_2, Hn; by eexists|]. constructor; cbn; try done.
  - intros rq Hrq. by apply not_elem_of_nil in Hrq.
  - intros t t' a a' th th' rq Ha _ _ _ Hg _. rewrite lookup_fmap in Ha. destruct (starts !! t); [|done]. injection Ha as <-.
    by apply not_elem_of_nil in Hg.
  - intros t th Ht _. apply lookup_replicate in Ht as [-> _]. by exists 0%nat, 5%nat.
  - intros rq Hrq. cbn in Hrq. rewrite Hfly in Hrq. by apply not_elem_of_nil in Hrq.
Qed.

Lemma step_kept starts d d' : DInv starts d -> daemon_step d d' -> DInv starts d'.
Proof.
  intros HD Hs. revert HD. destruct Hs as [t d s E|t req parent name rq node d s Hn E|t d d' E|t d d' E]; intros HD.
  - by eapply exec_kept.
  - by eapply lookup_kept.
  - by eapply take_kept.
  - by eapply act_kept.
Qed.

Lemma daemon_inv starts d : daemon_reachable starts d -> DInv starts d.
Proof.
  intros (md & rw & m & n & s0 & Hne & H1 & H2 & E & Hn & Hr). pose proof (start_inv _ _ _ _ _ _ Hne H1 H2 E Hn) as HD.
  clear E. induction Hr; [done|]. by eapply IHHr, step_kept.
Qed.

(** [C5] The daemon, whatever the number of threads and actors and however they
    interleave, refines a service that hands out FUSE's lookups in the order they
    were queued and has each actor act on its own, one request after the other:
    nothing has undefined behaviour in the queues; the requests taken out are the
    first of those queued; what an actor has told FUSE, its state and its memory
    are what [serve] computes for the requests it has acted on, all of them
    lookups and in the order of the queue; and every request that has been taken
    out has been acted on, or is held, by exactly one actor. *)
Theorem daemon_refines starts d : daemon_reachable starts d ->
  (forall t, exec t false (d_queues d) <> Faults) /\
  added (d_queues d) = taken (d_queues d) ++ content MD (d_queues d) /\ NoDup (added (d_queues d)) /\
  (forall t a, d_actors d !! t = Some a -> exists start, starts !! t = Some start /\
     serve start.1 (ac_served a) start.2 = (ac_state a, Returns (ac_told a, ac_heap a)) /\
     sublist (ac_served a).*2 (taken (d_queues d)) /\
     Forall (fun x => exists r, x.1 !! x.2 = Some r /\ is_lookup r) (ac_served a)) /\
  (forall rq, rq ∈ taken (d_queues d) -> exists t a th, d_actors d !! t = Some a /\
     st_threads (d_queues d) !! t = Some th /\ (rq ∈ (ac_served a).*2 \/ in_hand a th = [rq])) /\
  (forall t t' a a' rq, d_actors d !! t = Some a -> d_actors d !! t' = Some a' ->
     rq ∈ (ac_served a).*2 -> rq ∈ (ac_served a').*2 -> t = t').
Proof.
  intros [HR HA Hall Honce _ _]%daemon_inv. pose proof (reachable_inv _ HR) as HI. pose proof HI as [c HI'].
  split_and!.
  - intros t E. pose proof (exec_sound _ t HI) as Hs. by rewrite E in Hs.
  - rewrite (Inv_content _ _ _ HI'). apply (inv_fifo _ _ HI' MD).
  - pose proof (inv_owned _ _ HI') as Hnd. unfold owned in Hnd. rewrite !NoDup_cons, !NoDup_app in Hnd. unfold added. tauto.
  - intros t a Ha. destruct (HA t a Ha) as (start & th & Hs & _ & [K1 _ _ K4 K5]). exists start. split_and!; try done.
    etrans; [|exact K4]. unfold given. by apply sublist_inserts_r.
  - intros rq Hrq. destruct (Hall rq Hrq) as (t & a & th & Ha & Ht & Hg). exists t, a, th. split; [done|]. split; [done|].
    apply elem_of_app in Hg as [Hg|Hg]; [by left|right]. unfold in_hand in *. repeat case_match; try (by apply not_elem_of_nil in Hg);
      apply list_elem_of_singleton in Hg; by subst.
  - intros t t' a a' rq Ha Ha' Hg Hg'. destruct (HA t a Ha) as (_ & th & _ & Ht & _), (HA t' a' Ha') as (_ & th' & _ & Ht' & _).
    eapply (Honce t t' a a' th th' rq); try done; apply elem_of_app; by left.
Qed.
End daemon.
