(* ===== verification/ServiceExamples.v ===== *)
(** * The daemon, at work

    The theorems of [ServiceCorrect] for an actor that is asked for two names, of
    which the server knows one, and of [ServiceQueues] for a daemon with one
    thread of FUSE and one actor. *)

From S2P Require Import Prelude Xdr XdrRfc NfsTypes NfsSpec NfsStatus NfsXdr NfsWire NfsMsg NfsMsgCorrect HashTable GhtIface RpcRecord RpcRecordCorrect RpcClient RpcSend RpcClientCorrect RpcClientExamples NfsCalls NfsCallsCorrect NfsCallsExamples Daemon Flist Requests RequestsCorrect NfsActor NfsActorCorrect NfsActorExamples Service ServiceCorrect ServiceLife ServiceQueues.

#[local] Existing Instances table_ght table_laws.

(** ** Two lookups *)

Definition found_ex : LOOKUP3res :=
  mk_LOOKUP3res NFS3_OK (mk_LOOKUP3resok (mk_nfs_fh3 (mk_opaque_buf 2 (PTo [9; 9]))) no_attr no_attr) (mk_LOOKUP3resfail no_attr).

Lemma found_wf : w_wf LOOKUP3res_w found_ex.
Proof.
  unfold LOOKUP3res_w, LOOKUP3resok_w, nfs_fh3_w, bytes_w, post_op_attr_w, nfsstat3_w, enum_w, int_w, bool_w. cbn.
  unfold bytes_wf, bytes_ok, is_u, is_int32. cbn. split_and!; first [done | lia | repeat constructor; lia | by left | by right].
Qed.

(** The replies; the second comes in two pieces. *)
Definition reply_noent : list Z := be 4 x1 ++ w_enc LOOKUP3res_w noent_ex.
Definition reply_found : list Z := be 4 x2 ++ w_enc LOOKUP3res_w found_ex.
Definition exchanges_ex : list exchange :=
  [mk_exchange {[2%nat := rq_ex]} 2 [mark reply_noent] noent_ex;
   mk_exchange {[2%nat := rq_ex]} 2 [take 10 (mark reply_found); drop 10 (mark reply_found)] found_ex].

Definition served_client : clnt table (list Z) := client_ex [write_taken 1000; write_taken 1000] (replies_of exchanges_ex) 0.
Definition served_actor : @nfs3_actor_state table (list Z) :=
  mk_nfs3_actor_state [ctx_ex (Some served_client)] opts_ex (mk_opaque_buf 2 (PTo [7; 8])).

Abbreviation serve_ex := (serve 0 replymsg4 auth_ex callhdr_ex 0 100 net_ex sample_lookup noent_ex 0).
Abbreviation lookup_of_actor := (lookup_procedure 0 replymsg4 auth_ex callhdr_ex 0 100 net_ex).

(** FUSE is told of the one that is missing; the other leaves its result and the
    bytes of the handle behind. *)
Example two_lookups :
  match serve_ex served_actor (requests_of exchanges_ex) ample_heap with
  | (_, Returns (told, h)) => (told, h_live h)
  | _ => ([], 0%nat)
  end = ([(77, 2)], (h_live ample_heap + 2)%nat).
Proof. vm_compute. reflexivity. Qed.

Lemma served_expressible : expressible 100 lookup_of_actor (in_root served_actor (PTo [97])).
Proof. exact root_expressible. Qed.

Lemma brings_noent : brings None [mark reply_noent] reply_noent.
Proof. apply brings_mark. by vm_compute. Qed.

Lemma feed_found : Feed None (take 10 (mark reply_found)) (Some (take 6 reply_found, length reply_found)) [] /\
  Feed (Some (take 6 reply_found, length reply_found)) (drop 10 (mark reply_found)) None [reply_found].
Proof.
  split.
  - pose proof (feed_header (length reply_found) (take 6 reply_found) (Some (take 6 reply_found, length reply_found)) []) as H.
    apply H; [apply Nat.ltb_lt; by vm_compute|by vm_compute|].
    apply (feed_part [] (length reply_found) (take 6 reply_found)); [done|apply Nat.ltb_lt; by vm_compute].
  - pose proof (feed_full (take 6 reply_found) (length reply_found) (drop 6 reply_found) [] None []) as H.
    rewrite app_nil_r, take_drop in H. apply H; [done|by vm_compute|constructor].
Qed.

Lemma brings_found : brings None [take 10 (mark reply_found); drop 10 (mark reply_found)] reply_found.
Proof.
  destruct feed_found as [H1 H2].
  constructor; [|eexists _, _; split; [exact H1|]; by eexists _, _|by repeat constructor].
  assert (Hs : sendable reply_found) by (by vm_compute).
  pose proof (feed_stream [reply_found] (proj2 (Forall_singleton _ _) Hs)) as HF. exact HF.
Qed.

Lemma exchanged_ex : Forall2 (exchanged 0 replymsg4 auth_ex callhdr_ex 0 100 net_ex served_actor)
  (xids (length exchanges_ex) (ct_mcall served_client)) exchanges_ex.
Proof.
  change (xids _ _) with [x1; x2]. apply Forall2_cons. split; [|apply Forall2_cons; split; [|by constructor]]; split.
  - by exists rq_ex, (mk_nfscd_fuse_lookup_args 1 (PTo [97])).
  - exact served_expressible.
  - exact noent_wf.
  - exists reply_noent, []. split; [exact brings_noent|by vm_compute].
  - by exists rq_ex, (mk_nfscd_fuse_lookup_args 1 (PTo [97])).
  - exact served_expressible.
  - exact found_wf.
  - exists reply_found, []. split; [exact brings_found|by vm_compute].
Qed.

Lemma actor_serves_witness :
  let (as1, r) := serve_ex served_actor (requests_of exchanges_ex) ample_heap in
  rootfh as1 = rootfh served_actor /\ nfscd_ctx as1 = nfscd_ctx served_actor /\
  io_ok r (fun '(told, h') => told = mjoin (answer <$> exchanges_ex) /\
    (h_live ample_heap + length (filter (fun e => succeeds e = true) exchanges_ex) <= h_live h')%nat /\
    exists c' ws, resting as1 [] c' [] /\
      Forall2 framed (lookup_messages auth_ex served_actor 20 mcall_ex exchanges_ex) ws /\ outgoing c' = [] ++ mjoin ws).
Proof.
  apply (actor_serves 0 replymsg4 auth_ex callhdr_ex 0 100 net_ex replymsg4_word table_memory_ex sample_lookup noent_ex 0
    served_actor [] served_client exchanges_ex [] ample_heap).
  - constructor; [by exists (ctx_ex (Some served_client))|exists 3%nat, []; apply client_ex_ok|done| |by rewrite app_nil_r].
    cbn. set_solver.
  - exact exchanged_ex.
  - exact ample_heap_ok.
Defined.

(** ** A thread, from its start *)

Definition granted_reply : list Z := be 4 m1 ++ w_enc mountres3_w mounted_ex.
Definition refused_ex : mountres3 := mk_mountres3 MNT3ERR_ACCES (mountres3_mountinfo mounted_ex).
Definition refused_reply : list Z := be 4 m1 ++ w_enc mountres3_w refused_ex.
Definition lookup_reply (x : Z) (o : LOOKUP3res) : list Z := be 4 x ++ w_enc LOOKUP3res_w o.

Definition life_exchanges : list exchange :=
  [mk_exchange {[2%nat := rq_ex]} 2 [mark (lookup_reply n1 noent_ex)] noent_ex;
   mk_exchange {[2%nat := rq_ex]} 2 [mark (lookup_reply n2 found_ex)] found_ex].

Definition mount_net (reply : list Z) : @network table (list Z) :=
  net_of 4 (mk_socket (repeat select_ready 8) [write_taken 1000] (read_bytes <$> [mark reply]) []).
Definition life_net : @network table (list Z) :=
  net_of 4 (mk_socket (repeat select_ready 8) [write_taken 1000; write_taken 1000] (replies_of life_exchanges) []).
Abbreviation life reply := (nfs3_request_actor 0 replymsg4 auth_ex callhdr_ex 0 100 life_net sample_lookup noent_ex 0
  (mount_net reply) blank_mnt 0 (mk_opaque_buf 0 PWild) 13 opts_ex (requests_of life_exchanges) ample_heap).

(** The thread mounts, and FUSE is told of the name that is missing; or it exits. *)
Example mounts_and_serves :
  match life granted_reply with Returns (Serves as1 told _) => (rootfh as1, told) | _ => (mk_opaque_buf 0 PNull, []) end =
  (mk_opaque_buf 2 (PTo [7; 8]), [(77, 2)]).
Proof. vm_compute. reflexivity. Qed.

Example mount_refused : life refused_reply = Returns (Exits 13).
Proof. vm_compute. reflexivity. Qed.

Lemma lookup_exchanged x o : is_u 32 x -> w_wf LOOKUP3res_w o -> sendable (lookup_reply x o) ->
  exchanged 0 replymsg4 auth_ex callhdr_ex 0 100 life_net (rooted opts_ex mounted_ex) x
    (mk_exchange {[2%nat := rq_ex]} 2 [mark (lookup_reply x o)] o).
Proof.
  intros Hx Ho Hs. split.
  - by exists rq_ex, (mk_nfscd_fuse_lookup_args 1 (PTo [97])).
  - exact root_expressible.
  - exact Ho.
  - exists (lookup_reply x o), []. split; [by apply brings_mark|]. unfold replymsg4, lookup_reply.
    rewrite decide_True by (rewrite length_app, length_be; lia).
    rewrite take_app_length', drop_app_length', unbe_be, app_nil_r by (by rewrite length_be). change (256 ^ Z.of_nat 4) with (2 ^ 32).
    change (x mod 2 ^ 32) with (u32 x). by rewrite !(wrap_small 32 x) by done.
Qed.

Lemma request_actor_ok_witness :
  io_ok (life granted_reply) (fun out =>
    exists as1 h' pool, out = Serves as1 (mjoin (answer <$> life_exchanges)) h' /\
      rootfh as1 = mk_opaque_buf 2 (PTo [7; 8]) /\ S (length pool) = 2%nat /\
      (exists cl, first_mnt_cl as1 = Some cl /\ mount_sent auth_ex (mount_net granted_reply) mount_header (PTo [47]) cl) /\
      lookups_sent auth_ex life_net nfs_header (rooted opts_ex mounted_ex) life_exchanges [] pool as1 /\
      (length (filter (fun e => succeeds e = true) life_exchanges) <= h_live h')%nat).
Proof.
  apply (request_actor_ok 0 replymsg4 auth_ex callhdr_ex 0 100 life_net (mount_net granted_reply) replymsg4_word callhdr_ex_fits
    table_memory_ex sample_lookup noent_ex 0 blank_mnt 0 (mk_opaque_buf 0 PWild) 13 opts_ex 2049 mount_header mounted_ex
    [mark granted_reply] [] nfs_header life_exchanges [] ample_heap).
  - reflexivity.
  - cbn. lia.
  - exact ample_heap_ok.
  - unfold dirpath_w, string_w. cbn. unfold bytes_ok, is_u. split_and!; first [done|lia|repeat constructor; lia].
  - vm_compute. lia.
  - apply net_of_ok; [cbn; set_solver|]. apply (reads_cut [_]). by repeat constructor.
  - apply net_accepts_mount.
  - reflexivity.
  - by rewrite app_nil_r.
  - split; [exact mounted_wf|]. exists granted_reply, []. split; [apply brings_mark; by vm_compute|by vm_compute].
  - apply net_of_ok; [cbn; set_solver|]. apply (reads_cut [lookup_reply n1 noent_ex; lookup_reply n2 found_ex]). by repeat constructor.
  - apply net_accepts.
  - reflexivity.
  - by rewrite app_nil_r.
  - intros _. change (xids _ _) with [n1; n2].
    apply Forall2_cons. split; [|apply Forall2_cons; split; [|by constructor]]; apply lookup_exchanged;
      first [exact noent_wf | exact found_wf | by split | by vm_compute].
  - discriminate.
Defined.

(** ** One thread of FUSE and one actor *)

Abbreviation daemon_ex := (@daemon table (list Z)).
Abbreviation daemon_step_ex := (daemon_step 0 replymsg4 auth_ex callhdr_ex 0 100 net_ex sample_lookup noent_ex 0).
Abbreviation act_on_request_ex := (act_on_request 0 replymsg4 auth_ex callhdr_ex 0 100 net_ex sample_lookup noent_ex 0).

(** What the threads do next. *)
Inductive move := Moves_on (t : nat) | Looks_up (t : nat) (req parent : Z) (name : ptr (list Z)) (rq : nat) | Takes (t : nat) | Acts (t : nat).

Definition does (m : move) (d : daemon_ex) : option daemon_ex :=
  match m with
  | Moves_on t => match exec t false (d_queues d) with Goes s => Some (mk_daemon s (d_actors d)) | _ => None end
  | Looks_up t req parent name rq =>
      match d_actors d !! t with
      | Some _ => None
      | None => s ← nfscd_lookup t req parent name rq (mk_flist_head None None) (d_queues d); Some (mk_daemon s (d_actors d))
      end
  | Takes t => take_request t d
  | Acts t => act_on_request_ex t d
  end.

Lemma does_step m d d' : does m d = Some d' -> daemon_step_ex d d'.
Proof.
  destruct m as [t|t req parent name rq|t|t]; cbn.
  - destruct (exec _ _ _) eqn:E; [|done..]. intros [= <-]. by apply (daemon_exec _ _ _ _ _ _ _ _ _ _ t).
  - destruct (d_actors d !! t) eqn:Ed; [done|]. intros (s & E & [= <-])%bind_Some. by eapply daemon_lookup.
  - by apply daemon_take.
  - by apply daemon_act.
Qed.

Lemma plays ms : forall d d', foldl (fun d m => d ← d; does m d) (Some d) ms = Some d' -> rtc daemon_step_ex d d'.
Proof.
  induction ms as [|m ms IH]; intros d d'; cbn; [by intros [= ->]|].
  destruct (does m d) as [d1|] eqn:E.
  - intros H. eapply rtc_l; [by eapply does_step|by apply IH].
  - intros H. exfalso. revert H. clear. induction ms; [done|]. exact IHms.
Qed.

(** Thread 1 is the actor of [served_actor]. *)
Definition starts_ex : gmap nat (@nfs3_actor_state table (list Z) * heap) := {[1%nat := (served_actor, ample_heap)]}.
Definition moves_ex : list move :=
  Looks_up 0 77 1 (PTo [97]) 2 :: Takes 1 :: repeat (Moves_on 0) 5 ++ repeat (Moves_on 1) 5 ++ [Acts 1].
Definition daemon_end : option daemon_ex :=
  s ← init_nfsclient_queues 0 1 {[0%nat := mk_flist_head None None; 1%nat := mk_flist_head None None]} 2;
  foldl (fun d m => d ← d; does m d) (Some (mk_daemon s (start_actor <$> starts_ex))) moves_ex.

(** The request has been queued, taken and answered. *)
Example request_answered :
  (fun d => (taken (d_queues d), (fun a => ((ac_served a).*2, ac_told a)) <$> d_actors d !! 1%nat)) <$> daemon_end =
  Some ([2%nat], Some ([2%nat], [(77, 2)])).
Proof. vm_compute. reflexivity. Qed.

Lemma daemon_ends : exists d, daemon_end = Some d.
Proof. pose proof request_answered as H. destruct daemon_end as [d|]; [exists d; reflexivity|discriminate H]. Qed.

Lemma daemon_refines_witness :
  exists d, daemon_end = Some d /\
    (forall t, exec t false (d_queues d) <> Faults) /\
    added (d_queues d) = taken (d_queues d) ++ content MD (d_queues d) /\ NoDup (added (d_queues d)) /\
    (forall t a, d_actors d !! t = Some a -> exists start, starts_ex !! t = Some start /\
       serve_ex start.1 (ac_served a) start.2 = (ac_state a, Returns (ac_told a, ac_heap a)) /\
       sublist (ac_served a).*2 (taken (d_queues d)) /\
       Forall (fun x => exists r, x.1 !! x.2 = Some r /\ is_lookup r) (ac_served a)) /\
    (forall rq, rq ∈ taken (d_queues d) -> exists t a th, d_actors d !! t = Some a /\
       st_threads (d_queues d) !! t = Some th /\ (rq ∈ (ac_served a).*2 \/ in_hand a th = [rq])) /\
    (forall t t' a a' rq, d_actors d !! t = Some a -> d_actors d !! t' = Some a' ->
       rq ∈ (ac_served a).*2 -> rq ∈ (ac_served a').*2 -> t = t').
Proof.
  destruct daemon_ends as [d E]. exists d. split; [exact E|].
  apply (daemon_refines 0 replymsg4 auth_ex callhdr_ex 0 100 net_ex sample_lookup noent_ex 0 starts_ex d).
  unfold daemon_end in E. apply bind_Some in E as (s & Es & E).
  exists 0%nat, 1%nat, {[0%nat := mk_flist_head None None; 1%nat := mk_flist_head None None]}, 2%nat, s.
  split_and!; [done|eexists; reflexivity|eexists; reflexivity|exact Es| |exact (plays _ _ _ E)].
  intros t [x Ht]. unfold starts_ex in Ht. apply lookup_singleton_Some in Ht as [<- _]. lia.
Defined.
