(* ===== verification/DaemonMain.v ===== *)
(** * The daemon's main program: [src/src/nfsclientd.c], [src/src/nfscd_ops.c]

    [main] as a function of what the FUSE library and [getaddrinfo] answer: its
    exit code and the calls with which it mounts, serves and ends; and the handlers
    [nfscd_init] and [nfscd_destroy], which FUSE calls at the beginning and the end
    of a session.  Messages to the terminal are left out. *)

From S2P Require Import Prelude Flist Daemon Actors ActorsCorrect Requests RequestsCorrect.
From Stdlib Require Import String.

#[local] Open Scope Z_scope.

(** ** Options of the command line *)

(** A field of [struct nfsclientd_opts] and what the option stores there. *)
Inductive setting :=
  | server_is (s : list Z)
  | remotedir_is (s : list Z)
  | ctxpoolsize_is (n : Z)
  | threadpool_is (n : Z).
Inductive fuse_opt :=
  | opt_string (field : list Z -> setting)   (* %s *)
  | opt_int (field : Z -> setting).          (* %d *)

Definition nfsclientd_fuseopts : list (string * fuse_opt) :=
  [("--server=%s", opt_string server_is);
   ("--remotedir=%s", opt_string remotedir_is);
   ("--ctxpool=%d", opt_int ctxpoolsize_is);
   ("--threadpool=%d", opt_int threadpool_is)]%string.

Definition store (o : nfsclientd_opts) (s : setting) : nfsclientd_opts :=
  match s with
  | server_is s => mk_nfsclientd_opts (PTo s) (remotedir o) (mountpoint o) (srvaddr o) (ctxpoolsize o) (threadpool o)
  | remotedir_is s => mk_nfsclientd_opts (server o) (PTo s) (mountpoint o) (srvaddr o) (ctxpoolsize o) (threadpool o)
  | ctxpoolsize_is n => mk_nfsclientd_opts (server o) (remotedir o) (mountpoint o) (srvaddr o) n (threadpool o)
  | threadpool_is n => mk_nfsclientd_opts (server o) (remotedir o) (mountpoint o) (srvaddr o) (ctxpoolsize o) n
  end.

Definition set_srvaddr (a : option Z) (o : nfsclientd_opts) : nfsclientd_opts :=
  mk_nfsclientd_opts (server o) (remotedir o) (mountpoint o) a (ctxpoolsize o) (threadpool o).
Definition set_mountpoint (m : ptr (list Z)) (o : nfsclientd_opts) : nfsclientd_opts :=
  mk_nfsclientd_opts (server o) (remotedir o) m (srvaddr o) (ctxpoolsize o) (threadpool o).

Definition is_null {B} (p : ptr B) : bool := match p with PNull => true | _ => false end.

(** ** [main] *)

(** Channels and sessions are numbers; a session gets the options of its context. *)
Inductive event :=
  | Mounted (m : ptr (list Z)) (ch : nat)
  | Session_made (se : nat) (userdata : nfsclientd_opts)
  | Handlers_set (se : nat)
  | Daemonized
  | Chan_added (se ch : nat)
  | Looped (se : nat)
  | Args_freed
  | Session_destroyed (se : nat)
  | Unmounted (m : ptr (list Z)) (ch : nat).

Section main.
(** [struct fuse_args]. *)
Context {A : Type}.

(** The answers; NULL is [None]. *)
Record library := mk_library {
  fuse_opt_parse : A -> list (string * fuse_opt) -> A * list setting * Z;
  getaddrinfo : ptr (list Z) -> option Z * Z;
  fuse_parse_cmdline : A -> A * ptr (list Z) * Z;
  fuse_mount : ptr (list Z) -> A -> A * option nat;
  fuse_lowlevel_new : A -> nfsclientd_opts -> A * option nat;
  fuse_set_signal_handlers : nat -> Z
}.

(** What the option parser leaves in [options]; [junk] is what was there before. *)
Definition parsed_options (junk : nfsclientd_opts) (settings : list setting) : nfsclientd_opts :=
  foldl store (mk_nfsclientd_opts PNull PNull (mountpoint junk) (srvaddr junk) DEFAULT_CTXPOOL_SIZE DEFAULT_THREADPOOL_SIZE)
    settings.

(** From [fuse_mount] on. *)
Definition run_session (lib : library) (args : A) (m : ptr (list Z)) (nfscd_ctx : nfsclientd_opts) : Z * list event :=
  match fuse_mount lib m args with
  | (_, None) => (-1, [])
  | (args, Some fusechan) =>
      match fuse_lowlevel_new lib args nfscd_ctx with
      | (_, None) => (-1, [Mounted m fusechan; Unmounted m fusechan])
      | (_, Some se) =>
          let served :=
            if fuse_set_signal_handlers lib se <? 0 then []
            else [Handlers_set se; Daemonized; Chan_added se fusechan; Looped se; Args_freed] in
          (0, [Mounted m fusechan; Session_made se nfscd_ctx] ++ served ++ [Session_destroyed se])
      end
  end.

(** [None] is undefined behaviour or a failed assertion. *)
Definition main (lib : library) (args : A) (junk : nfsclientd_opts) (h : heap) : option (Z * list event * heap) :=
  let '(args, settings, parsed) := fuse_opt_parse lib args nfsclientd_fuseopts in
  let options := parsed_options junk settings in
  if parsed <? 0 then Some (-1, [], h)
  else if is_null (server options) || is_null (remotedir options) then Some (-1, [], h)
  else
    let (srv_addr, err) := getaddrinfo lib (server options) in
    if negb (err =? 0) then Some (-1, [], h)
    else
      let '(args, m, parsed) := fuse_parse_cmdline lib args in
      if parsed <? 0 then Some (-1, [], h)
      else
        '(nfscd_ctx, h) ← init_nfsclientd_context (set_mountpoint m (set_srvaddr srv_addr options)) h;
        match nfscd_ctx with
        | None => Some (-1, [], h)
        | Some nfscd_ctx => let (code, events) := run_session lib args m nfscd_ctx in Some (code, events, h)
        end.
End main.
Arguments library : clear implicits.

(** ** Handlers *)

(** The context as the handlers see it, [conn->async_read], and the global
    [nfscd_ctx]. *)
Record served := mk_served {
  sv_opts : nfsclientd_opts;
  sv_queues : Requests.state;
  sv_threads : Actors.state;
  async_read : Z;
  nfscd_ctx : option nfsclientd_opts
}.

(** The heads of the three lists are at [md], [rw] and [ast]; [n] threads may use
    the queues.  Neither of the two fails in the source. *)
Definition nfscd_init (ctx : nfsclientd_opts) (md rw ast : nat) (m m' : fmem) (n : nat) : option served :=
  queues ← init_nfsclient_queues md rw m n;
  threads ← init_nfsclient_thread_pool ast (Z.to_nat (threadpool ctx)) m';
  Some (mk_served ctx queues threads 1 (Some ctx)).

Definition destroy_nfsclient_queues (queues : Requests.state) : Requests.state := queues.

Definition nfscd_destroy (s : served) : option served :=
  threads ← destroy_nfsclient_thread_pool (sv_threads s);
  Some (mk_served (sv_opts s) (destroy_nfsclient_queues (sv_queues s)) threads (async_read s) (nfscd_ctx s)).

(** The table of handlers; a comment lists 24 more that it will have. *)
Record fuse_lowlevel_ops (I D L : Type) := mk_fuse_lowlevel_ops {
  op_init : I;
  op_destroy : D;
  op_lookup : L
}.
Definition nfsclientd_ops := mk_fuse_lowlevel_ops _ _ _ nfscd_init nfscd_destroy nfscd_lookup.

(** What [usage] prints, line by line; nothing calls it. *)
Definition usage : list string :=
  ["USAGE: nfsclientd [OPTIONS] <mountpoint>"; "Options"; "	--server=<server>";
   "	--remotedir=<server_exported_directory>"; "	--ctxpool=<ctx_pool_size>"; "	--threadpool=<thread_pool_size>"]%string.

(** ** The protocol of the FUSE library

    What a program may do in which order: nothing is used that has not been made,
    or that has been destroyed; the process turns into a daemon, losing its other
    threads, before a session is served. *)

Record fuse_world := mk_fuse_world {
  fw_mount : option (ptr (list Z) * nat);
  fw_session : option nat;
  fw_chan : option nat;
  fw_daemon : bool;
  fw_loops : nat
}.

Definition no_mount : fuse_world := mk_fuse_world None None None false 0.

Definition fuse_step (w : fuse_world) (e : event) : option fuse_world :=
  match e, w with
  | Mounted m ch, mk_fuse_world None None c d n => Some (mk_fuse_world (Some (m, ch)) None c d n)
  | Session_made se _, mk_fuse_world (Some mt) None c d n => Some (mk_fuse_world (Some mt) (Some se) None d n)
  | Handlers_set se, mk_fuse_world mt (Some se') c d n => if decide (se = se') then Some w else None
  | Daemonized, mk_fuse_world mt s c false O => Some (mk_fuse_world mt s c true 0)
  | Chan_added se ch, mk_fuse_world (Some (m, ch')) (Some se') None d n =>
      if decide (se = se' /\ ch = ch') then Some (mk_fuse_world (Some (m, ch')) (Some se') (Some ch) d n) else None
  | Looped se, mk_fuse_world mt (Some se') (Some ch) true n =>
      if decide (se = se') then Some (mk_fuse_world mt (Some se') (Some ch) true (S n)) else None
  | Args_freed, _ => Some w
  | Session_destroyed se, mk_fuse_world mt (Some se') c d n =>
      if decide (se = se') then Some (mk_fuse_world mt None None d n) else None
  | Unmounted m ch, mk_fuse_world (Some (m', ch')) None c d n =>
      match m, m' with
      | PTo s, PTo s' => if decide (s = s' /\ ch = ch') then Some (mk_fuse_world None None c d n) else None
      | _, _ => None
      end
  | _, _ => None
  end.

Definition follow (w : fuse_world) (l : list event) : option fuse_world :=
  foldl (fun w e => w ← w; fuse_step w e) (Some w) l.

(** ** [main] keeps to it *)

Section correct.
Context {A : Type} (lib : library A) (junk : nfsclientd_opts).

(** The options in effect when the mount point and the address are known. *)
Definition options_of (args : A) : nfsclientd_opts :=
  let '(args, settings, _) := fuse_opt_parse lib args nfsclientd_fuseopts in
  let o := parsed_options junk settings in
  let '(_, m, _) := fuse_parse_cmdline lib args in
  set_mountpoint m (set_srvaddr (getaddrinfo lib (server o)).1 o).

(** The pool sizes are those that the daemon admits. *)
Definition pools_ok (o : nfsclientd_opts) : Prop :=
  1 <= ctxpoolsize o <= MAX_CTXPOOL_SIZE /\ 1 <= threadpool o <= MAX_THREADPOOL_SIZE.

(** The strings are. *)
Definition strings_ok (o : nfsclientd_opts) : Prop :=
  exists s d m, server o = PTo s /\ remotedir o = PTo d /\ mountpoint o = PTo m.

(** A run of [main] with exit code [code] and calls [l]. *)
Definition run_ok (args : A) (code : Z) (l : list event) : Prop :=
  exists w, follow no_mount l = Some w /\ fw_session w = None /\
    ((code = -1 /\ fw_mount w = None /\ fw_loops w = 0%nat) \/ (code = 0 /\ is_Some (fw_mount w) /\ (fw_loops w <= 1)%nat)) /\
    forall se ctx, Session_made se ctx ∈ l -> ctx = options_of args /\ strings_ok ctx /\ pools_ok ctx.

Lemma run_ok_nothing args : run_ok args (-1) [].
Proof. exists no_mount. split_and!; try done; [by left|]. intros se ctx H. by apply not_elem_of_nil in H. Qed.

Ltac listed H := repeat (apply elem_of_cons in H as [H|H]); try done; try (by apply not_elem_of_nil in H).

Lemma run_session_ok args args' m : mountpoint (options_of args) = PTo m -> strings_ok (options_of args) ->
  pools_ok (options_of args) ->
  let (code, l) := run_session lib args' (PTo m) (options_of args) in run_ok args code l.
Proof.
  intros Hm Hs Hp. unfold run_session.
  destruct (fuse_mount lib (PTo m) args') as [a1 [ch|]]; [|apply run_ok_nothing].
  destruct (fuse_lowlevel_new lib a1 (options_of args)) as [a2 [se|]].
  - destruct (fuse_set_signal_handlers lib se <? 0); cbn [app].
    + eexists. split; [cbn; by rewrite decide_True|]. split; [done|]. split; [right; split_and!; [done|by eexists|cbn; lia]|].
      intros se' ctx H. listed H. by injection H as -> ->.
    + eexists. split; [cbn; rewrite decide_True by done; cbn; rewrite decide_True by done; cbn; rewrite !decide_True by done; cbn; by rewrite decide_True|].
      split; [done|]. split; [right; split_and!; [done|by eexists|cbn; lia]|].
      intros se' ctx H. listed H. by injection H as -> ->.
  - eexists. split; [cbn; by rewrite decide_True|]. split; [done|]. split; [by left|].
    intros se' ctx H. listed H.
Qed.

(** The parser stores strings. *)
Lemma parsed_strings settings : server (parsed_options junk settings) <> PWild /\ remotedir (parsed_options junk settings) <> PWild.
Proof.
  unfold parsed_options. set (o := mk_nfsclientd_opts _ _ _ _ _ _).
  assert (Ho : server o <> PWild /\ remotedir o <> PWild) by done. clearbody o. revert o Ho.
  induction settings as [|[] l IH]; intros o Ho; [done|..]; apply IH; cbn; naive_solver.
Qed.

Lemma init_head_some a m : is_Some (m !! a) ->
  exists m', INIT_FLIST_HEAD (Some a) m = Some m' /\ forall k, is_Some (m !! k) -> is_Some (m' !! k).
Proof.
  intros [n Hn]. unfold INIT_FLIST_HEAD, set_next, set_prev. cbn. rewrite Hn. cbn. rewrite lookup_insert_eq. cbn.
  eexists. split; [done|]. intros k Hk. destruct (decide (k = a)) as [->|Hne]; [rewrite lookup_insert_eq; by eexists|].
  by rewrite !lookup_insert_ne.
Qed.

(** [nfscd_init] for the context of a session: the queues and the pool are as in
    [RequestsCorrect] and [ActorsCorrect], the monitor waits and all the actors
    are to be started. *)
Lemma nfscd_init_ok ctx md rw ast m m' n : md <> rw -> is_Some (m !! md) -> is_Some (m !! rw) -> is_Some (m' !! ast) ->
  exists s, nfscd_init ctx md rw ast m m' n = Some s /\ nfscd_ctx s = Some ctx /\
    RequestsCorrect.reachable (sv_queues s) /\ ActorsCorrect.reachable (Z.to_nat (threadpool ctx)) (sv_threads s).
Proof.
  intros Hne H1 H2 H3. unfold nfscd_init, init_nfsclient_queues, init_nfsclient_thread_pool.
  destruct (init_head_some md m H1) as (m1 & E1 & K1), (init_head_some rw m1 (K1 _ H2)) as (m2 & E2 & _).
  destruct (init_head_some ast m' H3) as (m3 & E3 & _). rewrite E1. cbn [mbind option_bind]. rewrite E2, E3. cbn [mbind option_bind].
  eexists. split; [done|]. split; [done|]. split.
  - exists md, rw, m, n. eexists. do 3 (split; [done|]). split; [|apply rtc_refl]. unfold init_nfsclient_queues. rewrite E1. cbn [mbind option_bind].
    by rewrite E2.
  - exists ast, m'. eexists. split; [done|]. split; [|apply rtc_refl]. unfold init_nfsclient_thread_pool. by rewrite E3.
Qed.

(** [C22] The main program: when the command line names a mount point, and memory does
    not run out, [main] returns 0 or -1; it uses the FUSE library as the protocol
    above says, and destroys any session it makes.  It returns -1 when nothing has
    been served and nothing is left mounted, and otherwise 0, with the mount point
    still mounted.  A session is made for the options of the command line with the
    address of the server, all strings given and both pool sizes between 1 and 20;
    and FUSE's call of [nfscd_init] for it succeeds, with queues and a pool of
    actors that are what the theorems about them ask for. *)
Theorem main_ok args h : mem_ample h ->
  (forall a, 0 <= (fuse_parse_cmdline lib a).2 -> exists m, (fuse_parse_cmdline lib a).1.2 = PTo m) ->
  exists code l h', main lib args junk h = Some (code, l, h') /\
    (exists w, follow no_mount l = Some w /\ fw_session w = None /\
      ((code = -1 /\ fw_mount w = None /\ fw_loops w = 0%nat) \/
       (code = 0 /\ is_Some (fw_mount w) /\ (fw_loops w <= 1)%nat))) /\
    forall se ctx, Session_made se ctx ∈ l -> ctx = options_of args /\ strings_ok ctx /\ pools_ok ctx /\
      forall md rw ast m m' n, md <> rw -> is_Some (m !! md) -> is_Some (m !! rw) -> is_Some (m' !! ast) ->
        exists s, nfscd_init ctx md rw ast m m' n = Some s /\ nfscd_ctx s = Some ctx /\
          RequestsCorrect.reachable (sv_queues s) /\ ActorsCorrect.reachable (Z.to_nat (threadpool ctx)) (sv_threads s).
Proof.
  intros Hh Hm. assert (Hrun : exists code l h', main lib args junk h = Some (code, l, h') /\ run_ok args code l).
  { unfold main. pose proof (fun l => parsed_strings l) as Hstr.
    assert (Ho : options_of args = options_of args) by done. revert Ho. unfold options_of at 1.
    destruct (fuse_opt_parse lib args nfsclientd_fuseopts) as [[a1 settings] r1]. destruct (Hstr settings) as [Hs1 Hs2].
    set (o := parsed_options junk settings) in *.
    destruct (r1 <? 0); [eexists _, _, _; split; [done|apply run_ok_nothing]|].
    destruct (server o) as [|s|] eqn:Es; [eexists _, _, _; split; [done|apply run_ok_nothing]| |done].
    destruct (remotedir o) as [|d|] eqn:Ed; [eexists _, _, _; split; [done|apply run_ok_nothing]| |done]. cbn [is_null orb].
    destruct (getaddrinfo lib (PTo s)) as [addr err]. destruct (negb (err =? 0)); [eexists _, _, _; split; [done|apply run_ok_nothing]|].
    specialize (Hm a1). destruct (fuse_parse_cmdline lib a1) as [[a2 m] r2]. cbn [fst snd] in *.
    destruct (Z.ltb_spec r2 0); [eexists _, _, _; split; [done|apply run_ok_nothing]|]. destruct Hm as [mp ->]; [done|]. intros Ho.
    destruct (init_nfsclientd_context_ok (options_of args) s d mp h Hh) as (r & h' & E & _ & Hr);
      [by rewrite <- Ho|by rewrite <- Ho|by rewrite <- Ho|].
    rewrite Ho, E. cbn [mbind option_bind]. subst r. case_decide as Hp; [|eexists _, _, _; split; [done|apply run_ok_nothing]].
    pose proof (run_session_ok args a2 mp) as Hrs. destruct (run_session lib a2 (PTo mp) (options_of args)) as [code l].
    eexists _, _, _. split; [done|]. apply Hrs; [by rewrite <- Ho| |done]. exists s, d, mp. by rewrite <- Ho. }
  destruct Hrun as (code & l & h' & E & w & H1 & H2 & H3 & H4). exists code, l, h'. split; [done|]. split; [by exists w|].
  intros se ctx Hin. destruct (H4 se ctx Hin) as (? & ? & ?). split_and!; [done..|]. intros. by apply nfscd_init_ok.
Qed.

(** Without a mount point [strdup] is given NULL. *)
Lemma main_no_mountpoint args h a settings addr a' : mem_ample h ->
  fuse_opt_parse lib args nfsclientd_fuseopts = (a, settings, 0) ->
  is_null (server (parsed_options junk settings)) = false -> is_null (remotedir (parsed_options junk settings)) = false ->
  getaddrinfo lib (server (parsed_options junk settings)) = (addr, 0) -> fuse_parse_cmdline lib a = (a', PNull, 0) ->
  main lib args junk h = None.
Proof.
  intros Hh E1 E2 E3 E4 E5. unfold main. rewrite E1. cbn [Z.ltb Z.compare]. rewrite E2, E3, E4, E5. cbn [orb negb Z.eqb Z.ltb Z.compare].
  destruct (parsed_strings settings) as [Hs1 Hs2]. unfold init_nfsclientd_context, mem_alloc. rewrite Hh.
  cbn [negb server remotedir mountpoint set_mountpoint set_srvaddr]. unfold strdup.
  destruct (server _) as [|s|]; [done| |done]. destruct (remotedir _) as [|d|]; [done| |done].
  destruct (mem_alloc _) as [b1 h1]. cbn [mbind option_bind]. by destruct (mem_alloc h1).
Qed.
End correct.

(** ** A run *)

(** The command line: options, and the mount point. *)
Definition lib_ex : library (list setting) := mk_library
  (fun args _ => ([], args, 0)) (fun _ => (Some 0, 0)) (fun a => (a, PTo [109], 0))
  (fun _ a => (a, Some 5%nat)) (fun a _ => (a, Some 6%nat)) (fun _ => 0).
Definition junk_ex : nfsclientd_opts := mk_nfsclientd_opts PWild PWild PWild None 0 0.
Definition args_ex : list setting := [server_is [115]; remotedir_is [47]; threadpool_is 3].
Definition context_ex : nfsclientd_opts := mk_nfsclientd_opts (PTo [115]) (PTo [47]) (PTo [109]) (Some 0) 1 3.

Example main_ex : (fun r => r.1) <$> main lib_ex args_ex junk_ex (mk_heap 0 0 (fun _ => true)) =
  Some (0, [Mounted (PTo [109]) 5; Session_made 6 context_ex; Handlers_set 6; Daemonized; Chan_added 6 5; Looped 6; Args_freed;
            Session_destroyed 6]).
Proof. reflexivity. Qed.

Example main_pool_too_large :
  (fun r => r.1) <$> main lib_ex (args_ex ++ [threadpool_is 21]) junk_ex (mk_heap 0 0 (fun _ => true)) = Some (-1, []).
Proof. reflexivity. Qed.

Lemma main_ok_witness :
  exists code l h', main lib_ex args_ex junk_ex (mk_heap 0 0 (fun _ => true)) = Some (code, l, h') /\
    (exists w, follow no_mount l = Some w /\ fw_session w = None /\
      ((code = -1 /\ fw_mount w = None /\ fw_loops w = 0%nat) \/
       (code = 0 /\ is_Some (fw_mount w) /\ (fw_loops w <= 1)%nat))) /\
    forall se ctx, Session_made se ctx ∈ l -> ctx = context_ex /\ strings_ok ctx /\ pools_ok ctx /\
      forall md rw ast m m' n, md <> rw -> is_Some (m !! md) -> is_Some (m !! rw) -> is_Some (m' !! ast) ->
        exists s, nfscd_init ctx md rw ast m m' n = Some s /\ nfscd_ctx s = Some ctx /\
          RequestsCorrect.reachable (sv_queues s) /\ ActorsCorrect.reachable (Z.to_nat (threadpool ctx)) (sv_threads s).
Proof.
  apply (main_ok lib_ex junk_ex args_ex (mk_heap 0 0 (fun _ => true))); [done|]. intros a _. by exists [109].
Defined.
