(* ===== verification/NullTest.v ===== *)
(** * A program on top: [src/tests/nfs3_nulltest.c]

    The program of the build that measures how long the server takes to answer:
    it makes a number of NULL calls, each waiting for its reply, and prints the
    times.  It is built with measurements; the readings of the tick counter are an
    input, and so is what each call finds when it has to connect. *)

From S2P Require Import Prelude Xdr GhtIface RpcRecord RpcClient NfsCalls NfsActor NfsStat Floating Tickrate.
From Stdlib Require Import SpecFloat Ascii String.

#[local] Open Scope Z_scope.

Definition TICKRATE_CALIB_RUNS : Z := 10.

(** ** The command line *)

Definition code (c : ascii) : Z := Z.of_nat (nat_of_ascii c).
Definition is_space (c : ascii) : bool := (code c =? 32) || ((9 <=? code c) && (code c <=? 13)).
Definition is_digit (c : ascii) : bool := (48 <=? code c) && (code c <=? 57).

Fixpoint skip_spaces (s : string) : string :=
  match s with
  | String c s' => if is_space c then skip_spaces s' else s
  | EmptyString => s
  end.
Fixpoint digits (acc : Z) (s : string) : Z :=
  match s with
  | String c s' => if is_digit c then digits (10 * acc + (code c - 48)) s' else acc
  | EmptyString => acc
  end.

(** [atoi] of the C library; what does not fit an [int] is undefined. *)
Definition atoi (s : string) : option Z :=
  let n := match skip_spaces s with
           | String "-" s => - digits 0 s
           | String "+" s => digits 0 s
           | s => digits 0 s
           end%string in
  if (- 2 ^ 31 <=? n) && (n <? 2 ^ 31) then Some n else None.

(** The loop over [argv], which ends in NULL: [srv] and [totalcalls]. *)
Fixpoint parse_args (argv : list string) (srv : option string) (totalcalls : Z) : option (option string * Z) :=
  match argv with
  | [] => Some (srv, totalcalls)
  | arg :: argv =>
      if (arg =? "--server")%string then
        match argv with
        | [] => Some (None, totalcalls)
        | s :: argv => parse_args argv (Some s) totalcalls
        end
      else if (arg =? "--requestcount")%string then
        match argv with
        | [] => None
        | n :: argv => n ← atoi n; parse_args argv srv n
        end
      else parse_args argv srv totalcalls
  end.

(** ** Times *)

Record rtdata := mk_rtdata {
  req_id : Z;
  callticks : Z;
  replyticks : Z
}.
Definition no_rtdata : rtdata := mk_rtdata 0 0 0.

(** A reading as an [int64_t]. *)
Definition as_int64 (ticks : Z) : Z := if u64 ticks <? 2 ^ 63 then u64 ticks else u64 ticks - 2 ^ 64.

(** [malloc] and [memset]: a table of zeroes.  No object has half of the address
    space. *)
Definition alloc_rttable (totalcalls : Z) (h : heap) : option (list rtdata) * heap :=
  if u64 (24 * u64 totalcalls) <? 2 ^ 63 then
    let (ok, h) := mem_alloc h in (if ok then Some (replicate (Z.to_nat totalcalls) no_rtdata) else None, h)
  else (None, h).

Section report.
Context {R : Type} `{Arith R}.

Definition ticks_to_usecs_typed (ticks : Z) (tickrate : R) : R := a_div (a_int ticks) tickrate.

(** What is printed: the lines, and the average. *)
Record report := mk_report {
  rp_lines : list (Z * R);
  rp_average : R
}.

Fixpoint process_loop (trate : R) (rttable : list rtdata) (totalrestime : R) : list (Z * R) * R :=
  match rttable with
  | [] => ([], totalrestime)
  | rt :: rttable =>
      let call_usecs := ticks_to_usecs_typed (callticks rt) trate in
      let reply_usecs := ticks_to_usecs_typed (replyticks rt) trate in
      let (lines, total) := process_loop trate rttable (a_add totalrestime (a_sub reply_usecs call_usecs)) in
      ((req_id rt, a_sub reply_usecs call_usecs) :: lines, total)
  end.

(** The loop starts at entry 1. *)
Definition process_rtdata (trate : R) (totalcalls : Z) (rttable : list rtdata) : report :=
  let (lines, total) := process_loop trate (drop 1 (take (Z.to_nat totalcalls) rttable)) (a_int 0) in
  mk_report lines (a_div total (a_int totalcalls)).
End report.
Arguments report : clear implicits.

(** ** The test *)

Section test.
Context {P : XdrPrims} {T : Type} `{GT : Ght T callback_info} {X : Type} `{XR : Xdrrec X}.
Context (junk : Z) (xdr_replymsg : list Z -> option (Z * list Z)) (auth : list Z).
Context (xdr_callhdr : Z -> Z -> Z -> option (list Z)) (pub : Z) (room : nat).

(** What call [i] finds if it has to connect, and reading [k] of the counter. *)
Context (nets : nat -> @network T X) (clock : nat -> Z).

Definition NULL_CB : Z := 1.

(** The private pointer is the index of the entry; with it goes the number of the
    next reading. *)
Definition nfs_null_cb (i : invocation) (s : list rtdata * nat) : option (list rtdata * nat) :=
  let (rttable, k) := s in
  rt ← rttable !! Z.to_nat (inv_private i);
  Some (<[Z.to_nat (inv_private i) := mk_rtdata (req_id rt) (callticks rt) (as_int64 (clock k))]> rttable, S k).

(** [n] calls from entry [i] on. *)
Fixpoint test_loop (n i : nat) (ctx : nfs_ctx T X) (rttable : list rtdata) (k : nat)
    : outcome (nfs_ctx T X * list rtdata) :=
  match n with
  | O => Returns (ctx, rttable)
  | S n =>
      match rttable !! i with
      | None => Undefined
      | Some rt =>
          let rttable := <[i := mk_rtdata (Z.of_nat i) (as_int64 (clock k)) (replyticks rt)]> rttable in
          let (ctx', r) := nfs3_null junk xdr_replymsg auth xdr_callhdr pub room (nets i) tt (Some ctx) (Some NULL_CB)
                             (Z.of_nat i) RPC_BLOCKING_WAIT in
          match r with
          | Returns _ =>
              match ctx', run_callbacks nfs_null_cb (invoked (nfs_cl ctx) (ctx' ≫= nfs_cl)) (rttable, S k) with
              | Some ctx', Some (rttable, k) => test_loop n (S i) ctx' rttable k
              | _, _ => Undefined
              end
          | Waits => Waits
          | Undefined => Undefined
          | Spins => Spins
          end
      end
  end.

(** The context and the table at the end, and what is printed. *)
Definition runtest (totalcalls : Z) (ctx : nfs_ctx T X) (tickrate : spec_float) (h : heap)
    : outcome (nfs_ctx T X * list rtdata * report spec_float) :=
  match alloc_rttable totalcalls h with
  | (None, _) => Undefined
  | (Some rttable, _) =>
      match test_loop (Z.to_nat totalcalls) 0 ctx rttable 0 with
      | Returns (ctx, rttable) => Returns (ctx, rttable, process_rtdata tickrate totalcalls rttable)
      | Waits => Waits
      | Undefined => Undefined
      | Spins => Spins
      end
  end.

(** The exit code, and the outcome of the test if there was one.  [getaddrinfo]
    gives a port and an error; [rounds] are the readings of the calibration. *)
Definition main (getaddrinfo : string -> Z * Z) (rounds : nat -> round) (argv : list string) (h : heap)
    : outcome (Z * option (nfs_ctx T X * list rtdata * report spec_float)) :=
  if Z.of_nat (List.length argv) <? 5 then Returns (-1, None)
  else
    match parse_args argv None 0 with
    | None => Undefined
    | Some (None, _) => Returns (-1, None)
    | Some (Some srv, totalcalls) =>
        if totalcalls =? 0 then Returns (-1, None)
        else
          let (srv_addr, err) := getaddrinfo srv in
          if negb (err =? 0) then Returns (-1, None)
          else
            match calibrate_tickrate TICKRATE_CALIB_RUNS rounds with
            | None => Undefined
            | Some tickrate =>
                match nfs_init (Some srv_addr) IPPROTO_TCP NFSC_CFL_NONBLOCKING h with
                | None => Undefined
                | Some (None, _) => Returns (-1, None)
                | Some (Some ctx, h) =>
                    match runtest totalcalls ctx tickrate h with
                    | Returns out => Returns (0, Some out)
                    | Waits => Waits
                    | Undefined => Undefined
                    | Spins => Spins
                    end
                end
            end
    end.
End test.
