(* ===== verification/NullTestCorrect.v ===== *)
(** * The NULL test, from the command line to the times it prints

    The loop of [NullTest] against a server: while no connection can be made the
    calls fail; once there is one, each call is answered before the next is made,
    and its reply is timed in its own entry of the table. *)

From S2P Require Import Prelude Xdr XdrRfc NfsTypes NfsSpec NfsXdr NfsXdrCorrect NfsWire GhtIface RpcRecord RpcRecordCorrect RpcClient RpcSend RpcClientCorrect NfsCalls NfsCallsCorrect NfsActor NfsActorCorrect Service ServiceCorrect NfsStat Floating Tickrate NullTest.
From Stdlib Require Import SpecFloat QArith String.

#[local] Open Scope Z_scope.
#[local] Open Scope list_scope.

Section nulltest.
Context `{HL : XdrLaws} {T : Type} `{GL : GhtLaws T callback_info} {X : Type} `{XL : XdrrecLaws X}.
Context (junk : Z) (xdr_replymsg : list Z -> option (Z * list Z)) (auth : list Z).
Context (xdr_callhdr : Z -> Z -> Z -> option (list Z)) (pub : Z) (room : nat).
Context (replymsg_word : forall m xid payload, xdr_replymsg m = Some (xid, payload) -> is_u 32 xid).
Context (callhdr_fits : forall xid prog vers hdr, xdr_callhdr xid prog vers = Some hdr ->
  (4 <= List.length hdr <= Z.to_nat MCALL_MSG_SIZE)%nat /\ bytes_ok hdr).
Context (table_memory : forall (t : T) x v, ght_ok t -> is_u 32 x ->
  Z.of_nat (List.length (ght_entries t)) < 2 ^ 31 - 1 -> snd (ght_insert t x v) <> -2).
Context (nets : nat -> @network T X) (clock : nat -> Z).

Abbreviation loop := (test_loop junk xdr_replymsg auth xdr_callhdr pub room nets clock).
Abbreviation null_on i ctx priv :=
  (nfs3_null junk xdr_replymsg auth xdr_callhdr pub room (nets i) tt (Some ctx) (Some NULL_CB) priv RPC_BLOCKING_WAIT).
Implicit Types (ctx : nfs_ctx T X) (c : clnt T X) (tbl : list rtdata).

(** ** One call *)

(** A connected context on which no call waits; its callbacks so far, and what
    its socket will bring. *)
Record idle ctx c (called0 : list invocation) (reads : list read_result) : Prop := {
  id_ctx : check_ctx (Some ctx) = true;
  id_cl : nfs_cl ctx = Some c;
  id_client : exists k, client_ok k None c (mk_session [] called0);
  id_pending : ct_pendingcalls c = 0;
  id_writes : write_error ∉ so_writes (ct_sock c);
  id_reads : so_reads (ct_sock c) = reads
}.

(** The reads bring one record, a reply to transaction [x]. *)
Definition null_reply (x : Z) (bufs : list (list Z)) : Prop :=
  exists rec payload, brings None bufs rec /\ xdr_replymsg rec = Some (x, payload).

(** The message with the header [header]. *)
Definition null_message (header : list Z) : list Z := header ++ be 4 NFS3_NULL ++ auth.

(** What a call leaves of the connection [c]. *)
Record answered c c' : Prop := {
  an_mcall : ct_mcall c' = decrement_xid (ct_mcall c);
  an_mpos : ct_mpos c' = ct_mpos c;
  an_sent : exists w, framed (null_message (take (ct_mpos c) (decrement_xid (ct_mcall c)))) w /\ outgoing c' = outgoing c ++ w
}.

Lemma null_call i ctx c called0 bufs more priv :
  idle ctx c called0 ((read_bytes <$> bufs) ++ more) -> null_reply (xid_host (decrement_xid (ct_mcall c))) bufs ->
  let (ctx', r) := null_on i ctx priv in
  io_ok r (fun _ => exists ctx1 c' payload, ctx' = Some ctx1 /\
    idle ctx1 c' (called0 ++ [mk_invocation NULL_CB priv payload]) more /\ answered c c').
Proof.
  intros [Hctx Hcl (k & Hc) Hp Hw Hr] (rec & payload & Hb & Hdec). unfold nfs3_null.
  rewrite (nfs3_call_on junk xdr_replymsg auth xdr_callhdr pub room (nets i) _ xdr_void void_w tt ctx c); try done;
    [|apply xdr_void_codec|cbn; lia].
  pose proof (call_answered junk xdr_replymsg auth replymsg_word table_memory k c called0 (mk_rpc_proc_info NFS3_NULL [] true)
    (mk_callback_info (Some NULL_CB) priv) bufs more rec _ _ NULL_CB Hc Hp Hw eq_refl Hr Hb Hdec eq_refl eq_refl) as Hcall.
  change (w_enc void_w tt) with (@nil Z). destruct (call_ct _ _ _ _ _ _ _) as [c' v]. unfold ends in Hcall. cbn [fst snd] in Hcall.
  destruct v as [v| | |]; try done. destruct Hcall as (_ & Hc' & (w & Hfr & Ho) & Hp' & Hr' & Hw' & Hm & Hmp).
  eexists _, c', payload. split; [done|]. split; constructor; try done.
  - by eexists.
  - exists w. split; [|done]. revert Hfr. unfold message, null_message. cbn. by rewrite app_nil_r.
Qed.

(** ** The loop *)

(** A call on [ctx0] is a call on [ctx], which has been connected if need be. *)
Record continues i ctx0 ctx (called0 : list invocation) : Prop := {
  cn_call : forall priv, null_on i ctx0 priv = null_on i ctx priv;
  cn_called : match nfs_cl ctx0 with None => 0%nat | Some c => List.length (ct_called (ct_recv c)) end = List.length called0
}.

Lemma continues_idle i ctx c called0 reads : idle ctx c called0 reads -> continues i ctx ctx called0.
Proof. intros [_ Hcl (k & Hc) _ _ _]. split; [done|]. rewrite Hcl. by rewrite (client_called _ _ _ _ Hc). Qed.

Lemma loop_one n i ctx0 ctx c called0 tbl rest k bufs more Q :
  continues i ctx0 ctx called0 -> idle ctx c called0 ((read_bytes <$> bufs) ++ more) ->
  null_reply (xid_host (decrement_xid (ct_mcall c))) bufs -> List.length tbl = i ->
  (forall ctx1 c' called1, idle ctx1 c' called1 more -> answered c c' ->
     io_ok (loop n (S i) ctx1 (tbl ++ mk_rtdata (Z.of_nat i) (as_int64 (clock k)) (as_int64 (clock (S k))) :: rest) (S (S k))) Q) ->
  io_ok (loop (S n) i ctx0 (tbl ++ no_rtdata :: rest) k) Q.
Proof.
  intros [Hcall Hcount] Hid Hrep Hi HQ. cbn [test_loop]. rewrite list_lookup_middle by done. rewrite Hcall.
  pose proof (null_call i ctx c called0 bufs more (Z.of_nat i) Hid Hrep) as Hnull.
  destruct (null_on i ctx (Z.of_nat i)) as [ctx' r]. destruct r as [v| | |]; try done.
  destruct Hnull as (ctx1 & c' & payload & -> & Hid1 & Han). pose proof Hid1 as [_ Hcl1 (k1 & Hc1) _ _ _].
  cbn [mbind option_bind]. unfold invoked. rewrite Hcl1, (client_called _ _ _ _ Hc1). cbn [sn_called].
  rewrite Hcount, drop_app_length. unfold run_callbacks. cbn [foldl mbind option_bind nfs_null_cb inv_private].
  rewrite Nat2Z.id. rewrite <- Hi, insert_app_r_alt, Nat.sub_diag by lia. cbn [insert list_insert].
  rewrite list_lookup_middle by done. cbn [mbind option_bind]. rewrite insert_app_r_alt, Nat.sub_diag by lia.
  cbn [insert list_insert req_id callticks]. rewrite Hi. by eapply HQ.
Qed.

(** The entries and the messages of [n] calls, the first of which has index [i]
    and reading [k]. *)
Definition timed (i k n : nat) : list rtdata :=
  (fun d => mk_rtdata (Z.of_nat (i + d)) (as_int64 (clock (k + 2 * d))) (as_int64 (clock (S (k + 2 * d))))) <$> seq 0 n.
Definition null_messages (mpos : nat) (mcall : list Z) (n : nat) : list (list Z) :=
  (fun d => null_message (take mpos (after_calls (S d) mcall))) <$> seq 0 n.

Lemma timed_S i k n :
  timed i k (S n) = mk_rtdata (Z.of_nat i) (as_int64 (clock k)) (as_int64 (clock (S k))) :: timed (S i) (S (S k)) n.
Proof.
  unfold timed. cbn [seq]. rewrite fmap_cons. f_equal.
  - by rewrite Nat.mul_0_r, !Nat.add_0_r.
  - rewrite <- fmap_S_seq, <- list_fmap_compose. apply list_fmap_ext. intros d j _. unfold compose.
    by rewrite Nat.add_succ_r, !Nat.mul_succ_r, (Nat.add_comm (2 * j) 2), !Nat.add_assoc, (Nat.add_comm k 2).
Qed.

Lemma null_messages_S mpos mcall n :
  null_messages mpos mcall (S n) = null_message (take mpos (decrement_xid mcall)) :: null_messages mpos (decrement_xid mcall) n.
Proof.
  unfold null_messages. cbn [seq]. rewrite fmap_cons. f_equal. rewrite <- fmap_S_seq, <- list_fmap_compose.
  apply list_fmap_ext. intros d j _. unfold compose. by rewrite after_calls_decrement.
Qed.

(** The messages on the connection after [n] calls. *)
Definition sent c c' (n : nat) : Prop :=
  exists ws, Forall2 framed (null_messages (ct_mpos c) (ct_mcall c) n) ws /\ outgoing c' = outgoing c ++ mjoin ws.

Definition replies (exs : list (list (list Z))) : list read_result := mjoin ((fun bufs => read_bytes <$> bufs) <$> exs).

Lemma sent_S c c1 c2 n : answered c c1 -> sent c1 c2 n -> sent c c2 (S n).
Proof.
  intros [Hm Hmp (w & Hw & Ho)] (ws & Hws & Ho2). exists (w :: ws). split.
  - rewrite null_messages_S, <- Hm, <- Hmp. constructor; [by rewrite Hm, Hmp|done].
  - rewrite Ho2, Ho. cbn. by rewrite <- app_assoc.
Qed.

Lemma loop_answered exs : forall i ctx c called0 tbl k more,
  idle ctx c called0 (replies exs ++ more) -> Forall2 null_reply (xids (List.length exs) (ct_mcall c)) exs ->
  List.length tbl = i ->
  io_ok (loop (List.length exs) i ctx (tbl ++ replicate (List.length exs) no_rtdata) k) (fun '(ctx', tbl') =>
    tbl' = tbl ++ timed i k (List.length exs) /\
    exists c' called1, idle ctx' c' called1 more /\ sent c c' (List.length exs)).
Proof.
  induction exs as [|bufs exs IH]; intros i ctx c called0 tbl k more Hid HF Hi.
  { split; [done|]. exists c, called0. split; [done|]. exists []. split; [constructor|by rewrite app_nil_r]. }
  cbn [List.length] in HF. rewrite xids_S in HF. apply Forall2_cons in HF as [Hrep HF].
  unfold replies in Hid. cbn [fmap list_fmap mjoin list_join] in Hid. rewrite <- app_assoc in Hid.
  eapply loop_one; [by eapply continues_idle|exact Hid|done|done|]. intros ctx1 c1 called1 Hid1 Han. change (replicate _ _) with (replicate (List.length exs) no_rtdata).
  rewrite cons_middle, app_assoc. specialize (IH (S i) ctx1 c1 called1 (tbl ++ [mk_rtdata (Z.of_nat i) (as_int64 (clock k)) (as_int64 (clock (S k)))]) (S (S k)) more Hid1).
  assert (Hl : List.length (tbl ++ [mk_rtdata (Z.of_nat i) (as_int64 (clock k)) (as_int64 (clock (S k)))]) = S i) by (rewrite length_app; cbn; lia).
  rewrite (an_mcall _ _ Han) in IH. specialize (IH HF Hl).
  destruct (loop _ (S i) ctx1 _ _) as [[ctx2 tbl2]| | |]; try done. destruct IH as (-> & c2 & called2 & Hid2 & Hs2).
  split; [cbn [List.length]; rewrite timed_S, <- app_assoc; done|]. exists c2, called2. split; [done|]. by eapply sent_S.
Qed.

(** ** Until there is a connection *)

Abbreviation refuses net := (refuses junk xdr_callhdr net).
Abbreviation accepts net := (accepts junk xdr_callhdr net).

(** The entries of [n] calls that failed. *)
Definition failed (i k n : nat) : list rtdata :=
  (fun d => mk_rtdata (Z.of_nat (i + d)) (as_int64 (clock (k + d))) 0) <$> seq 0 n.

Lemma failed_S i k n : failed i k (S n) = mk_rtdata (Z.of_nat i) (as_int64 (clock k)) 0 :: failed (S i) (S k) n.
Proof.
  unfold failed. cbn [seq]. rewrite fmap_cons. f_equal; [by rewrite !Nat.add_0_r|].
  rewrite <- fmap_S_seq, <- list_fmap_compose. apply list_fmap_ext. intros d j _. unfold compose. by rewrite !Nat.add_succ_r.
Qed.

Lemma loop_refused n j : forall i ctx tbl rest k Q,
  (forall d, (d < j)%nat -> refuses (nets (i + d))) -> nfs_cl ctx = None -> check_ctx (Some ctx) = true -> List.length tbl = i ->
  (forall ctx1, nfs_cl ctx1 = None -> check_ctx (Some ctx1) = true ->
     io_ok (loop n (i + j) ctx1 (tbl ++ failed i k j ++ rest) (k + j)) Q) ->
  io_ok (loop (j + n) i ctx (tbl ++ replicate j no_rtdata ++ rest) k) Q.
Proof.
  induction j as [|j IH]; intros i ctx tbl rest k Q Href Hcl Hctx Hi HQ.
  { specialize (HQ ctx Hcl Hctx). by rewrite !Nat.add_0_r in HQ. }
  cbn [Nat.add test_loop replicate app]. rewrite list_lookup_middle by done. unfold nfs3_null.
  destruct (Href 0%nat ltac:(lia) ctx Hcl) as (ctx1 & Hcon & Hcl1). rewrite Nat.add_0_r in Hcon.
  rewrite (nfs3_call_connects _ _ _ _ _ _ _ _ _ _ _ _ _ _ _ Hctx Hcon), Hcl1. cbn [mbind option_bind].
  rewrite Hcl1. cbn [invoked run_callbacks foldl]. rewrite <- Hi at 2. rewrite insert_app_r_alt, Nat.sub_diag by lia.
  cbn [insert list_insert replyticks]. change (replyticks no_rtdata) with 0. rewrite cons_middle, app_assoc. apply IH.
  - intros d Hd. rewrite Nat.add_succ_comm. apply Href. lia.
  - done.
  - by eapply connect_keeps.
  - rewrite length_app. cbn. lia.
  - intros ctx2 H1 H2. rewrite !Nat.add_succ_comm, <- app_assoc, app_assoc, app_assoc, <- (app_assoc tbl).
    specialize (HQ ctx2 H1 H2). rewrite failed_S in HQ. by rewrite <- app_assoc.
Qed.

(** The call that makes the connection. *)
Lemma connects_first i ctx : network_ok junk (nets i) -> accepts (nets i) -> nfs_cl ctx = None -> check_ctx (Some ctx) = true ->
  exists ctx1 c, continues i ctx ctx1 [] /\ idle ctx1 c [] (so_reads (sys_script (net_sys (nets i)))) /\
    outgoing c = so_sent (sys_script (net_sys (nets i))) /\
    prefix_of xdr_callhdr c (net_sys (nets i)) NFS_PROGRAM NFS_V3.
Proof.
  intros Hnet Hacc Hcl Hctx. destruct (Hacc ctx Hcl) as (ctx1 & c & Hcon & Hcl1). exists ctx1, c.
  destruct (connect_nfs_ok junk xdr_callhdr (nets i) callhdr_fits ctx Hnet Hcl) as (ctx1' & Hcon' & Hnew).
  rewrite Hcon in Hcon'. injection Hcon' as <-. destruct (Hnew c Hcl1) as (Hp & Hs & Hpre & Hsnd & k & Hok).
  split_and!; [| | |done].
  - split; [|by rewrite Hcl]. intros priv. unfold nfs3_null. by rewrite (nfs3_call_connects _ _ _ _ _ _ _ _ _ _ _ _ _ _ _ Hctx Hcon), Hcl1.
  - constructor; try done; [by eapply connect_keeps|by exists k|rewrite Hs; apply Hnet|by rewrite Hs].
  - unfold outgoing, pending. by rewrite Hsnd, Hs, app_nil_r.
Qed.

(** ** The program *)

(** What is read into an [int] fits one. *)
Lemma parse_args_int argv : forall srv n srv' n', - 2 ^ 31 <= n < 2 ^ 31 ->
  parse_args argv srv n = Some (srv', n') -> - 2 ^ 31 <= n' < 2 ^ 31.
Proof.
  induction argv as [argv IH] using (induction_ltof1 _ (@List.length string)). unfold ltof in IH.
  intros srv n srv' n' Hn. destruct argv as [|arg argv]; cbn [parse_args]; [by intros [= <- <-]|].
  destruct (arg =? "--server")%string.
  { destruct argv as [|s argv]; [by intros [= <- <-]|]. apply IH; [cbn; lia|done]. }
  destruct (arg =? "--requestcount")%string; [|apply IH; [cbn; lia|done]].
  destruct argv as [|s argv]; [done|]. intros (m & Hm & E)%bind_Some. eapply IH; [..|exact E]; [cbn; lia|].
  unfold atoi in Hm. destruct (_ && _) eqn:Eb; [|done]. injection Hm as <-.
  apply andb_true_iff in Eb as [Hl Hr]. apply Z.leb_le in Hl. apply Z.ltb_lt in Hr. done.
Qed.

Lemma alloc_rttable_ok n h : mem_ample h -> 0 <= n < 2 ^ 31 ->
  exists h', alloc_rttable n h = (Some (replicate (Z.to_nat n) no_rtdata), h').
Proof.
  intros Hh Hn. unfold alloc_rttable. rewrite (wrap_small 64 n), (wrap_small 64) by (unfold is_u; lia).
  rewrite (proj2 (Z.ltb_lt _ _)) by lia. unfold mem_alloc. rewrite Hh. by eexists.
Qed.

(** [C26] The NULL test, from its command line to what it prints.  The server can be
    reached from call [j] on; then it answers each call before the next, with a
    record of its own, cut into reads that keep the header whole.  The program
    exits with 0; on the connection there is one NULL message for each call from
    [j] on, in order, with a transaction id of its own; no call waits; and what is
    printed are the times of a table in which entry [i] has the readings of the
    tick counter when call [i] was made and when its own reply came, or none for
    the first [j] calls. *)
Theorem nulltest_ok getaddrinfo rounds argv srv port j exs hdr rate more h :
  (5 <= List.length argv)%nat -> parse_args argv None 0 = Some (Some srv, Z.of_nat (j + List.length exs)) ->
  getaddrinfo srv = (port, 0) -> calibrate_tickrate TICKRATE_CALIB_RUNS rounds = Some rate -> mem_ample h ->
  (forall d, (d < j)%nat -> refuses (nets d)) -> accepts (nets j) -> network_ok junk (nets j) ->
  xdr_callhdr (create_xid (net_sys (nets j))) NFS_PROGRAM NFS_V3 = Some hdr ->
  so_reads (sys_script (net_sys (nets j))) = replies exs ++ more ->
  Forall2 null_reply (xids (List.length exs) hdr) exs -> exs <> [] ->
  io_ok (main junk xdr_replymsg auth xdr_callhdr pub room nets clock getaddrinfo rounds argv h) (fun '(exit, out) =>
    exit = 0 /\ exists ctx c ws,
      let tbl := failed 0 0 j ++ timed j j (List.length exs) in
      out = Some (ctx, tbl, process_rtdata rate (Z.of_nat (j + List.length exs)) tbl) /\
      nfs_cl ctx = Some c /\ ct_pendingcalls c = 0 /\
      Forall2 framed ((fun d => null_message (after_calls (S d) hdr)) <$> seq 0 (List.length exs)) ws /\
      outgoing c = so_sent (sys_script (net_sys (nets j))) ++ mjoin ws).
Proof.
  intros Hargc Hargs Haddr Hrate Hh Href Hacc Hnet Hhdr Hreads HF Hne. unfold main.
  pose proof (parse_args_int argv None 0 _ _ ltac:(lia) Hargs) as Hn.
  rewrite (proj2 (Z.ltb_ge _ 5)) by lia. rewrite Hargs, Haddr, Hrate. destruct exs as [|bufs exs]; [done|].
  rewrite (proj2 (Z.eqb_neq _ 0)) by (cbn [List.length]; lia). cbn [negb Z.eqb]. unfold nfs_init, mem_alloc. rewrite !Hh. cbn [negb h_ok h_requests h_live].
  rewrite !Hh. cbn [negb h_ok h_requests h_live]. rewrite !Hh. cbn [negb h_ok].
  unfold runtest. set (h3 := mk_heap _ _ _). assert (Hh3 : mem_ample h3) by exact Hh. clearbody h3.
  destruct (alloc_rttable_ok _ h3 Hh3 (conj (Zle_0_nat _) (proj2 Hn))) as (h4 & ->).
  set (exs' := bufs :: exs) in *. set (n := (j + List.length exs')%nat) in *. set (ctx0 := mk_nfs_ctx _ _ _ _ _ _ _ _).
  assert (Hloop : io_ok (loop n 0 ctx0 ([] ++ replicate j no_rtdata ++ replicate (List.length exs') no_rtdata) 0) (fun '(ctx, tbl) =>
    tbl = failed 0 0 j ++ timed j j (List.length exs') /\ exists c ws, nfs_cl ctx = Some c /\ ct_pendingcalls c = 0 /\
      Forall2 framed ((fun d => null_message (after_calls (S d) hdr)) <$> seq 0 (List.length exs')) ws /\
      outgoing c = so_sent (sys_script (net_sys (nets j))) ++ mjoin ws)).
  { apply loop_refused; [exact Href|done|done|done|]. intros ctx1 Hcl1 Hctx1. cbn [app Nat.add].
    destruct (connects_first j ctx1 Hnet Hacc Hcl1 Hctx1) as (ctx2 & c2 & Hcn & Hid & Hout & Hpos & Hpre).
    rewrite Hhdr in Hpre. injection Hpre as ->. rewrite xids_take in HF by done. unfold exs' in *. cbn [List.length] in *. rewrite xids_S in HF.
    apply Forall2_cons in HF as [Hrep HF]. rewrite Hreads in Hid. unfold replies in Hid. cbn [fmap list_fmap mjoin list_join] in Hid.
    rewrite <- app_assoc in Hid. assert (Hfl : List.length (failed 0 0 j) = j) by (unfold failed; by rewrite length_fmap, length_seq).
    eapply loop_one; [exact Hcn|exact Hid|exact Hrep|exact Hfl|]. intros ctx3 c3 called3 Hid3 Han. rewrite cons_middle, app_assoc.
    set (e1 := mk_rtdata _ _ _).
    pose proof (loop_answered exs (S j) ctx3 c3 called3 (failed 0 0 j ++ [e1]) (S (S j)) more Hid3) as Hla.
    rewrite (an_mcall _ _ Han) in Hla. specialize (Hla HF). rewrite length_app, Hfl in Hla. specialize (Hla (Nat.add_1_r j)).
    destruct (loop _ (S j) ctx3 _ _) as [[ctx4 tbl4]| | |]; try done. destruct Hla as (-> & c4 & called4 & Hid4 & Hs4).
    destruct (sent_S _ _ _ _ Han Hs4) as (ws & Hws & Ho). split; [by rewrite timed_S, <- app_assoc|].
    exists c4, ws. split; [apply Hid4|]. split; [apply Hid4|]. split; [|by rewrite Ho, Hout].
    unfold null_messages in Hws. erewrite list_fmap_ext; [exact Hws|]. intros d x _. cbn beta. by rewrite take_after_calls. }
  rewrite Nat2Z.id. cbn [app] in Hloop. rewrite <- replicate_add in Hloop. fold n in Hloop.
  destruct (loop n 0 ctx0 _ 0) as [[ctx tbl]| | |]; try done. cbn [io_ok] in Hloop |- *.
  destruct Hloop as (-> & c & ws & H1 & H2 & H3 & H4). split; [done|]. by exists ctx, c, ws.
Qed.
End nulltest.

(** ** What is printed *)

(** The sum that the loop computes, with exact arithmetic. *)
Lemma process_loop_sum (trate : Q) tbl (d : Z) : forall total,
  Forall (fun rt => replyticks rt - callticks rt = d) tbl ->
  (process_loop trate tbl total).1.*1 = req_id <$> tbl /\
  ((process_loop trate tbl total).2 == total + inject_Z (Z.of_nat (List.length tbl)) * (inject_Z d / trate))%Q.
Proof.
  induction tbl as [|rt tbl IH]; intros total Hd.
  - split; [done|]. cbn. ring.
  - apply Forall_cons in Hd as [Hrt Hd]. cbn [process_loop].
    set (t1 := a_add total _). destruct (IH t1 Hd) as [E1 E2].
    destruct (process_loop trate tbl t1) as [l r]. cbn [fst snd] in E1, E2 |- *. split; [by rewrite !fmap_cons, E1|].
    rewrite E2. unfold t1, ticks_to_usecs_typed. cbn [List.length a_add a_sub a_div a_int rational_arith].
    rewrite Nat2Z.inj_succ. unfold Z.succ. rewrite <- Hrt. unfold Z.sub. rewrite !inject_Z_plus, inject_Z_opp. unfold Qdiv. ring.
Qed.

(** The first call is left out of the sum, but not of the count it is divided by:
    when every other call takes [d] ticks, what is printed as the average of [n]
    calls is too small by the factor [(n - 1) / n]; for a single call it is 0. *)
Theorem average_too_small (trate : Q) n tbl d :
  (0 < n)%nat -> List.length tbl = n -> Forall (fun rt => replyticks rt - callticks rt = d) (drop 1 tbl) ->
  (rp_average (process_rtdata trate (Z.of_nat n) tbl) * inject_Z (Z.of_nat n) ==
   (inject_Z d / trate) * inject_Z (Z.of_nat n - 1))%Q.
Proof.
  intros Hn Hl Hd. unfold process_rtdata. rewrite Nat2Z.id, <- Hl, firstn_all.
  destruct (process_loop_sum trate (drop 1 tbl) d (a_int 0) Hd) as [_ E].
  destruct (process_loop trate (drop 1 tbl) (a_int 0)) as [l r]. cbn [snd rp_average] in E |- *. cbn [a_div a_int rational_arith] in E |- *.
  rewrite E, length_drop, Hl. replace (Z.of_nat (n - 1)) with (Z.of_nat n - 1) by lia.
  set (q := (inject_Z d / trate)%Q). clearbody q. unfold Z.sub. rewrite inject_Z_plus. field.
  change 0%Q with (inject_Z 0). rewrite inject_Z_injective. lia.
Qed.

(** A negative number of calls is too large for [malloc]; the table is not
    checked, but cleared. *)
Lemma alloc_rttable_negative n h : - 2 ^ 31 <= n < 0 -> (alloc_rttable n h).1 = None.
Proof.
  intros Hn. unfold alloc_rttable. assert (E : u64 (24 * u64 n) = 2 ^ 64 + 24 * n).
  { unfold wrap. rewrite Zmult_mod_idemp_r. replace (24 * n) with (2 ^ 64 + 24 * n + (-1) * 2 ^ 64) at 1 by lia.
    rewrite Z_mod_plus_full, Z.mod_small; lia. }
  rewrite E. by rewrite (proj2 (Z.ltb_ge _ _)) by lia.
Qed.
