(* ===== verification/MountTest.v ===== *)
(** * A program on top: [src/tests/clnt_call_mnt.c]

    The other test program of the build uses the RPC client alone: it makes a
    connection to the MOUNT program, sends a MNT call without waiting, waits for
    the reply, and takes the connection down.  What it writes to the terminal is
    left out, but for how often its callback has been run. *)

From S2P Require Import Prelude Xdr XdrRfc NfsTypes NfsSpec NfsXdr NfsXdrCorrect NfsWire GhtIface RpcRecord RpcRecordCorrect RpcClient RpcSend RpcClientCorrect NfsCalls NfsCallsCorrect NfsActor Service ServiceCorrect.

Section program.
Context {P : XdrPrims} {T : Type} `{GT : Ght T callback_info} {X : Type} `{XR : Xdrrec X}.
Context (junk : Z) (xdr_replymsg : list Z -> option (Z * list Z)) (auth : list Z).
Context (xdr_callhdr : Z -> Z -> Z -> option (list Z)) (pub : Z) (room : nat) (net : @network T X).

Definition MOUNT_TEST_CB : Z := 1.

(** The callback prints a line. *)
Definition mount_cb (i : invocation) (printed : nat) : option nat := Some (S printed).

(** What the program has got: the result of the call, how often the callback
    has printed, the connection as it was destroyed, and the heap. *)
Record mounted := mk_mounted {
  mt_stat : Z;
  mt_printed : nat;
  mt_client : clnt T X;
  mt_heap : heap
}.

(** The waiting, and the end. *)
Definition finish (stat : Z) (cl : option (clnt T X)) : outcome (Z * option mounted) :=
  match clnttcp_nb_receive junk xdr_replymsg cl RPC_BLOCKING_WAIT with
  | (Some c, Returns _) =>
      match run_callbacks mount_cb (ct_called (ct_recv c)) 0%nat, clnttcp_nb_destroy (Some c) (ct_heap (ct_recv c)) with
      | Some printed, Some h => Returns (0, Some (mk_mounted stat printed c h))
      | _, _ => Undefined
      end
  | (None, Returns _) => Undefined
  | (_, Waits) => Waits
  | (_, Undefined) => Undefined
  | (_, Spins) => Spins
  end.

(** The exit code, and what came of it if there was a connection.  The connection
    is the program's first: all callbacks are its own. *)
Definition main (getaddrinfo : list Z -> Z * Z) (argv : list (list Z)) : outcome (Z * option mounted) :=
  match argv with
  | _ :: srv :: dir :: _ =>
      let (srv_addr, err) := getaddrinfo srv in
      if negb (err =? 0) then Returns (-1, None)
      else
        match clnttcp_nb_create junk xdr_callhdr (net_sys net) srv_addr MOUNT_PROGRAM MOUNT_V3 RPC_ANYSOCK 0 0
                (net_table net) (net_xdrs net) (net_heap net) with
        | None => Undefined
        | Some cr =>
            match cr_handle cr with
            | None => Returns (-1, None)
            | Some c =>
                match marshal pub room net xdr_dirpath (PTo dir) with
                | None => Undefined
                | Some (bs, ok) =>
                    match clnttcp_nb_call junk xdr_replymsg auth (Some c) (mk_rpc_proc_info MOUNT3_MNT bs ok)
                            (mk_callback_info (Some MOUNT_TEST_CB) 0) RPC_DEFAULT_FLAGS with
                    | (cl, Returns stat) => finish stat cl
                    | (_, Waits) => Waits
                    | (_, Undefined) => Undefined
                    | (_, Spins) => Spins
                    end
                end
            end
        end
  | _ => Returns (0, None)
  end.
End program.

Section mounting.
Context `{HL : XdrLaws} {T : Type} `{GL : GhtLaws T callback_info} {X : Type} `{XL : XdrrecLaws X}.
Context (junk : Z) (xdr_replymsg : list Z -> option (Z * list Z)) (auth : list Z).
Context (xdr_callhdr : Z -> Z -> Z -> option (list Z)) (pub : Z) (room : nat) (net : @network T X).
Context (replymsg_word : forall m xid payload, xdr_replymsg m = Some (xid, payload) -> is_u 32 xid).
Context (callhdr_fits : forall xid prog vers hdr, xdr_callhdr xid prog vers = Some hdr ->
  (4 <= length hdr <= Z.to_nat MCALL_MSG_SIZE)%nat /\ bytes_ok hdr).
Context (table_memory : forall (t : T) x v, ght_ok t -> is_u 32 x ->
  Z.of_nat (length (ght_entries t)) < 2 ^ 31 - 1 -> snd (ght_insert t x v) <> -2).
Implicit Types (c : clnt T X).

(** What is left to read is cut as before. *)
Lemma cuts_after used rest : forall st st' out, cuts st (used ++ rest) -> Feed st (bytes_of used) st' out -> cuts st' rest.
Proof.
  induction used as [|[bs|] used IH]; intros st st' out Hcut HF.
  - by apply feed_nothing in HF as [<- _].
  - destruct Hcut as (st1 & o1 & H1 & Hcut). destruct (feed_split _ _ _ _ _ _ _ H1 HF) as (o2 & H2 & _). exact (IH _ _ _ Hcut H2).
  - exact (IH _ _ _ Hcut HF).
Qed.

(** A call that does not wait, and then a wait for its reply, the only one the
    server sends: the callback is run once, by the one or by the other. *)
Lemma call_then_receive k c rpc cbi bufs rec payload f :
  client_ok k None c (mk_session [] []) -> ct_pendingcalls c = 0 -> callable c (mk_session [] []) rpc cbi ->
  so_reads (ct_sock c) = read_bytes <$> bufs -> brings None bufs rec ->
  xdr_replymsg rec = Some (xid_host (decrement_xid (ct_mcall c)), payload) -> callback cbi = Some f ->
  exists cl r, clnttcp_nb_call junk xdr_replymsg auth (Some c) rpc cbi RPC_DEFAULT_FLAGS = (cl, r) /\
    io_ok r (fun stat => stat = RPC_SUCCESS /\
      exists c2 r2, clnttcp_nb_receive junk xdr_replymsg cl RPC_BLOCKING_WAIT = (Some c2, r2) /\
        io_ok r2 (fun _ => client_ok (k + 1) None c2 (mk_session [] [mk_invocation f (cb_private cbi) payload]) /\
          exists w, framed (message auth (prepared c cbi) rpc) w /\ outgoing c2 = outgoing c ++ w)).
Proof.
  intros Hc Hp Hca Hrs [HF Hcut _] Hdec Hf. rewrite <- Hrs in Hcut.
  destruct (call_ok junk xdr_replymsg replymsg_word auth k None c _ rpc cbi RPC_DEFAULT_FLAGS Hc Hca Hcut) as (c1 & r & -> & Hio).
  eexists _, r. split; [done|]. destruct r as [stat| | |]; try done. cbn [io_ok] in Hio |- *.
  destruct Hio as (-> & (w & Hw & Ho) & used & out & st1 & Hu & HF1 & Hc1 & Hp1). split; [done|].
  assert (Hcut1 : cuts st1 (so_reads (ct_sock c1))) by (rewrite Hu in Hcut; by eapply cuts_after).
  pose proof (receive_ct_ok junk xdr_replymsg replymsg_word _ _ c1 _ RPC_BLOCKING_WAIT Hc1 Hcut1) as Hr2.
  unfold clnttcp_nb_receive, on_handle. destruct (receive_ct junk xdr_replymsg RPC_BLOCKING_WAIT c1) as [c2 r2].
  unfold ends in Hr2. cbn [fst snd] in Hr2. eexists _, r2. split; [done|]. destruct r2 as [n| | |]; try done. cbn [io_ok receives] in Hr2 |- *.
  destruct Hr2 as (used2 & out2 & [Hu2 (st2 & HF2 & _ & Hc2) [_ Ho2]] & -> & _ & Hwhy).
  set (rest := so_reads (ct_sock c2)) in *. pose proof (feed_trans _ _ _ _ _ _ _ HF1 HF2) as HF12.
  assert (Hall : read_bytes <$> bufs = (used ++ used2) ++ rest) by (by rewrite <- Hrs, Hu, Hu2, app_assoc).
  assert (Hbytes : mjoin bufs = (bytes_of used ++ bytes_of used2) ++ bytes_of rest).
  { rewrite <- bytes_of_reads, Hall. unfold bytes_of. by rewrite !fmap_app, !join_app. }
  rewrite Hbytes in HF. destruct (feed_split _ _ _ _ _ _ _ HF12 HF) as (o3 & HF3 & E).
  assert (Hout : out ++ out2 = [rec] /\ o3 = []).
  { destruct (out ++ out2) as [|r1 l] eqn:El; [|injection E as -> E; symmetry in E; by apply app_nil in E as [-> ->]].
    exfalso. apply app_nil in El as [-> ->]. destruct (Hwhy eq_refl) as [Hz|[Hz|[Hz|Hz]]]; [|done| |done].
    - rewrite Hp1, Hp in Hz. cbn in Hz. lia.
    - apply last_Some_elem_of in Hz. assert (Hin : read_nothing ∈ read_bytes <$> bufs) by (rewrite Hall; set_solver).
      by apply list_elem_of_fmap in Hin as (? & ? & _). }
  destruct Hout as [Hout ->]. assert (st2 = None) as ->.
  { destruct st2 as [[got m]|]; [|done]. by inversion HF3. }
  assert (Hlen : (k + length out + length out2 = k + 1)%nat) by (rewrite <- Nat.add_assoc, <- length_app, Hout; done).
  rewrite Hlen, <- foldl_app, Hout in Hc2. cbn [foldl] in Hc2. unfold reply in Hc2. rewrite Hdec in Hc2.
  unfold called in Hc2. cbn in Hc2. rewrite !decide_True in Hc2 by done. cbn in Hc2. rewrite Hf in Hc2. split; [done|].
  exists w. split; [done|]. by rewrite Ho2.
Qed.

(** [C27] The program from its command line to its end, when the server answers its
    call with one record, cut into reads in any way that keeps the header whole: it
    exits with 0; one MNT message for the directory has gone out, under the header
    of the MOUNT program; its callback has been run once, with the private pointer
    it gave; and destroying the connection leaves two of the blocks that were
    taken, the read buffer and the fragment of the reply. *)
Theorem mount_test_ok getaddrinfo prog srv dir args port cr c hdr bufs rec payload :
  getaddrinfo srv = (port, 0) -> network_ok junk net -> w_wf dirpath_w (PTo dir) ->
  (length (w_enc dirpath_w (PTo dir)) <= room)%nat ->
  clnttcp_nb_create junk xdr_callhdr (net_sys net) port MOUNT_PROGRAM MOUNT_V3 RPC_ANYSOCK 0 0 (net_table net)
    (net_xdrs net) (net_heap net) = Some cr -> cr_handle cr = Some c ->
  xdr_callhdr (create_xid (net_sys net)) MOUNT_PROGRAM MOUNT_V3 = Some hdr ->
  so_reads (sys_script (net_sys net)) = read_bytes <$> bufs -> brings None bufs rec ->
  xdr_replymsg rec = Some (xid_host (decrement_xid hdr), payload) ->
  io_ok (main junk xdr_replymsg auth xdr_callhdr pub room net getaddrinfo (prog :: srv :: dir :: args)) (fun '(code, out) =>
    code = 0 /\ exists m w, out = Some m /\ mt_stat m = RPC_SUCCESS /\ mt_printed m = 1%nat /\
      ct_called (ct_recv (mt_client m)) = [mk_invocation MOUNT_TEST_CB 0 payload] /\
      framed (decrement_xid hdr ++ be 4 MOUNT3_MNT ++ auth ++ w_enc dirpath_w (PTo dir)) w /\
      outgoing (mt_client m) = so_sent (sys_script (net_sys net)) ++ w /\
      h_live (mt_heap m) = (h_live (net_heap net) + 2)%nat).
Proof.
  intros Haddr Hnet Hwf Hl Hcr Hc Hhdr Hrs Hb Hdec. pose proof Hnet as [Ht He Hx Hj Hm Hcut Hws].
  destruct (nb_create_ok junk xdr_callhdr callhdr_fits (net_sys net) port MOUNT_PROGRAM MOUNT_V3 RPC_ANYSOCK 0 0
    (net_table net) (net_xdrs net) (net_heap net) Ht He Hx Hj) as (cr' & E & Hok). rewrite Hcr in E. injection E as <-.
  destruct (Hok c Hc) as (Hp & Hs & [Hpos Hpre] & Hsnd & Hcl). specialize (Hcl Hm). rewrite Hhdr in Hpre. injection Hpre as ->.
  unfold main. rewrite Haddr. cbn [negb Z.eqb]. rewrite Hcr, Hc.
  rewrite (marshal_ok pub room net xdr_dirpath dirpath_w) by (done || auto with xdr).
  set (rpc := mk_rpc_proc_info _ _ _). set (cbi := mk_callback_info _ _).
  assert (Hxid : xid_host (decrement_xid (take (ct_mpos c) (ct_mcall c))) = xid_host (decrement_xid (ct_mcall c))).
  { unfold xid_host. rewrite <- take_decrement by done. by rewrite take_take, Nat.min_l. }
  assert (Hca : callable c (mk_session [] []) rpc cbi).
  { pose proof (co_rep _ _ _ _ Hcl) as HR. destruct HR as (_ & Ht1 & Ht2 & _).
    constructor; try done; [by rewrite Hs|cbn; set_solver| |by rewrite Hp].
    apply (ptr_memory table_memory); [done|by apply mcall_word, decrement_ok, Hcl|by rewrite Ht2]. }
  rewrite Hxid in Hdec.
  destruct (call_then_receive _ c rpc cbi bufs rec payload MOUNT_TEST_CB Hcl Hp Hca) as (cl & r & -> & Hio);
    [by rewrite Hs|done|done|done|].
  destruct r as [stat| | |]; try done. cbn [io_ok] in Hio. destruct Hio as (-> & c2 & r2 & Erx & Hio). unfold finish. rewrite Erx.
  destruct r2 as [n| | |]; try done. cbn [io_ok] in Hio. destruct Hio as (Hc2 & w & Hw & Ho).
  rewrite (client_called _ _ _ _ Hc2). cbn [sn_called run_callbacks foldl mbind option_bind mount_cb].
  replace (h_live (net_heap net) + 3 + 1)%nat with (h_live (net_heap net) + 2 + 2)%nat in Hc2 by lia.
  destruct (clnttcp_nb_destroy_spec _ c2 _ Hc2) as (h & -> & Hh). cbn [io_ok]. split; [done|]. eexists _, w.
  split; [done|]. cbn [mt_stat mt_printed mt_client mt_heap]. split; [done|]. split; [done|].
  split; [by rewrite (client_called _ _ _ _ Hc2)|]. split.
  { revert Hw. unfold message. cbn [ct_mpos ct_mcall prepared]. by rewrite <- take_decrement. }
  split; [|rewrite Hh; cbn; lia]. rewrite Ho. unfold outgoing, pending. by rewrite Hsnd, Hs, app_nil_r.
Qed.
End mounting.
