(* ===== verification/TestExamples.v ===== *)
(** * The test programs, run

    [NullTest] with three calls, the first of which finds nobody, and [MountTest]
    with a reply that comes in two pieces. *)

From S2P Require Import Prelude Xdr XdrRfc NfsTypes NfsSpec NfsXdr NfsXdrCorrect NfsWire HashTable GhtIface RpcRecord RpcRecordCorrect RpcClient RpcSend RpcClientCorrect RpcClientExamples NfsCalls NfsCallsCorrect NfsCallsExamples NfsActor Service ServiceCorrect NfsStat Floating Tickrate NullTest NullTestCorrect MountTest.
From Stdlib Require Import SpecFloat QArith String.

#[local] Open Scope Z_scope.
#[local] Open Scope list_scope.
#[local] Existing Instances table_ght table_laws.

(** ** Three calls *)

(** NULL has an empty reply. *)
Definition null_reads : list (list (list Z)) := [[mark (be 4 n1)]; [mark (be 4 n2)]].
Definition null_script : socket :=
  mk_socket (repeat select_ready 8) [write_taken 1000; write_taken 1000] (replies null_reads ++ []) [].
Definition nets_ex (i : nat) : @network table (list Z) := match i with O => net_of (-1) null_script | _ => net_of 4 null_script end.
Definition clock_ex (k : nat) : Z := 5000000 + 200000 * Z.of_nat k.

Definition argv_ex : list string := ["nulltest"; "--server"; "host"; "--requestcount"; "3"]%string.
Definition tickrate_10 : spec_float :=
  Eval vm_compute in match calibrate_tickrate TICKRATE_CALIB_RUNS rounds_ex with Some r => r | None => S754_nan end.

Abbreviation nulltest := (NullTest.main 0 replymsg4 auth_ex callhdr_ex 0 100 nets_ex clock_ex (fun _ => (2049, 0)) rounds_ex argv_ex ample_heap).

(** The table: the first call has no reply; the others take 200000 ticks each. *)
Definition table_of_nulltest : list rtdata :=
  [mk_rtdata 0 5000000 0; mk_rtdata 1 5200000 5400000; mk_rtdata 2 5600000 5800000].

Example three_calls :
  match nulltest with Returns (code, Some (_, tbl, _)) => (code, tbl) | _ => (1, []) end = (0, table_of_nulltest).
Proof. vm_compute. reflexivity. Qed.

(** At 2000 ticks to the microsecond these are 100 microseconds for two calls; the
    average that is printed is that of three. *)
Example printed_average :
  match nulltest with
  | Returns (_, Some (_, _, r)) => (rp_lines r).*1 = [1; 2] /\ truncate (rp_average r) = Some 66
  | _ => False
  end.
Proof. vm_compute. by split. Qed.

Lemma null_sendable x : sendable (be 4 x).
Proof. split; [|rewrite length_be; lia]. intros H. apply (f_equal List.length) in H. by rewrite length_be in H. Qed.

Lemma null_reply_ex x : is_u 32 x -> null_reply replymsg4 x [mark (be 4 x)].
Proof.
  intros Hx. exists (be 4 x), []. split; [apply brings_mark, null_sendable|].
  unfold replymsg4. rewrite decide_True by (rewrite length_be; lia).
  rewrite firstn_all2, drop_ge, unbe_be by (rewrite length_be; lia). change (256 ^ Z.of_nat 4) with (2 ^ 32).
  change (x mod 2 ^ 32) with (u32 x). by rewrite !(wrap_small 32 x) by done.
Qed.

Lemma null_reads_cut : cuts None (replies null_reads ++ []).
Proof. apply (reads_cut [be 4 n1; be 4 n2]). repeat constructor; apply null_sendable. Qed.

Lemma nulltest_ok_witness :
  io_ok nulltest (fun '(exit, out) =>
    exit = 0 /\ exists ctx c ws,
      let tbl := failed clock_ex 0 0 1 ++ timed clock_ex 1 1 2 in
      out = Some (ctx, tbl, process_rtdata tickrate_10 3 tbl) /\
      nfs_cl ctx = Some c /\ ct_pendingcalls c = 0 /\
      Forall2 framed ((fun d => null_message auth_ex (after_calls (S d) nfs_header)) <$> seq 0 2) ws /\
      outgoing c = [] ++ mjoin ws).
Proof.
  apply (nulltest_ok 0 replymsg4 auth_ex callhdr_ex 0 100 replymsg4_word callhdr_ex_fits table_memory_ex nets_ex clock_ex
    (fun _ => (2049, 0)) rounds_ex argv_ex "host" 2049 1 null_reads nfs_header tickrate_10 [] ample_heap).
  - cbn. lia.
  - reflexivity.
  - reflexivity.
  - vm_compute. reflexivity.
  - exact ample_heap_ok.
  - intros d Hd. destruct d as [|d]; [apply net_refuses|lia].
  - apply net_accepts.
  - apply net_of_ok; [cbn; set_solver|exact null_reads_cut].
  - reflexivity.
  - reflexivity.
  - change (xids _ _) with [n1; n2]. repeat constructor; apply null_reply_ex; vm_compute; by split.
  - discriminate.
Defined.

(** ** Mounting *)

(** The server refuses, in two pieces. *)
Definition mount_reply : list Z := be 4 m1 ++ be 4 13.
Definition mount_reads : list (list Z) := [take 9 (mark mount_reply); drop 9 (mark mount_reply)].
Definition mount_script : socket :=
  mk_socket (repeat select_ready 8) [write_taken 1000] (read_bytes <$> mount_reads) [].
Definition mount_argv : list (list Z) := [[99]; [104]; [47; 118]].

Abbreviation mounttest := (MountTest.main 0 replymsg4 auth_ex callhdr_ex 0 100 (net_of 4 mount_script) (fun _ => (635, 0)) mount_argv).

Example one_mount :
  match mounttest with
  | Returns (code, Some m) => (code, mt_stat m, mt_printed m, h_live (mt_heap m))
  | _ => (1, 1, 0%nat, 0%nat)
  end = (0, RPC_SUCCESS, 1%nat, (h_live ample_heap + 2)%nat).
Proof. vm_compute. reflexivity. Qed.

Lemma mount_feed : Feed None (take 9 (mark mount_reply)) (Some (take 5 mount_reply, 8%nat)) [] /\
  Feed (Some (take 5 mount_reply, 8%nat)) (drop 9 (mark mount_reply)) None [mount_reply].
Proof.
  split.
  - pose proof (feed_header 8 (take 5 mount_reply) (Some (take 5 mount_reply, 8%nat)) []) as H. apply H; [lia|lia|].
    apply (feed_part [] 8 (take 5 mount_reply)); [done|apply Nat.ltb_lt; by vm_compute].
  - pose proof (feed_full (take 5 mount_reply) 8 (drop 5 mount_reply) [] None []) as H.
    rewrite app_nil_r, take_drop in H. apply H; [done|by vm_compute|constructor].
Qed.

Lemma mount_brings : brings None mount_reads mount_reply.
Proof.
  destruct mount_feed as [H1 H2]. constructor.
  - exact (feed_trans _ _ _ _ _ _ _ H1 H2).
  - exists (Some (take 5 mount_reply, 8%nat)), []. split; [exact H1|]. by exists None, [mount_reply].
  - by repeat constructor.
Qed.

Lemma mount_cut : cuts None (read_bytes <$> mount_reads).
Proof. apply mount_brings. Qed.

Lemma mount_client : exists cr c, clnttcp_nb_create 0 callhdr_ex (net_sys (net_of 4 mount_script)) 635 MOUNT_PROGRAM MOUNT_V3
  RPC_ANYSOCK 0 0 (Some table_ex) ([] : list Z) ample_heap = Some cr /\ cr_handle cr = Some c.
Proof. eexists _, _. split; reflexivity. Defined.

Lemma mount_test_ok_witness :
  io_ok mounttest (fun '(code, out) =>
    code = 0 /\ exists m w, out = Some m /\ mt_stat m = RPC_SUCCESS /\ mt_printed m = 1%nat /\
      ct_called (ct_recv (mt_client m)) = [mk_invocation MOUNT_TEST_CB 0 (be 4 13)] /\
      framed (decrement_xid mount_header ++ be 4 MOUNT3_MNT ++ auth_ex ++ w_enc dirpath_w (PTo [47; 118])) w /\
      outgoing (mt_client m) = [] ++ w /\ h_live (mt_heap m) = (h_live ample_heap + 2)%nat).
Proof.
  destruct mount_client as (cr & c & Hcr & Hc).
  apply (mount_test_ok 0 replymsg4 auth_ex callhdr_ex 0 100 (net_of 4 mount_script) replymsg4_word callhdr_ex_fits table_memory_ex
    (fun _ => (635, 0)) [99] [104] [47; 118] [] 635 cr c mount_header mount_reads mount_reply (be 4 13)).
  - reflexivity.
  - apply net_of_ok; [cbn; set_solver|exact mount_cut].
  - unfold dirpath_w, string_w. cbn. unfold bytes_ok, is_u. split_and!; first [done|lia|repeat constructor; lia].
  - vm_compute. lia.
  - exact Hcr.
  - exact Hc.
  - reflexivity.
  - reflexivity.
  - exact mount_brings.
  - vm_compute. reflexivity.
Defined.
